(* ===== verification/_CoqProject ===== *)
-Q . S2P
Prelude.v
JsNumber.v
HdWallet.v
Effects.v
Withdraw.v
Federation.v
Minting.v
TestScripts.v
Json.v
Database.v
Api.v
ApiSpec.v
ApiProps.v
ApiTests.v
D1Mock.v
D1MockProps.v
Bridge.v
BridgeProps.v
BridgeTurn.v
BridgeLive.v
BridgePays.v
Browser.v
BridgeWidget.v
BridgeWidgetProps.v
SignetPage.v
SignetProps.v
Proxy.v
Desktop.v
DesktopUi.v
DesktopProps.v
Payout.v
TourRuntime.v
Edge.v
Explorer.v
ExplorerProps.v
TourContent.v
TourBuild.v
TourProps.v
Pdf.v
PdfFigures.v
PdfContent.v
Whitepaper.v
WhitepaperLayout.v
WhitepaperProps.v
