(* ===== verification/Prelude.v ===== *)
(** * Snowside: a verification development

    Snowside is a sidechain of eCash on Avalanche. This development models its
    TypeScript and JavaScript: the federation service that moves value between
    the two chains, the bridge API it polls, the two put together, the bridge's
    pages, the explorer, the desktop app, the tour, the whitepaper's PDF and the code that
    serves the sites. Paths below are relative to src/packages.

    ** The system

    A user asks the API for a deposit. The federation service
    (federation/src/index.ts) polls the API, gives each new deposit a Bitcoin
    address of its HD wallet (wallet.ts), watches that address through Esplora,
    and mints on the sidechain through the NativeMinter precompile what it saw
    confirmed. A user who burns on the sidechain asks for a withdrawal; the
    service checks the burn, builds, signs and broadcasts a Bitcoin transaction
    (withdraw.ts), and reports the result to the API. The API (api/src/index.ts,
    schema.sql) keeps both tables in SQLite and proxies JSON-RPC and Esplora.
    The desktop app (desktop/src), the bridge page (bridge/src/components/
    BridgeWidget.astro) and its page for signet (bridge/src/pages/signet.astro)
    are clients of the API and of the RPC nodes; the explorer (explorer/src) of
    the nodes alone. The tour
    (tour) is a slide deck built into one HTML document with a runtime. The
    whitepaper (web/src/pages/whitepaper.pdf.ts with web/src/data/whitepaper) is
    a PDF drawn call by call with jsPDF when the site is built.

    ** Files

    - [Prelude]: outcomes of code that may throw, strings, sorting, digits, the
      tactics, path segments and the hint database [snow]. [JsNumber]: BigInt,
      doubles with their rounding (checked against the standard library's
      SpecFloat), parseInt, parseFloat and Number. [Effects]: the monad of the
      service, a computation over its state and the trace of its calls, with the
      program logic [keeps] (a predicate on traces holds at every call), [emits]
      (every call added satisfies a predicate) and [runs] (what happens in a
      world that answers). Each query has its own reply type; the world is the
      class [Environment], an arbitrary function of the query and the trace.
    - [HdWallet]: wallet.ts. Bit operations on 32-bit integers, derivation
      paths, addresses and keys.
    - [Withdraw]: withdraw.ts. Amount conversion, UTXO selection, the
      transaction as the list of calls made to the transaction library, and the
      builder.
    - [Federation]: index.ts, function by function, up to [main_loop]; its first
      section of theorems is about traces. [Minting]: calldata, addresses, and
      the life of a single deposit. [TestScripts]: test-mint.ts and
      test-precompile.ts as trees of requests, run against any node.
    - [Json], [Database], [Api]: values and schemas, SQLite tables with their
      column affinities and statements, and every route handler with the
      dispatch of the Worker. [ApiSpec]: the specification the handlers refine,
      a step relation on tables ([db_step], [handle_request_steps]), its
      reachable states and their invariants. [ApiProps]: the API's properties.
      [ApiTests]: the repository's own test suite of the API, run on the model.
      [D1Mock]: the test suite's in-memory D1, which reads SQL with regular
      expressions ([regex], matched as JavaScript does); [D1MockProps]: what it
      answers to the API's statements, beside the reference store.
      [Proxy]: the JSON-RPC and Esplora proxies.
    - [Bridge], [BridgeProps]: the service and the API together. [served]
      relates a trace of the service to the tables the API is left with, by
      rules for a call that is handled, one that is dropped, and the requests of
      others, who lack the token; [together] is the invariant of the pair.
      [deployed] is the composition as a function, the API's handlers being the
      service's environment, and the witnesses run it. [BridgeTurn]: one
      row in a deployment whose calls about it get through ([reached]), through
      the calls of a pass over a listing. [BridgeLive] says what a pass, a turn
      and the loop make of a deposit's row ([assigned], [settled]), [BridgePays]
      of a withdrawal's ([due], [paid]) while a deposit's coins last ([backing]).
    - [Browser]: the part the scripts of web pages share. A page is a record of
      the script's variables, inputs, texts, hidden and disabled elements and
      intervals; a handler is a tree of synchronous changes to the page and of
      waits for answers ([prog], with the monad [js]); a world is a page, the
      handlers that wait, and what was asked. Its logics: [safe], what the rest
      of a waiting handler may still ask and change, with [first] for what it
      asks before its first wait.
    - [BridgeWidget], [BridgeWidgetProps]: the bridge page's script, its events
      ([step]) and the worlds they lead to ([reachable]). [SignetPage],
      [SignetProps]: the signet page's, with the buttons that are shown, and the
      page together with the rows of the API. [Explorer], [ExplorerProps]: the
      dashboard and the search form; the dashboard refines a set of independent
      loads ([dashboard_step]), the form meets the middleware of [Edge].
    - [Desktop]: lib/*.ts, in a monad over the app's stores and their listeners;
      viem's actions are trees of requests run through the app's transport
      ([action], [act]); the polling hook is a step relation. [DesktopUi]: every tab as its handlers and the widgets it
      shows. [DesktopProps]: their properties.
    - [Payout]: the desktop app, the API and the service on one withdrawal: the
      request that a click leaves on record and the Worker's view of its whole
      URL ([api_request]), the row the API makes of it ([click_row]), what it is
      worth to the service, and rows that no turn completes ([stuck]).
    - [TourRuntime]: assets/tour.js as a state machine on browser events, with
      an abstract cursor it refines. [TourContent], [TourBuild]: content.mjs,
      slides.mjs and build-tour.mjs, the whole document included. [TourProps]:
      escaping, slugs, the shipped deck, one build.
    - [Edge]: the Pages middlewares of bridge, explorer and tour, and the tour's
      preview server.
    - [Pdf]: documents as the list of calls made to jsPDF, Numbers with
      fractions as a class ([double_num], [exact_num]), and the writer's monad
      over the calls, the cursor and the page number. [PdfFigures],
      [PdfContent]: the nine figures and the whole text. [Whitepaper]: the
      generator and its endpoint. [WhitepaperLayout]: rules for where texts are
      placed, and each figure's extent. [WhitepaperProps]: page numbers,
      placement, type, the endpoint.

    ** What is shown

    - Federation: every mint is for the confirmed total of a listed deposit,
      every broadcast pays a due withdrawal, every status report follows the
      action it reports, all after a listing that is still fresh (no final
      report on the record was sent since); the loop outlives every failure.
    - The bridge: once a final report of a record is accepted it is never minted
      or paid again, whatever is lost and whatever others request; rows are
      stored as minted or completed only for what the service did; a new deposit
      gets its address, one that is paid is minted and shown as minted, and a due
      withdrawal is paid from a deposit's coins and shown as completed.
    - Bridge page: value moves only on a click and once, one deposit is polled
      at a time; what a first click leaves undone. Signet page: deposits are
      asked for only by a click, once. Explorer: the dashboard shows what the
      node told one load, or an error, however the answers of loads interleave.
    - Withdrawals: selection is sound, minimal and fails only when it must; the
      transaction pays exactly the target, loses only the fee and dust, and has
      each selected output spent and signed under its key; amounts convert within one satoshi, wei amounts exactly.
    - Wallet: regrouping bits and back is the identity; a deposit address is
      that of the key pair which later spends it.
    - API: tables of every reachable database are well formed and rows keep
      their identity; the federation's routes need its token; created and
      patched rows read back exactly; listings and schemas agree; the Esplora
      proxy only reaches its servers.
    - Desktop: settings survive a restart but for an empty API URL, a poller
      never overlaps itself, a burn is not repeated. When its API URL is the
      Worker's origin, an amount with a fraction that it burns is stored and
      paid with what was burned, to within two satoshis; a whole amount is
      burned, stored and never paid. (With the default API URL, which has a
      path, the request reaches no route of the bridge.)
    - Tour: the page is always consistent and moves as a cursor would, links to
      slides work, the layout thresholds are exact, rendered copy opens only the
      allowed tags, and a build contains the files it names.
    - Whitepaper: footers number their pages, texts and figures stay where the
      layout puts them, the endpoint answers every failure. test-mint.ts sends
      at most one transaction, and only one that it has simulated.
    - A last group states defects as theorems about the code as it is (calldata
      that carries its own amount, shared addresses, bridge calls that reach
      Esplora, whole amounts read as wei, a mint repeated when its report is
      lost, a burn paid twice, a withdrawal announced but not submitted, stored
      text that becomes markup, an old address shown for a new deposit, an
      amount that is never shown, searches that lead to no page, pages without a footer, paragraphs in the
      footer's type).

    ** Parameters, bounds and fuel

    Third-party code is a parameter: [HdLibrary] (HDKey, BIP-39, hashes,
    bech32), [BtcLibrary] (transactions), [ViemLibrary] and [ViemUnits], [Zod],
    [Chanfana] and [Sqlite] (with the laws the theorems use, and reference
    instances), [Upstream], [Outside], [Locale], [JsonText], [Pages], [Host],
    [BuildInputs], [Platform] (a class in each page's file), [JsPdf] (page size, text metrics, line breaking,
    output) and [AbiLibrary]. Every theorem with a hypothesis about them has a
    witness at a concrete instance. What SQLite and viem make of a typed numeral
    is a named hypothesis ([numeral_reading]). Fuel appears where the code loops on data:
    the emission loop of [convertBits] takes the number of bits, [to_digits] the
    binary length, the replacement and percent-decoding loops the length of the
    text (lemmas [replace_fuel], [decode_fuel]); [main_loop] takes the number of
    turns, and its theorems hold for every number. Strings are bytes: the code
    applies its string operations to ASCII patterns. Integers are [Z] with the
    32-bit wrap-around of JavaScript's bit operators written out; Numbers that
    can leave 2^53 or be fractions are rounded. The theorems on positions in the
    PDF are in exact arithmetic, with paragraphs broken as jsPDF documents it
    ([greedy_splitting]) and of heights only; those on its pages hold for any. In [served] a
    call that fails on the way was handled by then or never is. Fonts are read
    relative to the working directory.

    ** Not modelled

    What Hono does on its own, but for CORS preflights, HEAD and exceptions
    ([handle_request], [dispatch]); console output of the service, timers' durations, styling and React's
    reconciliation; the other .astro pages, which are static; the vendored PDF
    viewer (web/public/pdfjs, third-party code); Solidity, Go and Rust code, of which only the mint call's ABI is used. *)

From Stdlib Require Import ZArith Lia Ascii String List Bool.
From stdpp Require Import base list strings numbers sorting pretty.

Declare Scope snow_scope.
Delimit Scope snow_scope with snow.
Local Open Scope Z_scope.

(** ** Outcomes of code that may throw *)

(** A JavaScript computation either returns a value or throws. The thrown
    value is only ever logged or turned into a message, so it is a string. *)
Inductive outcome (A : Type) :=
| Ok (a : A)
| Throw (msg : string).
Arguments Ok {A} a.
Arguments Throw {A} msg.

Definition is_ok {A} (o : outcome A) : bool :=
  match o with Ok _ => true | Throw _ => false end.

Definition obind {A B} (o : outcome A) (f : A -> outcome B) : outcome B :=
  match o with Ok a => f a | Throw m => Throw m end.

(** [l.map(f)] for an [f] that may throw. *)
Fixpoint map_outcome {A B} (f : A -> outcome B) (l : list A) : outcome (list B) :=
  match l with
  | [] => Ok []
  | x :: l' => obind (f x) (fun y => obind (map_outcome f l') (fun ys => Ok (y :: ys)))
  end.

Notation "x <-? o ; e" := (obind o (fun x => e))
  (at level 100, o at next level, e at level 200, right associativity) : snow_scope.

(** ** Strings as JavaScript uses them

    Strings are byte sequences; the code's string operations are applied to
    ASCII text (addresses, hexadecimal, decimal numerals, URL paths), where
    bytes and UTF-16 code units coincide. *)

#[global] Arguments String.append : simpl nomatch.

Fixpoint starts_with (p s : string) : bool :=
  match p, s with
  | EmptyString, _ => true
  | String a p', String b s' => Ascii.eqb a b && starts_with p' s'
  | String _ _, EmptyString => false
  end.

Fixpoint includes (p s : string) : bool :=
  starts_with p s ||
  match s with EmptyString => false | String _ s' => includes p s' end.

Fixpoint drop_str (n : nat) (s : string) : string :=
  match n, s with
  | O, _ => s
  | S n', String _ s' => drop_str n' s'
  | S _, EmptyString => EmptyString
  end.

Fixpoint take_str (n : nat) (s : string) : string :=
  match n, s with
  | S n', String c s' => String c (take_str n' s')
  | _, _ => EmptyString
  end.

(** [s.replace(p, r)] with a string pattern: the first occurrence only. *)
Fixpoint replace_first (p r s : string) : string :=
  if starts_with p s then r +:+ drop_str (String.length p) s
  else match s with
       | EmptyString => EmptyString
       | String c s' => String c (replace_first p r s')
       end.

Fixpoint rep_char (c : ascii) (n : nat) : string :=
  match n with O => EmptyString | S n' => String c (rep_char c n') end.

(** [s.padStart(n, c)] *)
Definition pad_start (n : nat) (c : ascii) (s : string) : string :=
  rep_char c (n - String.length s) +:+ s.

Definition ascii_in (lo hi c : ascii) : bool :=
  ((N_of_ascii lo <=? N_of_ascii c) && (N_of_ascii c <=? N_of_ascii hi))%N.

Definition is_digit (c : ascii) : bool := ascii_in "0" "9" c.

Definition lower_char (c : ascii) : ascii :=
  if ascii_in "A" "Z" c then ascii_of_N (N_of_ascii c + 32) else c.

Fixpoint map_str (f : ascii -> ascii) (s : string) : string :=
  match s with EmptyString => EmptyString | String c s' => String (f c) (map_str f s') end.

(** [s.toLowerCase()] *)
Definition to_lower (s : string) : string := map_str lower_char s.

(** Long texts are written with backquotes for their double quotes. *)
Definition backquoted (s : string) : string := map_str (fun c => if Ascii.eqb c "`" then "034"%char else c) s.

Fixpoint all_str (f : ascii -> bool) (s : string) : bool :=
  match s with EmptyString => true | String c s' => f c && all_str f s' end.

Definition is_space (c : ascii) : bool :=
  ascii_in "009" "013" c || Ascii.eqb c " ".

Fixpoint trim_start (s : string) : string :=
  match s with
  | String c s' => if is_space c then trim_start s' else s
  | EmptyString => EmptyString
  end.

Fixpoint rev_str (s acc : string) : string :=
  match s with EmptyString => acc | String c s' => rev_str s' (String c acc) end.

Definition reverse_str (s : string) : string := rev_str s "".

(** [s.trim()] *)
Definition trim (s : string) : string :=
  reverse_str (trim_start (reverse_str (trim_start s))).

(** A string is falsy in JavaScript exactly when it is empty. *)
Definition str_truthy (s : string) : bool := negb (String.eqb s "").

(** [a || b] for two strings. *)
Definition str_or (a b : string) : string := if str_truthy a then a else b.

(** [`${n}`] for an integer [n]: its decimal numeral. *)
Definition dec_str (n : Z) : string := pretty n.

(** [record[key]] for an object literal with the given own properties. *)
Fixpoint rec_get {A} (r : list (string * A)) (k : string) : option A :=
  match r with
  | [] => None
  | (k', a) :: r' => if String.eqb k' k then Some a else rec_get r' k
  end.

Lemma dec_str_inj n m : dec_str n = dec_str m -> n = m.
Proof. apply pretty_Z_inj. Qed.

Lemma app_inj_str p s t : p +:+ s = p +:+ t -> s = t.
Proof. induction p as [|c p IH]; simpl; [done|]. intros [= H]. auto. Qed.

Lemma app_length_str s t :
  String.length (s +:+ t) = (String.length s + String.length t)%nat.
Proof. induction s as [|c s IH]; simpl; [done|]. by rewrite IH. Qed.

Lemma app_nil_r_str s : s +:+ "" = s.
Proof. induction s as [|c s IH]; simpl; [done|]. by rewrite IH. Qed.

Lemma app_assoc_str s t u : (s +:+ t) +:+ u = s +:+ (t +:+ u).
Proof. induction s as [|c s IH]; simpl; [done|]. by rewrite IH. Qed.

Lemma rep_char_length c n : String.length (rep_char c n) = n.
Proof. induction n as [|n IH]; simpl; [done|]. by rewrite IH. Qed.

Lemma pad_start_length n c s :
  (String.length s <= n)%nat -> String.length (pad_start n c s) = n.
Proof. intros. unfold pad_start. rewrite app_length_str, rep_char_length. lia. Qed.

Lemma pad_start_long n c s :
  (n <= String.length s)%nat -> pad_start n c s = s.
Proof.
  intros. unfold pad_start. by replace (n - String.length s)%nat with O by lia.
Qed.

Lemma map_str_length f s : String.length (map_str f s) = String.length s.
Proof. induction s as [|c s IH]; simpl; [done|]. by rewrite IH. Qed.

Lemma map_str_app f s t : map_str f (s +:+ t) = map_str f s +:+ map_str f t.
Proof. induction s as [|c s IH]; simpl; [done|]. by rewrite IH. Qed.

Lemma starts_with_app p s : starts_with p (p +:+ s) = true.
Proof. induction p as [|c p IH]; simpl; [done|]. by rewrite Ascii.eqb_refl. Qed.

Lemma drop_str_app p s : drop_str (String.length p) (p +:+ s) = s.
Proof. by induction p. Qed.

Lemma take_str_app p s : take_str (String.length p) (p +:+ s) = p.
Proof. induction p as [|c p IH]; simpl; [by destruct s|]. by rewrite IH. Qed.

Lemma take_drop_str n s : take_str n s +:+ drop_str n s = s.
Proof.
  revert s. induction n as [|n IH]; intros [|c s]; simpl; try done. by rewrite IH.
Qed.

Lemma replace_first_hit p r s : replace_first p r (p +:+ s) = r +:+ s.
Proof.
  destruct (p +:+ s) as [|c u] eqn:E; cbn [replace_first]; rewrite <-E.
  - by rewrite starts_with_app, drop_str_app.
  - by rewrite starts_with_app, drop_str_app.
Qed.

Lemma starts_with_split p s :
  starts_with p s = true -> s = p +:+ drop_str (String.length p) s.
Proof.
  revert s. induction p as [|a p IH]; intros [|b s]; simpl; try done.
  intros [->%Ascii.eqb_eq H]%andb_prop. by rewrite <-IH.
Qed.

Lemma replace_first_miss p r s : includes p s = false -> replace_first p r s = s.
Proof.
  induction s as [|c s IH]; cbn [includes replace_first].
  - intros [-> _]%orb_false_iff. done.
  - intros [-> H]%orb_false_iff. by rewrite IH.
Qed.

(** *** Path segments *)

(** [s.split('/')] *)
Fixpoint split_slash (s : string) : list string :=
  match s with
  | EmptyString => [""]
  | String c s' =>
      if Ascii.eqb c "/" then "" :: split_slash s'
      else match split_slash s' with
           | [] => [String c ""]
           | x :: l => String c x :: l
           end
  end.

Definition no_slash (s : string) : bool := all_str (fun c => negb (Ascii.eqb c "/")) s.

(** A path segment a route parameter can take. *)
Definition segment (s : string) : bool := str_truthy s && no_slash s.

Lemma segment_inv s : segment s = true -> s <> "" /\ no_slash s = true.
Proof. intros [Ht Hn]%andb_prop. split; [by intros ->|done]. Qed.

Lemma split_plain x : no_slash x = true -> split_slash x = [x].
Proof.
  induction x as [|c x IH]; [done|]. unfold no_slash. cbn [all_str split_slash].
  intros [->%negb_true_iff Hx]%andb_prop. by rewrite IH.
Qed.

Lemma split_cons x s : no_slash x = true -> split_slash (x +:+ String "/" s) = x :: split_slash s.
Proof.
  induction x as [|c x IH]; [done|]. unfold no_slash. cbn [all_str split_slash String.append].
  intros [->%negb_true_iff Hx]%andb_prop. by rewrite IH.
Qed.

Lemma split_slash_app a b : split_slash (a +:+ String "/" b) = split_slash a ++ split_slash b.
Proof.
  induction a as [|c a IH]; [done|]. cbn [String.append split_slash]. rewrite IH.
  destruct (Ascii.eqb c "/"); [done|]. destruct (split_slash a) eqn:E; [|done].
  destruct a as [|c' a]; [done|]. cbn [split_slash] in E. destruct (Ascii.eqb c' "/"); [done|].
  by destruct (split_slash a).
Qed.

(** The host of an absolute URL that has no query, and the segments of its path. *)
Definition url_parts (url : string) : option (string * list string) :=
  match split_slash url with _ :: "" :: host :: segs => Some (host, segs) | _ => None end.

(** [base] is the origin of [host]: a scheme and the host, without a path. *)
Definition is_origin (base host : string) : Prop := exists scheme, split_slash base = [scheme; ""; host].

Lemma origin_parts base host path :
  is_origin base host -> url_parts (base +:+ String "/" path) = Some (host, split_slash path).
Proof. intros [scheme E]. unfold url_parts. by rewrite split_slash_app, E. Qed.

(** A letter or a digit, which a path carries as it is. *)
Definition word_char (c : ascii) : bool := is_digit c || ascii_in "a" "z" c || ascii_in "A" "Z" c.

Lemma word_no_slash s : all_str word_char s = true -> no_slash s = true.
Proof.
  unfold no_slash. induction s as [|c s IH]; [done|]. cbn [all_str]. intros [Hc Hs]%andb_prop.
  rewrite (IH Hs), andb_true_r. destruct (Ascii.eqb_spec c "/") as [->|]; [discriminate Hc|done].
Qed.

Fixpoint join_with (sep : string) (l : list string) : string :=
  match l with
  | [] => ""
  | [x] => x
  | x :: l' => x +:+ sep +:+ join_with sep l'
  end.

(** ** Lists *)

(** [Array.prototype.sort] with a comparator is a stable sort. *)
Fixpoint insert_by {A} (cmp : A -> A -> Z) (x : A) (l : list A) : list A :=
  match l with
  | [] => [x]
  | y :: l' => if cmp x y <=? 0 then x :: l else y :: insert_by cmp x l'
  end.

Definition js_sort {A} (cmp : A -> A -> Z) (l : list A) : list A :=
  foldr (insert_by cmp) [] l.

Definition sumZ (l : list Z) : Z := foldr Z.add 0 l.

Lemma sumZ_app l k : sumZ (l ++ k) = sumZ l + sumZ k.
Proof. induction l as [|x l IH]; simpl; [done|]. unfold sumZ in *. simpl. lia. Qed.

Lemma sumZ_perm l k : l ≡ₚ k -> sumZ l = sumZ k.
Proof. induction 1; unfold sumZ in *; simpl in *; lia. Qed.

Lemma sumZ_nonneg l : Forall (fun x => 0 <= x) l -> 0 <= sumZ l.
Proof. induction 1; unfold sumZ in *; simpl in *; lia. Qed.

Lemma insert_by_perm {A} cmp (x : A) l : insert_by cmp x l ≡ₚ x :: l.
Proof.
  induction l as [|y l IH]; simpl; [done|].
  destruct (cmp x y <=? 0); [done|]. rewrite IH. apply Permutation_swap.
Qed.

Lemma js_sort_perm {A} cmp (l : list A) : js_sort cmp l ≡ₚ l.
Proof.
  induction l as [|x l IH]; simpl; [done|].
  rewrite insert_by_perm. by rewrite IH.
Qed.

Lemma sorted_mono {A} (R R' : A -> A -> Prop) l :
  (forall a b, R a b -> R' a b) -> StronglySorted R l -> StronglySorted R' l.
Proof.
  intros HR. induction 1 as [|x l Hl IH Hx]; constructor; [done|].
  eapply Forall_impl; [done|]. auto.
Qed.

(** With a comparator [b.key - a.key] the result is sorted by decreasing key. *)
Section sort_desc.
Context {A : Type} (key : A -> Z).
Let cmp (a b : A) : Z := key b - key a.

Lemma insert_desc_sorted x l :
  StronglySorted (fun a b => key b <= key a) l ->
  StronglySorted (fun a b => key b <= key a) (insert_by cmp x l).
Proof.
  induction l as [|y l IH]; simpl; intros Hs.
  - by repeat constructor.
  - apply StronglySorted_cons in Hs as [Hy Hl].
    destruct (Z.leb_spec (cmp x y) 0) as [H|H]; unfold cmp in *.
    + repeat constructor; try done; try lia.
      eapply Forall_impl; [done|]. simpl. lia.
    + constructor; [by apply IH|].
      rewrite insert_by_perm. constructor; [lia|done].
Qed.

Lemma js_sort_desc_sorted l :
  StronglySorted (fun a b => key b <= key a) (js_sort cmp l).
Proof.
  induction l as [|x l IH]; simpl; [constructor|]. by apply insert_desc_sorted.
Qed.
End sort_desc.

(** ** Positional digits, shared by byte regrouping and number printing *)

Definition be_val (b : Z) (ds : list Z) : Z := foldl (fun a d => a * b + d) 0 ds.

Lemma be_val_snoc b ds d : be_val b (ds ++ [d]) = be_val b ds * b + d.
Proof. unfold be_val. by rewrite foldl_app. Qed.

Lemma be_val_nonneg b ds :
  0 <= b -> Forall (fun d => 0 <= d) ds -> 0 <= be_val b ds.
Proof.
  intros Hb. induction ds as [|d ds IH] using rev_ind; [done|].
  rewrite Forall_app, Forall_singleton, be_val_snoc. intros [H ?]. specialize (IH H). nia.
Qed.

Lemma be_val_bound b ds :
  1 < b -> Forall (fun d => 0 <= d < b) ds ->
  0 <= be_val b ds < b ^ Z.of_nat (length ds).
Proof.
  intros Hb. induction ds as [|d ds IH] using rev_ind; [intros _; change (0 <= 0 < 1); lia|].
  rewrite Forall_app, Forall_singleton, be_val_snoc. intros [H ?]. specialize (IH H).
  rewrite length_app, Nat2Z.inj_add, Z.pow_add_r by (simpl; lia).
  change (Z.of_nat (length [d])) with 1. rewrite Z.pow_1_r. nia.
Qed.

(** Two digit strings of the same length and value are equal. *)
Lemma be_val_inj b ds es :
  1 < b -> Forall (fun d => 0 <= d < b) ds -> Forall (fun d => 0 <= d < b) es ->
  length ds = length es -> be_val b ds = be_val b es -> ds = es.
Proof.
  intros Hb. revert es. induction ds as [|d ds IH] using rev_ind; intros es Hd He Hl Hv.
  - destruct es; [done|discriminate].
  - destruct es as [|e es _] using rev_ind; [rewrite length_app in Hl; simpl in Hl; lia|].
    rewrite !be_val_snoc in Hv. rewrite !length_app in Hl. simpl in Hl.
    rewrite Forall_app, Forall_singleton in Hd, He. destruct Hd as [Hd ?], He as [He ?].
    destruct (Z.div_mod_unique b (be_val b ds) (be_val b es) d e) as [Hv' ->]; [lia..|].
    rewrite (IH es); auto; lia.
Qed.

(** ** Automation *)

Create HintDb snow.
#[export] Hint Resolve js_sort_perm js_sort_desc_sorted starts_with_app : snow.
Create Rewrite HintDb snow.
#[export] Hint Rewrite app_length_str app_nil_r_str app_assoc_str rep_char_length
  map_str_length map_str_app starts_with_app drop_str_app take_str_app : snow.

(** Case analysis on the boolean tests the code makes. *)
Ltac destruct_if :=
  match goal with
  | |- context [if ?b then _ else _] => destruct b eqn:?
  | H : context [if ?b then _ else _] |- _ => destruct b eqn:?
  end.

Ltac bool_prop :=
  repeat match goal with
  | H : _ && _ = true |- _ => apply andb_prop in H as [? ?]
  | H : _ || _ = false |- _ => apply orb_false_iff in H as [? ?]
  | H : negb _ = true |- _ => apply negb_true_iff in H
  | H : negb _ = false |- _ => apply negb_false_iff in H
  | H : (_ <? _) = true |- _ => apply Z.ltb_lt in H
  | H : (_ <? _) = false |- _ => apply Z.ltb_ge in H
  | H : (_ <=? _) = true |- _ => apply Z.leb_le in H
  | H : (_ <=? _) = false |- _ => apply Z.leb_gt in H
  | H : (_ =? _) = true |- _ => apply Z.eqb_eq in H
  | H : (_ =? _) = false |- _ => apply Z.eqb_neq in H
  | H : String.eqb _ _ = true |- _ => apply String.eqb_eq in H
  | H : String.eqb _ _ = false |- _ => apply String.eqb_neq in H
  end.
