(* ===== verification/JsNumber.v ===== *)
(** * JavaScript numbers

    What the code relies on from the language: BigInt numerals and their
    hexadecimal printing, the rounding of exact values to the 53-bit
    significand of a Number, and [parseFloat]. Integers that stay below
    2^53 are plain [Z]; rounding is written out where a value can leave
    that range (ECX amounts in wei) or is a fraction. *)

From Stdlib Require Import ZArith Lia Ascii String List Bool.
From Stdlib Require Import SpecFloat.
From stdpp Require Import base list strings numbers pretty.
From S2P Require Import Prelude.
Local Open Scope Z_scope.

(** ** Digits *)

Definition digit_val (c : ascii) : option Z :=
  let v := Z.of_N (N_of_ascii c) in
  if ascii_in "0" "9" c then Some (v - 48)
  else if ascii_in "a" "z" c then Some (v - 87)
  else if ascii_in "A" "Z" c then Some (v - 55)
  else None.

(** The digits of [s] in radix [b], or [None] at the first foreign character. *)
Fixpoint digits_of (b : Z) (s : string) : option (list Z) :=
  match s with
  | EmptyString => Some []
  | String c s' =>
      match digit_val c, digits_of b s' with
      | Some d, Some ds => if d <? b then Some (d :: ds) else None
      | _, _ => None
      end
  end.

Definition digit_char (d : Z) : ascii :=
  ascii_of_N (Z.to_N (if d <? 10 then d + 48 else d + 87)).

Fixpoint string_of_digits (ds : list Z) : string :=
  match ds with [] => "" | d :: ds' => String (digit_char d) (string_of_digits ds') end.

Fixpoint to_digits (fuel : nat) (b z : Z) (acc : list Z) : list Z :=
  match fuel with
  | O => acc
  | S fuel' =>
      let acc' := z mod b :: acc in
      if z / b =? 0 then acc' else to_digits fuel' b (z / b) acc'
  end.

(** [z.toString(16)] for a non-negative BigInt: [log2 z + 1] rounds suffice. *)
Definition hex_digits (z : Z) : list Z := to_digits (S (Z.to_nat (Z.log2 z))) 16 z [].
Definition toString16 (z : Z) : string := string_of_digits (hex_digits z).

Lemma to_digits_spec b fuel z a :
  1 < b -> 0 <= z < 2 ^ Z.of_nat fuel -> (0 < fuel)%nat ->
  exists ds, to_digits fuel b z a = ds ++ a /\ be_val b ds = z /\
    Forall (fun d => 0 <= d < b) ds /\ ds <> [] /\
    (forall n, (0 < n)%nat -> z < b ^ Z.of_nat n -> (length ds <= n)%nat).
Proof.
  intros Hb. revert z a. induction fuel as [|fuel IH]; intros z a Hz Hf; [lia|].
  cbn [to_digits]. pose proof (Z.mod_pos_bound z b ltac:(lia)) as Hm.
  pose proof (Z.div_mod z b ltac:(lia)) as Hdm.
  destruct (Z.eqb_spec (z / b) 0) as [E|E].
  - exists [z mod b]. split_and!; [done|unfold be_val; simpl; lia|by apply Forall_singleton|done|simpl; lia].
  - assert (0 <= z / b) by (apply Z.div_pos; lia).
    rewrite Nat2Z.inj_succ, Z.pow_succ_r in Hz by lia.
    assert (z / b < 2 ^ Z.of_nat fuel) by (apply Z.div_lt_upper_bound; nia).
    assert (fuel <> 0)%nat. { intros ->. simpl in *. lia. }
    destruct (IH (z / b) (z mod b :: a)) as (ds & -> & Hv & Hd & Hne & Hlen); [lia|lia|].
    exists (ds ++ [z mod b]). rewrite <-(assoc_L (++)). split_and!; [done|..].
    + rewrite be_val_snoc, Hv. lia.
    + apply Forall_app. split; [done|]. by apply Forall_singleton.
    + by destruct ds.
    + intros n Hn Hlt. rewrite length_app. simpl.
      destruct n as [|[|n]]; [lia| |].
      * change (Z.of_nat 1) with 1 in Hlt. rewrite Z.pow_1_r, Z.div_small in * by lia. lia.
      * assert (length ds <= S n)%nat; [|lia]. apply Hlen; [lia|].
        rewrite (Nat2Z.inj_succ (S n)), Z.pow_succ_r in Hlt by lia.
        apply Z.div_lt_upper_bound; lia.
Qed.

Lemma hex_digits_spec z :
  0 <= z ->
  be_val 16 (hex_digits z) = z /\ Forall (fun d => 0 <= d < 16) (hex_digits z) /\
  (forall n, (0 < n)%nat -> z < 16 ^ Z.of_nat n -> (length (hex_digits z) <= n)%nat).
Proof.
  intros Hz. unfold hex_digits.
  destruct (to_digits_spec 16 (S (Z.to_nat (Z.log2 z))) z []) as (ds & E & Hv & Hd & _ & Hlen);
    [lia| |lia|].
  - split; [done|]. rewrite Nat2Z.inj_succ, Z2Nat.id by apply Z.log2_nonneg.
    destruct (Z.eq_dec z 0) as [->|]; [simpl; lia|]. apply Z.log2_spec. lia.
  - rewrite app_nil_r in E. rewrite E. auto.
Qed.

Lemma digit_char_val d : 0 <= d < 36 -> digit_val (digit_char d) = Some d.
Proof.
  intros Hd. assert (Hin : In d (map Z.of_nat (List.seq 0 36))).
  { apply in_map_iff. exists (Z.to_nat d). split; [lia|]. apply in_seq. lia. }
  clear Hd. simpl in Hin. repeat destruct Hin as [<-|Hin]; done.
Qed.

Lemma digits_of_string b ds :
  b <= 36 -> Forall (fun d => 0 <= d < b) ds -> digits_of b (string_of_digits ds) = Some ds.
Proof.
  intros Hb. induction 1 as [|d ds Hd _ IH]; simpl; [done|].
  rewrite digit_char_val, IH by lia. destruct (Z.ltb_spec d b); [done|lia].
Qed.

Lemma string_of_digits_length ds : String.length (string_of_digits ds) = length ds.
Proof. induction ds as [|d ds IH]; simpl; [done|]. by rewrite IH. Qed.

Lemma digits_of_app b s t ds es :
  digits_of b s = Some ds -> digits_of b t = Some es -> digits_of b (s +:+ t) = Some (ds ++ es).
Proof.
  revert ds. induction s as [|c s IH]; simpl; intros ds Hs Ht; [by simplify_eq|].
  destruct (digit_val c) as [d|], (digits_of b s) as [ds'|]; try done.
  destruct (d <? b) eqn:E; [|done]. injection Hs as <-.
  by rewrite (IH ds' eq_refl Ht).
Qed.

Lemma digits_of_zeros b n : 0 < b -> digits_of b (rep_char "0" n) = Some (repeat 0 n).
Proof.
  intros Hb. induction n as [|n IH]; cbn [rep_char digits_of repeat]; [done|].
  rewrite IH. change (digit_val "0") with (Some 0). cbv beta iota. by rewrite (proj2 (Z.ltb_lt 0 b) Hb).
Qed.

Lemma be_val_zeros b n ds : be_val b (repeat 0 n ++ ds) = be_val b ds.
Proof.
  unfold be_val. rewrite foldl_app. f_equal.
  induction n as [|n IH] using nat_ind; [done|].
  replace (repeat 0 (S n)) with (repeat 0 n ++ [0]) by (symmetry; apply repeat_cons).
  rewrite foldl_app, IH. simpl. lia.
Qed.

(** ** BigInt(string)

    Decimal with an optional sign, or an unsigned 0x/0o/0b numeral; white
    space around it is dropped, an empty numeral is zero, anything else is a
    SyntaxError. *)
Definition BigInt_digits (b : Z) (s : string) : outcome Z :=
  match s, digits_of b s with
  | EmptyString, _ => Throw "SyntaxError"
  | _, Some ds => Ok (be_val b ds)
  | _, None => Throw "SyntaxError"
  end.

Definition BigInt_of_string (str : string) : outcome Z :=
  let s := trim str in
  match s with
  | EmptyString => Ok 0
  | String "-" s' => obind (BigInt_digits 10 s') (fun z => Ok (- z))
  | String "+" s' => BigInt_digits 10 s'
  | String "0" (String c s') =>
      if Ascii.eqb (lower_char c) "x" then BigInt_digits 16 s'
      else if Ascii.eqb (lower_char c) "o" then BigInt_digits 8 s'
      else if Ascii.eqb (lower_char c) "b" then BigInt_digits 2 s'
      else BigInt_digits 10 s
  | _ => BigInt_digits 10 s
  end.

(** ** Numbers *)

(** The Numbers the code can meet once [Math.floor] or [Number(bigint)] has
    produced an integer: finite integers and the three special values. *)
Inductive jsnum := Fin (z : Z) | NaN | PosInf | NegInf.

#[export] Instance jsnum_eq_dec : EqDecision jsnum.
Proof. solve_decision. Defined.

(** Comparisons with NaN are false. *)
Definition num_lt (a b : jsnum) : bool :=
  match a, b with
  | NaN, _ | _, NaN => false
  | Fin x, Fin y => x <? y
  | NegInf, NegInf | PosInf, _ => false
  | NegInf, _ => true
  | Fin _, PosInf => true
  | Fin _, NegInf => false
  end.

Definition num_le (a b : jsnum) : bool :=
  match a, b with
  | NaN, _ | _, NaN => false
  | _, _ => negb (num_lt b a)
  end.

Definition num_add (a b : jsnum) : jsnum :=
  match a, b with
  | NaN, _ | _, NaN | PosInf, NegInf | NegInf, PosInf => NaN
  | PosInf, _ | _, PosInf => PosInf
  | NegInf, _ | _, NegInf => NegInf
  | Fin x, Fin y => Fin (x + y)
  end.

Definition num_neg (a : jsnum) : jsnum :=
  match a with Fin x => Fin (- x) | NaN => NaN | PosInf => NegInf | NegInf => PosInf end.

Definition num_sub (a b : jsnum) : jsnum := num_add a (num_neg b).

(** A Number is falsy when it is zero or NaN. *)
Definition num_truthy (a : jsnum) : bool :=
  match a with NaN => false | Fin z => negb (z =? 0) | _ => true end.

(** *** Rounding to 53 bits *)

(** Nearest integer to [n / d], ties to even. *)
Definition round_half_even (n d : Z) : Z :=
  let q := n / d in
  let r := n mod d in
  match Z.compare (2 * r) d with
  | Lt => q
  | Gt => q + 1
  | Eq => if Z.even q then q else q + 1
  end.

(** A non-negative finite double [man * 2 ^ ex]. *)
Record dbl := Dbl { man : Z; ex : Z }.

Definition scale2 (n d k : Z) : Z * Z :=
  if 0 <=? k then (n, d * 2 ^ k) else (n * 2 ^ (- k), d).

(** The double nearest to [n / d] ([n >= 0], [d > 0]): the exponent is the one
    that gives the significand 53 bits. Exponents are not bounded here: below
    2^-1022 the floor of 10^8 times the value is zero either way, and a value
    of 2^1024 or more is turned into Infinity by [jsnum_of_dbl]. *)
Definition fl (n d : Z) : dbl :=
  if n =? 0 then Dbl 0 0
  else
    let k0 := Z.log2 n - Z.log2 d - 52 in
    let (n0, d0) := scale2 n d k0 in
    let k := if n0 <? d0 * 2 ^ 52 then k0 - 1 else k0 in
    let (n1, d1) := scale2 n d k in
    Dbl (round_half_even n1 d1) k.

(** The exact value of a double, as a numerator and a denominator. *)
Definition dbl_ratio (x : dbl) : Z * Z :=
  if 0 <=? ex x then (man x * 2 ^ ex x, 1) else (man x, 2 ^ (- ex x)).

Definition dbl_mul (x y : dbl) : dbl :=
  let (a, b) := dbl_ratio x in
  let (c, d) := dbl_ratio y in
  fl (a * c) (b * d).

Definition dbl_floor (x : dbl) : Z := let (a, b) := dbl_ratio x in a / b.

Definition overflows (x : dbl) : bool := let (a, b) := dbl_ratio x in b * 2 ^ 1024 <=? a.

(** [Number(z)] for a BigInt [z]. *)
Definition Number_of_BigInt (z : Z) : jsnum :=
  let x := fl (Z.abs z) 1 in
  if overflows x then (if z <? 0 then NegInf else PosInf)
  else Fin (Z.sgn z * dbl_floor x).

(** Agreement with the standard library's IEEE 754 division and product. *)
Definition spec_ratio (n d : positive) : spec_float :=
  SFdiv 53 1024 (S754_finite false n 0) (S754_finite false d 0).

Definition same_float (x : dbl) (f : spec_float) : bool :=
  match f with
  | S754_finite false m e =>
      let (a, b) := dbl_ratio x in
      if 0 <=? e then a =? Z.pos m * 2 ^ e * b else a * 2 ^ (- e) =? Z.pos m * b
  | S754_zero _ => man x =? 0
  | _ => false
  end.

Example fl_agrees :
  forallb (fun '(n, d) => same_float (fl (Zpos n) (Zpos d)) (spec_ratio n d))
    [(29, 100); (1337, 10000); (1, 3); (5, 1); (2, 1000000007); (9007199254740993, 1);
     (123456789012345678901234567890, 7)]%positive = true.
Proof. vm_compute. reflexivity. Qed.

Example mul_agrees :
  same_float (dbl_mul (fl 29 100) (Dbl 100000000 0))
    (SFmul 53 1024 (spec_ratio 29 100) (spec_ratio 100000000 1)) = true.
Proof. vm_compute. reflexivity. Qed.

(** *** Rounding error *)

Lemma round_half_even_error n d : 0 < d -> 2 * Z.abs (round_half_even n d * d - n) <= d.
Proof.
  intros Hd. unfold round_half_even. pose proof (Z.div_mod n d ltac:(lia)).
  pose proof (Z.mod_pos_bound n d Hd).
  destruct (Z.compare_spec (2 * (n mod d)) d); [destruct (Z.even _)| |]; nia.
Qed.

Lemma round_half_even_nonneg n d : 0 <= n -> 0 < d -> 0 <= round_half_even n d.
Proof.
  intros. unfold round_half_even. assert (0 <= n / d) by (apply Z.div_pos; lia).
  destruct (Z.compare _ _); [destruct (Z.even _)| |]; lia.
Qed.

Lemma round_half_even_1 n : round_half_even n 1 = n.
Proof. unfold round_half_even. by rewrite Z.mod_1_r, Z.div_1_r. Qed.

Lemma scale2_pos n d k :
  0 < n -> 0 < d -> 0 < fst (scale2 n d k) /\ 0 < snd (scale2 n d k).
Proof. intros. unfold scale2. destruct (Z.leb_spec 0 k); simpl; split; try lia; nia. Qed.

Lemma scale2_lower n d k :
  0 < n -> 0 < d -> k <= Z.log2 n - Z.log2 d - 53 ->
  snd (scale2 n d k) * 2 ^ 52 <= fst (scale2 n d k).
Proof.
  intros Hn Hd Hk. pose proof (Z.log2_spec n Hn) as [Hln _].
  pose proof (Z.log2_spec d Hd) as [_ Hld]. pose proof (Z.log2_nonneg d).
  pose proof (Z.log2_nonneg n). set (ln := Z.log2 n) in *. set (ld := Z.log2 d) in *.
  unfold scale2. destruct (Z.leb_spec 0 k); simpl.
  - assert (2 ^ Z.succ ld * 2 ^ k * 2 ^ 52 <= 2 ^ ln)
      by (rewrite <-!Z.pow_add_r by lia; apply Z.pow_le_mono_r; lia).
    assert (0 < 2 ^ k) by lia. nia.
  - assert (2 ^ Z.succ ld * 2 ^ 52 <= 2 ^ ln * 2 ^ (- k))
      by (rewrite <-!Z.pow_add_r by lia; apply Z.pow_le_mono_r; lia).
    assert (0 < 2 ^ (- k)) by lia. nia.
Qed.

(** The exponent [fl] chooses, and the bound it gives on the significand. *)
Lemma fl_exponent n d :
  0 < n -> 0 < d -> exists k,
    k <= Z.log2 n - Z.log2 d - 52 /\
    fl n d = Dbl (round_half_even (fst (scale2 n d k)) (snd (scale2 n d k))) k /\
    snd (scale2 n d k) * 2 ^ 52 <= fst (scale2 n d k).
Proof.
  intros Hn Hd. unfold fl. destruct (Z.eqb_spec n 0) as [|_]; [lia|].
  set (k0 := Z.log2 n - Z.log2 d - 52).
  destruct (scale2 n d k0) as [n0 d0] eqn:E0. destruct (Z.ltb_spec n0 (d0 * 2 ^ 52)).
  - exists (k0 - 1). destruct (scale2 n d (k0 - 1)) as [n1 d1] eqn:E1. split_and!; [lia|done|].
    rewrite <-E1. apply scale2_lower; lia.
  - exists k0. rewrite E0. split_and!; [lia|done|simpl; lia].
Qed.

Lemma fl_error n d a b :
  0 < n -> 0 < d -> dbl_ratio (fl n d) = (a, b) ->
  0 <= a /\ 0 < b /\ Z.abs (a * d - n * b) * 2 ^ 53 <= n * b.
Proof.
  intros Hn Hd. destruct (fl_exponent n d Hn Hd) as (k & _ & -> & Hlow).
  destruct (scale2_pos n d k Hn Hd) as [Hn1 Hd1].
  pose proof (round_half_even_error (fst (scale2 n d k)) _ Hd1) as He.
  pose proof (round_half_even_nonneg (fst (scale2 n d k)) _ ltac:(lia) Hd1) as Hm.
  set (m := round_half_even _ _) in *. unfold dbl_ratio, scale2 in *; cbn [man ex].
  destruct (Z.leb_spec 0 k); simpl in *; intros [= <- <-].
  - split_and!; [nia|lia|]. replace (m * 2 ^ k * d - n * 1) with (m * (d * 2 ^ k) - n) by lia. lia.
  - split_and!; [lia|lia|]. lia.
Qed.

(** Integers up to 2^53 are exact. *)
Lemma Number_of_BigInt_exact z : Z.abs z < 2 ^ 53 -> Number_of_BigInt z = Fin z.
Proof.
  intros Hz. unfold Number_of_BigInt.
  destruct (Z.eq_dec z 0) as [->|Hnz]; [done|].
  destruct (fl_exponent (Z.abs z) 1) as (k & Hk & -> & _); [lia..|].
  assert (Hlog : Z.log2 (Z.abs z) < 53) by (apply Z.log2_lt_pow2; lia).
  rewrite Z.log2_1 in Hk. assert (Hratio : exists c, 0 < c /\
    dbl_ratio (Dbl (round_half_even (fst (scale2 (Z.abs z) 1 k)) (snd (scale2 (Z.abs z) 1 k))) k)
      = (Z.abs z * c, c)).
  { unfold scale2, dbl_ratio; cbn [man ex]. destruct (Z.leb_spec 0 k); cbn [fst snd].
    - assert (k = 0) as -> by lia. exists 1. rewrite round_half_even_1. split; [lia|]. f_equal; lia.
    - exists (2 ^ (- k)). rewrite round_half_even_1. split; [lia|done]. }
  destruct Hratio as (c & Hc & Hr). unfold overflows, dbl_floor. rewrite Hr.
  destruct (Z.leb_spec (c * 2 ^ 1024) (Z.abs z * c)).
  - exfalso. assert (2 ^ 53 < 2 ^ 1024) by (apply Z.pow_lt_mono_r; lia). nia.
  - rewrite Z.div_mul by lia. f_equal. lia.
Qed.

(** ** parseFloat

    The longest prefix that is a decimal literal, as an exact fraction;
    [None] for NaN. *)
Inductive parsed := PFrac (neg : bool) (n d : Z) | PInf (neg : bool).

Fixpoint span_digits (s : string) : list Z * string :=
  match s with
  | String c s' =>
      if is_digit c then
        let (ds, r) := span_digits s' in (Z.of_N (N_of_ascii c) - 48 :: ds, r)
      else ([], s)
  | EmptyString => ([], s)
  end.

Definition span_sign (s : string) : bool * string :=
  match s with
  | String "-" s' => (true, s')
  | String "+" s' => (false, s')
  | _ => (false, s)
  end.

(** The exponent part, zero when there is none. *)
Definition span_exponent (s : string) : Z :=
  match s with
  | String c s' =>
      if Ascii.eqb (lower_char c) "e" then
        let (neg, s'') := span_sign s' in
        let (ds, _) := span_digits s'' in
        if neg then - be_val 10 ds else be_val 10 ds
      else 0
  | EmptyString => 0
  end.

(** [parseInt(str, radix)] for a radix up to 16: the longest run of digits; a
    0x prefix is skipped, and sets the radix when none is given. *)
Fixpoint span_radix (b : Z) (s : string) : list Z :=
  match s with
  | String c s' =>
      match digit_val c with Some d => if d <? b then d :: span_radix b s' else [] | None => [] end
  | EmptyString => []
  end.

Definition parseInt (radix : option Z) (str : string) : jsnum :=
  let (neg, s) := span_sign (trim_start str) in
  let hex := starts_with "0x" s || starts_with "0X" s in
  let b := default (if hex then 16 else 10) radix in
  match span_radix b (if hex && (b =? 16) then drop_str 2 s else s) with
  | [] => NaN
  | ds => let n := Number_of_BigInt (be_val b ds) in if neg then num_neg n else n
  end.

Definition parseFloat (str : string) : option parsed :=
  let (neg, s) := span_sign (trim_start str) in
  if starts_with "Infinity" s then Some (PInf neg)
  else
    let (ip, r) := span_digits s in
    let (fp, r') := match r with String "." r1 => span_digits r1 | _ => ([], r) end in
    match ip ++ fp with
    | [] => None
    | ds =>
        let e := span_exponent r' - Z.of_nat (length fp) in
        if 0 <=? e then Some (PFrac neg (be_val 10 ds * 10 ^ e) 1)
        else Some (PFrac neg (be_val 10 ds) (10 ^ (- e)))
    end.

(** [Number(string)]: unlike [parseFloat] the whole text, trimmed, must be a
    numeral; an empty one is zero. *)
Definition exponent_complete (s : string) : bool :=
  match s with
  | EmptyString => true
  | String c s' =>
      if Ascii.eqb (lower_char c) "e" then
        let (_, s'') := span_sign s' in
        match span_digits s'' with (_ :: _, EmptyString) => true | _ => false end
      else false
  end.

Definition decimal_complete (t : string) : bool :=
  let (_, s) := span_sign t in
  if String.eqb s "Infinity" then true
  else
    let (ip, r) := span_digits s in
    let (fp, r') := match r with String "." r1 => span_digits r1 | _ => ([], r) end in
    match ip ++ fp with [] => false | _ => exponent_complete r' end.

Definition Number_parse (str : string) : option parsed :=
  let t := trim str in
  if String.eqb t "" then Some (PFrac false 0 1)
  else match BigInt_of_string t with
       | Ok z => Some (PFrac (z <? 0) (Z.abs z) 1)
       | Throw _ => if decimal_complete t then parseFloat t else None
       end.

(** [Math.floor(parseFloat(s) * c)] for a positive integer constant [c]. *)
Definition floor_scaled (p : option parsed) (c : Z) : jsnum :=
  match p with
  | None => NaN
  | Some (PInf neg) => if neg then NegInf else PosInf
  | Some (PFrac neg n d) =>
      let x := fl n d in
      let y := dbl_mul x (Dbl c 0) in
      if overflows x || overflows y then (if neg then NegInf else PosInf)
      else let (a, b) := dbl_ratio y in
           Fin (if neg then - ((a + b - 1) / b) else a / b)
  end.

(** [Math.floor(parseFloat(s) * 10^8)] is within one unit of the exact product
    for values below 2^50 units. *)
Lemma floor_scaled_error n d c :
  0 < n -> 0 < d -> 0 < c -> n * c < d * 2 ^ 50 ->
  exists r, floor_scaled (Some (PFrac false n d)) c = Fin r /\
    n * c - d < d * (r + 1) /\ d * r < n * c + d.
Proof.
  intros Hn Hd Hc Hbound. unfold floor_scaled, overflows.
  destruct (dbl_ratio (fl n d)) as [a b] eqn:Ex.
  destruct (fl_error n d a b Hn Hd Ex) as (Ha & Hb & Herr).
  assert (Ha0 : 0 < a) by nia.
  assert (Hy : dbl_mul (fl n d) (Dbl c 0) = fl (a * c) b).
  { unfold dbl_mul. rewrite Ex. unfold dbl_ratio; cbn [man ex Z.leb].
    change (0 <=? 0) with true. cbv iota. f_equal; lia. }
  rewrite Hy. destruct (dbl_ratio (fl (a * c) b)) as [p q] eqn:Ey.
  destruct (fl_error (a * c) b p q ltac:(nia) Hb Ey) as (Hp & Hq & Herr').
  (* everything over the common denominator b * d *)
  assert (Hac : a * d <= 2 * n * b) by nia.
  assert (He1 : Z.abs (a * c * d - n * c * b) * 2 ^ 53 <= n * c * b) by nia.
  assert (He2 : Z.abs (p * b - a * c * q) * 2 ^ 53 <= a * c * q) by nia.
  assert (Hfin : Z.abs (p * d - n * c * q) * 2 ^ 51 <= n * c * q).
  { assert (Z.abs (p * d - n * c * q) * b * 2 ^ 53 <= 3 * (n * c * q) * b).
    { assert (Z.abs (p * d - n * c * q) * b <= Z.abs (p * b - a * c * q) * d
        + Z.abs (a * c * d - n * c * b) * q) by nia.
      assert (Z.abs (p * b - a * c * q) * d * 2 ^ 53 <= 2 * (n * c * q) * b) by nia.
      assert (Z.abs (a * c * d - n * c * b) * q * 2 ^ 53 <= n * c * q * b) by nia.
      nia. }
    nia. }
  assert (Hlt : 2 * Z.abs (p * d - n * c * q) < d * q) by nia.
  assert (2 ^ 50 < 2 ^ 1024) by (apply Z.pow_lt_mono_r; lia).
  assert ((b * 2 ^ 1024 <=? a) = false) as ->.
  { apply Z.leb_gt. nia. }
  assert ((q * 2 ^ 1024 <=? p) = false) as ->.
  { apply Z.leb_gt. nia. }
  cbn [orb]. exists (p / q). split; [done|].
  pose proof (Z.div_mod p q ltac:(lia)). pose proof (Z.mod_pos_bound p q Hq).
  split; nia.
Qed.

(** ** Decimal numerals read back *)

Lemma pretty_char_digit n :
  (n < 10)%N -> digit_val (pretty_N_char n) = Some (Z.of_N n) /\ is_digit (pretty_N_char n) = true.
Proof.
  intros Hn. assert (Hin : In n (map N.of_nat (List.seq 0 10))).
  { apply in_map_iff. exists (N.to_nat n). split; [lia|]. apply in_seq. lia. }
  clear Hn. simpl in Hin. repeat destruct Hin as [<-|Hin]; done.
Qed.

Lemma pretty_go_digits n s ds :
  digits_of 10 s = Some ds -> all_str is_digit s = true ->
  exists es, digits_of 10 (pretty_N_go n s) = Some (es ++ ds) /\
    be_val 10 es = Z.of_N n /\ all_str is_digit (pretty_N_go n s) = true.
Proof.
  revert s ds. induction n as [n IH] using (well_founded_induction N.lt_wf_0). intros s ds Hs Hall.
  destruct (decide (0 < n)%N) as [Hn|Hn].
  - rewrite pretty_N_go_step by done.
    assert (Hm : (n mod 10 < 10)%N) by (by apply N.mod_lt).
    destruct (pretty_char_digit _ Hm) as [Hd Hdig].
    destruct (IH (n / 10)%N) with (s := String (pretty_N_char (n mod 10)) s)
      (ds := Z.of_N (n mod 10) :: ds) as (es & He & Hv & Ha).
    + by apply N.div_lt.
    + cbn [digits_of]. rewrite Hd, Hs. destruct (Z.ltb_spec (Z.of_N (n mod 10)) 10); [done|lia].
    + cbn [all_str]. by rewrite Hdig.
    + exists (es ++ [Z.of_N (n mod 10)]). rewrite He, <-(assoc_L (++)). split_and!; [done| |done].
      rewrite be_val_snoc, Hv. pose proof (N.div_mod n 10 ltac:(done)). lia.
  - assert (n = 0%N) as -> by lia. rewrite pretty_N_go_0. by exists [].
Qed.

(** [`${n}`] for a natural [n] is a non-empty numeral with value [n]. *)
Lemma dec_str_digits n :
  0 <= n -> exists ds, digits_of 10 (dec_str n) = Some ds /\ be_val 10 ds = n /\
    all_str is_digit (dec_str n) = true /\ dec_str n <> "".
Proof.
  intros Hn. unfold dec_str. destruct n as [|p|p]; [by exists [0]| |lia].
  change (pretty (Z.pos p)) with (pretty (N.pos p)).
  assert (Hp : pretty (N.pos p) = pretty_N_go (N.pos p) "").
  { unfold pretty, pretty_N. by rewrite decide_False by done. }
  destruct (pretty_go_digits (N.pos p) "" []) as (es & He & Hv & Ha); [done..|].
  rewrite Hp. exists es. rewrite app_nil_r in He. split_and!; [done|done|done|].
  intros E. rewrite E in He. simpl in He. simplify_eq.
Qed.

Lemma rev_str_app s a : rev_str s a = reverse_str s +:+ a.
Proof.
  unfold reverse_str. revert a. induction s as [|c s IH]; intros a; cbn [rev_str]; [done|].
  rewrite (IH (String c a)), (IH (String c "")), app_assoc_str. done.
Qed.

Lemma reverse_str_app s t : reverse_str (s +:+ t) = reverse_str t +:+ reverse_str s.
Proof.
  induction s as [|c s IH]; cbn [String.append]; [by rewrite app_nil_r_str|].
  unfold reverse_str at 1 3. cbn [rev_str]. by rewrite !rev_str_app, IH, app_assoc_str.
Qed.

Lemma reverse_str_involutive s : reverse_str (reverse_str s) = s.
Proof.
  induction s as [|c s IH]; [done|]. change (String c s) with (String c "" +:+ s).
  by rewrite reverse_str_app, reverse_str_app, IH.
Qed.

Lemma all_str_app f s t : all_str f (s +:+ t) = all_str f s && all_str f t.
Proof. induction s as [|c s IH]; simpl; [done|]. by rewrite IH, andb_assoc. Qed.

Lemma all_str_reverse f s : all_str f (reverse_str s) = all_str f s.
Proof.
  induction s as [|c s IH]; [done|]. change (String c s) with (String c "" +:+ s).
  rewrite reverse_str_app, !all_str_app, IH. apply andb_comm.
Qed.

Lemma trim_start_digits s : all_str is_digit s = true -> trim_start s = s.
Proof.
  destruct s as [|c s]; [done|]. cbn [all_str trim_start]. intros [Hc _]%andb_prop.
  unfold is_digit, ascii_in, is_space in *. destruct (Ascii.eqb_spec c " ") as [->|]; [done|].
  apply andb_prop in Hc as [Hc _]. apply N.leb_le in Hc. change (N_of_ascii "0") with 48%N in Hc.
  unfold ascii_in. change (N_of_ascii "013") with 13%N.
  assert ((N_of_ascii c <=? 13)%N = false) as -> by (apply N.leb_gt; lia). by rewrite andb_false_r.
Qed.

Lemma trim_digits s : all_str is_digit s = true -> trim s = s.
Proof.
  intros Hs. unfold trim. rewrite (trim_start_digits s) by done.
  rewrite trim_start_digits by (by rewrite all_str_reverse). apply reverse_str_involutive.
Qed.

Lemma digits_no_dot s : all_str is_digit s = true -> includes "." s = false.
Proof.
  induction s as [|c s IH]; [done|]. cbn [all_str includes starts_with].
  intros [Hc Hs]%andb_prop. rewrite IH by done.
  destruct (Ascii.eqb_spec "." c) as [<-|]; [done|]. done.
Qed.

Lemma BigInt_of_digits s ds :
  all_str is_digit s = true -> s <> "" -> digits_of 10 s = Some ds ->
  BigInt_of_string s = Ok (be_val 10 ds).
Proof.
  intros Hall Hne Hds. unfold BigInt_of_string. rewrite trim_digits by done.
  assert (Hd : BigInt_digits 10 s = Ok (be_val 10 ds)).
  { unfold BigInt_digits. destruct s; [done|]. by rewrite Hds. }
  destruct s as [|c s]; [done|]. cbn [all_str] in Hall. apply andb_prop in Hall as [Hc Hs].
  destruct c as [[] [] [] [] [] [] [] []]; try done.
  destruct s as [|c' s']; [done|].
  cbn [all_str] in Hs. apply andb_prop in Hs as [Hc' _].
  by destruct c' as [[] [] [] [] [] [] [] []].
Qed.

Lemma BigInt_of_dec_str n : 0 <= n -> BigInt_of_string (dec_str n) = Ok n.
Proof.
  intros Hn. destruct (dec_str_digits n Hn) as (ds & Hds & <- & Hall & Hne).
  by apply BigInt_of_digits.
Qed.

Lemma dec_str_no_dot n : 0 <= n -> includes "." (dec_str n) = false /\ str_truthy (dec_str n) = true.
Proof.
  intros Hn. destruct (dec_str_digits n Hn) as (ds & _ & _ & Hall & Hne).
  split; [by apply digits_no_dot|]. unfold str_truthy. by apply negb_true_iff, String.eqb_neq.
Qed.
