(* ===== verification/HdWallet.v ===== *)
(** * HD wallet: packages/federation/src/wallet.ts

    [convertBits] (BIP-173 regrouping on int32 accumulators), the segwit
    address encoder and the three derivation methods of class [HDWallet].
    The BIP-32 tree, the hashes and the bech32 checksum are library code. *)

From Stdlib Require Import ZArith Lia String List Bool.
From stdpp Require Import base list strings numbers.
From S2P Require Import Prelude.
Local Open Scope Z_scope.

(** ** int32 arithmetic *)

(** JavaScript's [<<], [>>], [|] and [&] work on 32-bit two's complement. *)
Definition to_int32 (z : Z) : Z := (z + 2 ^ 31) mod 2 ^ 32 - 2 ^ 31.
Definition shl32 (a n : Z) : Z := to_int32 (Z.shiftl (to_int32 a) n).
Definition shr32 (a n : Z) : Z := Z.shiftr (to_int32 a) n.
Definition or32 (a b : Z) : Z := Z.lor (to_int32 a) (to_int32 b).
Definition and32 (a b : Z) : Z := Z.land (to_int32 a) (to_int32 b).

Lemma to_int32_small z : 0 <= z < 2 ^ 31 -> to_int32 z = z.
Proof. intros. unfold to_int32. rewrite Z.mod_small; lia. Qed.

(** ** convertBits *)

Record bit_state := BitState { acc : Z; bits : Z; ret : list Z }.

(** [while (bits >= toBits) { bits -= toBits; ret.push((acc >> bits) & maxv) }];
    at most [bits] rounds, since [toBits >= 1]. *)
Fixpoint emit (fuel : nat) (toBits maxv : Z) (s : bit_state) : bit_state :=
  match fuel with
  | O => s
  | S fuel' =>
      if toBits <=? bits s then
        let bits' := bits s - toBits in
        emit fuel' toBits maxv
          (BitState (acc s) bits' (ret s ++ [and32 (shr32 (acc s) bits') maxv]))
      else s
  end.

Definition push_group (fromBits toBits maxv maxAcc : Z) (s : bit_state) (value : Z) : bit_state :=
  let acc' := and32 (or32 (shl32 (acc s) fromBits) value) maxAcc in
  let bits' := bits s + fromBits in
  emit (Z.to_nat bits') toBits maxv (BitState acc' bits' (ret s)).

(** Convert byte array from [fromBits]-bit groups to [toBits]-bit groups. *)
Definition convertBits (data : list Z) (fromBits toBits : Z) (pad : bool) : list Z :=
  let maxv := shl32 1 toBits - 1 in
  let maxAcc := shl32 1 (fromBits + toBits - 1) - 1 in
  let s := foldl (push_group fromBits toBits maxv maxAcc) (BitState 0 0 []) data in
  if pad && negb (bits s =? 0)
  then ret s ++ [and32 (shl32 (acc s) (toBits - bits s)) maxv]
  else ret s.

Lemma pow_lt_31 n : 0 <= n <= 30 -> 0 < 2 ^ n < 2 ^ 31.
Proof. intros. split; [lia|]. apply Z.pow_lt_mono_r; lia. Qed.

Lemma and32_mask a n :
  0 <= a < 2 ^ 31 -> 0 <= n <= 30 -> and32 a (2 ^ n - 1) = a mod 2 ^ n.
Proof.
  intros Ha Hn. pose proof (pow_lt_31 n Hn). unfold and32.
  rewrite !to_int32_small by lia.
  replace (2 ^ n - 1) with (Z.ones n) by (rewrite Z.ones_equiv; lia).
  by rewrite Z.land_ones by lia.
Qed.

Lemma shr32_div a n : 0 <= a < 2 ^ 31 -> 0 <= n -> shr32 a n = a / 2 ^ n.
Proof. intros. unfold shr32. by rewrite to_int32_small, Z.shiftr_div_pow2 by lia. Qed.

Lemma shl32_mul a n :
  0 <= a -> 0 <= n -> a * 2 ^ n < 2 ^ 31 -> shl32 a n = a * 2 ^ n.
Proof.
  intros. unfold shl32.
  assert (a <= a * 2 ^ n) by nia.
  rewrite (to_int32_small a), Z.shiftl_mul_pow2 by lia. apply to_int32_small. nia.
Qed.

Lemma or32_add a v n :
  0 <= n -> 0 <= v < 2 ^ n -> 0 <= a -> a * 2 ^ n + v < 2 ^ 31 ->
  or32 (a * 2 ^ n) v = a * 2 ^ n + v.
Proof.
  intros. unfold or32. rewrite !to_int32_small by nia.
  rewrite <-Z.shiftl_mul_pow2 by lia.
  assert (Hd : Z.land (Z.shiftl a n) v = 0).
  { destruct (Z.eq_dec v 0) as [->|Hv0]; [apply Z.land_0_r|].
    apply Z.bits_inj'. intros i Hi. rewrite Z.land_spec, Z.bits_0.
    destruct (Z.lt_ge_cases i n).
    - by rewrite Z.shiftl_spec_low.
    - rewrite (Z.bits_above_log2 v i); [apply andb_false_r|lia|].
      apply Z.log2_lt_pow2; [lia|]. assert (2 ^ n <= 2 ^ i) by (apply Z.pow_le_mono_r; lia). lia. }
  rewrite <-Z.lxor_lor by done. symmetry. by apply Z.add_nocarry_lxor.
Qed.

(** ** What the regrouping loop maintains *)

Section regroup.
Context (f t : Z).
Hypothesis (Hf : 1 <= f) (Ht : 1 <= t) (Hfit : f + t - 1 + f <= 30).

Let maxv := 2 ^ t - 1.
Let maxAcc := 2 ^ (f + t - 1) - 1.

(** State after the groups [p] were pushed, before the inner loop ends. *)
Definition regrouped (p : list Z) (s : bit_state) : Prop :=
  let N := be_val (2 ^ f) p in
  0 <= bits s <= f + t - 1 /\
  acc s = N mod 2 ^ (f + t - 1) /\
  be_val (2 ^ t) (ret s) = N / 2 ^ bits s /\
  Forall (fun d => 0 <= d < 2 ^ t) (ret s) /\
  t * Z.of_nat (length (ret s)) + bits s = f * Z.of_nat (length p).

Lemma emit_step p s :
  regrouped p s -> t <= bits s ->
  regrouped p (BitState (acc s) (bits s - t)
    (ret s ++ [and32 (shr32 (acc s) (bits s - t)) maxv])).
Proof.
  intros (Hb & Ha & Hv & Hd & Hl) Hge. unfold regrouped; cbn [bits acc ret].
  set (N := be_val (2 ^ f) p) in *. set (k := bits s - t).
  assert (Hacc : 0 <= acc s < 2 ^ 31).
  { rewrite Ha. pose proof (pow_lt_31 (f + t - 1)).
    pose proof (Z.mod_pos_bound N (2 ^ (f + t - 1))). lia. }
  assert (Hg : and32 (shr32 (acc s) k) maxv = (N / 2 ^ k) mod 2 ^ t).
  { rewrite shr32_div by lia. unfold maxv. rewrite and32_mask; [|split|lia].
    - rewrite Ha. apply Z.bits_inj'. intros i Hi.
      rewrite <-!Z.land_ones, !Z.land_spec, <-!Z.shiftr_div_pow2, !Z.shiftr_spec, Z.land_spec by lia.
      rewrite !Z.testbit_ones_nonneg by lia.
      destruct (Z.ltb_spec i t); [|by rewrite !andb_false_r].
      destruct (Z.ltb_spec (i + k) (f + t - 1)); [by rewrite !andb_true_r|lia].
    - apply Z.div_pos; lia.
    - apply Z.div_lt_upper_bound; [lia|]. nia. }
  rewrite Hg. split_and!; [lia|lia|done| | |].
  - rewrite be_val_snoc, Hv.
    replace (bits s) with (k + t) by lia. rewrite Z.pow_add_r, <-Z.div_div by lia.
    rewrite (Z.div_mod (N / 2 ^ k) (2 ^ t)) at 3 by lia. lia.
  - apply Forall_app. split; [done|]. apply Forall_singleton, Z.mod_pos_bound. lia.
  - rewrite length_app, Nat2Z.inj_add. change (Z.of_nat (length [_])) with 1. lia.
Qed.

Lemma emit_regrouped fuel p s :
  regrouped p s -> bits s <= Z.of_nat fuel -> 
  regrouped p (emit fuel t maxv s) /\ bits (emit fuel t maxv s) < t.
Proof.
  revert s. induction fuel as [|fuel IH]; intros s Hs Hfuel; simpl.
  - destruct Hs as [? ?]. split; [done|lia].
  - destruct (Z.leb_spec t (bits s)).
    + apply IH; [by apply emit_step|simpl; lia].
    + done.
Qed.

Lemma push_group_regrouped p s v :
  regrouped p s -> bits s < t -> 0 <= v < 2 ^ f ->
  regrouped (p ++ [v]) (push_group f t maxv maxAcc s v) /\
  bits (push_group f t maxv maxAcc s v) < t.
Proof.
  intros (Hb & Ha & Hv & Hd & Hl) Hlt Hrange. unfold push_group.
  set (N := be_val (2 ^ f) p) in *.
  apply emit_regrouped; [|cbn [bits]; lia].
  unfold regrouped; cbn [bits acc ret]. rewrite be_val_snoc. fold N.
  pose proof (Z.mod_pos_bound N (2 ^ (f + t - 1)) ltac:(lia)) as Hm.
  assert (Hsz : (N mod 2 ^ (f + t - 1)) * 2 ^ f + v < 2 ^ 31).
  { assert (2 ^ (f + t - 1) * 2 ^ f <= 2 ^ 30)
      by (rewrite <-Z.pow_add_r by lia; apply Z.pow_le_mono_r; lia). nia. }
  split_and!; [lia|lia| | |done|].
  - rewrite Ha, shl32_mul by nia. rewrite or32_add by nia.
    unfold maxAcc. rewrite and32_mask by nia.
    rewrite Z.add_mod, Z.mul_mod, Z.mod_mod, <-Z.mul_mod, <-Z.add_mod by lia. done.
  - rewrite Hv. rewrite Z.add_comm with (n := bits s), Z.pow_add_r, <-Z.div_div by lia.
    rewrite Z.div_add_l, (Z.div_small v) by lia. by rewrite Z.add_0_r.
  - rewrite length_app, Nat2Z.inj_add. change (Z.of_nat (length [v])) with 1. lia.
Qed.

Lemma fold_regrouped data :
  Forall (fun v => 0 <= v < 2 ^ f) data ->
  let s := foldl (push_group f t maxv maxAcc) (BitState 0 0 []) data in
  regrouped data s /\ bits s < t.
Proof.
  induction data as [|v data IH] using rev_ind; intros Hall s; subst s.
  - split; [|simpl; lia]. unfold regrouped; cbn [foldl bits acc ret].
    change (be_val _ []) with 0. rewrite Z.mod_0_l, Z.div_0_l by lia.
    split_and!; [lia|lia|done|done|constructor|simpl; lia].
  - rewrite Forall_app, Forall_singleton in Hall. destruct Hall as [Hall Hv].
    rewrite foldl_app. cbn [foldl]. destruct (IH Hall). by apply push_group_regrouped.
Qed.
End regroup.

(** Value, digit range and length of a regrouping, with or without padding. *)
Definition pad_bits (f t : Z) (n : Z) : Z := (t - f * n mod t) mod t.

Lemma convertBits_masks f t :
  1 <= f -> 1 <= t -> f + t - 1 + f <= 30 ->
  shl32 1 t - 1 = 2 ^ t - 1 /\ shl32 1 (f + t - 1) - 1 = 2 ^ (f + t - 1) - 1.
Proof.
  intros Hf Ht Hfit. pose proof (pow_lt_31 t). pose proof (pow_lt_31 (f + t - 1)).
  rewrite !shl32_mul by lia. lia.
Qed.

Lemma convertBits_nopad f t data :
  1 <= f -> 1 <= t -> f + t - 1 + f <= 30 ->
  Forall (fun v => 0 <= v < 2 ^ f) data ->
  let out := convertBits data f t false in
  Forall (fun d => 0 <= d < 2 ^ t) out /\
  t * Z.of_nat (length out) + f * Z.of_nat (length data) mod t = f * Z.of_nat (length data) /\
  be_val (2 ^ t) out = be_val (2 ^ f) data / 2 ^ (f * Z.of_nat (length data) mod t).
Proof.
  intros Hf Ht Hfit Hall out. subst out. unfold convertBits.
  destruct (convertBits_masks f t Hf Ht Hfit) as [-> ->].
  destruct (fold_regrouped f t Hf Ht Hfit data Hall) as [(Hb & Ha & Hv & Hd & Hl) Hlt].
  cbn [andb]. set (s := foldl _ _ _) in *.
  assert (Hr : f * Z.of_nat (length data) mod t = bits s).
  { symmetry. apply Z.mod_unique_pos with (q := Z.of_nat (length (ret s))); lia. }
  rewrite Hr. auto with lia.
Qed.

Lemma convertBits_pad f t data :
  1 <= f -> 1 <= t -> f + t - 1 + f <= 30 -> f + 2 * t <= 31 ->
  Forall (fun v => 0 <= v < 2 ^ f) data ->
  let out := convertBits data f t true in
  let p := pad_bits f t (Z.of_nat (length data)) in
  Forall (fun d => 0 <= d < 2 ^ t) out /\
  t * Z.of_nat (length out) = f * Z.of_nat (length data) + p /\
  be_val (2 ^ t) out = be_val (2 ^ f) data * 2 ^ p.
Proof.
  intros Hf Ht Hfit Hsh Hall out p. subst out p. unfold convertBits, pad_bits.
  destruct (convertBits_masks f t Hf Ht Hfit) as [-> ->].
  destruct (fold_regrouped f t Hf Ht Hfit data Hall) as [(Hb & Ha & Hv & Hd & Hl) Hlt].
  set (s := foldl _ _ _) in *. set (N := be_val (2 ^ f) data) in *.
  assert (Hr : f * Z.of_nat (length data) mod t = bits s).
  { symmetry. apply Z.mod_unique_pos with (q := Z.of_nat (length (ret s))); lia. }
  rewrite Hr. cbn [andb]. destruct (Z.eqb_spec (bits s) 0) as [E|E]; cbn [negb].
  - rewrite E, Z.sub_0_r, Z_mod_same_full, Z.pow_0_r. rewrite E in Hv, Hl.
    rewrite Hv, Z.pow_0_r, Z.div_1_r. auto with lia.
  - rewrite (Z.mod_small (t - bits s)) by lia. set (k := t - bits s).
    pose proof (Z.mod_pos_bound N (2 ^ bits s) ltac:(lia)) as Hm.
    assert (Hlow : and32 (shl32 (acc s) k) (2 ^ t - 1) = (N mod 2 ^ bits s) * 2 ^ k).
    { rewrite Ha. pose proof (Z.mod_pos_bound N (2 ^ (f + t - 1)) ltac:(lia)).
      assert (2 ^ (f + t - 1) * 2 ^ k <= 2 ^ 31)
        by (rewrite <-Z.pow_add_r by lia; apply Z.pow_le_mono_r; lia).
      rewrite shl32_mul, and32_mask by nia.
      replace t with (bits s + k) at 2 by lia.
      rewrite Z.pow_add_r, Z.mul_mod_distr_r by lia. f_equal.
      apply Z.mod_mod_divide.
      exists (2 ^ (f + t - 1 - bits s)). rewrite <-Z.pow_add_r by lia. f_equal. lia. }
    rewrite Hlow. split_and!.
    + apply Forall_app. split; [done|]. apply Forall_singleton.
      assert (2 ^ bits s * 2 ^ k = 2 ^ t) by (rewrite <-Z.pow_add_r by lia; f_equal; lia). nia.
    + rewrite length_app, Nat2Z.inj_add. change (Z.of_nat (length [_])) with 1. lia.
    + rewrite be_val_snoc, Hv. rewrite (Z.div_mod N (2 ^ bits s)) at 3 by lia.
      replace t with (bits s + k) by lia. rewrite Z.pow_add_r by lia. lia.
Qed.

(** ** Addresses and keys *)

(** The libraries the wallet calls: @scure/bip32, @scure/bip39, node:crypto
    and @scure/base. [derive] and the encoders may throw. *)
Class HdLibrary := {
  HDKey : Type;
  mnemonicToSeedSync : string -> outcome (list Z);
  fromMasterSeed : list Z -> outcome HDKey;
  derive : HDKey -> string -> outcome HDKey;
  key_public : HDKey -> option (list Z);
  key_private : HDKey -> option (list Z);
  sha256 : list Z -> list Z;
  ripemd160 : list Z -> list Z;
  bech32_encode : string -> list Z -> outcome string
}.

Section wallet.
Context `{HdLibrary}.
Local Open Scope snow_scope.

(** SHA256 then RIPEMD160. *)
Definition hash160 (pubkey : list Z) : list Z :=
  let sha := sha256 pubkey in ripemd160 sha.

Definition encodeSegwitAddress (hrp : string) (version : Z) (program : list Z) : outcome string :=
  bech32_encode hrp (version :: convertBits program 8 5 true).

Definition DERIVATION_PATHS : list (string * string) :=
  [("mainnet", "m/84'/0'/0'/0/"); ("testnet", "m/84'/0'/0'/0/"); ("signet", "m/44'/1'/0'/0/")].

Record HDWallet := { master : HDKey }.

Definition new_HDWallet (mnemonic : string) : outcome HDWallet :=
  seed <-? mnemonicToSeedSync mnemonic;
  m <-? fromMasterSeed seed;
  Ok {| master := m |}.

Definition deriveDepositAddress (w : HDWallet) (network : string) (index : Z) : outcome string :=
  match rec_get DERIVATION_PATHS network with
  | None => Throw ("Unknown network: " +:+ network)
  | Some basePath =>
      child <-? derive (master w) (basePath +:+ dec_str index);
      match key_public child with
      | None => Throw "Failed to derive public key"
      | Some pub =>
          let pubKeyHash := hash160 pub in
          if String.eqb network "signet"
          then encodeSegwitAddress "tb" 0 pubKeyHash
          else encodeSegwitAddress "bc" 0 pubKeyHash
      end
  end.

Definition derivePrivateKey (w : HDWallet) (network : string) (index : Z)
  : outcome (option (list Z)) :=
  match rec_get DERIVATION_PATHS network with
  | None => Throw ("Unknown network: " +:+ network)
  | Some basePath =>
      child <-? derive (master w) (basePath +:+ dec_str index);
      Ok (key_private child)
  end.

Record KeyPair := { kp_private : list Z; kp_public : list Z; kp_pubkeyHash : list Z }.

Definition deriveKeyPair (w : HDWallet) (network : string) (index : Z)
  : outcome (option KeyPair) :=
  match rec_get DERIVATION_PATHS network with
  | None => Throw ("Unknown network: " +:+ network)
  | Some basePath =>
      child <-? derive (master w) (basePath +:+ dec_str index);
      match key_private child, key_public child with
      | Some priv, Some pub =>
          Ok (Some {| kp_private := priv; kp_public := pub; kp_pubkeyHash := hash160 pub |})
      | _, _ => Ok None
      end
  end.
End wallet.

(** The human-readable part [deriveDepositAddress] puts in an address. *)
Definition address_hrp (network : string) : string :=
  if String.eqb network "signet" then "tb" else "bc".

(** A deterministic stand-in for the libraries, used to run the wallet. *)
Definition toy_library : HdLibrary := {|
  HDKey := list Z;
  mnemonicToSeedSync m := if str_truthy m then Ok [Z.of_nat (String.length m)] else Throw "mnemonic";
  fromMasterSeed s := Ok s;
  derive k path := Ok (k ++ [Z.of_nat (String.length path) mod 256]);
  key_public k := Some k;
  key_private k := Some (0 :: k);
  sha256 l := l;
  ripemd160 l := take 20 (l ++ repeat 0 20);
  bech32_encode hrp data := Ok (foldl (fun s d => s +:+ "," +:+ dec_str d) hrp data)
|}.

(** ** Properties *)

(** C20. Regrouping bytes into 5-bit groups with padding and back without it
    returns the bytes: no bit of the program is lost or reordered by the int32
    accumulator, whatever the length. *)
Theorem convertBits_roundtrip data :
  Forall (fun v => 0 <= v < 2 ^ 8) data ->
  convertBits (convertBits data 8 5 true) 5 8 false = data.
Proof.
  intros Hall.
  destruct (convertBits_pad 8 5 data) as (Hd & Hl & Hv); [lia..|done|].
  set (out := convertBits data 8 5 true) in *.
  destruct (convertBits_nopad 5 8 out) as (Hd' & Hl' & Hv'); [lia..|done|].
  pose proof (Z.mod_pos_bound (8 * Z.of_nat (length data)) 5 ltac:(lia)).
  unfold pad_bits in *. set (p := (5 - _) mod 5) in *.
  assert (Hp : 0 <= p < 5) by (apply Z.mod_pos_bound; lia).
  assert (Hr : 5 * Z.of_nat (length out) mod 8 = p).
  { symmetry. apply Z.mod_unique_pos with (q := Z.of_nat (length data)); lia. }
  rewrite Hr in *.
  apply (be_val_inj (2 ^ 8)); [lia|done|done|lia|].
  rewrite Hv', Hv. apply Z.div_mul. lia.
Qed.

Lemma convertBits_roundtrip_witness :
  Forall (fun v => 0 <= v < 2 ^ 8) [255; 0; 129] /\
  convertBits (convertBits [255; 0; 129] 8 5 true) 5 8 false = [255; 0; 129].
Proof.
  split; [repeat constructor; lia|]. apply convertBits_roundtrip. repeat constructor; lia.
Defined.

(** C22. A deposit address is spendable by the key the withdrawal builder
    derives: whenever [deriveKeyPair] yields a key pair for (network, index),
    [deriveDepositAddress] is the P2WPKH address of that pair's public key
    hash, and [derivePrivateKey] is that pair's private key. *)
Theorem deposit_address_of_keypair `{HdLibrary} (w : HDWallet) network index kp :
  deriveKeyPair w network index = Ok (Some kp) ->
  deriveDepositAddress w network index =
    encodeSegwitAddress (address_hrp network) 0 (kp_pubkeyHash kp) /\
  kp_pubkeyHash kp = hash160 (kp_public kp) /\
  derivePrivateKey w network index = Ok (Some (kp_private kp)).
Proof.
  unfold deriveKeyPair, deriveDepositAddress, derivePrivateKey, address_hrp.
  destruct (rec_get DERIVATION_PATHS network) as [bp|]; [|done].
  destruct (derive (master w) (bp +:+ dec_str index)) as [child|]; [|done]. simpl.
  destruct (key_private child) as [priv|]; [|done].
  destruct (key_public child) as [pub|]; [|done].
  intros [= <-]. by destruct (String.eqb network "signet").
Qed.

Lemma deposit_address_of_keypair_witness :
  let w := @Build_HDWallet toy_library [7] in
  exists kp, @deriveKeyPair toy_library w "signet" 42 = Ok (Some kp) /\
         @deriveDepositAddress toy_library w "signet" 42 =
           @encodeSegwitAddress toy_library "tb" 0 (kp_pubkeyHash kp).
Proof.
  eexists. split; [reflexivity|].
  apply (@deposit_address_of_keypair toy_library (@Build_HDWallet toy_library [7]) "signet" 42).
  reflexivity.
Defined.
