(* ===== verification/Effects.v ===== *)
(** * Effects of the federation service

    Everything the service asks of the outside world is a [query]: the clock,
    the Esplora servers, the Snowside API, the L2 nodes. A run threads the
    trace of queries and replies; the environment answers each query as a
    function of the whole trace so far, so a theorem that holds for every
    environment holds for every server behaviour, failures included. *)

From Stdlib Require Import ZArith Lia String List Bool Eqdep_dec.
From stdpp Require Import base list strings numbers.
From S2P Require Import Prelude.
Local Open Scope Z_scope.

(** Result of a [fetch]: it throws, or yields a status and a body; a [None]
    body is one that [resp.json()] or [resp.text()] throws on. *)
Inductive http (A : Type) :=
| NetErr (msg : string)
| Resp (status : Z) (body : option A).
Arguments NetErr {A} msg.
Arguments Resp {A} status body.

(** [resp.ok] *)
Definition resp_ok (status : Z) : bool := (200 <=? status) && (status <=? 299).

(** One unspent output in an Esplora reply; every field may be missing. *)
Record esplora_utxo := EsploraUtxo {
  eu_txid : option string;
  eu_vout : option Z;
  eu_value : option Z;
  eu_confirmed : option bool;
  eu_block_height : option Z;
  eu_scriptPubKey : option string;
  eu_scriptpubkey : option string
}.

(** A field of a federation API record, as [resp.json()] yields it or as
    [JSON.stringify] sends it. A number that is not an integer is given by its
    [String(_)] rendering. *)
Inductive field := FNull | FInt (z : Z) | FFrac (repr : string) | FStr (s : string).

#[export] Instance field_eq_dec : EqDecision field.
Proof. solve_decision. Defined.

Definition record := list (string * field).

(** [r.k], a missing key being as good as [null] for this code. *)
Definition fget (r : record) (k : string) : field := default FNull (rec_get r k).

(** Typed reads through the (unchecked) TypeScript casts. *)
Definition fget_str (r : record) (k : string) : option string :=
  match fget r k with FStr s => Some s | _ => None end.
Definition fget_int (r : record) (k : string) : option Z :=
  match fget r k with FInt z => Some z | _ => None end.

Inductive query :=
| QNow
| QTip (esploraUrl : string)
| QUtxo (esploraUrl address : string)
| QBroadcast (esploraUrl rawHex : string)
| QApiGet (path auth : string)
| QApiPatch (path auth : string) (body : record)
| QApiPost (path auth : string)
| QSendTx (network to data : string)
| QReceipt (network hash : string)
| QGetTx (network hash : string).

(** The text of a tip reply is given as [Number(text) || 0]; a UTXO reply that
    is not an array is [inl tt]. The L2 client throws
    ([Throw]) or answers; a receipt carries [status === 'success']; a
    transaction lookup carries whether one was found. *)
Definition reply (q : query) : Type :=
  match q with
  | QNow => Z
  | QTip _ => http Z
  | QUtxo _ _ => http (unit + list esplora_utxo)
  | QBroadcast _ _ => http string
  | QApiGet _ _ => http (list record)
  | QApiPatch _ _ _ => http unit
  | QApiPost _ _ => http unit
  | QSendTx _ _ _ => outcome string
  | QReceipt _ _ => outcome bool
  | QGetTx _ _ => outcome bool
  end.

Record event := Ev { ev_query : query; ev_reply : reply ev_query }.

#[export] Instance query_eq_dec : EqDecision query.
Proof. solve_decision. Defined.

Lemma ev_inj q r r' : Ev q r = Ev q r' -> r = r'.
Proof.
  intros H. apply (f_equal (fun e => existT (ev_query e) (ev_reply e))) in H. cbn in H.
  apply Eqdep_dec.inj_pair2_eq_dec in H; [done|]. intros x y. destruct (decide (x = y)); auto.
Qed.

(** Newest event first. *)
Definition trace := list event.

Class Environment := respond : forall q : query, trace -> reply q.

(** ** The effect monad: state, trace, exceptions *)

Section monad.
Context {S : Type} `{Environment}.

Definition M (A : Type) : Type := S -> trace -> outcome A * S * trace.

Definition mret {A} (a : A) : M A := fun s t => (Ok a, s, t).
Definition mthrow {A} (m : string) : M A := fun s t => (Throw m, s, t).

Definition mbind {A B} (c : M A) (f : A -> M B) : M B := fun s t =>
  match c s t with
  | (Ok a, s', t') => f a s' t'
  | (Throw m, s', t') => (Throw m, s', t')
  end.

(** [try { c } catch (err) { h }] *)
Definition mtry {A} (c : M A) (h : string -> M A) : M A := fun s t =>
  match c s t with
  | (Ok a, s', t') => (Ok a, s', t')
  | (Throw m, s', t') => h m s' t'
  end.

Definition ask (q : query) : M (reply q) := fun s t =>
  let r := respond q t in (Ok r, s, Ev q r :: t).

Definition mget : M S := fun s t => (Ok s, s, t).
Definition mput (s' : S) : M unit := fun _ t => (Ok tt, s', t).

Definition mlift {A} (o : outcome A) : M A := fun s t => (o, s, t).

(** [for (const x of xs) body(x)]: an exception ends the loop. *)
Fixpoint mfor {A} (xs : list A) (body : A -> M unit) : M unit :=
  match xs with
  | [] => mret tt
  | x :: xs' => mbind (body x) (fun _ => mfor xs' body)
  end.
End monad.
#[global] Arguments M S A : clear implicits.

Declare Scope eff_scope.
Delimit Scope eff_scope with eff.
Notation "x <- c ;; k" := (mbind c (fun x => k))
  (at level 100, c at next level, right associativity) : eff_scope.
Notation "c ;; k" := (mbind c (fun _ => k))
  (at level 100, right associativity) : eff_scope.

(** ** Reasoning about runs *)

(** [runs c s t P]: running [c] from [s] and [t] ends in an outcome, a state
    and a trace that satisfy [P]. *)
Definition runs {S A} (c : M S A) (s : S) (t : trace)
    (P : outcome A -> S -> trace -> Prop) : Prop :=
  let '(o, s', t') := c s t in P o s' t'.

Section runs_rules.
Context {S : Type} `{Environment}.

Lemma runs_mono {A} (c : M S A) s t (P Q : outcome A -> S -> trace -> Prop) :
  runs c s t P -> (forall o s' t', P o s' t' -> Q o s' t') -> runs c s t Q.
Proof. unfold runs. destruct (c s t) as [[??]?]. auto. Qed.

Lemma runs_bind {A B} (c : M S A) (f : A -> M S B) s t P :
  runs c s t (fun o s' t' =>
    match o with Ok a => runs (f a) s' t' P | Throw m => P (Throw m) s' t' end) ->
  runs (mbind c f) s t P.
Proof. unfold runs, mbind. destruct (c s t) as [[[a|m] s'] t']; auto. Qed.

Lemma runs_try {A} (c : M S A) h s t P :
  runs c s t (fun o s' t' =>
    match o with Ok a => P (Ok a) s' t' | Throw m => runs (h m) s' t' P end) ->
  runs (mtry c h) s t P.
Proof. unfold runs, mtry. destruct (c s t) as [[[a|m] s'] t']; auto. Qed.

Lemma runs_ret {A} (a : A) s t (P : outcome A -> S -> trace -> Prop) :
  P (Ok a) s t -> runs (mret a) s t P.
Proof. done. Qed.

Lemma runs_throw {A} m s t (P : outcome A -> S -> trace -> Prop) :
  P (Throw m) s t -> runs (mthrow m) s t P.
Proof. done. Qed.

Lemma runs_lift {A} (o : outcome A) s t (P : outcome A -> S -> trace -> Prop) :
  P o s t -> runs (mlift o) s t P.
Proof. done. Qed.

Lemma runs_ask q s t (P : outcome (reply q) -> S -> trace -> Prop) :
  (forall r, P (Ok r) s (Ev q r :: t)) -> runs (ask q) s t P.
Proof. intros HP. apply HP. Qed.

Lemma runs_for {A} (xs : list A) (body : A -> M S unit) (I : S -> trace -> Prop)
    (E : string -> S -> trace -> Prop) s t :
  I s t ->
  (forall x s' t', In x xs -> I s' t' ->
    runs (body x) s' t' (fun o s'' t'' =>
      match o with Ok _ => I s'' t'' | Throw m => E m s'' t'' end)) ->
  runs (mfor xs body) s t (fun o s' t' =>
    match o with Ok _ => I s' t' | Throw m => E m s' t' end).
Proof.
  revert s t. induction xs as [|x xs IH]; intros s t HI Hbody; [done|].
  cbn [mfor]. apply runs_bind. eapply runs_mono; [apply Hbody; [by left|done]|].
  intros [u|m] s' t' Hx; [|done]. apply IH; [done|]. intros. apply Hbody; [by right|done].
Qed.
End runs_rules.

#[export] Hint Resolve runs_ret runs_throw runs_lift : snow.

(** The trace only grows. *)
Definition extends (t t' : trace) : Prop := exists new, t' = new ++ t.

#[export] Instance extends_preorder : PreOrder extends.
Proof.
  split; [by exists []|]. intros a b c [l ->] [k ->]. exists (k ++ l). by rewrite app_assoc.
Qed.

(** Step through a run: one rule per construct of the monad. *)
Ltac run_step :=
  match goal with
  | |- runs (mbind _ _) _ _ _ => apply runs_bind
  | |- runs (mtry _ _) _ _ _ => apply runs_try
  | |- runs (mret _) _ _ _ => apply runs_ret
  | |- runs (mthrow _) _ _ _ => apply runs_throw
  | |- runs (mlift _) _ _ _ => apply runs_lift
  | |- runs (ask _) _ _ _ => apply runs_ask; intros ?
  | |- runs (if ?b then _ else _) _ _ _ => destruct b eqn:?
  | |- runs (match ?x with _ => _ end) _ _ _ => destruct x eqn:?
  end; cbv beta iota.

(** ** Justified traces

    [trace_ok P t]: every event of [t] satisfies [P] of the events before it.
    [keeps P c s t Q]: running [c] after a justified trace extends it to a
    justified trace and ends in [Q]. *)

Fixpoint trace_ok (P : event -> trace -> Prop) (t : trace) : Prop :=
  match t with
  | [] => True
  | e :: before => P e before /\ trace_ok P before
  end.

Definition keeps {S A} (P : event -> trace -> Prop) (c : M S A) (s : S) (t : trace)
    (Q : outcome A -> S -> trace -> Prop) : Prop :=
  trace_ok P t -> runs c s t (fun o s' t' => extends t t' /\ trace_ok P t' /\ Q o s' t').

Definition anything {S A} (_ : outcome A) (_ : S) (_ : trace) : Prop := True.

Lemma extends_in t t' e : extends t t' -> In e t -> In e t'.
Proof. intros [new ->] Hin. apply in_app_iff. by right. Qed.

Lemma extends_cons e t : extends t (e :: t).
Proof. by exists [e]. Qed.

#[export] Hint Resolve extends_cons extends_in : snow.
#[export] Hint Extern 1 (extends ?t ?t) => reflexivity : snow.
#[export] Hint Extern 1 (In ?e (?e :: _)) => left; reflexivity : snow.

(** An event found anywhere in a justified trace was justified by an earlier
    part of it. *)
Lemma trace_ok_split P after e before :
  trace_ok P (after ++ e :: before) -> P e before.
Proof. induction after as [|x after IH]; simpl; intros [? ?]; auto. Qed.

Lemma trace_ok_suffix P after t : trace_ok P (after ++ t) -> trace_ok P t.
Proof. induction after as [|x after IH]; simpl; intros; naive_solver. Qed.

Section keeps_rules.
Context {S : Type} `{Environment} (P : event -> trace -> Prop).

Lemma keeps_mono {A} (c : M S A) s t (Q R : outcome A -> S -> trace -> Prop) :
  keeps P c s t Q ->
  (forall o s' t', extends t t' -> trace_ok P t' -> Q o s' t' -> R o s' t') ->
  keeps P c s t R.
Proof.
  intros Hc HR Ht. eapply runs_mono; [by apply Hc|]. naive_solver.
Qed.

Lemma keeps_bind {A B} (c : M S A) (f : A -> M S B) s t (Q : outcome A -> S -> trace -> Prop) R :
  keeps P c s t Q ->
  (forall a s' t', extends t t' -> Q (Ok a) s' t' -> keeps P (f a) s' t' R) ->
  (forall m s' t', extends t t' -> Q (Throw m) s' t' -> R (Throw m) s' t') ->
  keeps P (mbind c f) s t R.
Proof.
  intros Hc Hf Hm Ht. apply runs_bind. eapply runs_mono; [by apply Hc|].
  intros [a|m] s' t' (Hext & Hok & HQ); [|by auto].
  eapply runs_mono; [by apply (Hf a s' t')|].
  intros o s'' t'' (Hext' & Hok' & HR). split_and!; [by transitivity t'|done|done].
Qed.

Lemma keeps_try {A} (c : M S A) h s t (Q : outcome A -> S -> trace -> Prop) R :
  keeps P c s t Q ->
  (forall a s' t', extends t t' -> Q (Ok a) s' t' -> R (Ok a) s' t') ->
  (forall m s' t', extends t t' -> Q (Throw m) s' t' -> keeps P (h m) s' t' R) ->
  keeps P (mtry c h) s t R.
Proof.
  intros Hc Ha Hm Ht. apply runs_try. eapply runs_mono; [by apply Hc|].
  intros [a|m] s' t' (Hext & Hok & HQ); [by auto|].
  eapply runs_mono; [by apply (Hm m s' t')|].
  intros o s'' t'' (Hext' & Hok' & HR). split_and!; [by transitivity t'|done|done].
Qed.

(** [try { c } catch { h }] when both ends are to establish [Q]. *)
Lemma keeps_try_same {A} (c : M S A) h s t (Q : outcome A -> S -> trace -> Prop) :
  keeps P c s t (fun o s' t' => match o with Ok _ => Q o s' t' | Throw _ => True end) ->
  (forall m s' t', extends t t' -> keeps P (h m) s' t' Q) ->
  keeps P (mtry c h) s t Q.
Proof. intros Hc Hh. by eapply keeps_try; [apply Hc|auto|auto]. Qed.

Lemma keeps_lift_bind {A B} (o : outcome A) (f : A -> M S B) s t R :
  match o with Ok a => keeps P (f a) s t R | Throw m => R (Throw m) s t end ->
  keeps P (mbind (mlift o) f) s t R.
Proof.
  intros Ho Ht. apply runs_bind, runs_lift. destruct o; [by apply Ho|]. by auto with snow.
Qed.

Lemma keeps_ret {A} (a : A) s t (Q : outcome A -> S -> trace -> Prop) :
  Q (Ok a) s t -> keeps P (mret a) s t Q.
Proof. intros ? ?. by apply runs_ret. Qed.

Lemma keeps_throw {A} m s t (Q : outcome A -> S -> trace -> Prop) :
  Q (Throw m) s t -> keeps P (mthrow m) s t Q.
Proof. intros ? ?. by apply runs_throw. Qed.

Lemma keeps_lift {A} (o : outcome A) s t (Q : outcome A -> S -> trace -> Prop) :
  Q o s t -> keeps P (mlift o) s t Q.
Proof. intros ? ?. by apply runs_lift. Qed.

Lemma keeps_get s t (Q : outcome S -> S -> trace -> Prop) :
  Q (Ok s) s t -> keeps P mget s t Q.
Proof. intros ? ?. by unfold runs. Qed.

Lemma keeps_put s' s t (Q : outcome unit -> S -> trace -> Prop) :
  Q (Ok tt) s' t -> keeps P (mput s') s t Q.
Proof. intros ? ?. by unfold runs. Qed.

Lemma keeps_ask q s t (Q : outcome (reply q) -> S -> trace -> Prop) :
  (forall r, P (Ev q r) t) -> (forall r, Q (Ok r) s (Ev q r :: t)) -> keeps P (ask q) s t Q.
Proof.
  intros HP HQ Ht. apply runs_ask. intros r. split_and!; [apply extends_cons| |done].
  split; [apply HP|done].
Qed.

(** A loop whose body keeps the trace justified, for what was known of the
    trace before it. *)
Lemma keeps_for {A} (xs : list A) (body : A -> M S unit) s t :
  (forall x s' t', In x xs -> extends t t' -> keeps P (body x) s' t' anything) ->
  keeps P (mfor xs body) s t anything.
Proof.
  revert s t. induction xs as [|x xs IH]; intros s t Hbody; cbn [mfor]; [by apply keeps_ret|].
  eapply keeps_bind; [apply Hbody; [by left|reflexivity]| |done].
  intros [] s' t' Hext _. apply IH. intros y s'' t'' Hin Hext'.
  apply Hbody; [by right|by transitivity t'].
Qed.
End keeps_rules.

(** Step through [keeps] goals the way [run_step] steps through [runs]. *)
Ltac keep_step :=
  match goal with
  | |- keeps _ (mret _) _ _ _ => apply keeps_ret
  | |- keeps _ (mthrow _) _ _ _ => apply keeps_throw
  | |- keeps _ (mlift _) _ _ _ => apply keeps_lift
  | |- keeps _ (if ?b then _ else _) _ _ _ => destruct b eqn:?
  | |- keeps _ (match ?x with _ => _ end) _ _ _ => destruct x eqn:?
  end; cbv beta iota.

(** ** What a computation adds to the trace

    [emits E c]: from any state and after any trace, [c] adds only events that
    satisfy [E]. *)

Definition added (E : event -> Prop) (t t' : trace) : Prop :=
  exists new, t' = new ++ t /\ Forall E new.

Definition emits {S A} (E : event -> Prop) (c : M S A) : Prop :=
  forall s t, runs c s t (fun _ _ t' => added E t t').

#[export] Instance added_preorder E : PreOrder (added E).
Proof.
  split; [intros t; by exists []|]. intros a b c (l & -> & Hl) (k & -> & Hk).
  exists (k ++ l). split; [by rewrite app_assoc|by apply Forall_app_2].
Qed.

Lemma added_mono (E E' : event -> Prop) t t' :
  (forall e, E e -> E' e) -> added E t t' -> added E' t t'.
Proof. intros HE (new & -> & Hn). exists new. split; [done|]. by eapply Forall_impl. Qed.

Lemma added_extends E t t' : added E t t' -> extends t t'.
Proof. intros (new & -> & _). by exists new. Qed.

Lemma added_cons (E : event -> Prop) e t : E e -> added E t (e :: t).
Proof. intros He. exists [e]. by split; [|constructor]. Qed.

Section emits_rules.
Context {S : Type} `{Environment} (E : event -> Prop).

Lemma emits_ret {A} (a : A) : emits (S:=S) E (mret a).
Proof. intros s t. apply runs_ret. reflexivity. Qed.

Lemma emits_throw {A} m : emits (S:=S) (A:=A) E (mthrow m).
Proof. intros s t. apply runs_throw. reflexivity. Qed.

Lemma emits_lift {A} (o : outcome A) : emits (S:=S) E (mlift o).
Proof. intros s t. apply runs_lift. reflexivity. Qed.

Lemma emits_get : emits (S:=S) E mget.
Proof. intros s t. unfold runs. cbn. reflexivity. Qed.

Lemma emits_put s : emits (S:=S) E (mput s).
Proof. intros s' t. unfold runs. cbn. reflexivity. Qed.

Lemma emits_ask q : (forall r, E (Ev q r)) -> emits (S:=S) E (ask q).
Proof. intros HE s t. apply runs_ask. intros r. by apply added_cons. Qed.

Lemma emits_bind {A B} (c : M S A) (f : A -> M S B) :
  emits E c -> (forall a, emits E (f a)) -> emits E (mbind c f).
Proof.
  intros Hc Hf s t. apply runs_bind. eapply runs_mono; [apply Hc|].
  intros [a|m] s' t' Hadd; [|done]. eapply runs_mono; [apply Hf|]. intros o s'' t'' Hadd'.
  by transitivity t'.
Qed.

Lemma emits_try {A} (c : M S A) h :
  emits E c -> (forall m, emits E (h m)) -> emits E (mtry c h).
Proof.
  intros Hc Hh s t. apply runs_try. eapply runs_mono; [apply Hc|].
  intros [a|m] s' t' Hadd; [done|]. eapply runs_mono; [apply Hh|]. intros o s'' t'' Hadd'.
  by transitivity t'.
Qed.

Lemma emits_for {A} (xs : list A) (body : A -> M S unit) :
  (forall x, In x xs -> emits E (body x)) -> emits E (mfor xs body).
Proof.
  induction xs as [|x xs IH]; intros Hb; cbn [mfor]; [apply emits_ret|].
  apply emits_bind; [apply Hb; by left|]. intros _. apply IH. intros. apply Hb. by right.
Qed.

Lemma emits_mono {A} (E' : event -> Prop) (c : M S A) :
  (forall e, E' e -> E e) -> emits E' c -> emits E c.
Proof. intros HE Hc s t. eapply runs_mono; [apply Hc|]. intros. by eapply added_mono. Qed.

(** What a run that keeps the trace justified adds to it. *)
Lemma keeps_emits {A} P (c : M S A) s t (Q : outcome A -> S -> trace -> Prop) :
  keeps P c s t Q -> emits E c -> keeps P c s t (fun o s' t' => Q o s' t' /\ added E t t').
Proof.
  intros Hc HE Ht. pose proof (Hc Ht) as H1. pose proof (HE s t) as H2. revert H1 H2.
  unfold runs. destruct (c s t) as [[o s'] t']. naive_solver.
Qed.
End emits_rules.

(** A loop whose body keeps the trace justified, under an invariant on the
    elements still to come and the trace. *)
Lemma keeps_for_inv {S A} `{Environment} P (I : list A -> trace -> Prop) (xs : list A)
    (body : A -> M S unit) s t :
  I xs t ->
  (forall x xs' s' t', I (x :: xs') t' ->
    keeps P (body x) s' t' (fun o _ t'' => match o with Ok _ => I xs' t'' | Throw _ => True end)) ->
  keeps P (mfor xs body) s t anything.
Proof.
  revert s t. induction xs as [|x xs IH]; intros s t HI Hbody; cbn [mfor]; [by apply keeps_ret|].
  eapply keeps_bind; [by apply Hbody| |done]. intros [] s' t' _ HI'. by apply IH.
Qed.

#[export] Hint Resolve emits_ret emits_throw emits_lift emits_get emits_put emits_for : emits.

(** *** Variables that keep a property

    [preserves W c]: [c] leaves a state that satisfies [W] in one that does. *)

Definition preserves {S A} `{Environment} (W : S -> Prop) (c : M S A) : Prop :=
  forall s t, W s -> runs c s t (fun _ s' _ => W s').

Section preserves_rules.
Context {S : Type} `{Environment} (W : S -> Prop).

Lemma preserves_ret {A} (a : A) : preserves W (mret a).
Proof. by intros s t. Qed.

Lemma preserves_throw {A} m : preserves W (mthrow (A := A) m).
Proof. by intros s t. Qed.

Lemma preserves_lift {A} (o : outcome A) : preserves W (mlift o).
Proof. by intros s t. Qed.

Lemma preserves_ask q : preserves W (ask q).
Proof. by intros s t. Qed.

Lemma preserves_put s : W s -> preserves W (mput s).
Proof. by intros Hs s' t. Qed.

Lemma preserves_bind {A B} (c : M S A) (f : A -> M S B) :
  preserves W c -> (forall a, preserves W (f a)) -> preserves W (mbind c f).
Proof.
  intros Hc Hf s t Hs. apply runs_bind. eapply runs_mono; [by apply Hc|].
  intros [a|m] s' t' Hs'; [by apply Hf|done].
Qed.

Lemma preserves_get {B} (f : S -> M S B) :
  (forall s, W s -> preserves W (f s)) -> preserves W (mbind mget f).
Proof. intros Hf s t Hs. apply runs_bind. unfold runs, mget. by apply Hf. Qed.

Lemma preserves_try {A} (c : M S A) h :
  preserves W c -> (forall m, preserves W (h m)) -> preserves W (mtry c h).
Proof.
  intros Hc Hh s t Hs. apply runs_try. eapply runs_mono; [by apply Hc|].
  intros [a|m] s' t' Hs'; [done|by apply Hh].
Qed.

Lemma preserves_for {A} (l : list A) (body : A -> M S unit) :
  (forall x, preserves W (body x)) -> preserves W (mfor l body).
Proof. intros Hb. induction l as [|x l IH]; cbn [mfor]; [apply preserves_ret|]. by apply preserves_bind. Qed.
End preserves_rules.

Ltac preserve_step :=
  match goal with
  | |- preserves _ (mbind mget _) => apply preserves_get; intros ? ?
  | |- preserves _ (mbind _ _) => apply preserves_bind; [|intros ?]
  | |- preserves _ (mtry _ _) => apply preserves_try; [|intros ?]
  | |- preserves _ (mfor _ _) => apply preserves_for; intros ?
  | |- preserves _ (mret _) => apply preserves_ret
  | |- preserves _ (mthrow _) => apply preserves_throw
  | |- preserves _ (mlift _) => apply preserves_lift
  | |- preserves _ (ask _) => apply preserves_ask
  | |- preserves _ (mput _) => apply preserves_put
  | |- preserves _ (if ?b then _ else _) => destruct b
  | |- preserves _ (match ?x with _ => _ end) => destruct x eqn:?
  end; cbv beta iota.

(** Step through [emits] goals; a call is left to the hints of [emits]. *)
Ltac emit_step :=
  match goal with
  | |- emits _ (mbind _ _) => apply emits_bind; [|intros ?]
  | |- emits _ (mtry _ _) => apply emits_try; [|intros ?]
  | |- emits _ (ask _) => apply emits_ask; intros ?
  | |- emits _ (if ?b then _ else _) => destruct b
  | |- emits _ (match ?x with _ => _ end) => destruct x eqn:?
  | |- emits _ _ => solve [auto with emits]
  end; cbv beta iota.
