(* ===== verification/Withdraw.v ===== *)
(** * Withdrawal builder: packages/federation/src/withdraw.ts

    Amount conversion, UTXO collection and selection, and the construction,
    signing and broadcast of the L1 transaction. The transaction library
    (@scure/btc-signer) is a parameter: the builder's calls on a
    [Transaction] are kept as the list of calls made, and the library decides
    whether a call throws and which bytes [extract] returns. *)

From Stdlib Require Import ZArith Lia String List Bool.
From stdpp Require Import base list strings numbers sorting.
From S2P Require Import Prelude JsNumber HdWallet Effects.
Local Open Scope Z_scope.
Local Open Scope eff_scope.

(** ** Types *)

Record Utxo := { txid : string; vout : Z; value : Z; scriptPubKey : string }.

Record FundedDeposit := {
  fd_id : string;
  fd_network : string;
  fd_ecash_address : string;
  fd_derivation_index : option Z;
  fd_amount_sats : option Z
}.

(** [string | number | null]: a number is given by its [String(_)] rendering. *)
Inductive ecx_amount := AmtNull | AmtStr (s : string) | AmtNum (repr : string).

Record WithdrawalRequest := {
  wr_id : string;
  wr_network : string;
  wr_snowside_address : string;
  wr_ecash_address : string;
  wr_amount_ecx : ecx_amount;
  wr_amount_sats : option Z;
  wr_burn_tx_hash : option string;
  wr_ecash_tx_hash : option string;
  wr_status : string
}.

Inductive BtcNetwork := NETWORK | TEST_NETWORK.

Definition getBtcNetwork (network : string) : BtcNetwork :=
  if String.eqb network "signet" then TEST_NETWORK else NETWORK.

Definition REPLAY_LOCKTIME : list (string * Z) :=
  [("mainnet", 499999998); ("testnet", 499999999); ("signet", 0)].

Definition ECX_TO_SATS : Z := 10 ^ 10.

(** ** Amounts *)

Definition amount_truthy (a : ecx_amount) : bool :=
  match a with
  | AmtNull => false
  | AmtStr s => str_truthy s
  | AmtNum r => negb (String.eqb r "0" || String.eqb r "NaN")
  end.

Definition amount_string (a : ecx_amount) : string :=
  match a with AmtNull => "null" | AmtStr s => s | AmtNum r => r end.

(** Convert an ECX amount to satoshis. A text with a dot is a decimal number
    of ECX; a text without one is an integer number of wei. *)
Definition ecxToSats (amountEcx : ecx_amount) (network : string) : jsnum :=
  if negb (amount_truthy amountEcx) then Fin 0
  else
    let str := amount_string amountEcx in
    if includes "." str then floor_scaled (parseFloat str) 100000000
    else match BigInt_of_string str with
         | Ok ecx => Number_of_BigInt (Z.quot ecx ECX_TO_SATS)
         | Throw _ => Fin 0
         end.

Definition cleanAddress (address : string) : string :=
  replace_first "bitcoincash:" "" (replace_first "ecash:" "" address).

(** [x || y] for a nullable number. *)
Definition sats_or (x : option Z) (y : jsnum) : jsnum :=
  match x with Some z => if z =? 0 then y else Fin z | None => y end.

(** [BigInt(x)] of a Number: a RangeError unless it is an integer. *)
Definition BigInt_of_num (x : jsnum) : outcome Z :=
  match x with Fin z => Ok z | _ => Throw "RangeError" end.

(** ** UTXO selection *)

Definition item : Type := Utxo * FundedDeposit.
Definition item_value (i : item) : Z := value (fst i).

(** The [for] loop over the sorted items: push, add, stop at the target. *)
Fixpoint take_until (target : jsnum) (sorted : list item) (selected : list item) (total : Z)
  : list item * Z :=
  match sorted with
  | [] => (selected, total)
  | i :: rest =>
      let selected' := selected ++ [i] in
      let total' := total + item_value i in
      if num_le target (Fin total') then (selected', total')
      else take_until target rest selected' total'
  end.

(** Greedy selection, largest UTXOs first. *)
Definition selectUtxos (utxos : list item) (targetSats : jsnum) (feeSats : Z) : list item :=
  let sorted := js_sort (fun a b => item_value b - item_value a) utxos in
  let target := num_add targetSats (Fin feeSats) in
  let (selected, total) := take_until target sorted [] 0 in
  if num_lt (Fin total) target then [] else selected.

(** ** Esplora *)

Section builder.
Context {S : Type} `{Environment}.

Definition fetchUtxos (esploraUrl address : string) : M S (list Utxo) :=
  let clean := cleanAddress address in
  mtry
    (resp <- ask (QUtxo esploraUrl clean) ;;
     match resp with
     | NetErr m => mthrow m
     | Resp status body =>
         if negb (resp_ok status) then mret []
         else match body with
              | Some (inr data) =>
                  mret (map (fun u =>
                    {| txid := default "" (eu_txid u);
                       vout := default 0 (eu_vout u);
                       value := default 0 (eu_value u);
                       scriptPubKey := str_or (default "" (eu_scriptPubKey u))
                                             (default "" (eu_scriptpubkey u)) |}) data)
              | Some (inl _) => mthrow "data.map is not a function"
              | None => mthrow "invalid JSON"
              end
     end)
    (fun _ => mret []).

Definition broadcastTx (esploraUrl rawHex : string) : M S (option string) :=
  mtry
    (resp <- ask (QBroadcast esploraUrl rawHex) ;;
     match resp with
     | NetErr m => mthrow m
     | Resp status body =>
         if negb (resp_ok status)
         then match body with Some _ => mret None | None => mthrow "resp.text" end
         else match body with
              | Some text => mret (Some (trim text))
              | None => mthrow "resp.text"
              end
     end)
    (fun _ => mret None).

(** One deposit of the collection loop; [null] indices are skipped. *)
Definition collect_deposit (network esploraUrl : string) (deposit : FundedDeposit)
  : M S (list item) :=
  if negb (String.eqb (fd_network deposit) network) then mret []
  else match fd_derivation_index deposit with
       | None => mret []
       | Some _ =>
           utxos <- fetchUtxos esploraUrl (fd_ecash_address deposit) ;;
           mret (map (fun u => (u, deposit)) utxos)
       end.

Fixpoint collect_utxos (network esploraUrl : string) (deposits : list FundedDeposit)
  : M S (list item) :=
  match deposits with
  | [] => mret []
  | d :: ds =>
      here <- collect_deposit network esploraUrl d ;;
      rest <- collect_utxos network esploraUrl ds ;;
      mret (here ++ rest)
  end.
End builder.

(** ** Transactions *)

Inductive tx_call :=
| TxNew (lockTime : Z)
| TxAddInput (in_txid : list Z) (index : Z) (script : list Z) (amount : Z) (sequence : Z)
| TxAddOutputAddress (address : string) (amount : Z) (net : BtcNetwork)
| TxSign (privateKey : list Z) (sighash : Z)
| TxFinalize.

(** What @scure/btc-signer and @scure/base contribute: whether a call throws
    after the calls made so far, the P2WPKH script of a public key, hex
    coding, and the bytes of the finished transaction. *)
Class BtcLibrary := {
  tx_check : list tx_call -> tx_call -> outcome unit;
  p2wpkh_script : list Z -> outcome (list Z);
  hex_decode : string -> outcome (list Z);
  hex_encode : list Z -> string;
  tx_extract : list tx_call -> outcome (list Z)
}.

Definition SIGHASH_ALL : Z := 1.
Definition DUST_LIMIT : Z := 546.
Definition feeSats : Z := 1000.

Section transaction.
Context `{BtcLibrary} `{HdLibrary}.
Local Open Scope snow_scope.

Definition tx_do (tx : list tx_call) (c : tx_call) : outcome (list tx_call) :=
  _ <-? tx_check tx c; Ok (tx ++ [c]).

(** [wallet.deriveKeyPair(network, deposit.derivation_index)] *)
Definition item_keypair (w : HDWallet) (network : string) (i : item) : outcome (option KeyPair) :=
  match fd_derivation_index (snd i) with
  | Some index => deriveKeyPair w network index
  | None => Throw "derivation_index"
  end.

(** The input loop; [None] is the early [return null]. *)
Fixpoint add_inputs (w : HDWallet) (network : string) (selected : list item)
    (tx : list tx_call) : outcome (option (list tx_call)) :=
  match selected with
  | [] => Ok (Some tx)
  | i :: rest =>
      keyPair <-? item_keypair w network i;
      match keyPair with
      | None => Ok None
      | Some kp =>
          script <-? p2wpkh_script (kp_public kp);
          id <-? hex_decode (txid (fst i));
          tx' <-? tx_do tx (TxAddInput id (vout (fst i)) script (item_value i) 4294967293);
          add_inputs w network rest tx'
      end
  end.

(** The signing loop; an item without a key is skipped. *)
Fixpoint sign_inputs (w : HDWallet) (network : string) (selected : list item)
    (tx : list tx_call) : outcome (list tx_call) :=
  match selected with
  | [] => Ok tx
  | i :: rest =>
      keyPair <-? item_keypair w network i;
      match keyPair with
      | None => sign_inputs w network rest tx
      | Some kp =>
          tx' <-? tx_do tx (TxSign (kp_private kp) SIGHASH_ALL);
          sign_inputs w network rest tx'
      end
  end.

Definition add_change (network changeAddress : string) (changeSats : jsnum)
    (tx : list tx_call) : outcome (list tx_call) :=
  if num_lt (Fin 546) changeSats then
    amount <-? BigInt_of_num changeSats;
    tx_do tx (TxAddOutputAddress (cleanAddress changeAddress) amount (getBtcNetwork network))
  else Ok tx.

(** The body of the [try] up to [tx.extract()]. *)
Definition build_tx (network : string) (ecash_address : string) (targetSats changeSats : jsnum)
    (selected : list item) (w : HDWallet) (changeAddress : string)
  : outcome (option (list tx_call)) :=
  let lockTime := default 0 (rec_get REPLAY_LOCKTIME network) in
  tx0 <-? tx_do [] (TxNew lockTime);
  inputs <-? add_inputs w network selected tx0;
  match inputs with
  | None => Ok None
  | Some tx1 =>
      amount <-? BigInt_of_num targetSats;
      tx2 <-? tx_do tx1 (TxAddOutputAddress (cleanAddress ecash_address) amount (getBtcNetwork network));
      tx3 <-? add_change network changeAddress changeSats tx2;
      tx4 <-? sign_inputs w network selected tx3;
      tx5 <-? tx_do tx4 TxFinalize;
      Ok (Some tx5)
  end.
End transaction.

Section withdrawal.
Context {S : Type} `{Environment} `{BtcLibrary} `{HdLibrary}.
Local Open Scope snow_scope.

Definition sum_items (l : list item) : Z := sumZ (map item_value l).

(** Build, sign and broadcast; [None] is the [null] of every failure. *)
Definition buildSignAndBroadcastWithdrawal (network : string) (withdrawal : WithdrawalRequest)
    (fundedDeposits : list FundedDeposit) (esploraUrl : string) (w : HDWallet)
    (changeAddress : string) : M S (option string) :=
  let targetSats := sats_or (wr_amount_sats withdrawal)
    (ecxToSats (wr_amount_ecx withdrawal) (wr_network withdrawal)) in
  if num_le targetSats (Fin 0) then mret None
  else if num_lt targetSats (Fin DUST_LIMIT) then mret None
  else
    allUtxos <- collect_utxos network esploraUrl fundedDeposits ;;
    match allUtxos with
    | [] => mret None
    | _ =>
        let selected := selectUtxos allUtxos targetSats feeSats in
        match selected with
        | [] => mret None
        | _ =>
            let totalInput := sum_items selected in
            let changeSats := num_sub (num_sub (Fin totalInput) targetSats) (Fin feeSats) in
            mtry
              (built <- mlift (build_tx network (wr_ecash_address withdrawal) targetSats
                                 changeSats selected w changeAddress) ;;
               match built with
               | None => mret None
               | Some tx =>
                   rawTx <- mlift (tx_extract tx) ;;
                   txHash <- broadcastTx esploraUrl (hex_encode rawTx) ;;
                   match txHash with
                   | Some h => if str_truthy h then mret (Some h) else mret None
                   | None => mret None
                   end
               end)
              (fun _ => mret None)
        end
    end.
End withdrawal.

(** ** Selection: lemmas *)

(** The [k] first elements of a list sorted by decreasing key have the
    largest sum among all its sub-multisets of that size. *)
Lemma top_k_max {A} (key : A -> Z) (s l : list A) :
  StronglySorted (fun a b => key b <= key a) s -> l ⊆+ s ->
  sumZ (map key l) <= sumZ (map key (take (length l) s)).
Proof.
  revert l. induction s as [|x s IH]; intros l Hs Hl.
  - apply submseteq_nil_r in Hl as ->. done.
  - apply StronglySorted_cons in Hs as [Hx Hs].
    apply submseteq_cons_r in Hl as [Hl|(l' & Hp & Hl)].
    + pose proof (submseteq_length _ _ Hl) as Hlen. specialize (IH l Hs Hl).
      destruct (length l) as [|n] eqn:El; [destruct l; [done|discriminate]|].
      cbn [take map]. destruct (lookup_lt_is_Some_2 s n Hlen) as [y Hy].
      erewrite take_S_r in IH by done. rewrite map_app, sumZ_app in IH.
      rewrite Forall_lookup in Hx. pose proof (Hx n y Hy). unfold sumZ in *. simpl in *. lia.
    + rewrite (sumZ_perm _ _ (Permutation_map key Hp)), (Permutation_length Hp).
      specialize (IH l' Hs Hl). unfold sumZ in *. simpl. lia.
Qed.

Lemma take_until_spec T sorted sel tot :
  exists k, (k <= length sorted)%nat /\
    take_until (Fin T) sorted sel tot = (sel ++ take k sorted, tot + sum_items (take k sorted)) /\
    (forall j, (0 < j < k)%nat -> tot + sum_items (take j sorted) < T) /\
    (T <= tot + sum_items (take k sorted) \/ k = length sorted).
Proof.
  unfold sum_items. revert sel tot. induction sorted as [|i rest IH]; intros sel tot.
  - exists 0%nat. simpl. rewrite app_nil_r. unfold sumZ; simpl. rewrite Z.add_0_r.
    split_and!; [lia|done|lia|by right].
  - cbn [take_until]. unfold num_le, num_lt.
    destruct (Z.ltb_spec (tot + item_value i) T) as [Hlt|Hge]; cbn [negb].
    + destruct (IH (sel ++ [i]) (tot + item_value i)) as (k & Hk & -> & Hmin & Hend).
      exists (Datatypes.S k). cbn [take map length]. unfold sumZ in *; cbn [foldr].
      split_and!; [lia| | |].
      * rewrite <-(assoc_L (++)). f_equal. simpl. lia.
      * intros [|[|j]] Hj; [lia|simpl; lia|]. cbn [take map foldr].
        specialize (Hmin (Datatypes.S j) ltac:(lia)). lia.
      * destruct Hend as [?| ->]; [left; lia|by right].
    + exists 1%nat. unfold sumZ; simpl. split_and!; [lia|f_equal; lia|lia|left; lia].
Qed.

(** Everything [selectUtxos] guarantees of a finite target, in one lemma. *)
Lemma selectUtxos_cases utxos t fee :
  let sorted := js_sort (fun a b => item_value b - item_value a) utxos in
  exists k, (k <= length utxos)%nat /\
    (forall j, (0 < j < k)%nat -> sum_items (take j sorted) < t + fee) /\
    ((t + fee <= sum_items (take k sorted) /\ selectUtxos utxos (Fin t) fee = take k sorted) \/
     (sum_items (take k sorted) < t + fee /\ k = length utxos /\ selectUtxos utxos (Fin t) fee = [])).
Proof.
  intros sorted. unfold selectUtxos. fold sorted. cbn [num_add].
  destruct (take_until_spec (t + fee) sorted [] 0) as (k & Hk & Heq & Hmin & Hend).
  assert (Hlen : length sorted = length utxos) by apply Permutation_length, js_sort_perm.
  rewrite Heq. cbn [num_lt]. exists k. rewrite Z.add_0_l in *.
  split_and!; [lia|intros; by apply Hmin|].
  destruct (Z.ltb_spec (sum_items (take k sorted)) (t + fee)); [right|by left].
  destruct Hend as [?|?]; [lia|]. split_and!; [done|lia|done].
Qed.

(** ** Transactions: lemmas *)

Definition input_amount (c : tx_call) : Z :=
  match c with TxAddInput _ _ _ a _ => a | _ => 0 end.
Definition output_amount (c : tx_call) : Z :=
  match c with TxAddOutputAddress _ a _ => a | _ => 0 end.
Definition inputs_total (tx : list tx_call) : Z := sumZ (map input_amount tx).
Definition outputs_total (tx : list tx_call) : Z := sumZ (map output_amount tx).

Definition is_input (c : tx_call) : bool := match c with TxAddInput _ _ _ _ _ => true | _ => false end.
Definition is_sign (c : tx_call) : bool := match c with TxSign _ _ => true | _ => false end.

Section transaction_facts.
Context `{BtcLibrary} `{HdLibrary}.

Lemma tx_do_inv tx c tx' : tx_do tx c = Ok tx' -> tx' = tx ++ [c].
Proof. unfold tx_do. destruct (tx_check tx c); simpl; congruence. Qed.

(** The input that spends an item, and the signature for it. *)
Definition spends (w : HDWallet) (network : string) (i : item) (c : tx_call) : Prop :=
  exists kp scr id, item_keypair w network i = Ok (Some kp) /\ p2wpkh_script (kp_public kp) = Ok scr /\
    hex_decode (txid (fst i)) = Ok id /\ c = TxAddInput id (vout (fst i)) scr (item_value i) 4294967293.

Definition signs (w : HDWallet) (network : string) (i : item) (c : tx_call) : Prop :=
  exists kp, item_keypair w network i = Ok (Some kp) /\ c = TxSign (kp_private kp) SIGHASH_ALL.

Lemma add_inputs_inv w network selected tx tx' :
  add_inputs w network selected tx = Ok (Some tx') ->
  exists ins, tx' = tx ++ ins /\ Forall2 (spends w network) selected ins.
Proof.
  revert tx. induction selected as [|i rest IH]; intros tx; cbn [add_inputs].
  - intros [= <-]. exists []. by rewrite app_nil_r.
  - destruct (item_keypair w network i) as [[kp|]|] eqn:Ek; cbn [obind]; try done.
    destruct (p2wpkh_script (kp_public kp)) as [scr|] eqn:Es; cbn [obind]; [|done].
    destruct (hex_decode (txid (fst i))) as [id|] eqn:Ei; cbn [obind]; [|done].
    destruct (tx_do _ _) as [tx1|] eqn:E; cbn [obind]; [|done]. intros Hrest.
    apply tx_do_inv in E as ->. apply IH in Hrest as (ins & -> & Hf).
    exists (TxAddInput id (vout (fst i)) scr (item_value i) 4294967293 :: ins).
    rewrite <-(assoc_L (++)). split; [done|]. constructor; [by exists kp, scr, id|done].
Qed.

(** No item is skipped: each had a key when its input was added. *)
Lemma sign_inputs_inv w network selected ins tx tx' :
  Forall2 (spends w network) selected ins ->
  sign_inputs w network selected tx = Ok tx' ->
  exists sigs, tx' = tx ++ sigs /\ Forall2 (signs w network) selected sigs.
Proof.
  intros Hins. revert tx. induction Hins as [|i c rest ins (kp & _ & _ & Hk & _) _ IH]; intros tx; cbn [sign_inputs].
  - intros [= <-]. exists []. by rewrite app_nil_r.
  - rewrite Hk. cbn [obind].
    destruct (tx_do _ _) as [tx1|] eqn:E; cbn [obind]; [|done]. intros Hrest.
    apply tx_do_inv in E as ->. apply IH in Hrest as (sigs & -> & Hf).
    exists (TxSign (kp_private kp) SIGHASH_ALL :: sigs). rewrite <-(assoc_L (++)).
    split; [done|]. constructor; [by exists kp|done].
Qed.

Definition change_output (network changeAddr : string) (change : Z) : list tx_call :=
  if 546 <? change then [TxAddOutputAddress (cleanAddress changeAddr) change (getBtcNetwork network)] else [].

(** The shape of every transaction the builder finishes. *)
Lemma build_tx_inv network addr t change selected w changeAddr tx :
  build_tx network addr (Fin t) (Fin change) selected w changeAddr = Ok (Some tx) ->
  exists ins sigs,
    tx = [TxNew (default 0 (rec_get REPLAY_LOCKTIME network))] ++ ins ++
         [TxAddOutputAddress (cleanAddress addr) t (getBtcNetwork network)] ++
         change_output network changeAddr change ++ sigs ++ [TxFinalize] /\
    Forall2 (spends w network) selected ins /\ Forall2 (signs w network) selected sigs.
Proof.
  unfold build_tx, change_output. destruct (tx_do [] _) as [tx0|] eqn:E0; cbn [obind]; [|done].
  apply tx_do_inv in E0 as ->.
  destruct (add_inputs _ _ _ _) as [[tx1|]|] eqn:E1; cbn [obind]; try done.
  apply add_inputs_inv in E1 as (ins & -> & Hf). cbn [BigInt_of_num obind].
  destruct (tx_do _ _) as [tx2|] eqn:E2; cbn [obind]; [|done]. apply tx_do_inv in E2 as ->.
  unfold add_change. cbn [num_lt BigInt_of_num obind].
  destruct (if 546 <? change then _ else _) as [tx3|] eqn:E3; cbn [obind]; [|done].
  destruct (sign_inputs _ _ _ _) as [tx4|] eqn:E4; cbn [obind]; [|done].
  eapply sign_inputs_inv in E4 as (sigs & -> & Hs); [|done].
  destruct (tx_do (_ ++ sigs) _) as [tx5|] eqn:E5; cbn [obind]; [|done].
  apply tx_do_inv in E5 as ->. intros [= <-]. exists ins, sigs.
  destruct (546 <? change).
  - apply tx_do_inv in E3 as ->. split_and!; [by rewrite <-!(assoc_L (++))|done..].
  - injection E3 as <-. split_and!; [cbn [app]; rewrite <-!(assoc_L (++)); reflexivity|done..].
Qed.

Lemma spends_amounts w network selected ins :
  Forall2 (spends w network) selected ins -> map input_amount ins = map item_value selected.
Proof. induction 1 as [|i c l l' (? & ? & ? & _ & _ & _ & ->) _ IH]; [done|]. cbn [map input_amount]. by rewrite IH. Qed.

Lemma spends_inputs w network selected ins :
  Forall2 (spends w network) selected ins ->
  Forall (fun c => exists id vo scr a, c = TxAddInput id vo scr a 4294967293) ins.
Proof. induction 1 as [|i c l l' (? & ? & ? & _ & _ & _ & ->) _ IH]; constructor; eauto. Qed.

Lemma signs_sigs w network selected sigs :
  Forall2 (signs w network) selected sigs -> Forall (fun c => exists key, c = TxSign key SIGHASH_ALL) sigs.
Proof. induction 1 as [|i c l l' (? & _ & ->) _ IH]; constructor; eauto. Qed.

Lemma amounts_of_inputs ins :
  Forall (fun c => exists id vo scr a, c = TxAddInput id vo scr a 4294967293) ins ->
  outputs_total ins = 0.
Proof. unfold outputs_total, sumZ. induction 1 as [|c l Hc _ IH]; [done|].
  destruct Hc as (id & vo & scr & a & ->). simpl in *. lia. Qed.

Lemma amounts_of_sigs sigs :
  Forall (fun c => exists key, c = TxSign key SIGHASH_ALL) sigs ->
  inputs_total sigs = 0 /\ outputs_total sigs = 0.
Proof.
  unfold inputs_total, outputs_total, sumZ.
  induction 1 as [|c l Hc _ IH]; [done|]. destruct Hc as [key ->]. simpl in *. lia.
Qed.

(** What the calls of a built transaction can be. *)
Let built network addr t change changeAddr ins sigs : list tx_call :=
  [TxNew (default 0 (rec_get REPLAY_LOCKTIME network))] ++ ins ++
  [TxAddOutputAddress (cleanAddress addr) t (getBtcNetwork network)] ++
  change_output network changeAddr change ++ sigs ++ [TxFinalize].

Lemma built_output_inv network addr t change changeAddr ins sigs a v n :
  Forall (fun c => exists id vo scr a, c = TxAddInput id vo scr a 4294967293) ins ->
  Forall (fun c => exists key, c = TxSign key SIGHASH_ALL) sigs ->
  In (TxAddOutputAddress a v n) (built network addr t change changeAddr ins sigs) ->
  a = cleanAddress addr /\ v = t \/ a = cleanAddress changeAddr /\ v = change /\ 546 < change.
Proof.
  intros Hins Hsigs. rewrite List.Forall_forall in Hins, Hsigs. unfold built, change_output.
  rewrite !in_app_iff. intros [[?|[]]|[Hin|[[?|[]]|[Hin|[Hin|[?|[]]]]]]]; try discriminate.
  - by destruct (Hins _ Hin) as (?&?&?&?&?).
  - left. naive_solver.
  - destruct (Z.ltb_spec 546 change); [|done]. destruct Hin as [Hin|[]]. right. naive_solver.
  - by destruct (Hsigs _ Hin).
Qed.

Lemma built_input_inv network addr t change changeAddr ins sigs id vo scr a sq :
  Forall (fun c => exists id vo scr a, c = TxAddInput id vo scr a 4294967293) ins ->
  Forall (fun c => exists key, c = TxSign key SIGHASH_ALL) sigs ->
  In (TxAddInput id vo scr a sq) (built network addr t change changeAddr ins sigs) ->
  sq = 4294967293.
Proof.
  intros Hins Hsigs. rewrite List.Forall_forall in Hins, Hsigs. unfold built, change_output.
  rewrite !in_app_iff. intros [[?|[]]|[Hin|[[?|[]]|[Hin|[Hin|[?|[]]]]]]]; try discriminate.
  - destruct (Hins _ Hin) as (?&?&?&?&?). congruence.
  - destruct (546 <? change); [|done]. by destruct Hin as [Hin|[]].
  - by destruct (Hsigs _ Hin).
Qed.

Lemma totals_app a b :
  inputs_total (a ++ b) = inputs_total a + inputs_total b /\
  outputs_total (a ++ b) = outputs_total a + outputs_total b.
Proof. unfold inputs_total, outputs_total. by rewrite !map_app, !sumZ_app. Qed.
End transaction_facts.

(** The builder never throws, and a hash it returns is the trimmed reply of
    an accepted broadcast of bytes extracted from a built transaction. *)
Definition broadcast_of (url rawHex hash : string) (e : event) : Prop :=
  exists status text, e = Ev (QBroadcast url rawHex) (Resp status (Some text)) /\
    resp_ok status = true /\ hash = trim text /\ hash <> "".

Section run_facts.
Context {S : Type} `{Environment}.

Lemma fetchUtxos_runs url addr (s : S) t :
  runs (fetchUtxos url addr) s t (fun o s' t' =>
    is_ok o = true /\ s' = s /\ exists r, t' = Ev (QUtxo url (cleanAddress addr)) r :: t).
Proof. unfold fetchUtxos. repeat run_step; eauto. Qed.

Lemma collect_utxos_runs network url ds (s : S) t :
  runs (collect_utxos network url ds) s t (fun o s' t' =>
    is_ok o = true /\ s' = s /\ extends t t').
Proof.
  revert t. induction ds as [|d ds IH]; intros t; cbn [collect_utxos]; [repeat run_step; easy|].
  apply runs_bind, (runs_mono _ _ _ (fun o s' t' => is_ok o = true /\ s' = s /\ extends t t')).
  - unfold collect_deposit. repeat run_step; try easy.
    eapply runs_mono; [apply fetchUtxos_runs|]. intros [u|m] s' t' (Hok & -> & r & ->); [|easy].
    apply runs_ret. split_and!; [done..|]. by exists [Ev (QUtxo url (cleanAddress (fd_ecash_address d))) r].
  - intros [here|m] s' t' (Hok & -> & Hext); [|easy].
    apply runs_bind. eapply runs_mono; [apply IH|]. intros [rest|m] s'' t'' (Hok' & -> & Hext'); [|easy].
    apply runs_ret. split_and!; [done..|]. by transitivity t'.
Qed.

Lemma broadcastTx_runs url rawHex (s : S) t :
  runs (broadcastTx url rawHex) s t (fun o s' t' =>
    s' = s /\ exists r e, o = Ok r /\ t' = e :: t /\
    forall h, r = Some h -> h <> "" -> broadcast_of url rawHex h e).
Proof.
  unfold broadcastTx. repeat run_step; split; try done; do 2 eexists; split_and!; try done.
  intros h [= <-] Hne. unfold broadcast_of. apply negb_false_iff in Heqb. eauto 7.
Qed.
End run_facts.

(** ** Properties *)

(** C15. UTXO selection is sound and uses the fewest inputs: a non-empty
    selection is a sub-multiset of the UTXOs offered, covers target plus fee,
    and no sub-multiset with fewer UTXOs covers it. *)
Theorem selectUtxos_sound_minimal utxos t fee :
  0 < t + fee -> selectUtxos utxos (Fin t) fee <> [] ->
  let sel := selectUtxos utxos (Fin t) fee in
  sel ⊆+ utxos /\ t + fee <= sum_items sel /\
  (forall l, l ⊆+ utxos -> t + fee <= sum_items l -> (length sel <= length l)%nat).
Proof.
  intros Hpos Hne sel. subst sel.
  destruct (selectUtxos_cases utxos t fee) as (k & Hk & Hmin & [[Hge ->]|(_ & _ & E)]); [|done].
  set (sorted := js_sort _ utxos) in *.
  assert (Hperm : sorted ≡ₚ utxos) by apply js_sort_perm.
  split_and!; [|done|].
  - rewrite <-Hperm. apply submseteq_take.
  - intros l Hl Hsum. rewrite length_take.
    destruct (Nat.le_gt_cases k (length l)) as [|Hlt]; [lia|exfalso].
    rewrite <-Hperm in Hl.
    pose proof (top_k_max item_value sorted l (js_sort_desc_sorted item_value utxos) Hl) as Htop.
    unfold sum_items in *. destruct (length l) as [|n] eqn:E.
    + destruct l; [|discriminate]. unfold sumZ in *; simpl in *. lia.
    + specialize (Hmin (Datatypes.S n) ltac:(lia)). lia.
Qed.

Definition utxo_of (v : Z) : item :=
  ({| txid := "aa"; vout := 0; value := v; scriptPubKey := "" |},
   {| fd_id := "d"; fd_network := "signet"; fd_ecash_address := "tb1"; 
      fd_derivation_index := Some 7; fd_amount_sats := Some v |}).

Lemma selectUtxos_sound_minimal_witness :
  let us := map utxo_of [500; 2000; 1500] in
  selectUtxos us (Fin 2000) 1000 = map utxo_of [2000; 1500] /\
  (forall l, l ⊆+ us -> 2000 + 1000 <= sum_items l ->
     (length (selectUtxos us (Fin 2000) 1000) <= length l)%nat).
Proof.
  split; [reflexivity|].
  apply (selectUtxos_sound_minimal (map utxo_of [500; 2000; 1500]) 2000 1000); [lia|].
  intros Hnil. vm_compute in Hnil. discriminate Hnil.
Defined.

(** C16. Selection fails exactly when the money is not there: with
    non-negative values and a positive target the empty result means the sum
    of all UTXOs is below target plus fee, and conversely. *)
Theorem selectUtxos_fails_iff utxos t fee :
  Forall (fun i => 0 <= item_value i) utxos -> 0 < t + fee ->
  selectUtxos utxos (Fin t) fee = [] <-> sum_items utxos < t + fee.
Proof.
  intros Hnn Hpos.
  destruct (selectUtxos_cases utxos t fee) as (k & Hk & Hmin & Hcase).
  set (sorted := js_sort _ utxos) in *.
  assert (Hperm : sorted ≡ₚ utxos) by apply js_sort_perm.
  assert (Hsum : sum_items sorted = sum_items utxos)
    by (unfold sum_items; by apply sumZ_perm, Permutation_map).
  destruct Hcase as [[Hge ->]|(Hlt & -> & ->)].
  - split.
    + intros E. rewrite E in Hge. unfold sum_items, sumZ in Hge. simpl in Hge. lia.
    + intros Hlt. exfalso. rewrite <-Hsum, <-(take_drop k sorted) in Hlt.
      unfold sum_items in *. rewrite map_app, sumZ_app in Hlt.
      assert (0 <= sumZ (map item_value (drop k sorted))); [|lia].
      apply sumZ_nonneg, Forall_map, Forall_drop. by rewrite Hperm.
  - split; [|done]. intros _. rewrite <-Hsum.
    by rewrite firstn_all2 in Hlt by (rewrite (Permutation_length Hperm); lia).
Qed.

Lemma selectUtxos_fails_iff_witness :
  let us := map utxo_of [500; 2000] in
  Forall (fun i => 0 <= item_value i) us /\ sum_items us < 2000 + 1000 /\
  selectUtxos us (Fin 2000) 1000 = [].
Proof.
  split; [repeat constructor; vm_compute; discriminate|]. split; [vm_compute; reflexivity|].
  apply (selectUtxos_fails_iff (map utxo_of [500; 2000]) 2000 1000);
    [repeat constructor; vm_compute; discriminate|lia|vm_compute; reflexivity].
Defined.

(** C12. Value is conserved by every withdrawal transaction that is built: it
    spends exactly the selected UTXOs, pays the withdrawn amount to the
    user's address and nothing but change back, keeps a fee between 1000 and
    1546 satoshis, has no output below the dust limit, and carries the
    network's replay-protection locktime on non-final inputs. Every selected
    UTXO is spent by one input, under the script of the key its deposit's index
    derives, and signed once with that key after the outputs are in place. *)
Theorem withdrawal_tx_conserves `{BtcLibrary} `{HdLibrary}
    network addr t utxos w changeAddr tx :
  let sel := selectUtxos utxos (Fin t) feeSats in
  let change := sum_items sel - t - feeSats in
  DUST_LIMIT <= t -> sel <> [] ->
  build_tx network addr (Fin t) (Fin change) sel w changeAddr = Ok (Some tx) ->
  inputs_total tx = sum_items sel /\
  (1000 <= inputs_total tx - outputs_total tx <= 1546) /\
  hd_error tx = Some (TxNew (default 0 (rec_get REPLAY_LOCKTIME network))) /\
  In (TxAddOutputAddress (cleanAddress addr) t (getBtcNetwork network)) tx /\
  (forall a v n, In (TxAddOutputAddress a v n) tx ->
     DUST_LIMIT <= v /\ (a = cleanAddress addr /\ v = t \/ a = cleanAddress changeAddr /\ v = change)) /\
  (forall id vo scr a sq, In (TxAddInput id vo scr a sq) tx -> sq = 4294967293) /\
  exists ins outs sigs,
    tx = TxNew (default 0 (rec_get REPLAY_LOCKTIME network)) :: ins ++ outs ++ sigs ++ [TxFinalize] /\
    Forall2 (spends w network) sel ins /\ Forall2 (signs w network) sel sigs /\
    existsb is_input outs = false /\ existsb is_sign outs = false.
Proof.
  intros sel change Hdust Hne Hb.
  assert (Hcover : t + feeSats <= sum_items sel).
  { unfold sel in *. by destruct (selectUtxos_cases utxos t feeSats) as (k & _ & _ & [[? ->]|(_ & _ & E)]). }
  apply build_tx_inv in Hb as (ins & sigs & -> & Hsp & Hsg).
  pose proof (spends_amounts _ _ _ _ Hsp) as Hm. pose proof (spends_inputs _ _ _ _ Hsp) as Hins.
  pose proof (signs_sigs _ _ _ _ Hsg) as Hsigs.
  assert (Htot : inputs_total ins = sum_items sel) by (unfold inputs_total, sum_items; by rewrite Hm).
  pose proof (amounts_of_inputs ins Hins) as Hout0. pose proof (amounts_of_sigs sigs Hsigs) as [Hs1 Hs2].
  assert (Ho := fun a v n => built_output_inv network addr t change changeAddr ins sigs a v n Hins Hsigs).
  assert (Hi := fun id vo scr a sq =>
    built_input_inv network addr t change changeAddr ins sigs id vo scr a sq Hins Hsigs).
  set (tx := _ ++ ins ++ _) in *.
  assert (Ht : inputs_total tx = sum_items sel /\
    outputs_total tx = t + (if 546 <? change then change else 0)).
  { subst tx. rewrite !(proj1 (totals_app _ _)), !(proj2 (totals_app _ _)), Htot, Hout0, Hs1, Hs2.
    unfold inputs_total, outputs_total, sumZ, change_output.
    by destruct (546 <? change); cbn [map foldr input_amount output_amount]; split; lia. }
  destruct Ht as [-> ->]. split_and!; [done| | |done| | |done|].
  1, 2: unfold change, feeSats, DUST_LIMIT in *; destruct (Z.ltb_spec 546 (sum_items sel - t - 1000)); lia.
  - subst tx. rewrite !in_app_iff. simpl. tauto.
  - intros a v n Hin. apply Ho in Hin as [[-> ->]|(-> & -> & ?)]; unfold DUST_LIMIT in *; split; auto; lia.
  - exists ins, ([TxAddOutputAddress (cleanAddress addr) t (getBtcNetwork network)] ++
      change_output network changeAddr change), sigs. split_and!; [|done|done|..].
    + done.
    + unfold change_output. by destruct (546 <? change).
    + unfold change_output. by destruct (546 <? change).
Qed.

(** A permissive stand-in for the transaction library. *)
Definition toy_btc : BtcLibrary := {|
  tx_check _ c := match c with
                  | TxAddOutputAddress a _ _ => if str_truthy a then Ok tt else Throw "address"
                  | _ => Ok tt
                  end;
  p2wpkh_script pub := Ok (0 :: 20 :: pub);
  hex_decode s := match digits_of 16 s with Some ds => Ok ds | None => Throw "hex" end;
  hex_encode := string_of_digits;
  tx_extract tx := Ok (map (fun c => Z.abs (output_amount c) mod 16) tx)
|}.

Lemma withdrawal_tx_conserves_witness :
  let us := map utxo_of [500; 2000; 1500] in
  let w := @Build_HDWallet toy_library [7] in
  let sel := selectUtxos us (Fin 2000) feeSats in
  exists tx,
    @build_tx toy_btc toy_library "signet" "tb1dest" (Fin 2000)
      (Fin (sum_items sel - 2000 - feeSats)) sel w "tb1chg" = Ok (Some tx) /\
    inputs_total tx = 3500 /\ 1000 <= inputs_total tx - outputs_total tx <= 1546 /\
    length (filter (fun c => is_sign c = true) tx) = 2%nat /\
    exists ins outs sigs, tx = TxNew 0 :: ins ++ outs ++ sigs ++ [TxFinalize] /\
      Forall2 (@spends toy_btc toy_library w "signet") sel ins /\ Forall2 (@signs toy_library w "signet") sel sigs.
Proof.
  eexists. split; [vm_compute; reflexivity|].
  match goal with |- inputs_total ?tx = _ /\ _ =>
    destruct (@withdrawal_tx_conserves toy_btc toy_library "signet" "tb1dest" 2000
      (map utxo_of [500; 2000; 1500]) (@Build_HDWallet toy_library [7]) "tb1chg" tx)
      as (H1 & H2 & _ & _ & _ & _ & ins & outs & sigs & Htx & Hsp & Hsg & _)
  end.
  - vm_compute. discriminate.
  - vm_compute. discriminate.
  - vm_compute. reflexivity.
  - split_and!; [rewrite H1; vm_compute; reflexivity|exact (proj1 H2)|exact (proj2 H2)|vm_compute; reflexivity|].
    exists ins, outs, sigs. split; [rewrite Htx; reflexivity|exact (conj Hsp Hsg)].
Defined.

(** The wei form of an amount converts back exactly: what the federation
    minted for [sats] satoshis ([sats * 10^10] wei, printed as an integer)
    converts to the same [sats], as a text and as a Number. *)
Theorem ecxToSats_wei_roundtrip sats network :
  0 <= sats < 2 ^ 53 ->
  ecxToSats (AmtStr (dec_str (sats * ECX_TO_SATS))) network = Fin sats.
Proof.
  intros Hs. unfold ecxToSats, ECX_TO_SATS. cbn [amount_truthy amount_string].
  destruct (dec_str_no_dot (sats * 10 ^ 10)) as [-> ->]; [lia|]. cbn [negb].
  rewrite BigInt_of_dec_str, Z.quot_mul by lia. apply Number_of_BigInt_exact. lia.
Qed.

Lemma ecxToSats_wei_roundtrip_witness :
  ecxToSats (AmtStr (dec_str (133700 * ECX_TO_SATS))) "mainnet" = Fin 133700.
Proof. apply (ecxToSats_wei_roundtrip 133700 "mainnet"). lia. Defined.

(** The decimal form is accurate to one satoshi: for a positive decimal
    numeral [n / d] ECX of less than 2^50 satoshis, the double arithmetic of
    [Math.floor(parseFloat(s) * 1e8)] gives a finite result above the exact
    amount minus two and below the exact amount plus one. *)
Theorem ecxToSats_decimal_accuracy s network n d :
  includes "." s = true -> parseFloat s = Some (PFrac false n d) ->
  0 < n -> 0 < d -> n * 100000000 < d * 2 ^ 50 ->
  exists r, ecxToSats (AmtStr s) network = Fin r /\
    n * 100000000 - 2 * d < d * r /\ d * r < n * 100000000 + d.
Proof.
  intros Hdot Hp Hn Hd Hb. unfold ecxToSats. cbn [amount_truthy amount_string].
  assert (str_truthy s = true) as -> by (by destruct s). cbn [negb]. rewrite Hdot, Hp.
  destruct (floor_scaled_error n d 100000000 Hn Hd ltac:(lia) Hb) as (r & -> & H1 & H2).
  exists r. split; [done|lia].
Qed.

Lemma ecxToSats_decimal_accuracy_witness :
  exists r, ecxToSats (AmtStr "0.1337") "signet" = Fin r /\
    1337 * 100000000 - 2 * 10000 < 10000 * r /\ 10000 * r < 1337 * 100000000 + 10000.
Proof.
  apply (ecxToSats_decimal_accuracy "0.1337" "signet" 1337 10000); vm_compute; reflexivity.
Defined.

(** The one-satoshi loss happens: 0.29 ECX is 29000000 satoshis. *)
Lemma ecxToSats_decimal_loses_a_satoshi : ecxToSats (AmtStr "0.29") "mainnet" = Fin 28999999.
Proof. vm_compute. reflexivity. Qed.

(** A whole number of ECX typed without a dot is read as wei, so every
    amount below 10^10 converts to zero satoshis and the withdrawal is
    refused. *)
Theorem ecxToSats_whole_number_is_wei n network :
  0 <= n < 10 ^ 10 -> ecxToSats (AmtStr (dec_str n)) network = Fin 0.
Proof.
  intros Hn. unfold ecxToSats, ECX_TO_SATS. cbn [amount_truthy amount_string].
  destruct (dec_str_no_dot n) as [-> ->]; [lia|]. cbn [negb].
  by rewrite BigInt_of_dec_str, Z.quot_small by lia.
Qed.

Lemma ecxToSats_whole_number_is_wei_witness : ecxToSats (AmtStr (dec_str 5)) "mainnet" = Fin 0.
Proof. apply (ecxToSats_whole_number_is_wei 5 "mainnet"). lia. Defined.

(** Against every Esplora behaviour and every library behaviour the
    builder returns: it never throws and leaves the service state alone; a
    hash it returns comes from an accepted broadcast, the last query of the
    run, of the bytes of a transaction built from UTXOs selected for exactly
    the requested amount. *)
Theorem withdrawal_broadcast_justified {S : Type} `{Environment} `{BtcLibrary} `{HdLibrary}
    network wd deposits url w changeAddr (s : S) t :
  runs (buildSignAndBroadcastWithdrawal network wd deposits url w changeAddr) s t
    (fun o s' t' => s' = s /\ exists r, o = Ok r /\
      forall h, r = Some h -> exists target utxos tx raw e t0,
        target = sats_or (wr_amount_sats wd) (ecxToSats (wr_amount_ecx wd) (wr_network wd)) /\
        num_lt target (Fin DUST_LIMIT) = false /\
        let sel := selectUtxos utxos target feeSats in
        sel <> [] /\
        build_tx network (wr_ecash_address wd) target
          (num_sub (num_sub (Fin (sum_items sel)) target) (Fin feeSats)) sel w changeAddr
          = Ok (Some tx) /\
        tx_extract tx = Ok raw /\ t' = e :: t0 /\ broadcast_of url (hex_encode raw) h e).
Proof.
  unfold buildSignAndBroadcastWithdrawal. set (target := sats_or _ _).
  destruct (num_le target (Fin 0)); [run_step; split; [done|]; by eexists|].
  destruct (num_lt target (Fin DUST_LIMIT)) eqn:Edust; [run_step; split; [done|]; by eexists|].
  apply runs_bind. eapply runs_mono; [apply collect_utxos_runs|].
  intros [all|m] s1 t1 (Hok & -> & _); [|done].
  destruct all as [|i0 all]; [run_step; split; [done|]; by eexists|].
  set (utxos := i0 :: all). destruct (selectUtxos utxos target feeSats) as [|j sel] eqn:Esel;
    [run_step; split; [done|]; by eexists|].
  apply runs_try, runs_bind, runs_lift. rewrite <-Esel.
  destruct (build_tx _ _ _ _ _ _ _) as [[tx|]|] eqn:Eb; [|run_step; split; [done|]; by eexists..].
  apply runs_bind, runs_lift.
  destruct (tx_extract tx) as [raw|] eqn:Eraw; [|run_step; split; [done|]; by eexists].
  apply runs_bind. eapply runs_mono; [apply broadcastTx_runs|].
  intros [r|m] s2 t2 (-> & r' & e & Hr & -> & Hb); [|done]. injection Hr as <-.
  destruct r as [h|]; [|run_step; split; [done|]; by eexists].
  destruct (str_truthy h) eqn:Eh; run_step; split; try done; eexists; split; try done.
  intros h' [= <-]. exists target, utxos, tx, raw, e, t1. rewrite Esel in Eb |- *.
  split_and!; try done. apply Hb; [done|]. by destruct h.
Qed.
