(* ===== verification/Federation.v ===== *)
(** * Federation service: packages/federation/src/index.ts

    Configuration, the cached clients, the HTTP helpers, deposit detection on
    Esplora, minting on the L2, deposit and withdrawal processing, and the
    polling loop. Console output is not modelled. *)

From Stdlib Require Import ZArith Lia Ascii String List Bool.
From stdpp Require Import base list strings numbers.
From S2P Require Import Prelude JsNumber HdWallet Effects Withdraw.
Local Open Scope Z_scope.
Local Open Scope eff_scope.

(** ** Configuration *)

Record Config := {
  API_URL : string;
  FEDERATION_TOKEN : string;
  HD_MNEMONIC : string;
  MINTER_PRIVATE_KEY : string;
  RPC_URLS : list (string * string);
  ESPLORA_URLS : list (string * string);
  MIN_CONFIRMATIONS : list (string * jsnum);
  ECASH_MAINNET_FORK_HEIGHT : jsnum
}.

(** [process.env.X || d] *)
Definition env_or (env : string -> option string) (x d : string) : string :=
  str_or (default "" (env x)) d.

(** [Number(process.env.X || d)], for a variable that is unset, holds an
    integer numeral, or holds no number at all (NaN): the confirmation counts
    and the fork height are integers. *)
Definition env_num (env : string -> option string) (x : string) (d : Z) : jsnum :=
  match env x with
  | Some s => if str_truthy s
              then match BigInt_of_string s with Ok z => Number_of_BigInt z | Throw _ => NaN end
              else Fin d
  | None => Fin d
  end.

Definition min_confirmations (env : string -> option string) : list (string * jsnum) :=
  [("mainnet", env_num env "CONFIRMATIONS_MAINNET" 3);
   ("testnet", env_num env "CONFIRMATIONS_TESTNET" 1);
   ("signet", env_num env "CONFIRMATIONS_SIGNET" 1)].

Definition fork_height (env : string -> option string) : jsnum :=
  env_num env "ECASH_MAINNET_FORK_HEIGHT" 973728.

Definition config_of_env (env : string -> option string) : Config := {|
  API_URL := env_or env "API_URL" "https://snowside.network/v1";
  FEDERATION_TOKEN := env_or env "FEDERATION_TOKEN" "dev-secret";
  HD_MNEMONIC := env_or env "HD_MNEMONIC" "";
  MINTER_PRIVATE_KEY := env_or env "MINTER_PRIVATE_KEY" "";
  RPC_URLS :=
    [("mainnet", env_or env "MAINNET_RPC" "");
     ("testnet", env_or env "TESTNET_RPC" "");
     ("signet", env_or env "SIGNET_RPC" "")];
  ESPLORA_URLS :=
    [("mainnet", env_or env "MAINNET_ESPLORA" "https://esplora.ecash.ninja");
     ("testnet", env_or env "TESTNET_ESPLORA" "https://esplora.beta.ecash.ninja");
     ("signet", env_or env "SIGNET_ESPLORA" "https://esplora.signet.drivechain.info")];
  MIN_CONFIRMATIONS := min_confirmations env;
  ECASH_MAINNET_FORK_HEIGHT := fork_height env
|}.

(** [!RECORD[network]] fails for a missing or an empty entry. *)
Definition url_of (r : list (string * string)) (network : string) : option string :=
  match rec_get r network with
  | Some u => if str_truthy u then Some u else None
  | None => None
  end.

Definition NATIVE_MINTER : string := "0x0200000000000000000000000000000000000001".

Definition CHAIN_IDS : list (string * Z) :=
  [("mainnet", 32904); ("testnet", 33160); ("signet", 33416)].

Definition SATS_TO_ECX : Z := 10 ^ 10.

Definition satsToEcxMultiplier (network : string) : Z := SATS_TO_ECX.

(** ** Types *)

Record Deposit := {
  d_id : string;
  d_network : string;
  d_snowside_address : string;
  d_ecash_address : option string;
  d_derivation_index : option Z;
  d_amount_sats : option Z;
  d_amount_ecx : field;
  d_ecash_tx_hash : option string;
  d_mint_tx_hash : option string;
  d_status : string;
  d_created_at : option Z
}.

Record Withdrawal := {
  w_id : string;
  w_network : string;
  w_snowside_address : string;
  w_ecash_address : string;
  w_amount_ecx : ecx_amount;
  w_amount_sats : option Z;
  w_burn_tx_hash : option string;
  w_ecash_tx_hash : option string;
  w_status : string;
  w_created_at : option Z
}.

Definition str_field (r : record) (k : string) : string := default "" (fget_str r k).

Definition Deposit_of (r : record) : Deposit := {|
  d_id := str_field r "id";
  d_network := str_field r "network";
  d_snowside_address := str_field r "snowside_address";
  d_ecash_address := fget_str r "ecash_address";
  d_derivation_index := fget_int r "derivation_index";
  d_amount_sats := fget_int r "amount_sats";
  d_amount_ecx := fget r "amount_ecx";
  d_ecash_tx_hash := fget_str r "ecash_tx_hash";
  d_mint_tx_hash := fget_str r "mint_tx_hash";
  d_status := str_field r "status";
  d_created_at := fget_int r "created_at"
|}.

Definition amount_of_field (f : field) : ecx_amount :=
  match f with
  | FNull => AmtNull
  | FInt z => AmtNum (dec_str z)
  | FFrac repr => AmtNum repr
  | FStr s => AmtStr s
  end.

Definition Withdrawal_of (r : record) : Withdrawal := {|
  w_id := str_field r "id";
  w_network := str_field r "network";
  w_snowside_address := str_field r "snowside_address";
  w_ecash_address := str_field r "ecash_address";
  w_amount_ecx := amount_of_field (fget r "amount_ecx");
  w_amount_sats := fget_int r "amount_sats";
  w_burn_tx_hash := fget_str r "burn_tx_hash";
  w_ecash_tx_hash := fget_str r "ecash_tx_hash";
  w_status := str_field r "status";
  w_created_at := fget_int r "created_at"
|}.

Definition FundedDeposit_of (r : record) : FundedDeposit := {|
  fd_id := str_field r "id";
  fd_network := str_field r "network";
  fd_ecash_address := str_field r "ecash_address";
  fd_derivation_index := fget_int r "derivation_index";
  fd_amount_sats := fget_int r "amount_sats"
|}.

Definition request_of (w : Withdrawal) : WithdrawalRequest := {|
  wr_id := w_id w;
  wr_network := w_network w;
  wr_snowside_address := w_snowside_address w;
  wr_ecash_address := w_ecash_address w;
  wr_amount_ecx := w_amount_ecx w;
  wr_amount_sats := w_amount_sats w;
  wr_burn_tx_hash := w_burn_tx_hash w;
  wr_ecash_tx_hash := w_ecash_tx_hash w;
  wr_status := w_status w
|}.

(** ** Pure parts *)

(** [s.replace(/^0x/, '')] *)
Definition strip_0x (s : string) : string :=
  if starts_with "0x" s then drop_str 2 s else s.

Definition MINT_SELECTOR : string := "0x4f5aaaba".

(** Encode a mintNativeCoin(address to, uint256 amount) call. *)
Definition encodeMintCall (toAddress : string) (amount : Z) : string :=
  let addressPadded := pad_start 64 "0" (strip_0x (to_lower toAddress)) in
  let amountHex := pad_start 64 "0" (toString16 amount) in
  MINT_SELECTOR +:+ addressPadded +:+ amountHex.

(** [typeof block_height === 'number' && confirmed && tip - h + 1 >= minConfs] *)
Definition utxo_confirmed (tip : Z) (minConfs : jsnum) (u : esplora_utxo) : bool :=
  match eu_confirmed u, eu_block_height u with
  | Some true, Some h => num_le minConfs (Fin (tip - h + 1))
  | _, _ => false
  end.

Record deposit_hit := { hit_amount : Z; hit_txHash : string }.

(** What a UTXO listing amounts to: the confirmed total and the first hash. *)
Definition confirmed_hit (tip : Z) (minConfs : jsnum) (utxos : list esplora_utxo)
  : option deposit_hit :=
  match filter (fun u => utxo_confirmed tip minConfs u = true) utxos with
  | [] => None
  | (u :: _) as confirmed =>
      Some {| hit_amount := foldl (fun sum x => sum + default 0 (eu_value x)) 0 confirmed;
              hit_txHash := default "" (eu_txid u) |}
  end.

(** [Math.floor(Date.now() / 1000) % 1000000] *)
Definition time_index (now : Z) : Z := Z.rem (now / 1000) 1000000.

Definition field_of_num (n : jsnum) : field :=
  match n with Fin z => FInt z | _ => FNull end.

Definition WITHDRAWAL_TIMEOUT_MS : Z := 15 * 60 * 1000.

Definition timed_out (now : Z) (w : Withdrawal) : bool :=
  let createdAt := default 0 (w_created_at w) in
  (0 <? createdAt) && (WITHDRAWAL_TIMEOUT_MS <? now - createdAt).

Definition opt_truthy (o : option string) : bool :=
  match o with Some s => str_truthy s | None => false end.

(** ** The service *)

(** Module-level variables: the memoised wallet, account and clients. *)
Record service `{HdLibrary} := Service {
  s_wallet : option HDWallet;
  s_account : option string;
  s_walletClients : list string;
  s_publicClients : list string
}.
#[global] Arguments Service {_} _ _ _ _.

(** viem: [privateKeyToAccount] throws on a malformed key. *)
Class ViemLibrary := { privateKeyToAccount : string -> outcome string }.

Section federation.
Context `{HL : HdLibrary} `{BL : BtcLibrary} `{VL : ViemLibrary} `{E : Environment}.
Context (cfg : Config).

Local Abbreviation M := (M service).

Definition auth : string := "Bearer " +:+ FEDERATION_TOKEN cfg.

(** *** Cached clients *)

Definition getAccount : M string :=
  st <- mget ;;
  match s_account st with
  | Some a => mret a
  | None =>
      if negb (str_truthy (MINTER_PRIVATE_KEY cfg)) then mthrow "MINTER_PRIVATE_KEY not set"
      else
        let key := if starts_with "0x" (MINTER_PRIVATE_KEY cfg)
                   then MINTER_PRIVATE_KEY cfg
                   else "0x" +:+ MINTER_PRIVATE_KEY cfg in
        a <- mlift (privateKeyToAccount key) ;;
        mput (Service (s_wallet st) (Some a) (s_walletClients st) (s_publicClients st)) ;;
        mret a
  end.

Definition getWalletClient (network : string) : M unit :=
  st <- mget ;;
  if existsb (String.eqb network) (s_walletClients st) then mret tt
  else match url_of (RPC_URLS cfg) network with
       | None => mthrow ("No RPC URL for network: " +:+ network)
       | Some _ =>
           _ <- getAccount ;;
           st' <- mget ;;
           mput (Service (s_wallet st') (s_account st')
                   (network :: s_walletClients st') (s_publicClients st'))
       end.

Definition getPublicClient (network : string) : M unit :=
  st <- mget ;;
  if existsb (String.eqb network) (s_publicClients st) then mret tt
  else match url_of (RPC_URLS cfg) network with
       | None => mthrow ("No RPC URL for network: " +:+ network)
       | Some _ =>
           mput (Service (s_wallet st) (s_account st)
                   (s_walletClients st) (network :: s_publicClients st))
       end.

Definition getWallet : M HDWallet :=
  st <- mget ;;
  match s_wallet st with
  | Some w => mret w
  | None =>
      if negb (str_truthy (HD_MNEMONIC cfg)) then mthrow "HD_MNEMONIC env var not set"
      else
        w <- mlift (new_HDWallet (HD_MNEMONIC cfg)) ;;
        mput (Service (Some w) (s_account st) (s_walletClients st) (s_publicClients st)) ;;
        mret w
  end.

(** *** HTTP helpers *)

(** The tail the three helpers share: network errors and parse errors throw,
    and so does a status outside 200-299. *)
Definition http_json {A} (what : string) (r : http A) : M A :=
  match r with
  | NetErr m => mthrow m
  | Resp status body =>
      if negb (resp_ok status) then mthrow (what +:+ " failed: " +:+ dec_str status)
      else match body with Some a => mret a | None => mthrow "invalid JSON" end
  end.

Definition apiGet (path : string) : M (list record) :=
  r <- ask (QApiGet (API_URL cfg +:+ path) auth) ;;
  http_json ("API GET " +:+ path) r.

Definition apiPatch (path : string) (body : record) : M unit :=
  r <- ask (QApiPatch (API_URL cfg +:+ path) auth body) ;;
  http_json ("API PATCH " +:+ path) r.

Definition apiPost (path : string) : M unit :=
  r <- ask (QApiPost (API_URL cfg +:+ path) auth) ;;
  http_json ("API POST " +:+ path) r.

(** *** Esplora *)

Definition getTipHeight (esploraUrl : string) : M Z :=
  mtry
    (resp <- ask (QTip esploraUrl) ;;
     match resp with
     | NetErr m => mthrow m
     | Resp status body =>
         if negb (resp_ok status) then mret 0
         else match body with Some h => mret h | None => mthrow "resp.text" end
     end)
    (fun _ => mret 0).

Definition checkAddressForDeposits (network address : string) : M (option deposit_hit) :=
  match url_of (ESPLORA_URLS cfg) network with
  | None => mret None
  | Some esploraUrl =>
      let cleanAddr := cleanAddress address in
      mtry
        (tip <- getTipHeight esploraUrl ;;
         if tip =? 0 then mret None
         else if String.eqb network "mainnet"
                   && num_lt (Fin tip) (ECASH_MAINNET_FORK_HEIGHT cfg) then mret None
         else
           resp <- ask (QUtxo esploraUrl cleanAddr) ;;
           match resp with
           | NetErr m => mthrow m
           | Resp status body =>
               if negb (resp_ok status) then mret None
               else match body with
                    | None => mthrow "invalid JSON"
                    | Some (inl _) => mret None
                    | Some (inr utxos) =>
                        let minConfs := default (Fin 1) (rec_get (MIN_CONFIRMATIONS cfg) network) in
                        mret (confirmed_hit tip minConfs utxos)
                    end
           end)
        (fun _ => mret None)
  end.

(** *** Snowside L2 minting *)

Definition mintEcx (network toAddress : string) (satAmount : Z) : M (option string) :=
  match url_of (RPC_URLS cfg) network with
  | None => mret None
  | Some _ =>
      if negb (str_truthy (MINTER_PRIVATE_KEY cfg)) then mret None
      else
        mtry
          (getWalletClient network ;;
           let amount := satAmount * satsToEcxMultiplier network in
           let data := encodeMintCall toAddress amount in
           _ <- getAccount ;;
           sent <- ask (QSendTx network NATIVE_MINTER data) ;;
           txHash <- mlift sent ;;
           getPublicClient network ;;
           got <- ask (QReceipt network txHash) ;;
           success <- mlift got ;;
           if success then mret (Some txHash) else mret None)
          (fun _ => mret None)
  end.

(** *** Deposit processing *)

Definition assignDepositAddress (deposit : Deposit) : M unit :=
  if opt_truthy (d_ecash_address deposit) then mret tt
  else
    now <- ask QNow ;;
    let index := time_index now in
    w <- getWallet ;;
    address <- mlift (deriveDepositAddress w (d_network deposit) index) ;;
    apiPatch ("/fed/deposit/" +:+ d_id deposit)
      [("ecash_address", FStr address); ("derivation_index", FInt index)].

(** [if (mintTxHash) { PATCH status minted }] *)
Definition record_mint (deposit : Deposit) (amount : Z) (mintTxHash : option string) : M unit :=
  match mintTxHash with
  | Some h =>
      if str_truthy h then
        let ecxAmount := Number_of_BigInt (amount * satsToEcxMultiplier (d_network deposit)) in
        apiPatch ("/fed/deposit/" +:+ d_id deposit)
          [("status", FStr "minted"); ("amount_ecx", field_of_num ecxAmount);
           ("mint_tx_hash", FStr h)]
      else mret tt
  | None => mret tt
  end.

Definition processDeposit (deposit : Deposit) : M unit :=
  match d_ecash_address deposit with
  | None => mret tt
  | Some address =>
      if negb (str_truthy address) || String.eqb (d_status deposit) "minted" then mret tt
      else
        result <- checkAddressForDeposits (d_network deposit) address ;;
        match result with
        | None => mret tt
        | Some hit =>
            (if String.eqb (d_status deposit) "pending" then
               apiPatch ("/fed/deposit/" +:+ d_id deposit)
                 [("status", FStr "confirmed"); ("amount_sats", FInt (hit_amount hit));
                  ("ecash_tx_hash", FStr (hit_txHash hit))]
             else mret tt) ;;
            mintTxHash <- mintEcx (d_network deposit) (d_snowside_address deposit) (hit_amount hit) ;;
            record_mint deposit (hit_amount hit) mintTxHash
        end
  end.

(** *** Withdrawal processing *)

Definition verifyBurnTx (network burnTxHash : string) : M bool :=
  if negb (str_truthy burnTxHash) then mret false
  else
    mtry
      (getPublicClient network ;;
       got <- ask (QGetTx network burnTxHash) ;;
       tx <- mlift got ;;
       if negb tx then mret false else mret true)
      (fun _ => mret false).

Definition fetchFundedDeposits : M (list FundedDeposit) :=
  mtry
    (resp <- ask (QApiGet (API_URL cfg +:+ "/fed/deposits/funded") auth) ;;
     match resp with
     | NetErr m => mthrow m
     | Resp status body =>
         if negb (resp_ok status) then mret []
         else match body with
              | Some rows => mret (map FundedDeposit_of rows)
              | None => mthrow "invalid JSON"
              end
     end)
    (fun _ => mret []).

Definition complete_withdrawal (withdrawal : Withdrawal) (l1TxHash : string) : M unit :=
  let amountSats := sats_or (w_amount_sats withdrawal)
    (ecxToSats (w_amount_ecx withdrawal) (w_network withdrawal)) in
  completed_at <- ask QNow ;;
  apiPatch ("/fed/withdraw/" +:+ w_id withdrawal)
    [("status", FStr "completed"); ("ecash_tx_hash", FStr l1TxHash);
     ("amount_sats", field_of_num amountSats); ("completed_at", FInt completed_at)].

Definition processWithdrawal (withdrawal : Withdrawal) : M unit :=
  if negb (String.eqb (w_status withdrawal) "pending") then mret tt
  else
    let burn := default "" (w_burn_tx_hash withdrawal) in
    if negb (str_truthy burn) then mret tt
    else if negb (str_truthy (MINTER_PRIVATE_KEY cfg)) then mret tt
    else
      verified <- verifyBurnTx (w_network withdrawal) burn ;;
      if negb verified then mret tt
      else
        fundedDeposits <- fetchFundedDeposits ;;
        match fundedDeposits with
        | [] => mret tt
        | _ =>
            now <- ask QNow ;;
            w <- getWallet ;;
            changeAddress <- mlift (deriveDepositAddress w (w_network withdrawal) (time_index now)) ;;
            match url_of (ESPLORA_URLS cfg) (w_network withdrawal) with
            | None => mret tt
            | Some esploraUrl =>
                w' <- getWallet ;;
                l1TxHash <- buildSignAndBroadcastWithdrawal (w_network withdrawal)
                  (request_of withdrawal) fundedDeposits esploraUrl w' changeAddress ;;
                match l1TxHash with
                | Some h => if str_truthy h then complete_withdrawal withdrawal h else mret tt
                | None => mret tt
                end
            end
        end.

(** *** Main loop *)

Definition checkIn : M unit := mtry (apiPost "/fed/checkin") (fun _ => mret tt).

Definition processOneDeposit (deposit : Deposit) : M unit :=
  mtry
    (if negb (opt_truthy (d_ecash_address deposit))
     then assignDepositAddress deposit
     else processDeposit deposit)
    (fun _ => mret tt).

Definition processPendingDeposits : M unit :=
  mtry
    (rows <- apiGet "/fed/deposits/pending" ;;
     mfor (map Deposit_of rows) processOneDeposit)
    (fun _ => mret tt).

Definition processOneWithdrawal (now : Z) (withdrawal : Withdrawal) : M unit :=
  mtry
    (if timed_out now withdrawal then
       apiPatch ("/fed/withdraw/" +:+ w_id withdrawal)
         [("status", FStr "failed"); ("completed_at", FInt now)]
     else processWithdrawal withdrawal)
    (fun _ => mret tt).

Definition processPendingWithdrawals : M unit :=
  mtry
    (rows <- apiGet "/fed/withdrawals/pending" ;;
     now <- ask QNow ;;
     mfor (map Withdrawal_of rows) (processOneWithdrawal now))
    (fun _ => mret tt).

(** One turn of [while (true)]. *)
Definition poll_once : M unit :=
  mtry (checkIn ;; processPendingDeposits ;; processPendingWithdrawals) (fun _ => mret tt).

(** [n] turns of the loop; the loop itself never ends. *)
Fixpoint main_loop (n : nat) : M unit :=
  match n with
  | O => mret tt
  | S n' => poll_once ;; main_loop n'
  end.
End federation.

(** ** What justifies an action

    [event_ok cfg e before] says what must already be on record when the
    service acts: a mint needs a listed deposit and a confirmed Esplora
    listing, a broadcast needs a listed pending withdrawal with a burn the L2
    node knows, and a status change needs the action it reports. The listing
    must be current: no final report on its record was sent since. *)

Lemma foldl_sum {A} (f : A -> Z) l z : foldl (fun s x => s + f x) z l = z + sumZ (map f l).
Proof.
  revert z. induction l as [|x l IH]; intros z; simpl; unfold sumZ in *; simpl; [lia|].
  rewrite IH. lia.
Qed.

Section justification.
Context `{HL : HdLibrary} `{BL : BtcLibrary}.
Context (cfg : Config).

(** The API listed this record at [path]. *)
Definition listed (path : string) (row : record) (before : trace) : Prop :=
  exists status rows,
    In (Ev (QApiGet (API_URL cfg +:+ path) (auth cfg)) (Resp status (Some rows))) before /\
    resp_ok status = true /\ In row rows.

Definition row_id (row : record) : string := str_field row "id".

Definition final_status (st : string) : bool :=
  existsb (String.eqb st) ["minted"; "completed"; "failed"].

(** The record an event reports a final status of, by its URL. *)
Definition settling (e : event) : option string :=
  match ev_query e with
  | QApiPatch url _ body =>
      match fget_str body "status" with
      | Some st => if final_status st then Some url else None
      | None => None
      end
  | _ => None
  end.

Definition calm (e : event) : Prop := settling e = None.

(** The API listed this record, and no final status was reported of it since,
    as far as the listing tells its records apart. *)
Definition fresh (listing item : string) (row : record) (before : trace) : Prop :=
  exists status rows mid older,
    before = mid ++ Ev (QApiGet (API_URL cfg +:+ listing) (auth cfg)) (Resp status (Some rows)) :: older /\
    resp_ok status = true /\ In row rows /\
    (NoDup (map row_id rows) ->
     Forall (fun e => settling e <> Some (API_URL cfg +:+ item +:+ row_id row)) mid).

Definition deposit_listing : string := "/fed/deposits/pending".
Definition deposit_item : string := "/fed/deposit/".
Definition withdrawal_listing : string := "/fed/withdrawals/pending".
Definition withdrawal_item : string := "/fed/withdraw/".

(** The outputs of a listing with the required confirmations at [tip], and what
    they add up to. *)
Definition deep_enough (tip : Z) (minConfs : jsnum) (u : esplora_utxo) : Prop :=
  eu_confirmed u = Some true /\
  exists h, eu_block_height u = Some h /\ num_le minConfs (Fin (tip - h + 1)) = true.

Definition confirmed_total (tip : Z) (minConfs : jsnum) (utxos : list esplora_utxo) (total : Z) : Prop :=
  exists confirmed others, utxos ≡ₚ confirmed ++ others /\ confirmed <> [] /\
    Forall (deep_enough tip minConfs) confirmed /\
    Forall (fun u => ~ deep_enough tip minConfs u) others /\
    total = sumZ (map (fun u => default 0 (eu_value u)) confirmed).

(** Esplora showed this confirmed total for the address, at a usable tip. *)
Definition observed_hit (network address : string) (hit : deposit_hit) (before : trace) : Prop :=
  exists url tip st1 st2 utxos,
    url_of (ESPLORA_URLS cfg) network = Some url /\
    In (Ev (QTip url) (Resp st1 (Some tip))) before /\ resp_ok st1 = true /\ tip <> 0 /\
    (network = "mainnet" -> num_lt (Fin tip) (ECASH_MAINNET_FORK_HEIGHT cfg) = false) /\
    In (Ev (QUtxo url (cleanAddress address)) (Resp st2 (Some (inr utxos)))) before /\
    resp_ok st2 = true /\
    confirmed_total tip (default (Fin 1) (rec_get (MIN_CONFIRMATIONS cfg) network)) utxos
      (hit_amount hit).

Lemma deep_enough_iff tip m u : utxo_confirmed tip m u = true <-> deep_enough tip m u.
Proof.
  unfold utxo_confirmed, deep_enough.
  destruct (eu_confirmed u) as [[]|], (eu_block_height u) as [h|]; naive_solver.
Qed.

Lemma confirmed_hit_total tip m utxos hit :
  confirmed_hit tip m utxos = Some hit -> confirmed_total tip m utxos (hit_amount hit).
Proof.
  intros Hhit. exists (filter (fun u => utxo_confirmed tip m u = true) utxos),
    (filter (fun u => ~ utxo_confirmed tip m u = true) utxos).
  unfold confirmed_hit in Hhit. split_and!.
  - by rewrite filter_app_complement.
  - intros E. by rewrite E in Hhit.
  - apply Forall_forall. intros u [Hu _]%list_elem_of_In%list_elem_of_filter. by apply deep_enough_iff.
  - apply Forall_forall. intros u [Hu _]%list_elem_of_In%list_elem_of_filter. by rewrite <-deep_enough_iff.
  - destruct (filter _ utxos) as [|u l]; [done|]. injection Hhit as <-. cbn [hit_amount].
    by rewrite foldl_sum.
Qed.

Definition deposit_funded (d : Deposit) (hit : deposit_hit) (before : trace) : Prop :=
  exists row address, fresh deposit_listing deposit_item row before /\ d = Deposit_of row /\
    d_status d <> "minted" /\ d_ecash_address d = Some address /\
    observed_hit (d_network d) address hit before.

Definition mint_justified (network to data : string) (before : trace) : Prop :=
  exists d hit, deposit_funded d hit before /\
    network = d_network d /\ to = NATIVE_MINTER /\
    data = encodeMintCall (d_snowside_address d) (hit_amount hit * 10 ^ 10).

(** The transaction a broadcast carries: it spends UTXOs for exactly the
    requested amount, in the sense of [build_tx]. *)
Definition pays_withdrawal (w : Withdrawal) (rawHex : string) : Prop :=
  exists target utxos wal changeAddr tx raw,
    target = sats_or (w_amount_sats w) (ecxToSats (w_amount_ecx w) (w_network w)) /\
    num_lt target (Fin DUST_LIMIT) = false /\
    selectUtxos utxos target feeSats <> [] /\
    build_tx (w_network w) (w_ecash_address w) target
      (num_sub (num_sub (Fin (sum_items (selectUtxos utxos target feeSats))) target) (Fin feeSats))
      (selectUtxos utxos target feeSats) wal changeAddr = Ok (Some tx) /\
    tx_extract tx = Ok raw /\ rawHex = hex_encode raw.

Definition withdrawal_due (w : Withdrawal) (before : trace) : Prop :=
  exists row burn now, fresh withdrawal_listing withdrawal_item row before /\ w = Withdrawal_of row /\
    w_status w = "pending" /\
    In (Ev QNow now) before /\ timed_out now w = false /\
    w_burn_tx_hash w = Some burn /\ burn <> "" /\
    In (Ev (QGetTx (w_network w) burn) (Ok true)) before.

Definition broadcast_justified (url rawHex : string) (before : trace) : Prop :=
  exists w, withdrawal_due w before /\ url_of (ESPLORA_URLS cfg) (w_network w) = Some url /\
    pays_withdrawal w rawHex.

Definition mint_reported (path hash : string) (before : trace) : Prop :=
  exists d hit, deposit_funded d hit before /\
    path = API_URL cfg +:+ "/fed/deposit/" +:+ d_id d /\
    In (Ev (QSendTx (d_network d) NATIVE_MINTER
              (encodeMintCall (d_snowside_address d) (hit_amount hit * 10 ^ 10))) (Ok hash)) before /\
    In (Ev (QReceipt (d_network d) hash) (Ok true)) before.

Definition completion_reported (path hash : string) (before : trace) : Prop :=
  exists w url rawHex e, withdrawal_due w before /\
    path = API_URL cfg +:+ "/fed/withdraw/" +:+ w_id w /\
    url_of (ESPLORA_URLS cfg) (w_network w) = Some url /\
    In e before /\ broadcast_of url rawHex hash e /\ pays_withdrawal w rawHex.

Definition failure_reported (path : string) (before : trace) : Prop :=
  exists row now, fresh withdrawal_listing withdrawal_item row before /\
    path = API_URL cfg +:+ "/fed/withdraw/" +:+ w_id (Withdrawal_of row) /\
    In (Ev QNow now) before /\ timed_out now (Withdrawal_of row) = true.

Definition confirmation_reported (path : string) (body : record) (before : trace) : Prop :=
  exists d hit, deposit_funded d hit before /\ d_status d = "pending" /\
    path = API_URL cfg +:+ "/fed/deposit/" +:+ d_id d /\
    fget body "amount_sats" = FInt (hit_amount hit).

Definition patch_justified (path : string) (body : record) (before : trace) : Prop :=
  match fget_str body "status" with
  | None => True
  | Some st =>
      if String.eqb st "minted" then mint_reported path (str_field body "mint_tx_hash") before
      else if String.eqb st "confirmed" then confirmation_reported path body before
      else if String.eqb st "completed" then completion_reported path (str_field body "ecash_tx_hash") before
      else st = "failed" /\ failure_reported path before
  end.

Definition event_ok (e : event) (before : trace) : Prop :=
  match ev_query e with
  | QSendTx network to data => mint_justified network to data before
  | QBroadcast url rawHex => broadcast_justified url rawHex before
  | QApiPatch path _ body => patch_justified path body before
  | _ => True
  end.

(** Justifications survive as the trace grows by calm events. *)
Lemma fresh_listed listing item row t : fresh listing item row t -> listed listing row t.
Proof.
  intros (st & rows & mid & older & -> & Hok & Hin & _). exists st, rows. split_and!; [|done|done].
  apply in_app_iff. right. by left.
Qed.

Lemma fresh_mono listing item row t t' : added calm t t' -> fresh listing item row t -> fresh listing item row t'.
Proof.
  intros (new & -> & Hnew) (st & rows & mid & older & -> & Hok & Hin & Hmid).
  exists st, rows, (new ++ mid), older. split_and!; [by rewrite app_assoc|done|done|].
  intros Hnd. apply Forall_app_2; [|by apply Hmid].
  eapply Forall_impl; [|exact Hnew]. by intros e ->.
Qed.

Lemma deposit_funded_mono d hit t t' :
  added calm t t' -> deposit_funded d hit t -> deposit_funded d hit t'.
Proof.
  intros Hadd. pose proof (added_extends _ _ _ Hadd) as Hext. intros (row & a & Hl & -> & Hst & Ha & url & tip & st1 & st2 & us & Hu & Ht & H1 & H0 & Hf & Hus & H2 & Hh).
  exists row, a. split_and!; eauto using fresh_mono.
  exists url, tip, st1, st2, us. split_and!; eauto with snow.
Qed.

Lemma withdrawal_due_mono w t t' : added calm t t' -> withdrawal_due w t -> withdrawal_due w t'.
Proof.
  intros Hadd. pose proof (added_extends _ _ _ Hadd) as Hext. intros (row & burn & now & Hl & -> & Hst & Hn & Ht & Hb & Hne & Hg).
  exists row, burn, now. split_and!; eauto using fresh_mono with snow.
Qed.
End justification.

(** ** Every step keeps the trace justified *)

Section federation_keeps.
Context `{HL : HdLibrary} `{BL : BtcLibrary} `{VL : ViemLibrary} `{E : Environment}.
Context (cfg : Config).

Local Abbreviation ok := (event_ok cfg).

(** The memoised clients ask the world nothing. *)
Definition silent {A} (c : M service A) : Prop :=
  forall s t, runs c s t (fun _ _ t' => t' = t).

Lemma silent_keeps {A} P (c : M service A) s t (Q : outcome A -> service -> trace -> Prop) :
  silent c -> (forall o s', Q o s' t) -> keeps P c s t Q.
Proof.
  intros Hc HQ Ht. eapply runs_mono; [apply Hc|]. intros o s' t' ->. by auto with snow.
Qed.

Ltac silent_tac :=
  unfold silent, runs, mbind, mget, mput, mlift, mret, mthrow; intros;
  repeat (simpl; match goal with |- context [match ?x with _ => _ end] =>
    lazymatch x with context [match _ with _ => _ end] => fail | _ => destruct x end end); try done.

Lemma getAccount_silent : silent (getAccount cfg).
Proof. unfold getAccount. silent_tac. Qed.

Lemma getWalletClient_silent network : silent (getWalletClient cfg network).
Proof.
  intros s t. unfold getWalletClient. apply runs_bind. unfold mget at 1, runs at 1.
  destruct (existsb _ _); [done|]. destruct (url_of _ _); [|done].
  apply runs_bind. eapply runs_mono; [apply getAccount_silent|]. intros [a|m] s' t' ->; done.
Qed.

Lemma getPublicClient_silent network : silent (getPublicClient cfg network).
Proof. unfold getPublicClient. silent_tac. Qed.

Lemma getWallet_silent : silent (getWallet cfg).
Proof. unfold getWallet. silent_tac. Qed.

Lemma lift_silent {A} (o : outcome A) : silent (mlift o).
Proof. done. Qed.

Hint Resolve getAccount_silent getWalletClient_silent getPublicClient_silent getWallet_silent
  lift_silent : silent.

(** A silent step followed by [f], whatever the step yields. *)
Lemma keeps_silent_bind {A B} P (c : M service A) (f : A -> M service B) s t R :
  silent c ->
  (forall a s', keeps P (f a) s' t R) -> (forall m s', R (Throw m) s' t) ->
  keeps P (mbind c f) s t R.
Proof.
  intros Hc Hf Hm. eapply keeps_bind with (Q := fun _ _ t' => t' = t).
  - apply silent_keeps; [done|]. done.
  - intros a s' t' _ ->. apply Hf.
  - intros m s' t' _ ->. apply Hm.
Qed.

(** A query that needs no justification, followed by [f]. *)
Lemma keeps_ask_bind {B} (q : query) (f : reply q -> M service B) s t R :
  (forall r, ok (Ev q r) t) -> (forall r, keeps ok (f r) s (Ev q r :: t) R) ->
  keeps ok (mbind (ask q) f) s t R.
Proof.
  intros HP Hf Ht. apply runs_bind, runs_ask. intros r.
  eapply runs_mono; [apply Hf; by split|]. intros o s' t' (Hext & Hok & HR).
  split_and!; [|done|done]. etransitivity; [apply extends_cons|done].
Qed.

Lemma http_json_silent {A} what (r : http A) : silent (http_json what r).
Proof. unfold http_json. silent_tac. Qed.

(** What the steps add to the trace: no final report but in the last step of
    the processing of a record. *)
Lemma silent_emits {A} (R : event -> Prop) (c : M service A) : silent c -> emits R c.
Proof. intros Hc s t. eapply runs_mono; [apply Hc|]. intros o s' t' ->. reflexivity. Qed.

Hint Resolve silent_emits getAccount_silent getWalletClient_silent getPublicClient_silent
  getWallet_silent lift_silent http_json_silent : emits.

Lemma getTipHeight_emits (R : event -> Prop) url :
  (forall r, R (Ev (QTip url) r)) -> emits R (getTipHeight url).
Proof. intros HE. unfold getTipHeight. by repeat emit_step. Qed.

Lemma checkAddress_emits network address : emits calm (checkAddressForDeposits cfg network address).
Proof.
  unfold checkAddressForDeposits. repeat (emit_step || apply getTipHeight_emits); done.
Qed.

Lemma mintEcx_emits network addr amount : emits calm (mintEcx cfg network addr amount).
Proof. unfold mintEcx. by repeat emit_step. Qed.

Lemma apiPatch_emits (R : event -> Prop) path body :
  (forall r, R (Ev (QApiPatch (API_URL cfg +:+ path) (auth cfg) body) r)) ->
  emits R (apiPatch cfg path body).
Proof. intros HE. unfold apiPatch. by repeat emit_step. Qed.

Lemma apiPatch_keeps path body s t :
  patch_justified cfg (API_URL cfg +:+ path) body t ->
  keeps ok (apiPatch cfg path body) s t anything.
Proof.
  intros Hj. unfold apiPatch. apply keeps_ask_bind; [intros r; exact Hj|].
  intros r. apply silent_keeps; [apply http_json_silent|done].
Qed.

(** *** Deposits *)

Lemma getTipHeight_keeps url s t :
  keeps ok (getTipHeight url) s t (fun o _ t' =>
    forall tip, o = Ok tip -> tip <> 0 ->
      exists st, In (Ev (QTip url) (Resp st (Some tip))) t' /\ resp_ok st = true).
Proof.
  unfold getTipHeight.
  eapply keeps_try with (Q := fun o _ t' =>
    forall tip, o = Ok tip -> tip <> 0 ->
      exists st, In (Ev (QTip url) (Resp st (Some tip))) t' /\ resp_ok st = true).
  - apply keeps_ask_bind; [done|]. intros r. destruct r as [m|st body]; [by keep_step|].
    destruct (resp_ok st) eqn:Hok; cbn [negb]; [|keep_step; intros tip [= <-]; done].
    destruct body as [h|]; keep_step; [|done]. intros tip [= <-] _. exists st. split; [by left|done].
  - auto.
  - intros m s' t' _ _. keep_step. intros tip [= <-]. done.
Qed.

Lemma checkAddress_keeps network address s t :
  keeps ok (checkAddressForDeposits cfg network address) s t (fun o _ t' =>
    forall hit, o = Ok (Some hit) -> observed_hit cfg network address hit t').
Proof.
  unfold checkAddressForDeposits. destruct (url_of _ _) as [url|] eqn:Eu; [|by keep_step].
  eapply keeps_try with (Q := fun o _ t' =>
    forall hit, o = Ok (Some hit) -> observed_hit cfg network address hit t'); [|auto|].
  2: { intros m s' t' _ _. by keep_step. }
  eapply keeps_bind; [apply getTipHeight_keeps| |done].
  intros tip s' t' Hext Htip. destruct (Z.eqb_spec tip 0) as [|Hz]; [by keep_step|].
  destruct (String.eqb network "mainnet" && _) eqn:Efork; [by keep_step|].
  destruct (Htip tip eq_refl Hz) as (st1 & Hin1 & Hok1).
  apply keeps_ask_bind; [done|]. intros r. destruct r as [m|st2 body]; [by keep_step|].
  destruct (resp_ok st2) eqn:Hok2; cbn [negb]; [|by keep_step].
  destruct body as [[[]|utxos]|]; keep_step; [done| |done].
  intros hit [= Hhit]. exists url, tip, st1, st2, utxos.
  split_and!; try done; [by right| |by left|by eapply confirmed_hit_total].
  intros ->. by rewrite String.eqb_refl in Efork.
Qed.

Lemma mintEcx_keeps d hit s t :
  deposit_funded cfg d hit t ->
  keeps ok (mintEcx cfg (d_network d) (d_snowside_address d) (hit_amount hit)) s t
    (fun o _ t' => forall h, o = Ok (Some h) ->
      In (Ev (QSendTx (d_network d) NATIVE_MINTER
           (encodeMintCall (d_snowside_address d) (hit_amount hit * 10 ^ 10))) (Ok h)) t' /\
      In (Ev (QReceipt (d_network d) h) (Ok true)) t').
Proof.
  intros Hf. unfold mintEcx. destruct (url_of _ _); [|by keep_step].
  destruct (negb _); [by keep_step|].
  apply keeps_try_same; [|intros; by keep_step].
  apply keeps_silent_bind; [auto with silent| |done]. intros _ s1.
  apply keeps_silent_bind; [auto with silent| |done]. intros _ s2.
  apply keeps_ask_bind; [intros r; by exists d, hit|]. intros sent.
  apply keeps_lift_bind. destruct sent as [txHash|m]; [|done].
  apply keeps_silent_bind; [auto with silent| |done]. intros _ s3.
  apply keeps_ask_bind; [done|]. intros got.
  apply keeps_lift_bind. destruct got as [[]|m]; [| |done]; keep_step; [|done].
  intros h [= <-]. split; [by right; left|by left].
Qed.

Lemma assignDepositAddress_keeps d s t : keeps ok (assignDepositAddress cfg d) s t anything.
Proof.
  unfold assignDepositAddress. keep_step; [by keep_step|].
  apply keeps_ask_bind; [done|]. intros now.
  apply keeps_silent_bind; [auto with silent| |done]. intros w s1.
  apply keeps_lift_bind. destruct (deriveDepositAddress _ _ _) as [a|]; [|done].
  by apply apiPatch_keeps.
Qed.

Lemma record_mint_keeps d hit h s t :
  deposit_funded cfg d hit t ->
  (forall x, h = Some x ->
    In (Ev (QSendTx (d_network d) NATIVE_MINTER
         (encodeMintCall (d_snowside_address d) (hit_amount hit * 10 ^ 10))) (Ok x)) t /\
    In (Ev (QReceipt (d_network d) x) (Ok true)) t) ->
  keeps ok (record_mint cfg d (hit_amount hit) h) s t anything.
Proof.
  intros Hf Hh. unfold record_mint. destruct h as [x|]; [|by keep_step].
  destruct (str_truthy x); [|by keep_step].
  apply apiPatch_keeps. destruct (Hh x eq_refl). exists d, hit. by split_and!.
Qed.

Lemma processDeposit_keeps row s t :
  fresh cfg deposit_listing deposit_item row t ->
  keeps ok (processDeposit cfg (Deposit_of row)) s t anything.
Proof.
  intros Hl. unfold processDeposit. set (d := Deposit_of row).
  destruct (d_ecash_address d) as [address|] eqn:Ea; [|by keep_step].
  destruct (negb (str_truthy address) || String.eqb (d_status d) "minted") eqn:Eg; [by keep_step|].
  bool_prop.
  eapply keeps_bind; [apply keeps_emits; [apply checkAddress_keeps|apply checkAddress_emits]| |done].
  intros [hit|] s1 t1 _ [Hobs Hadd1]; [|by keep_step].
  assert (Hf : deposit_funded cfg d hit t1).
  { exists row, address. split_and!; eauto using fresh_mono. }
  eapply keeps_bind with (Q := fun _ _ t' => anything (Ok tt) s1 t' /\ added calm t1 t'); [| |done].
  - apply keeps_emits.
    + destruct (String.eqb_spec (d_status d) "pending"); [|by keep_step].
      apply apiPatch_keeps. by exists d, hit.
    + emit_step; [by apply apiPatch_emits|apply emits_ret].
  - intros [] s2 t2 _ [_ Hadd2]. pose proof (deposit_funded_mono _ _ _ _ _ Hadd2 Hf) as Hf2.
    eapply keeps_bind; [apply keeps_emits; [by apply mintEcx_keeps|apply mintEcx_emits]| |done].
    intros h s3 t3 _ [Hm Hadd3]. apply record_mint_keeps.
    + by eapply deposit_funded_mono.
    + intros x ->. by apply Hm.
Qed.

(** *** Withdrawals *)

Lemma collect_utxos_keeps network url ds (s : service) t :
  keeps ok (collect_utxos network url ds) s t anything.
Proof.
  revert s t. induction ds as [|d ds IH]; intros s t; cbn [collect_utxos]; [by keep_step|].
  eapply keeps_bind with (Q := anything); [| |done].
  - unfold collect_deposit. keep_step; [by keep_step|]. keep_step; [|by keep_step].
    eapply keeps_bind with (Q := anything); [|intros; by keep_step|done].
    unfold fetchUtxos. apply keeps_try_same; [|intros; by keep_step].
    apply keeps_ask_bind; [done|]. intros r. repeat keep_step; done.
  - intros here s1 t1 _ _. eapply keeps_bind with (Q := anything); [apply IH| |done].
    intros. by keep_step.
Qed.

Lemma collect_utxos_calm network url ds : emits (S:=service) calm (collect_utxos network url ds).
Proof.
  induction ds as [|d ds IH]; cbn [collect_utxos]; [apply emits_ret|].
  apply emits_bind; [|intros; apply emits_bind; [done|intros; apply emits_ret]].
  unfold collect_deposit, fetchUtxos. by repeat emit_step.
Qed.

Lemma buildSign_calm network w deposits url wal changeAddr :
  emits (S:=service) calm (buildSignAndBroadcastWithdrawal network w deposits url wal changeAddr).
Proof.
  unfold buildSignAndBroadcastWithdrawal.
  repeat (emit_step || apply collect_utxos_calm || unfold broadcastTx); done.
Qed.

Lemma verifyBurn_calm network burn : emits calm (verifyBurnTx cfg network burn).
Proof. unfold verifyBurnTx. by repeat emit_step. Qed.

Lemma fetchFunded_calm : emits (S:=service) calm (fetchFundedDeposits cfg).
Proof. unfold fetchFundedDeposits. by repeat emit_step. Qed.

Lemma broadcastTx_keeps url rawHex (s : service) t :
  broadcast_justified cfg url rawHex t ->
  keeps ok (broadcastTx url rawHex) s t (fun o _ t' =>
    forall h, o = Ok (Some h) -> h <> "" -> exists e, In e t' /\ broadcast_of url rawHex h e).
Proof.
  intros Hj. unfold broadcastTx. apply keeps_try_same; [|intros; by keep_step].
  apply keeps_ask_bind; [by intros|]. intros r. destruct r as [m|st body]; [by keep_step|].
  destruct (resp_ok st) eqn:Hok; cbn [negb]; destruct body as [text|]; keep_step; try done.
  intros h [= <-] Hne. eexists. split; [by left|]. by exists st, text.
Qed.

Lemma withdrawal_keeps w deposits url wal changeAddr (s : service) t :
  withdrawal_due cfg w t -> url_of (ESPLORA_URLS cfg) (w_network w) = Some url ->
  keeps ok (buildSignAndBroadcastWithdrawal (w_network w) (request_of w) deposits url wal changeAddr)
    s t (fun o _ t' => forall h, o = Ok (Some h) ->
      exists rawHex e, In e t' /\ broadcast_of url rawHex h e /\ pays_withdrawal w rawHex).
Proof.
  intros Hdue Hurl. unfold buildSignAndBroadcastWithdrawal. cbn [request_of wr_amount_sats
    wr_amount_ecx wr_network wr_ecash_address]. set (target := sats_or _ _).
  destruct (num_le target (Fin 0)); [by keep_step|].
  destruct (num_lt target (Fin DUST_LIMIT)) eqn:Edust; [by keep_step|].
  eapply keeps_bind; [apply keeps_emits; [apply collect_utxos_keeps|apply collect_utxos_calm]| |done].
  intros all s1 t1 _ [_ Hadd1].
  destruct all as [|i0 all]; [by keep_step|]. set (utxos := i0 :: all).
  destruct (selectUtxos utxos target feeSats) as [|j sel] eqn:Esel; [by keep_step|]. rewrite <-Esel.
  apply keeps_try_same; [|intros; by keep_step].
  apply keeps_lift_bind. destruct (build_tx _ _ _ _ _ _ _) as [[tx|]|] eqn:Eb; [|by keep_step|done].
  apply keeps_lift_bind. destruct (tx_extract tx) as [raw|] eqn:Eraw; [|done].
  assert (Hpays : pays_withdrawal w (hex_encode raw)).
  { exists target, utxos, wal, changeAddr, tx, raw. split_and!; try done. by rewrite Esel. }
  eapply keeps_bind; [apply broadcastTx_keeps| |done].
  - exists w. split_and!; [by eapply withdrawal_due_mono|done|done].
  - intros [h|] s2 t2 Hext2 Hb; [|by keep_step].
    destruct (str_truthy h) eqn:Eh; keep_step; [|done]. intros h' [= <-].
    destruct (Hb h eq_refl) as (e & He & Hbr); [by destruct h|]. by exists (hex_encode raw), e.
Qed.

Lemma processWithdrawal_keeps row now s t :
  fresh cfg withdrawal_listing withdrawal_item row t -> In (Ev QNow now) t ->
  timed_out now (Withdrawal_of row) = false ->
  keeps ok (processWithdrawal cfg (Withdrawal_of row)) s t anything.
Proof.
  intros Hl Hnow Hto. unfold processWithdrawal. set (w := Withdrawal_of row) in *.
  destruct (String.eqb_spec (w_status w) "pending") as [Hst|]; cbn [negb]; [|by keep_step].
  destruct (w_burn_tx_hash w) as [burn|] eqn:Hburn; cbn [from_option]; [|by apply keeps_ret]; unfold id.
  destruct (str_truthy burn) eqn:Eb; cbn [negb]; [|by keep_step].
  destruct (negb (str_truthy (MINTER_PRIVATE_KEY cfg))); [by keep_step|].
  eapply keeps_bind with (Q := fun o _ t' =>
    (o = Ok true -> In (Ev (QGetTx (w_network w) burn) (Ok true)) t') /\ added calm t t'); [| |done].
  { apply keeps_emits; [|apply verifyBurn_calm]. unfold verifyBurnTx. rewrite Eb. cbn [negb]. apply keeps_try_same; [|intros; by keep_step].
    apply keeps_silent_bind; [auto with silent| |done]. intros _ s1.
    apply keeps_ask_bind; [done|]. intros got.
    apply keeps_lift_bind. destruct got as [[]|m]; cbn [negb]; [| |done]; keep_step; [|done].
    intros _. by left. }
  intros [] s1 t1 Hext1 [Hver Hadd1]; cbn [negb]; [|by keep_step]. specialize (Hver eq_refl).
  assert (Hdue : withdrawal_due cfg w t1).
  { exists row, burn, now. split_and!; eauto using fresh_mono with snow. by destruct burn. }
  eapply keeps_bind with (Q := fun o s' t' => anything o s' t' /\ added calm t1 t'); [| |done].
  { apply keeps_emits; [|apply fetchFunded_calm]. unfold fetchFundedDeposits. apply keeps_try_same; [|intros; by keep_step].
    apply keeps_ask_bind; [done|]. intros r. repeat keep_step; done. }
  intros [|fd fds] s2 t2 _ [_ Hadd2]; [by keep_step|].
  apply keeps_ask_bind; [done|]. intros now'.
  apply keeps_silent_bind; [auto with silent| |done]. intros wal s3.
  apply keeps_lift_bind. destruct (deriveDepositAddress _ _ _) as [chg|]; [|done].
  destruct (url_of _ _) as [url|] eqn:Hurl; [|by keep_step].
  apply keeps_silent_bind; [auto with silent| |done]. intros wal' s4.
  assert (Hdue3 : withdrawal_due cfg w (Ev QNow now' :: t2)).
  { eapply withdrawal_due_mono; [|exact Hdue]. etransitivity; [exact Hadd2|by apply added_cons]. }
  eapply keeps_bind; [apply keeps_emits; [by apply withdrawal_keeps|apply buildSign_calm]| |done].
  intros [h|] s5 t5 _ [Hb Hadd5]; [|by keep_step].
  destruct (str_truthy h); [|by keep_step].
  destruct (Hb h eq_refl) as (rawHex & e & He & Hbr & Hpays).
  unfold complete_withdrawal. apply keeps_ask_bind; [done|]. intros at_.
  apply apiPatch_keeps. exists w, url, rawHex, e.
  split_and!; [|done|done|by right|done|done]. eapply withdrawal_due_mono; [|exact Hdue3].
  etransitivity; [exact Hadd5|by apply added_cons].
Qed.

(** *** The loop

    [turn rows rest t]: the API listed [rows], [rest] is still to be processed,
    and no final status was reported of it since. *)

Definition turn (listing item : string) (rows rest : list record) (t : trace) : Prop :=
  exists status done_rows mid older,
    t = mid ++ Ev (QApiGet (API_URL cfg +:+ listing) (auth cfg)) (Resp status (Some rows)) :: older /\
    resp_ok status = true /\ rows = done_rows ++ rest /\
    (NoDup (map row_id rows) -> forall row, In row rest ->
     Forall (fun e => settling e <> Some (API_URL cfg +:+ item +:+ row_id row)) mid).

(** Events of the processing of one record. *)
Definition about (item id : string) (e : event) : Prop :=
  settling e = None \/ settling e = Some (API_URL cfg +:+ item +:+ id).

Lemma calm_about item id e : calm e -> about item id e.
Proof. by left. Qed.

Lemma turn_fresh listing item rows row rest t :
  turn listing item rows (row :: rest) t -> fresh cfg listing item row t.
Proof.
  intros (st & before & mid & older & -> & Hok & -> & Hmid). exists st, (before ++ row :: rest), mid, older.
  split_and!; [done|done|apply in_app_iff; right; by left|]. intros Hnd. apply Hmid; [done|by left].
Qed.

Lemma turn_next listing item rows row rest t t' :
  turn listing item rows (row :: rest) t -> added (about item (row_id row)) t t' ->
  turn listing item rows rest t'.
Proof.
  intros (st & before & mid & older & -> & Hok & -> & Hmid) (new & -> & Hnew).
  exists st, (before ++ [row]), (new ++ mid), older.
  split_and!; [by rewrite app_assoc|done|by rewrite <-app_assoc|].
  intros Hnd row' Hin. apply Forall_app_2; [|by apply Hmid; [|right]].
  eapply Forall_impl; [|exact Hnew]. intros e [->| ->]; [done|]. intros [= Heq%app_inj_str%app_inj_str].
  rewrite map_app in Hnd. cbn [map] in Hnd. apply list.NoDup_app in Hnd as (_ & _ & Hnd).
  apply list.NoDup_cons in Hnd as [Hnin _]. apply Hnin. rewrite Heq. apply list_elem_of_In. by apply in_map.
Qed.

Lemma turn_calm listing item rows rest t e :
  turn listing item rows rest t -> calm e -> turn listing item rows rest (e :: t).
Proof.
  intros (st & before & mid & older & -> & Hok & -> & Hmid) He.
  exists st, before, (e :: mid), older. split_and!; [done..|]. intros Hnd row Hin.
  constructor; [by rewrite He|by apply Hmid].
Qed.

Lemma apiGet_keeps listing item s t :
  keeps ok (apiGet cfg listing) s t (fun o _ t' => forall rows, o = Ok rows -> turn listing item rows rows t').
Proof.
  unfold apiGet. apply keeps_ask_bind; [done|]. intros r. unfold http_json.
  destruct r as [m|st body]; [by keep_step|].
  destruct (resp_ok st) eqn:Hok; cbn [negb]; [|by keep_step].
  destruct body as [rows|]; keep_step; [|done].
  intros rows' [= <-]. exists st, [], [], t. by split_and!; intros.
Qed.

(** A pass over a listing, one record after the other. *)
Lemma pass_keeps {A} listing item (cast : record -> A) (body : A -> M service unit) rows s t :
  turn listing item rows rows t ->
  (forall row s' t', fresh cfg listing item row t' -> extends t t' ->
     keeps ok (body (cast row)) s' t' anything) ->
  (forall row, emits (about item (row_id row)) (body (cast row))) ->
  keeps ok (mfor (map cast rows) body) s t anything.
Proof.
  intros Hturn Hkeeps Hemits.
  apply keeps_for_inv with (I := fun xs t' => extends t t' /\
    exists rest, xs = map cast rest /\ turn listing item rows rest t').
  { split; [reflexivity|by exists rows]. }
  intros x xs' s' t' (Hext & [|row rest] & Heq & Hrest); [done|]. injection Heq as -> ->.
  eapply keeps_mono; [apply keeps_emits; [apply Hkeeps; [by eapply turn_fresh|done]|apply Hemits]|].
  intros [u|m] s'' t'' Hext' _ [_ Hadd]; [|done]. split; [by transitivity t'|].
  exists rest. split; [done|]. by eapply turn_next.
Qed.

Lemma processOneDeposit_keeps row s t :
  fresh cfg deposit_listing deposit_item row t ->
  keeps ok (processOneDeposit cfg (Deposit_of row)) s t anything.
Proof.
  intros Hf. unfold processOneDeposit. apply keeps_try_same; [|intros; by keep_step].
  destruct (negb _).
  - eapply keeps_mono; [apply assignDepositAddress_keeps|by intros []].
  - eapply keeps_mono; [by apply processDeposit_keeps|by intros []].
Qed.

Lemma about_patch item id body r :
  about item id (Ev (QApiPatch (API_URL cfg +:+ item +:+ id) (auth cfg) body) r).
Proof. unfold about, settling. cbn [ev_query]. destruct (fget_str body "status") as [st|]; [|by left]. cbv beta iota. destruct (final_status st); [by right|by left]. Qed.

Lemma processOneDeposit_about row :
  emits (about deposit_item (row_id row)) (processOneDeposit cfg (Deposit_of row)).
Proof.
  assert (Hcalm : forall A (c : M service A), emits calm c -> emits (about deposit_item (row_id row)) c).
  { intros A c. apply emits_mono, calm_about. }
  unfold processOneDeposit, assignDepositAddress, processDeposit, record_mint.
  repeat (emit_step || (apply apiPatch_emits; intros; apply about_patch)
    || (apply Hcalm; first [apply checkAddress_emits | apply mintEcx_emits])); by left.
Qed.

Lemma processOneWithdrawal_keeps now row s t :
  fresh cfg withdrawal_listing withdrawal_item row t -> In (Ev QNow now) t ->
  keeps ok (processOneWithdrawal cfg now (Withdrawal_of row)) s t anything.
Proof.
  intros Hf Hnow. unfold processOneWithdrawal. apply keeps_try_same; [|intros; by keep_step].
  destruct (timed_out now (Withdrawal_of row)) eqn:Hto.
  - eapply keeps_mono; [apply apiPatch_keeps|by intros []]. split; [done|]. by exists row, now.
  - eapply keeps_mono; [by eapply processWithdrawal_keeps|by intros []].
Qed.

Lemma processOneWithdrawal_about now row :
  emits (about withdrawal_item (row_id row)) (processOneWithdrawal cfg now (Withdrawal_of row)).
Proof.
  assert (Hcalm : forall A (c : M service A), emits calm c -> emits (about withdrawal_item (row_id row)) c).
  { intros A c. apply emits_mono, calm_about. }
  unfold processOneWithdrawal, processWithdrawal, complete_withdrawal.
  repeat (emit_step || (apply apiPatch_emits; intros; apply about_patch)
    || (apply Hcalm; first [apply verifyBurn_calm | apply fetchFunded_calm | apply buildSign_calm])); by left.
Qed.

Lemma poll_once_keeps s t : keeps ok (poll_once cfg) s t anything.
Proof.
  unfold poll_once. apply keeps_try_same; [|intros; by keep_step].
  eapply keeps_bind with (Q := anything); [| |done].
  { unfold checkIn. apply keeps_try_same; [|intros; by keep_step].
    unfold apiPost. apply keeps_ask_bind; [done|]. intros r.
    apply silent_keeps; [apply http_json_silent|]. by intros []. }
  intros [] s1 t1 _ _. eapply keeps_bind with (Q := anything); [| |done].
  { unfold processPendingDeposits. apply keeps_try_same; [|intros; by keep_step].
    eapply keeps_bind; [apply (apiGet_keeps deposit_listing deposit_item)| |done].
    intros rows s2 t2 _ Hrows. eapply keeps_mono; [|by intros []].
    eapply pass_keeps; [by apply Hrows|intros; by apply processOneDeposit_keeps|apply processOneDeposit_about]. }
  intros [] s4 t4 _ _. unfold processPendingWithdrawals.
  eapply keeps_mono; [apply keeps_try_same with (Q := anything); [|intros; by keep_step]|by intros []].
  eapply keeps_bind; [apply (apiGet_keeps withdrawal_listing withdrawal_item)| |done].
  intros rows s5 t5 _ Hrows. apply keeps_ask_bind; [done|]. intros now.
  eapply keeps_mono; [|by intros []]. specialize (Hrows rows eq_refl).
  eapply pass_keeps; [by apply turn_calm| |apply processOneWithdrawal_about].
  intros row s6 t6 Hf Hext. apply processOneWithdrawal_keeps; [done|]. eapply extends_in; [done|by left].
Qed.

Lemma main_loop_keeps n s t : keeps ok (main_loop cfg n) s t anything.
Proof.
  revert s t. induction n as [|n IH]; intros s t; cbn [main_loop]; [by keep_step|].
  eapply keeps_bind; [apply poll_once_keeps| |done]. intros. apply IH.
Qed.
End federation_keeps.

(** ** Calldata *)

(** How the NativeMinter precompile reads a call (non-strict ABI decoding,
    go/subnet-evm/precompile/contracts/nativeminter): the low 160 bits of the
    first 32-byte word, the second word, and any bytes after them ignored. *)
Definition word_at (k : nat) (body : string) : option Z :=
  let w := take_str 64 (drop_str (64 * k) body) in
  if Nat.eqb (String.length w) 64
  then match digits_of 16 w with Some ds => Some (be_val 16 ds) | None => None end
  else None.

Definition decodeMintCall (data : string) : option (Z * Z) :=
  if starts_with MINT_SELECTOR data then
    let body := drop_str (String.length MINT_SELECTOR) data in
    match word_at 0 body, word_at 1 body with
    | Some a, Some m => Some (a mod 2 ^ 160, m)
    | _, _ => None
    end
  else None.

Lemma digit_val_lower c : digit_val (lower_char c) = digit_val c.
Proof. by destruct c as [[] [] [] [] [] [] [] []]. Qed.

Lemma digits_of_lower b s : digits_of b (to_lower s) = digits_of b s.
Proof.
  unfold to_lower. induction s as [|c s IH]; simpl; [done|]. by rewrite digit_val_lower, IH.
Qed.

Lemma digits_of_length b s ds : digits_of b s = Some ds -> length ds = String.length s.
Proof.
  revert ds. induction s as [|c s IH]; simpl; intros ds H; [by simplify_eq|].
  destruct (digit_val c), (digits_of b s); try done. destruct (_ <? _); [|done].
  injection H as <-. simpl. by rewrite IH.
Qed.

Lemma digit_val_nonneg c d : digit_val c = Some d -> 0 <= d.
Proof. destruct c as [[] [] [] [] [] [] [] []]; intros H; vm_compute in H; (discriminate H || (injection H as <-; lia)). Qed.

Lemma digits_of_range b s ds : digits_of b s = Some ds -> Forall (fun d => 0 <= d < b) ds.
Proof.
  revert ds. induction s as [|c s IH]; simpl; intros ds H; [by simplify_eq|].
  destruct (digit_val c) as [d|] eqn:Ed, (digits_of b s); try done.
  destruct (Z.ltb_spec d b); [|done]. injection H as <-. constructor; [|by apply IH].
  split; [by eapply digit_val_nonneg|done].
Qed.

Lemma word_at_0 w rest ds :
  digits_of 16 w = Some ds -> length ds = 64%nat -> word_at 0 (w +:+ rest) = Some (be_val 16 ds).
Proof.
  intros Hd Hl. rewrite (digits_of_length _ _ _ Hd) in Hl. unfold word_at.
  rewrite Nat.mul_0_r. cbn [drop_str]. rewrite <-Hl, take_str_app, Nat.eqb_refl. by rewrite Hd.
Qed.

Lemma word_at_1 w v rest ds :
  String.length w = 64%nat -> digits_of 16 v = Some ds -> length ds = 64%nat ->
  word_at 1 (w +:+ v +:+ rest) = Some (be_val 16 ds).
Proof.
  intros Hw Hd Hl. pose proof (word_at_0 v rest ds Hd Hl) as H0. unfold word_at in *.
  rewrite Nat.mul_0_r in H0. rewrite Nat.mul_1_r, <-Hw, drop_str_app. rewrite Hw. exact H0.
Qed.

(** Calldata made of two full words and a tail. *)
Lemma decodeMintCall_words w v rest ds es :
  digits_of 16 w = Some ds -> length ds = 64%nat ->
  digits_of 16 v = Some es -> length es = 64%nat ->
  decodeMintCall (MINT_SELECTOR +:+ w +:+ v +:+ rest) =
    Some (be_val 16 ds mod 2 ^ 160, be_val 16 es).
Proof.
  intros Hw Hwl Hv Hvl. unfold decodeMintCall. rewrite starts_with_app, drop_str_app.
  rewrite (word_at_0 w _ ds) by done.
  rewrite (word_at_1 w v rest es); [done| |done|done]. by rewrite <-(digits_of_length _ _ _ Hw).
Qed.

(** A numeral of at most 64 hexadecimal digits, padded, is one full word. *)
Lemma padded_word s ds :
  digits_of 16 s = Some ds -> (length ds <= 64)%nat ->
  exists es, digits_of 16 (pad_start 64 "0" s) = Some es /\ length es = 64%nat /\
    be_val 16 es = be_val 16 ds.
Proof.
  intros Hs Hl. exists (repeat 0 (64 - String.length s) ++ ds). unfold pad_start.
  rewrite (digits_of_app 16 _ s (repeat 0 (64 - String.length s)) ds);
    [|by apply digits_of_zeros|done].
  rewrite be_val_zeros, length_app, repeat_length, <-(digits_of_length _ _ _ Hs).
  split_and!; [done|lia|done].
Qed.

Lemma toString16_word amount :
  0 <= amount < 2 ^ 256 ->
  exists es, digits_of 16 (pad_start 64 "0" (toString16 amount)) = Some es /\
    length es = 64%nat /\ be_val 16 es = amount.
Proof.
  intros Ha. destruct (hex_digits_spec amount) as (Hv & Hd & Hlen); [lia|].
  destruct (padded_word (toString16 amount) (hex_digits amount)) as (es & H1 & H2 & H3).
  - by apply digits_of_string.
  - apply Hlen; [lia|]. change (16 ^ Z.of_nat 64) with (2 ^ 256). lia.
  - exists es. by rewrite H3.
Qed.

Lemma strip_0x_hex h : strip_0x (to_lower ("0x" +:+ h)) = to_lower h.
Proof. done. Qed.


(** ** A concrete world for the runs below *)

Definition toy_viem : ViemLibrary := {| privateKeyToAccount k := Ok k |}.

Definition toy_cfg : Config :=
  config_of_env (fun x =>
    if String.eqb x "HD_MNEMONIC" then Some "zoo zoo zoo"
    else if String.eqb x "MINTER_PRIVATE_KEY" then Some "0x01"
    else if String.eqb x "SIGNET_RPC" then Some "http://l2"
    else None).

Definition user_hex : string := "fd89b56d37642d155af094bf00a2b4e9014abafc".

Definition deposit_row (id status : string) : record :=
  [("id", FStr id); ("network", FStr "signet"); ("snowside_address", FStr ("0x" +:+ user_hex));
   ("ecash_address", FStr "tb1qdeposit"); ("derivation_index", FInt 7);
   ("amount_sats", FInt 100000); ("status", FStr status)].

Definition withdrawal_row : record :=
  [("id", FStr "w1"); ("network", FStr "signet"); ("snowside_address", FStr ("0x" +:+ user_hex));
   ("ecash_address", FStr "tb1quser"); ("amount_ecx", FStr "0.0005");
   ("burn_tx_hash", FStr "0xburn"); ("status", FStr "pending"); ("created_at", FInt 1000)].

(** Esplora shows one confirmed UTXO of 100000 satoshis; the API lists the
    given deposits and one withdrawal; every call succeeds. *)
Definition toy_world (deposits : list record) : Environment := fun q _ =>
  match q return reply q with
  | QNow => 5000
  | QTip _ => Resp 200 (Some 120)
  | QUtxo _ _ => Resp 200 (Some (inr [EsploraUtxo (Some "ab") (Some 0) (Some 100000) (Some true)
                                        (Some 100) None None]))
  | QBroadcast _ _ => Resp 200 (Some "l1hash")
  | QApiGet path _ =>
      if includes "deposits/pending" path then Resp 200 (Some deposits)
      else if includes "deposits/funded" path then Resp 200 (Some [deposit_row "d1" "confirmed"])
      else Resp 200 (Some [withdrawal_row])
  | QApiPatch _ _ _ => Resp 200 (Some tt)
  | QApiPost _ _ => Resp 200 (Some tt)
  | QSendTx _ _ _ => Ok "0xmint"
  | QReceipt _ _ => Ok true
  | QGetTx _ _ => Ok true
  end.

Definition boot `{HdLibrary} : service := Service None None [] [].

(** The trace after [n] turns of the loop. *)
Definition loop_trace `{HdLibrary} `{BtcLibrary} `{ViemLibrary} `{Environment}
    (cfg : Config) (n : nat) (s : service) : trace := snd (main_loop cfg n s []).

Definition toy_trace (deposits : list record) : trace :=
  @loop_trace toy_library toy_btc toy_viem (toy_world deposits) toy_cfg 1 (@boot toy_library).

Definition is_send (e : event) : bool := match ev_query e with QSendTx _ _ _ => true | _ => false end.
Definition is_broadcast (e : event) : bool := match ev_query e with QBroadcast _ _ => true | _ => false end.

Lemma loop_trace_ok `{HdLibrary} `{BtcLibrary} `{ViemLibrary} `{Environment} cfg n s :
  trace_ok (event_ok cfg) (loop_trace cfg n s).
Proof.
  unfold loop_trace. pose proof (main_loop_keeps cfg n s [] I) as Hr. unfold runs in Hr.
  destruct (main_loop cfg n s []) as [[o s'] t']. by destruct Hr as (_ & Hok & _).
Qed.

(** Position of the first event that satisfies [p]. *)
Fixpoint position (p : event -> bool) (t : trace) : nat :=
  match t with
  | [] => O
  | e :: t' => if p e then O else S (position p t')
  end.

(** ** Properties *)



(** C2. Every broadcast pays a due withdrawal. Whatever the outside world
    answers, each Bitcoin transaction the service broadcasts is the one
    [build_tx] makes for the exact amount of a withdrawal the API listed as
    pending, which has not timed out and whose burn transaction the L2 node
    knows; it is sent to the Esplora server configured for its network; and no
    final status of that withdrawal was sent since the listing, if it lists no
    id twice. *)
Theorem every_broadcast_pays_a_withdrawal `{HdLibrary} `{BtcLibrary} `{ViemLibrary} `{Environment}
    cfg n s after url rawHex r before :
  loop_trace cfg n s = after ++ Ev (QBroadcast url rawHex) r :: before ->
  broadcast_justified cfg url rawHex before.
Proof.
  intros Htrace. pose proof (loop_trace_ok cfg n s) as Hok. rewrite Htrace in Hok.
  by apply trace_ok_split in Hok.
Qed.

Lemma every_broadcast_pays_a_withdrawal_witness :
  let t := toy_trace [deposit_row "d1" "pending"] in
  let k := position is_broadcast t in
  exists rawHex,
    @broadcast_justified toy_library toy_btc toy_cfg "https://esplora.signet.drivechain.info"
      rawHex (drop (S k) t).
Proof.
  intros t k. eexists.
  apply (@every_broadcast_pays_a_withdrawal toy_library toy_btc toy_viem
    (toy_world [deposit_row "d1" "pending"])
    toy_cfg 1 (@boot toy_library) (take k t) _ _ (Resp 200 (Some "l1hash"))).
  vm_compute. reflexivity.
Defined.
