(* ===== verification/Minting.v ===== *)
(** * Minting: calldata, deposit addresses and the life of one deposit

    Properties of packages/federation/src/index.ts that concern a single
    deposit: what its calldata means to the NativeMinter precompile, how its
    L1 address is chosen, the exact sequence of calls that mints it, and what
    happens when two deposits share one address. *)

From Stdlib Require Import ZArith Lia Ascii String List Bool.
From stdpp Require Import base list strings numbers.
From S2P Require Import Prelude JsNumber HdWallet Effects Withdraw Federation.
Local Open Scope Z_scope.
Local Open Scope eff_scope.

(** ** Confirmed totals *)

(** The confirmed outputs of a listing. *)
Definition confirmed_outputs (tip : Z) (minConfs : jsnum) (utxos : list esplora_utxo)
  : list esplora_utxo := filter (fun u => utxo_confirmed tip minConfs u = true) utxos.

Lemma utxo_confirmed_iff tip m u :
  utxo_confirmed tip (Fin m) u = true <->
  exists h, eu_confirmed u = Some true /\ eu_block_height u = Some h /\ m <= tip - h + 1.
Proof.
  unfold utxo_confirmed. destruct (eu_confirmed u) as [[]|], (eu_block_height u) as [h|]; simpl;
    (split; [intros H; try discriminate|intros (h' & ? & ? & ?); try discriminate]).
  - exists h. split_and!; try done. apply negb_true_iff, Z.ltb_ge in H. lia.
  - simplify_eq. apply negb_true_iff, Z.ltb_ge. lia.
Qed.

(** ** Runs in a world where the service's calls succeed *)

Section calm.
Context `{HL : HdLibrary} `{BL : BtcLibrary} `{VL : ViemLibrary} `{E : Environment}.
Context (cfg : Config).

(** What the service needs of the world to mint what was paid to [address] on
    [network]: it is configured, the key is well formed, and the calls it makes
    on the way are answered. *)
Record calm_world (network address : string) (tip : Z) (utxos : list esplora_utxo)
    (esplora : string) : Prop := {
  calm_rpc : exists u, url_of (RPC_URLS cfg) network = Some u;
  calm_key : str_truthy (MINTER_PRIVATE_KEY cfg) = true;
  calm_account : exists a, privateKeyToAccount
    (if starts_with "0x" (MINTER_PRIVATE_KEY cfg) then MINTER_PRIVATE_KEY cfg
     else "0x" +:+ MINTER_PRIVATE_KEY cfg) = Ok a;
  calm_esplora : url_of (ESPLORA_URLS cfg) network = Some esplora;
  calm_tip : forall t, respond (QTip esplora) t = Resp 200 (Some tip);
  calm_utxo : forall t, respond (QUtxo esplora (cleanAddress address)) t = Resp 200 (Some (inr utxos));
  calm_send : forall to d t, exists hash, respond (QSendTx network to d) t = Ok hash /\ str_truthy hash = true;
  calm_receipt : forall h t, respond (QReceipt network h) t = Ok true;
  calm_height : tip <> 0;
  calm_fork : network = "mainnet" -> num_lt (Fin tip) (ECASH_MAINNET_FORK_HEIGHT cfg) = false
}.

(** [silently c s t a]: [c] yields [a] and asks nothing. *)
Definition silently {A} (c : M service A) (s : service) (t : trace) : Prop :=
  exists a s', c s t = (Ok a, s', t).

Lemma getAccount_calm network address tip us e s t :
  calm_world network address tip us e -> silently (getAccount cfg) s t.
Proof.
  intros C. unfold silently, getAccount, mbind, mget, mlift, mput, mret. simpl.
  destruct (s_account s); [eauto|]. rewrite (calm_key _ _ _ _ _ C). simpl.
  destruct (calm_account _ _ _ _ _ C) as [a Ha]. simpl in Ha. rewrite Ha. eauto.
Qed.

Lemma getWalletClient_calm network address tip us e s t :
  calm_world network address tip us e -> silently (getWalletClient cfg network) s t.
Proof.
  intros C. unfold silently, getWalletClient, mbind, mget. simpl.
  destruct (existsb _ _); [unfold mret; eauto|].
  destruct (calm_rpc _ _ _ _ _ C) as [u ->]. unfold mbind.
  destruct (getAccount_calm _ _ _ _ _ s t C) as (a & s' & ->). unfold mput; eauto.
Qed.

Lemma getPublicClient_calm network address tip us e s t :
  calm_world network address tip us e -> silently (getPublicClient cfg network) s t.
Proof.
  intros C. unfold silently, getPublicClient, mbind, mget. simpl.
  destruct (existsb _ _); [unfold mret; eauto|].
  destruct (calm_rpc _ _ _ _ _ C) as [u ->]. unfold mput; eauto.
Qed.

Definition send_call (d : Deposit) (hit : deposit_hit) : query :=
  QSendTx (d_network d) NATIVE_MINTER
    (encodeMintCall (d_snowside_address d) (hit_amount hit * satsToEcxMultiplier (d_network d))).

Definition deposit_path (d : Deposit) : string := API_URL cfg +:+ "/fed/deposit/" +:+ d_id d.

Definition confirm_call (d : Deposit) (hit : deposit_hit) : query :=
  QApiPatch (deposit_path d) (auth cfg)
    [("status", FStr "confirmed"); ("amount_sats", FInt (hit_amount hit));
     ("ecash_tx_hash", FStr (hit_txHash hit))].

Definition minted_call (d : Deposit) (hit : deposit_hit) (hash : string) : query :=
  QApiPatch (deposit_path d) (auth cfg)
    [("status", FStr "minted");
     ("amount_ecx", field_of_num (Number_of_BigInt (hit_amount hit * satsToEcxMultiplier (d_network d))));
     ("mint_tx_hash", FStr hash)].

Lemma checkAddress_calm network address tip us e s t :
  calm_world network address tip us e ->
  exists t', checkAddressForDeposits cfg network address s t =
    (Ok (confirmed_hit tip (default (Fin 1) (rec_get (MIN_CONFIRMATIONS cfg) network)) us), s, t') /\
    map ev_query t' = [QUtxo e (cleanAddress address); QTip e] ++ map ev_query t.
Proof.
  intros C. unfold checkAddressForDeposits. rewrite (calm_esplora _ _ _ _ _ C).
  unfold mtry, mbind, getTipHeight, mtry, mbind, ask. rewrite (calm_tip _ _ _ _ _ C).
  change (resp_ok 200) with true. cbn [negb mret]. unfold mret.
  destruct (Z.eqb_spec tip 0) as [Hz|_]; [by destruct (calm_height _ _ _ _ _ C)|].
  destruct (String.eqb_spec network "mainnet") as [Hn|_]; cbn [andb];
    [rewrite (calm_fork _ _ _ _ _ C Hn)|]; rewrite (calm_utxo _ _ _ _ _ C);
    change (resp_ok 200) with true; cbn [negb]; eexists; split; reflexivity.
Qed.

Lemma mintEcx_calm d hit address tip us e s t :
  calm_world (d_network d) address tip us e ->
  exists h s' t', str_truthy h = true /\
    mintEcx cfg (d_network d) (d_snowside_address d) (hit_amount hit) s t = (Ok (Some h), s', t') /\
    map ev_query t' = [QReceipt (d_network d) h; send_call d hit] ++ map ev_query t.
Proof.
  intros C. unfold mintEcx. destruct (calm_rpc _ _ _ _ _ C) as [u ->].
  rewrite (calm_key _ _ _ _ _ C). cbn [negb]. unfold mtry, mbind.
  destruct (getWalletClient_calm _ _ _ _ _ s t C) as ([] & s1 & ->).
  destruct (getAccount_calm _ _ _ _ _ s1 t C) as (a & s2 & ->).
  unfold ask. destruct (calm_send _ _ _ _ _ C NATIVE_MINTER
    (encodeMintCall (d_snowside_address d) (hit_amount hit * satsToEcxMultiplier (d_network d))) t)
    as (h & -> & Hh). unfold mlift. cbv beta iota.
  match goal with |- context [getPublicClient cfg (d_network d) s2 ?t1] =>
    destruct (getPublicClient_calm _ _ _ _ _ s2 t1 C) as ([] & s3 & ->) end.
  rewrite (calm_receipt _ _ _ _ _ C). unfold mret. exists h. do 2 eexists. split_and!; [done|reflexivity..].
Qed.

Lemma apiPatch_answered path body s t :
  respond (QApiPatch (API_URL cfg +:+ path) (auth cfg) body) t = Resp 200 (Some tt) ->
  exists t', apiPatch cfg path body s t = (Ok tt, s, t') /\
    map ev_query t' = QApiPatch (API_URL cfg +:+ path) (auth cfg) body :: map ev_query t.
Proof.
  intros Hr. unfold apiPatch, mbind, ask. rewrite Hr.
  unfold http_json. change (resp_ok 200) with true. unfold mret. cbn [negb]. eauto.
Qed.

(** The calls of one turn over a funded deposit, newest first. *)
Definition turn_calls (d : Deposit) (address esplora : string) (hit : deposit_hit) (hash : string) : list query :=
  [minted_call d hit hash; QReceipt (d_network d) hash; send_call d hit]
  ++ (if String.eqb (d_status d) "pending" then [confirm_call d hit] else [])
  ++ [QUtxo esplora (cleanAddress address); QTip esplora].

(** A deposit that is not minted yet, in a world that answers. *)
Lemma processDeposit_calm d address tip utxos esplora hit s t :
  calm_world (d_network d) address tip utxos esplora ->
  d_ecash_address d = Some address -> str_truthy address = true -> d_status d <> "minted" ->
  confirmed_hit tip (default (Fin 1) (rec_get (MIN_CONFIRMATIONS cfg) (d_network d))) utxos = Some hit ->
  (forall t', respond (confirm_call d hit) t' = Resp 200 (Some tt)) ->
  (forall h t', respond (minted_call d hit h) t' = Resp 200 (Some tt)) ->
  exists h s' t', str_truthy h = true /\ processDeposit cfg d s t = (Ok tt, s', t') /\
    map ev_query t' = turn_calls d address esplora hit h ++ map ev_query t.
Proof.
  intros C Ha Htr Hst Hhit Hconf Hmint. unfold processDeposit, turn_calls. rewrite Ha, Htr. cbn [negb orb].
  destruct (String.eqb_spec (d_status d) "minted") as [|_]; [done|]. unfold mbind at 1.
  destruct (checkAddress_calm _ _ _ _ _ s t C) as (t1 & -> & Ht1). rewrite Hhit. unfold mbind at 1.
  assert (H2 : exists t2, (if String.eqb (d_status d) "pending"
      then apiPatch cfg ("/fed/deposit/" +:+ d_id d)
        [("status", FStr "confirmed"); ("amount_sats", FInt (hit_amount hit));
         ("ecash_tx_hash", FStr (hit_txHash hit))]
      else mret tt) s t1 = (Ok tt, s, t2) /\
    map ev_query t2 = (if String.eqb (d_status d) "pending" then [confirm_call d hit] else []) ++ map ev_query t1).
  { destruct (String.eqb _ _); [|by exists t1]. by apply apiPatch_answered. }
  destruct H2 as (t2 & -> & Ht2). unfold mbind at 1.
  destruct (mintEcx_calm d hit _ _ _ _ s t2 C) as (h & s3 & t3 & Hh & -> & Ht3). unfold record_mint. rewrite Hh.
  match goal with |- context [apiPatch cfg ?path ?body s3 t3] =>
    destruct (apiPatch_answered path body s3 t3 (Hmint h t3)) as (t4 & -> & Ht4) end.
  exists h, s3, t4. split_and!; [done|done|]. rewrite Ht4, Ht3, Ht2, Ht1. cbn [app]. by rewrite <-app_assoc.
Qed.
End calm.

(** ** The service never stops *)

Section never_throws.
Context `{HL : HdLibrary} `{BL : BtcLibrary} `{VL : ViemLibrary} `{E : Environment}.
Context (cfg : Config).

(** [c] ends in a value, from every state and trace. *)
Definition never_throws {A} (c : M service A) : Prop :=
  forall s t, is_ok (fst (fst (c s t))) = true.

Lemma never_throws_try {A} (c : M service A) (h : string -> M service A) :
  (forall m, never_throws (h m)) -> never_throws (mtry c h).
Proof. intros Hh s t. unfold mtry. destruct (c s t) as [[[a|m] s'] t']; [done|apply Hh]. Qed.

Lemma never_throws_bind {A B} (c : M service A) (f : A -> M service B) :
  never_throws c -> (forall a, never_throws (f a)) -> never_throws (mbind c f).
Proof.
  intros Hc Hf s t. unfold mbind. specialize (Hc s t).
  destruct (c s t) as [[[a|m] s'] t']; [apply Hf|done].
Qed.

Lemma never_throws_for {A} (l : list A) (body : A -> M service unit) :
  (forall x, never_throws (body x)) -> never_throws (mfor l body).
Proof.
  intros Hb. induction l as [|x l IH]; cbn [mfor]; [by intros s t|]. by apply never_throws_bind.
Qed.

Lemma poll_once_never_throws : never_throws (poll_once cfg).
Proof. apply never_throws_try. by intros m s t. Qed.

(** A bad deposit does not stop the others: each item of a pass is
    processed whatever became of the ones before it. *)
Lemma processOneDeposit_never_throws d : never_throws (processOneDeposit cfg d).
Proof. apply never_throws_try. by intros m s t. Qed.

Lemma mfor_app {A} (l k : list A) (body : A -> M service unit) s t :
  mfor (l ++ k) body s t = mbind (mfor l body) (fun _ => mfor k body) s t.
Proof.
  revert s t. induction l as [|x l IH]; intros s t; [done|].
  simpl. unfold mbind in *. destruct (body x s t) as [[[a|m] s'] t']; [apply IH|done].
Qed.
End never_throws.

(** ** Deposit addresses *)

Section assigned.
Context `{HL : HdLibrary} `{BL : BtcLibrary} `{VL : ViemLibrary} `{E : Environment}.
Context (cfg : Config).

(** The request [assignDepositAddress] ends with, once a wallet is cached. *)
Definition assign_call (d : Deposit) (address : string) (index : Z) : query :=
  QApiPatch (API_URL cfg +:+ "/fed/deposit/" +:+ d_id d) (auth cfg)
    [("ecash_address", FStr address); ("derivation_index", FInt index)].

Lemma assignDepositAddress_queries d w address s t :
  s_wallet s = Some w -> opt_truthy (d_ecash_address d) = false ->
  let now := respond QNow t in
  deriveDepositAddress w (d_network d) (time_index now) = Ok address ->
  map ev_query (snd (assignDepositAddress cfg d s t)) =
    [assign_call d address (time_index now); QNow] ++ map ev_query t.
Proof.
  intros Hw Ha now Hd. unfold assignDepositAddress. rewrite Ha.
  unfold mbind at 1, ask at 1. cbv zeta. unfold mbind at 1, getWallet, mbind at 1, mget at 1.
  cbn [fst snd]. rewrite Hw. unfold mret at 1. unfold mbind at 1, mlift at 1. fold now. rewrite Hd.
  unfold apiPatch, mbind, ask, http_json.
  match goal with |- context [respond (QApiPatch ?p ?a ?b) ?t'] =>
    destruct (respond (QApiPatch p a b) t') as [m|st [b'|]] end;
    try destruct (negb _); reflexivity.
Qed.
End assigned.

Lemma time_index_range now : 0 <= now -> 0 <= time_index now < 1000000.
Proof.
  intros. unfold time_index. apply Z.rem_bound_pos; [apply Z.div_pos; lia|lia].
Qed.

(** ** Properties *)

(** C21. The calldata of a mint means what the service meant: for a 20-byte
    hexadecimal L2 address and any uint256 amount, the NativeMinter
    precompile decodes exactly that address and that amount. *)
Theorem mint_calldata_roundtrip hex ds amount :
  digits_of 16 hex = Some ds -> String.length hex = 40%nat -> 0 <= amount < 2 ^ 256 ->
  decodeMintCall (encodeMintCall ("0x" +:+ hex) amount) = Some (be_val 16 ds, amount).
Proof.
  intros Hds Hlen Ham. unfold encodeMintCall. rewrite strip_0x_hex.
  pose proof (digits_of_length _ _ _ Hds) as Hl. rewrite Hlen in Hl.
  destruct (padded_word (to_lower hex) ds) as (es & He & Hel & Hev);
    [by rewrite digits_of_lower|lia|].
  destruct (toString16_word amount Ham) as (fs & Hf & Hfl & Hfv).
  pose proof (decodeMintCall_words _ _ "" es fs He Hel Hf Hfl) as H.
  rewrite app_nil_r_str in H. rewrite H, Hev, Hfv. do 2 f_equal.
  apply Z.mod_small. pose proof (be_val_bound 16 ds ltac:(lia) (digits_of_range _ _ _ Hds)) as Hb.
  rewrite Hl in Hb. change (16 ^ Z.of_nat 40) with (2 ^ 160) in Hb. done.
Qed.

Lemma mint_calldata_roundtrip_witness :
  decodeMintCall (encodeMintCall ("0x" +:+ user_hex) (100000 * 10 ^ 10)) =
    Some (0xfd89b56d37642d155af094bf00a2b4e9014abafc, 10 ^ 15).
Proof.
  rewrite (mint_calldata_roundtrip user_hex (default [] (digits_of 16 user_hex))
    (100000 * 10 ^ 10)); vm_compute; try done; split; done.
Defined.

(** The address is not validated, so it can carry the amount: an L2
    "address" of two 64-digit words makes the precompile read its second word
    as the amount, whatever amount the service meant to mint. *)
Theorem mint_calldata_injection w1 w2 ds es amount :
  digits_of 16 w1 = Some ds -> length ds = 64%nat ->
  digits_of 16 w2 = Some es -> length es = 64%nat ->
  decodeMintCall (encodeMintCall ("0x" +:+ w1 +:+ w2) amount) =
    Some (be_val 16 ds mod 2 ^ 160, be_val 16 es).
Proof.
  intros H1 L1 H2 L2. unfold encodeMintCall. rewrite strip_0x_hex. unfold to_lower.
  rewrite map_str_app. rewrite pad_start_long.
  2: { rewrite app_length_str, !map_str_length, <-(digits_of_length _ _ _ H1). lia. }
  rewrite app_assoc_str. apply decodeMintCall_words; try done; by rewrite digits_of_lower.
Qed.

Lemma mint_calldata_injection_witness :
  decodeMintCall (encodeMintCall
    ("0x" +:+ pad_start 64 "0" user_hex +:+ pad_start 64 "0" "ffffffffffffffffffff") 1) =
  Some (0xfd89b56d37642d155af094bf00a2b4e9014abafc, 2 ^ 80 - 1).
Proof.
  rewrite (mint_calldata_injection (pad_start 64 "0" user_hex)
    (pad_start 64 "0" "ffffffffffffffffffff")
    (default [] (digits_of 16 (pad_start 64 "0" user_hex)))
    (default [] (digits_of 16 (pad_start 64 "0" "ffffffffffffffffffff"))) 1);
    vm_compute; done.
Defined.

(** A deposit is credited for exactly its confirmed outputs: nothing is
    reported when no output has the required confirmations; otherwise the
    amount is the sum over the outputs with at least [minConfs]
    confirmations at the tip, and the hash is the first such output's. *)
Theorem confirmed_hit_exact tip m utxos :
  let confirmed := confirmed_outputs tip (Fin m) utxos in
  (forall u, In u confirmed <-> In u utxos /\
     exists h, eu_confirmed u = Some true /\ eu_block_height u = Some h /\ m <= tip - h + 1) /\
  confirmed_hit tip (Fin m) utxos =
    match head confirmed with
    | None => None
    | Some u => Some {| hit_amount := sumZ (map (fun x => default 0 (eu_value x)) confirmed);
                        hit_txHash := default "" (eu_txid u) |}
    end.
Proof.
  intros confirmed. split.
  - intros u. unfold confirmed, confirmed_outputs. rewrite <-!list_elem_of_In, list_elem_of_filter.
    rewrite utxo_confirmed_iff. tauto.
  - unfold confirmed_hit. fold (confirmed_outputs tip (Fin m) utxos). fold confirmed.
    destruct confirmed as [|u l]; [done|]. simpl head. by rewrite foldl_sum.
Qed.

(** A funded deposit is minted: in a world where the service's calls succeed
    and the deposit's address shows confirmed outputs, one turn over a pending
    deposit reports it confirmed, sends exactly one mint of 10^10 wei per
    satoshi, waits for its receipt and reports it minted. *)
Theorem funded_deposit_is_minted `{HL : HdLibrary} `{BL : BtcLibrary} `{VL : ViemLibrary}
    `{E : Environment} cfg d tip utxos esplora address hit s t :
  calm_world cfg (d_network d) address tip utxos esplora ->
  d_ecash_address d = Some address -> str_truthy address = true -> d_status d = "pending" ->
  confirmed_hit tip (default (Fin 1) (rec_get (MIN_CONFIRMATIONS cfg) (d_network d))) utxos = Some hit ->
  (forall t', respond (confirm_call cfg d hit) t' = Resp 200 (Some tt)) ->
  (forall h t', respond (minted_call cfg d hit h) t' = Resp 200 (Some tt)) ->
  exists hash s' t', processDeposit cfg d s t = (Ok tt, s', t') /\
    map ev_query t' =
      [minted_call cfg d hit hash; QReceipt (d_network d) hash; send_call d hit;
       confirm_call cfg d hit; QUtxo esplora (cleanAddress address); QTip esplora]
      ++ map ev_query t.
Proof.
  intros C Ha Htr Hst Hhit Hc Hm.
  destruct (processDeposit_calm cfg d address tip utxos esplora hit s t) as (h & s' & t' & _ & -> & Ht);
    try done; [by rewrite Hst|].
  exists h, s', t'. split; [done|]. rewrite Ht. unfold turn_calls. by rewrite Hst.
Qed.

Lemma funded_deposit_is_minted_witness :
  exists s' t',
    @processDeposit toy_library toy_viem (toy_world []) toy_cfg
      (Deposit_of (deposit_row "d1" "pending")) (@boot toy_library) [] = (Ok tt, s', t') /\
    length t' = 6%nat.
Proof.
  edestruct (@funded_deposit_is_minted toy_library toy_btc toy_viem (toy_world []) toy_cfg
    (Deposit_of (deposit_row "d1" "pending")) 120
    [EsploraUtxo (Some "ab") (Some 0) (Some 100000) (Some true) (Some 100) None None]
    "https://esplora.signet.drivechain.info" "tb1qdeposit"
    {| hit_amount := 100000; hit_txHash := "ab" |} (@boot toy_library) []) as (h & s' & t' & H & Hq);
    try done.
  - split; intros; try done; eauto.
  - exists s', t'. split; [exact H|]. rewrite <-(length_map ev_query), Hq. done.
Defined.

(** C13. Every status report is earned. A PATCH that reports a deposit minted
    follows a successful receipt of a mint for that deposit's confirmed
    total; "confirmed" carries the observed total; "completed" follows a
    broadcast of a transaction built for that withdrawal, whose reply is the
    reported hash; "failed" is only reported for
    a withdrawal older than fifteen minutes; no other status is ever sent. What
    a report rests on was listed with no final status sent since. *)
Theorem every_status_report_is_earned `{HdLibrary} `{BtcLibrary} `{ViemLibrary} `{Environment}
    cfg n s after path token body r before :
  loop_trace cfg n s = after ++ Ev (QApiPatch path token body) r :: before ->
  patch_justified cfg path body before.
Proof.
  intros Htrace. pose proof (loop_trace_ok cfg n s) as Hok. rewrite Htrace in Hok.
  by apply trace_ok_split in Hok.
Qed.

Definition is_minted_report (e : event) : bool :=
  match ev_query e with
  | QApiPatch _ _ body => String.eqb (str_field body "status") "minted"
  | _ => false
  end.

Lemma every_status_report_is_earned_witness :
  let t := toy_trace [deposit_row "d1" "pending"] in
  let k := position is_minted_report t in
  @patch_justified toy_library toy_btc toy_cfg "https://snowside.network/v1/fed/deposit/d1"
    [("status", FStr "minted"); ("amount_ecx", FInt (10 ^ 15)); ("mint_tx_hash", FStr "0xmint")]
    (drop (S k) t).
Proof.
  intros t k.
  apply (@every_status_report_is_earned toy_library toy_btc toy_viem
    (toy_world [deposit_row "d1" "pending"]) toy_cfg 1 (@boot toy_library)
    (take k t) _ "Bearer dev-secret" _ (Resp 200 (Some tt))).
  vm_compute. reflexivity.
Defined.

(** C14. No answer of the outside world stops the service: however many turns
    the loop makes and whatever fails in them, the loop goes on, and so does
    each pass when one of its deposits throws. *)
Theorem service_never_stops `{HL : HdLibrary} `{BL : BtcLibrary} `{VL : ViemLibrary}
    `{E : Environment} cfg n s t deposits :
  is_ok (fst (fst (main_loop cfg n s t))) = true /\
  is_ok (fst (fst (mfor deposits (processOneDeposit cfg) s t))) = true.
Proof.
  split.
  - revert s t. induction n as [|n IH]; [done|].
    apply never_throws_bind; [apply poll_once_never_throws|]. intros _. exact IH.
  - apply never_throws_for. intros d. apply processOneDeposit_never_throws.
Qed.

(** The derivation index is the time in seconds modulo 10^6: it is a valid
    non-hardened index, and two deposits of a network assigned in the same
    second (or 10^6 seconds apart) are given the same L1 address. *)
Theorem same_second_same_address `{HL : HdLibrary} `{BL : BtcLibrary} `{VL : ViemLibrary}
    `{E : Environment} cfg w d1 d2 s1 s2 t1 t2 address k :
  s_wallet s1 = Some w -> s_wallet s2 = Some w ->
  opt_truthy (d_ecash_address d1) = false -> opt_truthy (d_ecash_address d2) = false ->
  d_network d1 = d_network d2 ->
  0 <= respond QNow t1 -> 0 <= k -> respond QNow t2 / 1000 = respond QNow t1 / 1000 + 1000000 * k ->
  deriveDepositAddress w (d_network d1) (time_index (respond QNow t1)) = Ok address ->
  let index := time_index (respond QNow t1) in
  0 <= index < 1000000 /\
  map ev_query (snd (assignDepositAddress cfg d1 s1 t1)) =
    [assign_call cfg d1 address index; QNow] ++ map ev_query t1 /\
  map ev_query (snd (assignDepositAddress cfg d2 s2 t2)) =
    [assign_call cfg d2 address index; QNow] ++ map ev_query t2.
Proof.
  intros Hw1 Hw2 Ha1 Ha2 Hn Hpos Hk Hsec Hd index.
  assert (Hidx : time_index (respond QNow t2) = index).
  { unfold index, time_index. rewrite Hsec.
    rewrite Z.mul_comm, Z.rem_add; [done|lia|].
    apply Z.mul_nonneg_nonneg; [|apply Z.div_pos]; try lia.
    pose proof (Z.div_pos (respond QNow t1) 1000). nia. }
  split; [by apply time_index_range|].
  split; [by apply assignDepositAddress_queries with (w := w)|].
  rewrite <-Hidx. apply assignDepositAddress_queries with (w := w); [done..|].
  by rewrite Hidx, <-Hn.
Qed.

Definition fresh_row (id : string) : record :=
  [("id", FStr id); ("network", FStr "signet"); ("snowside_address", FStr ("0x" +:+ user_hex));
   ("status", FStr "pending")].

Lemma same_second_same_address_witness :
  let w := @Build_HDWallet toy_library [7] in
  let s := @Service toy_library (Some w) None [] [] in
  exists address,
    map ev_query (snd (@assignDepositAddress toy_library (toy_world []) toy_cfg
      (Deposit_of (fresh_row "d2")) s [])) =
    [@assign_call toy_cfg (Deposit_of (fresh_row "d2")) address 5; QNow].
Proof.
  intros w s. eexists.
  apply (@same_second_same_address toy_library toy_btc toy_viem (toy_world []) toy_cfg w
    (Deposit_of (fresh_row "d1")) (Deposit_of (fresh_row "d2")) s s [] [] _ 0);
    done.
Defined.

(** One L1 payment, two mints: when two pending deposits carry the same
    L1 address, one output of 100000 satoshis is minted in full for each. *)
Theorem shared_address_is_minted_twice :
  length (filter (fun e => is_send e = true)
    (toy_trace [deposit_row "d1" "pending"; deposit_row "d2" "pending"])) = 2%nat /\
  Forall (fun e => is_send e = true -> ev_query e = QSendTx "signet" NATIVE_MINTER
      (encodeMintCall ("0x" +:+ user_hex) (100000 * 10 ^ 10)))
    (toy_trace [deposit_row "d1" "pending"; deposit_row "d2" "pending"]).
Proof.
  split; [by vm_compute|].
  vm_compute. repeat (constructor; [try discriminate; reflexivity|]). constructor.
Qed.
