(* ===== verification/TestScripts.v ===== *)
(** * The federation's test scripts

    [test-mint.ts] mints once by hand, [test-precompile.ts] looks for the
    NativeMinter. A script is a tree of what it asks of a Snowside node and of
    what it prints, with a branch per answer; it is run against a [world] that
    answers each request as a function of everything that happened before. *)

From Stdlib Require Import ZArith Lia String Ascii List Bool.
From stdpp Require Import base list strings numbers.
From S2P Require Import Prelude JsNumber Federation.
Local Open Scope Z_scope.

(** ** Requests, answers, scripts *)

(** What a viem call throws; [err.cause] is given by its message and by what
    [console.error] prints for the object itself. *)
Record reason := Reason { c_message : string; c_text : string }.
Record failure := Failure { message : option string; cause : option reason }.

Inductive answered (A : Type) := Returned (a : A) | Threw (err : failure).
Arguments Returned {A} a.
Arguments Threw {A} err.

(** What [console.log] and [console.error] are handed. *)
Inductive printed := Text (s : string) | Missing | Data (d : option string) | Error (err : failure).

Record receipt := Receipt { status : string; gasUsed : Z }.

Record Chain := { id : jsnum; rpc : string }.

(** A request names the node that it is sent to, by its RPC URL. *)
Inductive request :=
| GetChainId (node : string)
| GetCode (node address : string)
| GetBalance (node address : string)
| Call (node to data : string) (account : option string)
| SendTransaction (chain : Chain) (to data account : string)
| WaitForReceipt (node hash : string)
| Log (args : list printed)
| LogError (args : list printed).

Definition answer (q : request) : Type :=
  match q with
  | GetChainId _ | GetBalance _ _ => answered Z
  | GetCode _ _ | Call _ _ _ _ => answered (option string)
  | SendTransaction _ _ _ _ => answered string
  | WaitForReceipt _ _ => answered receipt
  | Log _ | LogError _ => unit
  end.

Inductive script (A : Type) :=
| Done (a : A)
| Raise (err : failure)
| Ask (q : request) (k : answer q -> script A).
Arguments Done {A} a.
Arguments Raise {A} err.
Arguments Ask {A} q k.

Fixpoint andThen {A B} (c : script A) (f : A -> script B) : script B :=
  match c with
  | Done a => f a
  | Raise err => Raise err
  | Ask q k => Ask q (fun r => andThen (k r) f)
  end.

(** [try { c } catch (err) { h }] *)
Fixpoint catching {A} (c : script A) (h : failure -> script A) : script A :=
  match c with
  | Done a => Done a
  | Raise err => h err
  | Ask q k => Ask q (fun r => catching (k r) h)
  end.

Definition returned {A} (r : answered A) : script A :=
  match r with Returned a => Done a | Threw err => Raise err end.

Definition thrown {A} (o : outcome A) : script A :=
  match o with Ok a => Done a | Throw m => Raise (Failure (Some m) None) end.

Declare Scope script_scope.
Notation "x <- c ;; k" := (andThen c (fun x => k))
  (at level 100, c at next level, right associativity) : script_scope.
Notation "c ;; k" := (andThen c (fun _ => k))
  (at level 100, right associativity) : script_scope.
Local Open Scope script_scope.

Definition log (args : list printed) : script unit := Ask (Log args) (fun _ => Done tt).
Definition logError (args : list printed) : script unit := Ask (LogError args) (fun _ => Done tt).
Definition getChainId node : script Z := Ask (GetChainId node) returned.
Definition getCode node a : script (option string) := Ask (GetCode node a) returned.
Definition getBalance node a : script Z := Ask (GetBalance node a) returned.
Definition call node to data acct : script (option string) := Ask (Call node to data acct) returned.
Definition sendTransaction chain to data acct : script string :=
  Ask (SendTransaction chain to data acct) returned.
Definition waitForReceipt node hash : script receipt := Ask (WaitForReceipt node hash) returned.

(** [for (const x of xs) body(x)] *)
Fixpoint each {A} (xs : list A) (body : A -> script unit) : script unit :=
  match xs with [] => Done tt | x :: xs' => body x ;; each xs' body end.

(** ** Running a script; newest event first *)

Record event := Ev { asked : request; reply : answer asked }.
Definition world := forall q : request, list event -> answer q.

Fixpoint run {A} (w : world) (c : script A) (t : list event) : answered A * list event :=
  match c with
  | Done a => (Returned a, t)
  | Raise err => (Threw err, t)
  | Ask q k => let r := w q t in run w (k r) (Ev q r :: t)
  end.

(** ** What the printing shows of a failure *)

Definition opt_text (o : option string) : printed :=
  match o with Some s => Text s | None => Missing end.

(** [err.message?.substring(0, n)] *)
Definition message_start (n : nat) (err : failure) : printed :=
  opt_text (take_str n <$> message err).

(** [if (err.cause) console.error('Cause:', err.cause.message || err.cause)] *)
Definition report_cause (err : failure) : script unit :=
  match cause err with
  | Some c => logError [Text "Cause:"; Text (str_or (c_message c) (c_text c))]
  | None => Done tt
  end.

Definition report (what : string) (err : failure) : script unit :=
  logError [Text what; opt_text (message err)] ;; report_cause err.

Definition lf : string := String "010" EmptyString.

(** [main().catch(console.error)] *)
Definition catch_all (main : script unit) : script unit :=
  catching main (fun err => logError [Error err]).

(** ** test-mint.ts *)
Module TestMint.

Inductive abi_value := Address (a : string) | Uint256 (z : Z).

(** viem's [encodeFunctionData] for a function of the script's ABI, and
    [keccak256(toBytes(_))]. *)
Class AbiLibrary := {
  encodeFunctionData : string -> list abi_value -> outcome string;
  keccak256_text : string -> string
}.

Section test_mint.
Context `{VL : ViemLibrary} `{AL : AbiLibrary}.
Context (env : string -> option string).

Definition NATIVE_MINTER : string := "0x0200000000000000000000000000000000000001".
Definition RPC : string := env_or env "RPC_URL" "https://rpc.snowside.network/signet".
Definition CHAIN_ID : jsnum := parseInt None (env_or env "CHAIN_ID" "33416").
Definition MINT_TO : string := env_or env "MINT_TO" "0xFd89b56D37642D155af094bF00A2B4e9014aBAFC".
Definition MINT_AMOUNT_ECX : outcome Z := BigInt_of_string (env_or env "MINT_AMOUNT_ECX" "1").

Definition chain : Chain := {| id := CHAIN_ID; rpc := RPC |}.

(** Step 2: the minter's role, for information. *)
Definition check_role (readData : string) : script unit :=
  catching
    (data <- call RPC NATIVE_MINTER readData None ;;
     log [Text "MINTER role:"; opt_text data; Text "(2 = admin, 1 = enabled, 0 = none)"])
    (fun err => logError [Text "readAllowList failed:"; message_start 200 err]).

(** Step 4: whether the transaction would succeed. *)
Definition simulate (account mintData : string) : script bool :=
  catching
    (call RPC NATIVE_MINTER mintData (Some account) ;;
     log [Text "eth_call succeeded — tx would work"] ;;
     Done true)
    (fun err => logError [Text "eth_call failed:"; message_start 200 err] ;; Done false).

(** Step 5 *)
Definition send (account mintData : string) : script unit :=
  catching
    (txHash <- sendTransaction chain NATIVE_MINTER mintData account ;;
     log [Text "txHash:"; Text txHash] ;;
     receipt <- waitForReceipt RPC txHash ;;
     log [Text "status:"; Text (status receipt)] ;;
     log [Text "gas used:"; Text (dec_str (gasUsed receipt))] ;;
     recipientBalance <- getBalance RPC MINT_TO ;;
     log [Text "Recipient balance:"; Text (dec_str recipientBalance); Text "wei"] ;;
     log [Text (lf +:+ "✅ MINT SUCCEEDED!")])
    (report "Transaction failed:").

Definition main (account : string) (mint_amount_ecx : Z) : script unit :=
  balance <- getBalance RPC account ;;
  log [Text "MINTER balance:"; Text (dec_str balance); Text "wei"] ;;
  readData <- thrown (encodeFunctionData "readAllowList" [Address account]) ;;
  log [Text (lf +:+ "--- Checking MINTER role on NativeMinter ---")] ;;
  check_role readData ;;
  let amount := mint_amount_ecx * 10 ^ 18 in
  mintData <- thrown (encodeFunctionData "mintNativeCoin" [Address MINT_TO; Uint256 amount]) ;;
  log [Text (lf +:+ "--- Minting " +:+ dec_str mint_amount_ecx +:+ " ECX via mintNativeCoin to "
             +:+ MINT_TO +:+ " ---")] ;;
  log [Text "Data:"; Text mintData] ;;
  would <- simulate account mintData ;;
  if would then send account mintData else Done tt.

(** The whole script: what the module's top level does, then [main]. *)
Definition program : script unit :=
  let MINTER_KEY := default EmptyString (env "MINTER_PRIVATE_KEY") in
  if negb (str_truthy MINTER_KEY) then
    logError [Text "MINTER_PRIVATE_KEY env var required (0x-prefixed hex)"]
  else
    mint_amount_ecx <- thrown MINT_AMOUNT_ECX ;;
    account <- thrown (privateKeyToAccount MINTER_KEY) ;;
    log [Text "MINTER address:"; Text account] ;;
    let selector := take_str 10 (keccak256_text "mintNativeCoin(address,uint256)") in
    log [Text "mintNativeCoin selector:"; Text selector] ;;
    log [Text "(was using mint selector: 0x40c10f19 — WRONG!)"] ;;
    catch_all (main account mint_amount_ecx).

End test_mint.
End TestMint.

(** ** test-precompile.ts *)
Module TestPrecompile.

Definition RPC : string := "https://rpc.snowside.network/signet".
Definition NATIVE_MINTER : string := "0x0200000000000000000000000000000000000001".
Definition toAddr : string := "0xFd89b56D37642D155af094bF00A2B4e9014aBAFC".
Definition amount : Z := 100 * 10 ^ 16.

Definition addressPadded : string := pad_start 64 "0" (strip_0x (to_lower toAddr)).
Definition amountHex : string := pad_start 64 "0" (toString16 amount).
Definition mintData : string := "0x40c10f19" +:+ addressPadded +:+ amountHex.

Definition probe_mint : script unit :=
  catching
    (result <- call RPC NATIVE_MINTER mintData None ;; log [Text "Result:"; Data result])
    (report "Error:").

Definition precompile_address (i : Z) : string :=
  "0x020000000000000000000000000000000000000" +:+ toString16 i.

(** [c && c !== '0x'] *)
Definition has_code (c : option string) : bool :=
  match c with Some s => str_truthy s && negb (String.eqb s "0x") | None => false end.

Definition probe_code (i : Z) : script unit :=
  let addr := precompile_address i in
  catching
    (c <- getCode RPC addr ;;
     if has_code c then log [Text (addr +:+ ": code = " +:+ default EmptyString c)] else Done tt)
    (fun _ => Done tt).

Definition readSelectors : list string := ["0xa3f1d81b"; "0x6ef8c667"; "0xeadfdb10"].

Definition probe_read (sel : string) : script unit :=
  let data := sel +:+ addressPadded in
  log [Text (lf +:+ "--- Testing selector " +:+ sel +:+ " ---")] ;;
  catching
    (result <- call RPC NATIVE_MINTER data None ;; log [Text "Result:"; Data result])
    (fun err => logError [Text "Error:"; message_start 100 err]).

(** [for (let i = 0; i <= 10; i++)] *)
Definition indices : list Z := seqZ 0 11.

Definition main : script unit :=
  chainId <- getChainId RPC ;;
  log [Text "Chain ID:"; Text (dec_str chainId)] ;;
  code <- getCode RPC NATIVE_MINTER ;;
  log [Text "NativeMinter code:"; opt_text code] ;;
  log [Text (lf +:+ "--- Testing mint(address,uint256) ---")] ;;
  log [Text "Selector: 0x40c10f19"] ;;
  log [Text "Data:"; Text mintData] ;;
  probe_mint ;;
  log [Text (lf +:+ "--- Checking other precompile addresses ---")] ;;
  each indices probe_code ;;
  each readSelectors probe_read.

Definition program : script unit := catch_all main.

End TestPrecompile.

(** ** Reasoning about scripts *)

Lemma run_andThen {A B} w (c : script A) (f : A -> script B) t :
  run w (andThen c f) t =
  match run w c t with
  | (Returned a, t') => run w (f a) t'
  | (Threw err, t') => (Threw err, t')
  end.
Proof. revert t. induction c as [a|err|q k IH]; intros t; cbn; [done..|apply IH]. Qed.

Lemma run_catching {A} w (c : script A) h t :
  run w (catching c h) t =
  match run w c t with
  | (Returned a, t') => (Returned a, t')
  | (Threw err, t') => run w (h err) t'
  end.
Proof. revert t. induction c as [a|err|q k IH]; intros t; cbn; [done..|apply IH]. Qed.

Definition is_send (e : event) : bool :=
  match asked e with SendTransaction _ _ _ _ => true | _ => false end.
Definition quiet (t : list event) : Prop := Forall (fun e => is_send e = false) t.

(** Whatever happens, [c] adds events to the trace that send nothing. *)
Definition sends_nothing {A} (c : script A) : Prop :=
  forall w t, exists new, quiet new /\ snd (run w c t) = new ++ t.

Lemma sn_done {A} (a : A) : sends_nothing (Done a).
Proof. intros w t. exists []. split; [constructor|done]. Qed.

Lemma sn_raise {A} err : sends_nothing (Raise (A := A) err).
Proof. intros w t. exists []. split; [constructor|done]. Qed.

Lemma sn_ask {A} q (k : answer q -> script A) :
  (forall r, is_send (Ev q r) = false) -> (forall r, sends_nothing (k r)) ->
  sends_nothing (Ask q k).
Proof.
  intros Hq Hk w t. cbn. destruct (Hk (w q t) w (Ev q (w q t) :: t)) as (new & Hn & ->).
  exists (new ++ [Ev q (w q t)]). rewrite <- app_assoc. split; [|done].
  apply Forall_app; split; [done|]. constructor; [apply Hq|constructor].
Qed.

(** Running [c], then a continuation picked by its result, adds the two. *)
Lemma sn_then {A B} (c : script A) (g : answered A -> script B) w t :
  sends_nothing c -> (forall r, sends_nothing (g r)) ->
  exists new, quiet new /\
    snd (run w (g (fst (run w c t))) (snd (run w c t))) = new ++ t.
Proof.
  intros Hc Hg. destruct (Hc w t) as (new & Hn & ->).
  destruct (Hg (fst (run w c t)) w (new ++ t)) as (new' & Hn' & ->).
  exists (new' ++ new). rewrite <- app_assoc. split; [by apply Forall_app|done].
Qed.

Lemma sn_andThen {A B} (c : script A) (f : A -> script B) :
  sends_nothing c -> (forall a, sends_nothing (f a)) -> sends_nothing (andThen c f).
Proof.
  intros Hc Hf w t. rewrite run_andThen.
  destruct (sn_then c (fun r => match r with Returned a => f a | Threw err => Raise err end) w t)
    as (new & Hn & E); [done|intros [a|err]; [done|apply sn_raise]|].
  exists new. split; [done|]. rewrite <- E. by destruct (run w c t) as [[a|err] t'].
Qed.

Lemma sn_catching {A} (c : script A) h :
  sends_nothing c -> (forall err, sends_nothing (h err)) -> sends_nothing (catching c h).
Proof.
  intros Hc Hh w t. rewrite run_catching.
  destruct (sn_then c (fun r => match r with Returned a => Done a | Threw err => h err end) w t)
    as (new & Hn & E); [done|intros [a|err]; [apply sn_done|done]|].
  exists new. split; [done|]. rewrite <- E. by destruct (run w c t) as [[a|err] t'].
Qed.

Lemma sn_returned {A} (r : answered A) : sends_nothing (returned r).
Proof. destruct r; [apply sn_done|apply sn_raise]. Qed.

Lemma sn_thrown {A} (o : outcome A) : sends_nothing (thrown o).
Proof. destruct o; [apply sn_done|apply sn_raise]. Qed.

Create HintDb script.
#[export] Hint Resolve sn_done sn_raise sn_returned sn_thrown : script.

(** Applies the rules down to the requests themselves. *)
Ltac quietly := repeat first
  [ progress auto with script
  | progress intros
  | apply sn_andThen | apply sn_catching | (apply sn_ask; [done|]) ].

(** A run that sends nothing, or sends once, after a past of which [ok] holds. *)
Definition one_send (ok : event -> list event -> Prop) (t : list event) : Prop :=
  quiet t \/
  exists after e before, t = after ++ e :: before /\ quiet after /\ quiet before /\
    is_send e = true /\ ok e before.

Lemma one_send_after {A B} ok w (c : script A) (f : A -> script B) t :
  sends_nothing c -> quiet t ->
  (forall a new, fst (run w c t) = Returned a -> quiet new -> snd (run w c t) = new ++ t ->
     one_send ok (snd (run w (f a) (new ++ t)))) ->
  one_send ok (snd (run w (andThen c f) t)).
Proof.
  intros Hc Ht Hf. rewrite run_andThen. destruct (Hc w t) as (new & Hn & E).
  destruct (run w c t) as [[a|err] t']; cbn in E, Hf |- *; subst t'.
  - by apply Hf.
  - left. by apply Forall_app.
Qed.

(** Every run of [c] returns, and asks exactly the questions [qs]. *)
Definition is_print (q : request) : bool :=
  match q with Log _ | LogError _ => true | _ => false end.

(** What a run asked the node, oldest first. *)
Definition questions (t : list event) : list request :=
  rev (List.filter (fun q => negb (is_print q)) (map asked t)).

Definition asks (c : script unit) (qs : list request) : Prop :=
  forall w t, exists t', run w c t = (Returned tt, t') /\ questions t' = questions t ++ qs.

Lemma asks_andThen c d qs qs' :
  asks c qs -> asks d qs' -> asks (c ;; d) (qs ++ qs').
Proof.
  intros Hc Hd w t. rewrite run_andThen. destruct (Hc w t) as (t1 & -> & E1).
  destruct (Hd w t1) as (t2 & -> & E2). exists t2. by rewrite E2, E1, app_assoc.
Qed.

Lemma asks_each {A} (xs : list A) body q :
  (forall x, asks (body x) [q x]) -> asks (each xs body) (map q xs).
Proof.
  intros Hb. induction xs as [|x xs IH].
  - intros w t. exists t. by rewrite app_nil_r.
  - exact (asks_andThen _ _ [q x] _ (Hb x) IH).
Qed.

(** ** test-mint.ts sends at most once, and only what it simulated *)
Module TestMintProps.
Import TestMint.

Section props.
Context `{VL : ViemLibrary} `{AL : AbiLibrary}.
Context (env : string -> option string).

(** The transaction that the script's settings ask for, and a past in which
    the node has executed the same call without failing. *)
Definition is_simulated_mint (e : event) (before : list event) : Prop :=
  exists amount account data r d,
    e = Ev (SendTransaction (chain env) NATIVE_MINTER data account) r /\
    privateKeyToAccount (default EmptyString (env "MINTER_PRIVATE_KEY")) = Ok account /\
    MINT_AMOUNT_ECX env = Ok amount /\
    encodeFunctionData "mintNativeCoin" [Address (MINT_TO env); Uint256 (amount * 10 ^ 18)] = Ok data /\
    In (Ev (Call (RPC env) NATIVE_MINTER data (Some account)) (Returned d)) before.

Lemma sn_log args : sends_nothing (log args).
Proof. by quietly. Qed.

Lemma sn_logError args : sends_nothing (logError args).
Proof. by quietly. Qed.

Lemma sn_check_role data : sends_nothing (check_role env data).
Proof. unfold check_role, call, log, logError. by quietly. Qed.

Lemma sn_report_cause err : sends_nothing (report_cause err).
Proof. unfold report_cause, logError. destruct (cause err); by quietly. Qed.

Lemma sn_simulate account data : sends_nothing (simulate env account data).
Proof. unfold simulate, call, log, logError. by quietly. Qed.

#[local] Hint Resolve sn_log sn_logError sn_check_role sn_report_cause sn_simulate : script.

(** [true] means that the node answered the call. *)
Lemma simulate_true w account data t :
  fst (run w (simulate env account data) t) = Returned true ->
  exists d, In (Ev (Call (RPC env) NATIVE_MINTER data (Some account)) (Returned d))
              (snd (run w (simulate env account data) t)).
Proof.
  unfold simulate, call, log, logError. cbn.
  set (q := Call _ _ _ _). destruct (w q t) as [d|err] eqn:E; cbn; [|done].
  intros _. exists d. right. left. by rewrite <- E.
Qed.

(** The send itself, then only receipts, balances and printing. *)
Lemma send_once w account data t :
  quiet t ->
  (forall r, is_simulated_mint (Ev (SendTransaction (chain env) NATIVE_MINTER data account) r) t) ->
  one_send is_simulated_mint (snd (run w (send env account data) t)).
Proof.
  intros Ht Hok. right. unfold send, sendTransaction. cbn [andThen catching run].
  match goal with |- context [run w ?c (?e :: t)] =>
    assert (sends_nothing c) as Hc; [|destruct (Hc w (e :: t)) as (new & Hn & ->)] end.
  - unfold log, waitForReceipt, getBalance. by quietly.
  - eexists new, _, t. by repeat split; [..|apply Hok].
Qed.
(** What is printed when [main] throws is not a transaction. *)
Lemma one_send_caught ok w (c : script unit) h t :
  (forall err, sends_nothing (h err)) -> one_send ok (snd (run w c t)) ->
  one_send ok (snd (run w (catching c h) t)).
Proof.
  intros Hh H. rewrite run_catching. destruct (run w c t) as [[a|err] t']; [done|]. cbn in H.
  destruct (Hh err w t') as (new & Hn & ->).
  destruct H as [H|(after & e & before & -> & Ha & H)]; [left; by apply Forall_app|].
  right. exists (new ++ after), e, before. rewrite <- app_assoc.
  split; [done|]. split; [by apply Forall_app|done].
Qed.

Ltac quiet_done := unfold quiet in *; repeat first [done | apply Forall_nil_2 | apply Forall_app; split].

(** One quiet step of a script that sends at most once. *)
Ltac quiet_step :=
  apply one_send_after;
  [unfold getBalance; by quietly
  |quiet_done
  |let a := fresh "a" in let new := fresh "new" in intros a new ?Hret ?Hq ?Hrun].

Lemma thrown_ok {A} w (o : outcome A) a t : fst (run w (thrown o) t) = Returned a -> o = Ok a.
Proof. destruct o; cbn; congruence. Qed.

Lemma main_sends_once w account amount t :
  privateKeyToAccount (default EmptyString (env "MINTER_PRIVATE_KEY")) = Ok account ->
  MINT_AMOUNT_ECX env = Ok amount -> quiet t ->
  one_send is_simulated_mint (snd (run w (main env account amount) t)).
Proof.
  intros Ha Hm Ht. unfold main. do 8 quiet_step.
  quiet_step. destruct a7; [|left; quiet_done].
  destruct (simulate_true _ _ _ _ Hret7) as [d Hd].
  apply send_once; [quiet_done|].
  intros r. exists amount, account, a4, r, d. rewrite <- Hrun7.
  by repeat split; [..|eapply thrown_ok|].
Qed.

(** Whatever the node answers, a run of test-mint.ts either sends no
    transaction, or sends exactly one: to the NativeMinter, on the chain and
    from the account of the settings, with the viem encoding of minting
    [MINT_AMOUNT_ECX] whole ECX to [MINT_TO], and only after the node has
    executed that very call, from that account, without failing. *)
Theorem test_mint_sends_what_it_simulated w :
  let t := snd (run w (program env) []) in
  Forall (fun e => is_send e = false) t \/
  exists after before amount account data r d,
    t = after ++ Ev (SendTransaction (chain env) NATIVE_MINTER data account) r :: before /\
    Forall (fun e => is_send e = false) (after ++ before) /\
    privateKeyToAccount (default EmptyString (env "MINTER_PRIVATE_KEY")) = Ok account /\
    MINT_AMOUNT_ECX env = Ok amount /\
    encodeFunctionData "mintNativeCoin" [Address (MINT_TO env); Uint256 (amount * 10 ^ 18)] = Ok data /\
    In (Ev (Call (RPC env) NATIVE_MINTER data (Some account)) (Returned d)) before.
Proof.
  cbn zeta. assert (one_send is_simulated_mint (snd (run w (program env) []))) as H.
  { unfold program. destruct (negb _); [by left; repeat constructor|]. cbn zeta. do 5 quiet_step.
    unfold catch_all. apply one_send_caught; [by quietly|].
    apply main_sends_once; [by eapply thrown_ok|by eapply thrown_ok|].
    quiet_done. }
  destruct H as [H|(after & e & before & -> & Ha & Hb & _ & am & ac & da & r & d & -> & H)]; [by left|].
  right. exists after, before, am, ac, da, r, d. split; [done|].
  split; [by apply Forall_app|]. tauto.
Qed.
End props.

(** A node that executes every call and mines every transaction. *)
Definition kind_node : world := fun q _ =>
  match q return answer q with
  | GetChainId _ => Returned 33416
  | GetBalance _ _ => Returned (10 ^ 18)
  | GetCode _ _ | Call _ _ _ _ => Returned (Some "0x01")
  | SendTransaction _ _ _ _ => Returned "0xhash"
  | WaitForReceipt _ _ => Returned (Receipt "success" 21000)
  | Log _ | LogError _ => tt
  end.

(** One that refuses every call. *)
Definition strict_node : world := fun q t =>
  match q return answer q with
  | Call _ _ _ _ => Threw (Failure (Some "execution reverted") None)
  | q => kind_node q t
  end.

#[local] Instance toy_viem : ViemLibrary := {| privateKeyToAccount k := Ok ("account of " +:+ k) |}.
#[local] Instance toy_abi : AbiLibrary := {|
  encodeFunctionData f args := Ok f;
  keccak256_text s := s
|}.

Definition with_key (x : string) : option string :=
  if String.eqb x "MINTER_PRIVATE_KEY" then Some "0x01" else None.

Example kind_node_mints :
  length (List.filter is_send (snd (run kind_node (program with_key) []))) = 1%nat.
Proof. vm_compute. reflexivity. Qed.

Example strict_node_does_not :
  length (List.filter is_send (snd (run strict_node (program with_key) []))) = 0%nat.
Proof. vm_compute. reflexivity. Qed.
End TestMintProps.

(** ** test-precompile.ts asks all its questions *)
Module TestPrecompileProps.
Import TestPrecompile.

(** A branch that has returned, its questions being those of the trace. *)
Ltac returns := eexists; split; [reflexivity|reflexivity].

Lemma asks_probe_mint : asks probe_mint [Call RPC NATIVE_MINTER mintData None].
Proof.
  intros w t. unfold probe_mint, call, log, report, report_cause, logError. cbn -[mintData].
  destruct (w _ t) as [d|[m [c|]]]; cbn -[mintData]; returns.
Qed.

Lemma asks_probe_code i : asks (probe_code i) [GetCode RPC (precompile_address i)].
Proof.
  intros w t. unfold probe_code, getCode, log. cbn -[precompile_address].
  destruct (w _ t) as [c|err]; cbn -[precompile_address]; [destruct (has_code c)|]; returns.
Qed.

Lemma asks_probe_read sel : asks (probe_read sel) [Call RPC NATIVE_MINTER (sel +:+ addressPadded) None].
Proof.
  intros w t. unfold probe_read, call, log, logError. cbn -[addressPadded].
  destruct (w _ _) as [d|err]; cbn -[addressPadded]; returns.
Qed.

(** The questions of the script, in order. *)
Definition all_questions : list request :=
  [GetChainId RPC; GetCode RPC NATIVE_MINTER] ++
  [Call RPC NATIVE_MINTER mintData None] ++
  map (fun i => GetCode RPC (precompile_address i)) indices ++
  map (fun sel => Call RPC NATIVE_MINTER (sel +:+ addressPadded) None) readSelectors.

Lemma asks_log args : asks (log args) [].
Proof. intros w t. eexists. split; [reflexivity|]. by rewrite app_nil_r. Qed.

(** What follows the first two questions. *)
Lemma asks_the_rest code :
  asks
    (log [Text "NativeMinter code:"; opt_text code] ;;
     log [Text (lf +:+ "--- Testing mint(address,uint256) ---")] ;;
     log [Text "Selector: 0x40c10f19"] ;;
     log [Text "Data:"; Text mintData] ;;
     probe_mint ;;
     log [Text (lf +:+ "--- Checking other precompile addresses ---")] ;;
     each indices probe_code ;;
     each readSelectors probe_read)
    (drop 2 all_questions).
Proof.
  change (drop 2 all_questions) with
    ([] ++ [] ++ [] ++ [] ++ [Call RPC NATIVE_MINTER mintData None] ++ [] ++
     map (fun i => GetCode RPC (precompile_address i)) indices ++
     map (fun sel => Call RPC NATIVE_MINTER (sel +:+ addressPadded) None) readSelectors).
  repeat apply asks_andThen; try apply asks_log;
    [apply asks_probe_mint|apply asks_each, asks_probe_code|apply asks_each, asks_probe_read].
Qed.

(** Whatever the node answers, test-precompile.ts ends without an uncaught
    exception. It stops short only when the chain id or the minter's code
    cannot be read; otherwise no failure keeps it from asking, in this order,
    for the minting call, the code of the eleven precompile addresses
    0x0200...00 to 0x0200...0a, and the three role look-ups. *)
Theorem precompile_probe_is_complete w :
  exists t, run w program [] = (Returned tt, t) /\
    (questions t = all_questions \/
     (exists err, In (Ev (GetChainId RPC) (Threw err)) t /\
        questions t = take 1 all_questions) \/
     (exists err, In (Ev (GetCode RPC NATIVE_MINTER) (Threw err)) t /\
        questions t = take 2 all_questions)).
Proof.
  unfold program, catch_all. rewrite run_catching.
  unfold main, getChainId. cbn [andThen run].
  destruct (w (GetChainId RPC) []) as [n|err] eqn:E1.
  2:{ eexists. split; [reflexivity|]. right. left. exists err. split; [|reflexivity]. cbn. tauto. }
  cbn [returned andThen log run]. unfold getCode at 1. cbn [andThen run].
  match goal with |- context [w (GetCode RPC NATIVE_MINTER) ?past] =>
    destruct (w (GetCode RPC NATIVE_MINTER) past) as [code|err] eqn:E2 end.
  2:{ eexists. split; [reflexivity|]. right. right. exists err. split; [|reflexivity]. cbn. tauto. }
  cbn [returned andThen].
  match goal with |- context [run w ?c ?t] => destruct (asks_the_rest code w t) as (t' & Hrun & Hq) end.
  exists t'. split; [|left; by rewrite Hq].
  replace (run w _ _) with (@Returned unit tt, t') by (symmetry; exact Hrun). reflexivity.
Qed.

(** The probed addresses: twenty bytes each, numbered from 0x0200...00. *)
Example probed_addresses :
  map (fun i => digits_of 16 (drop_str 2 (precompile_address i))) indices =
  map (fun i => Some ([0; 2] ++ repeat 0 37 ++ [i])) [0; 1; 2; 3; 4; 5; 6; 7; 8; 9; 10].
Proof. vm_compute. reflexivity. Qed.

(** The minting call is made with a selector that is not [mintNativeCoin]'s, so
    the precompile does not read it as one, and for a whole ECX. *)
Example precompile_call_is_not_a_mint : decodeMintCall mintData = None /\ amount = 10 ^ 18.
Proof. by vm_compute. Qed.
End TestPrecompileProps.
