(* ===== verification/Json.v ===== *)
(** * JSON values and Zod schemas

    The JSON the HTTP components exchange, the schemas the API declares, and
    what those components rely on Zod for: a [Class] with the laws of
    [schema.parse] and a reference instance that satisfies them. *)

From Stdlib Require Import ZArith Lia String List Bool.
From stdpp Require Import base list strings numbers.
From S2P Require Import Prelude Effects.
Local Open Scope Z_scope.

Inductive json :=
| JScalar (f : field)
| JBool (b : bool)
| JArr (l : list json)
| JObj (fields : list (string * json)).

Definition JStr (s : string) : json := JScalar (FStr s).
Definition JInt (z : Z) : json := JScalar (FInt z).
Definition JNull : json := JScalar FNull.

(** A database row as the JSON object it is serialised to. *)
Definition json_of_row (r : record) : json := JObj (map (fun kv => (fst kv, JScalar (snd kv))) r).

(** ** Reading a parsed value *)

(** A parsed value's property; [undefined] for a primitive, an exception for
    [null]. *)
Definition json_get (j : json) (k : string) : outcome (option json) :=
  match j with
  | JScalar FNull => Throw "TypeError"
  | JObj fields => Ok (rec_get fields k)
  | _ => Ok None
  end.

(** A value is truthy when it is an object or anything but null, false, 0 and
    the empty string. *)
Definition json_truthy (j : option json) : bool :=
  match j with
  | None | Some (JScalar FNull) | Some (JBool false) => false
  | Some (JScalar (FInt z)) => negb (z =? 0)
  | Some (JScalar (FStr s)) => str_truthy s
  | Some _ => true
  end.

(** [`${x}`]; what an array is rendered to is never used. *)
Definition json_text (j : option json) : string :=
  match j with
  | None => "undefined"
  | Some (JScalar FNull) => "null"
  | Some (JScalar (FInt z)) => dec_str z
  | Some (JScalar (FFrac r)) => r
  | Some (JScalar (FStr s)) => s
  | Some (JBool b) => if b then "true" else "false"
  | Some (JArr _) => ""
  | Some (JObj _) => "[object Object]"
  end.

(** ** Schemas *)

Inductive schema :=
| ZString
| ZNumber
| ZBoolean
| ZEnum (options : list string)
| ZNullable (s : schema)
| ZOptional (s : schema)
| ZArray (s : schema)
| ZObject (shape : list (string * schema)).

Definition is_optional (s : schema) : bool := match s with ZOptional _ => true | _ => false end.

(** The values a schema describes. *)
Fixpoint conforms (s : schema) (j : json) {struct s} : bool :=
  match s with
  | ZString => match j with JScalar (FStr _) => true | _ => false end
  | ZNumber => match j with JScalar (FInt _) | JScalar (FFrac _) => true | _ => false end
  | ZBoolean => match j with JBool _ => true | _ => false end
  | ZEnum opts => match j with JScalar (FStr x) => existsb (String.eqb x) opts | _ => false end
  | ZNullable s' => match j with JScalar FNull => true | _ => conforms s' j end
  | ZOptional s' => conforms s' j
  | ZArray s' => match j with JArr l => forallb (conforms s') l | _ => false end
  | ZObject shape =>
      match j with
      | JObj fields =>
          (fix all (sh : list (string * schema)) : bool :=
             match sh with
             | [] => true
             | (k, s') :: sh' =>
                 match rec_get fields k with
                 | Some v => conforms s' v
                 | None => is_optional s'
                 end && all sh'
             end) shape
      | _ => false
      end
  end.

(** [conforms] for an object, one field at a time. *)
Definition field_conforms (fields : list (string * json)) (ks : string * schema) : bool :=
  match rec_get fields (fst ks) with
  | Some v => conforms (snd ks) v
  | None => is_optional (snd ks)
  end.

Lemma conforms_object shape fields :
  conforms (ZObject shape) (JObj fields) = forallb (field_conforms fields) shape.
Proof.
  cbn [conforms]. induction shape as [|[k s] sh IH]; [done|]. cbn [forallb]. by rewrite <-IH.
Qed.

(** What the API relies on Zod for: a body that parses conforms to its
    schema; an object keeps the declared fields the input had, with their
    values when those are scalars, drops the others, and repeats no key;
    every conforming input parses. *)
Class Zod := {
  zod_parse : schema -> json -> option json;
  zod_sound s j v : zod_parse s j = Some v -> conforms s v = true;
  zod_complete s j : conforms s j = true -> is_Some (zod_parse s j);
  zod_object shape j v :
    zod_parse (ZObject shape) j = Some v ->
    exists given kept, j = JObj given /\ v = JObj kept /\ NoDup (map fst kept) /\
      (forall k, In k (map fst kept) -> In k (map fst shape)) /\
      (forall k f, rec_get kept k = Some (JScalar f) -> rec_get given k = Some (JScalar f)) /\
      (forall k f, In k (map fst shape) -> rec_get given k = Some (JScalar f) ->
         rec_get kept k = Some (JScalar f))
}.

Lemma rec_get_in {A} (r : list (string * A)) k a : rec_get r k = Some a -> In (k, a) r.
Proof.
  induction r as [|[k' a'] r IH]; simpl; [done|].
  destruct (String.eqb_spec k' k) as [->|]; [intros [= ->]; by left|]. intros H. right. auto.
Qed.

Lemma rec_get_none {A} (r : list (string * A)) k : rec_get r k = None <-> ~ In k (map fst r).
Proof.
  induction r as [|[k' a'] r IH]; simpl; [tauto|].
  destruct (String.eqb_spec k' k) as [->|Hn]; [|rewrite IH; tauto].
  split; [done|]. intros H. by destruct H; left.
Qed.

Lemma rec_get_key {A} (r : list (string * A)) k a : rec_get r k = Some a -> In k (map fst r).
Proof. intros H%rec_get_in. by apply (in_map fst) in H. Qed.

Lemma rec_get_nodup {A} (r : list (string * A)) k a :
  NoDup (map fst r) -> In (k, a) r -> rec_get r k = Some a.
Proof.
  induction r as [|[k' a'] r IH]; simpl; [done|]. rewrite list.NoDup_cons. intros [Hnin Hnd] [[= -> ->]|Hin].
  - by rewrite String.eqb_refl.
  - destruct (String.eqb_spec k' k) as [->|]; [|by apply IH].
    destruct Hnin. apply list_elem_of_In. by apply (in_map fst) in Hin.
Qed.

Lemma rec_get_map {A B} (g : A -> B) (r : list (string * A)) k :
  rec_get (map (fun kv => (fst kv, g (snd kv))) r) k = g <$> rec_get r k.
Proof. induction r as [|[k' a] r IH]; simpl; [done|]. by destruct (String.eqb k' k). Qed.

(** ** A reference instance *)

(** Reference parser: an object keeps its declared fields, in schema order. *)
Definition keep_declared (shape : list (string * schema)) (fields : list (string * json))
  : list (string * json) :=
  flat_map (fun k => match rec_get fields k with Some v => [(k, v)] | None => [] end)
    (remove_dups (map fst shape)).

Definition ref_parse (s : schema) (j : json) : option json :=
  if conforms s j then
    match s, j with
    | ZObject shape, JObj fields => Some (JObj (keep_declared shape fields))
    | _, _ => Some j
    end
  else None.

Lemma in_remove_dups (l : list string) k : In k (remove_dups l) <-> In k l.
Proof. rewrite <-!list_elem_of_In. apply elem_of_remove_dups. Qed.

Lemma keep_declared_get shape fields k :
  rec_get (keep_declared shape fields) k =
    if existsb (String.eqb k) (map fst shape) then rec_get fields k else None.
Proof.
  unfold keep_declared.
  assert (H : existsb (String.eqb k) (map fst shape) =
    existsb (String.eqb k) (remove_dups (map fst shape))).
  { apply Bool.eq_iff_eq_true. rewrite !existsb_exists. split; intros (x & Hin & He);
      exists x; split; try done; by apply in_remove_dups. }
  rewrite H. clear H. induction (remove_dups (map fst shape)) as [|k' l IH]; [done|].
  cbn [flat_map existsb]. destruct (String.eqb_spec k k') as [->|Hn]; cbn [orb].
  - destruct (rec_get fields k') eqn:E; cbn [app rec_get]; [by rewrite String.eqb_refl|].
    rewrite IH. by destruct (existsb _ _).
  - destruct (rec_get fields k'); cbn [app rec_get]; [|exact IH].
    destruct (String.eqb_spec k' k) as [->|]; [done|exact IH].
Qed.

Lemma keep_declared_nodup shape fields : NoDup (map fst (keep_declared shape fields)).
Proof.
  unfold keep_declared. pose proof (NoDup_remove_dups (map fst shape)) as Hnd.
  induction (remove_dups (map fst shape)) as [|k l IH]; [constructor|].
  inversion_clear Hnd as [|? ? Hnin Hl]. cbn [flat_map]. specialize (IH Hl).
  destruct (rec_get fields k); [|exact IH]. cbn [app map fst]. constructor; [|exact IH].
  rewrite list_elem_of_In, in_map_iff. intros ([k' v] & <- & Hin).
  apply in_flat_map in Hin as (x & Hx & Hin). destruct (rec_get fields x); [|done].
  destruct Hin as [[= -> ->]|[]]. by apply Hnin, list_elem_of_In.
Qed.

Lemma existsb_eqb_in k l : existsb (String.eqb k) l = true <-> In k l.
Proof.
  rewrite existsb_exists. split; [by intros (x & ? & <-%String.eqb_eq)|].
  intros H. exists k. split; [done|apply String.eqb_refl].
Qed.

#[export, refine] Instance ref_zod : Zod := {| zod_parse := ref_parse |}.
Proof.
  - intros s j v. unfold ref_parse. destruct (conforms s j) eqn:Ec; [|done].
    destruct s as [| | | | | | |shape]; try (intros [= <-]; exact Ec).
    destruct j as [f|b|l|fields]; try (intros [= <-]; exact Ec).
    intros [= <-]. rewrite conforms_object in Ec |- *. rewrite forallb_forall in Ec |- *.
    intros [k s] Hin. specialize (Ec _ Hin). unfold field_conforms in *. cbn [fst snd] in *.
    rewrite keep_declared_get. apply (in_map fst) in Hin. cbn [fst] in Hin.
    by rewrite (proj2 (existsb_eqb_in k _) Hin).
  - intros s j Ec. unfold ref_parse. rewrite Ec. destruct s, j; eauto.
  - intros shape j v. unfold ref_parse. destruct (conforms (ZObject shape) j) eqn:Ec; [|done].
    destruct j as [f|b|l|fields]; try discriminate. intros [= <-].
    exists fields, (keep_declared shape fields). split_and!; try done.
    + apply keep_declared_nodup.
    + intros k Hin. destruct (rec_get (keep_declared shape fields) k) eqn:E.
      * rewrite keep_declared_get in E. destruct (existsb _ _) eqn:Ex; [|done].
        by apply existsb_eqb_in.
      * by apply rec_get_none in E.
    + intros k f H. rewrite keep_declared_get in H. by destruct (existsb _ _).
    + intros k f Hin H. rewrite keep_declared_get. by rewrite (proj2 (existsb_eqb_in k _) Hin).
Defined.
