(* ===== verification/Database.v ===== *)
(** * The bridge database: packages/api/schema.sql

    The D1 tables and the SQL statements the API runs on them. What SQLite
    does to a value it stores in a column, and the order of rows with equal
    sort keys, are left to the [Sqlite] class. *)

From Stdlib Require Import ZArith Lia String List Bool.
From stdpp Require Import base list strings numbers sorting.
From S2P Require Import Prelude Effects Json.
Local Open Scope Z_scope.

Inductive affinity := TEXT | INTEGER.

Record column := Column {
  col_name : string;
  col_type : affinity;
  col_not_null : bool;
  col_default : field
}.

Definition deposits_schema : list column :=
  [Column "id" TEXT false FNull;
   Column "network" TEXT true FNull;
   Column "snowside_address" TEXT true FNull;
   Column "ecash_address" TEXT false FNull;
   Column "amount_sats" INTEGER false FNull;
   Column "amount_ecx" INTEGER false FNull;
   Column "status" TEXT true (FStr "pending");
   Column "ecash_tx_hash" TEXT false FNull;
   Column "mint_tx_hash" TEXT false FNull;
   Column "created_at" INTEGER true FNull;
   Column "confirmed_at" INTEGER false FNull;
   Column "minted_at" INTEGER false FNull;
   Column "derivation_index" INTEGER false FNull].

Definition withdrawals_schema : list column :=
  [Column "id" TEXT false FNull;
   Column "network" TEXT true FNull;
   Column "snowside_address" TEXT true FNull;
   Column "ecash_address" TEXT true FNull;
   Column "amount_ecx" INTEGER false FNull;
   Column "amount_sats" INTEGER false FNull;
   Column "burn_tx_hash" TEXT false FNull;
   Column "ecash_tx_hash" TEXT false FNull;
   Column "status" TEXT true (FStr "pending");
   Column "created_at" INTEGER true FNull;
   Column "completed_at" INTEGER false FNull].

Definition is_number (f : field) : bool :=
  match f with FInt _ | FFrac _ => true | _ => false end.

Definition row_key (column : string) (r : record) : Z := default 0 (fget_int r column).

Lemma fget_str_eq r k s : fget r k = FStr s -> fget_str r k = Some s.
Proof. unfold fget_str. by intros ->. Qed.

(** What the API relies on SQLite and D1 for. [store] is the conversion a
    column applies to a bound value; [order_by desc column] sorts. *)
Class Sqlite := {
  store : affinity -> field -> field;
  store_text s : store TEXT (FStr s) = FStr s;
  store_integer z : store INTEGER (FInt z) = FInt z;
  store_number f : is_number f = true -> is_number (store INTEGER f) = true;
  store_null a f : store a f = FNull <-> f = FNull;
  order_by : bool -> string -> list record -> list record;
  order_by_perm desc column l : order_by desc column l ≡ₚ l;
  order_by_asc column l :
    StronglySorted (fun a b => row_key column a <= row_key column b) (order_by false column l);
  order_by_desc column l :
    StronglySorted (fun a b => row_key column b <= row_key column a) (order_by true column l)
}.

Inductive table_name := Deposits | Withdrawals.

#[export] Instance table_name_eq_dec : EqDecision table_name.
Proof. solve_decision. Defined.

Record db := Db {
  deposits : list record;
  withdrawals : list record;
  meta : list (string * string)
}.

Definition empty_db : db := Db [] [] [].

Definition schema_of (t : table_name) : list column :=
  match t with Deposits => deposits_schema | Withdrawals => withdrawals_schema end.

Definition rows_of (t : table_name) (d : db) : list record :=
  match t with Deposits => deposits d | Withdrawals => withdrawals d end.

Definition with_rows (t : table_name) (rows : list record) (d : db) : db :=
  match t with
  | Deposits => Db rows (withdrawals d) (meta d)
  | Withdrawals => Db (deposits d) rows (meta d)
  end.

Section statements.
Context `{Sqlite}.

(** The row an INSERT makes of the values it lists: the other columns take
    their defaults. *)
Definition new_row (cols : list column) (values : record) : record :=
  map (fun c => (col_name c,
    match rec_get values (col_name c) with
    | Some v => store (col_type c) v
    | None => col_default c
    end)) cols.

(** [UPDATE ... SET]: the listed columns take the bound values. *)
Definition set_columns (cols : list column) (updates : record) (r : record) : record :=
  map (fun c => (col_name c,
    match rec_get updates (col_name c) with
    | Some v => store (col_type c) v
    | None => fget r (col_name c)
    end)) cols.

Definition not_null_ok (cols : list column) (r : record) : bool :=
  forallb (fun c => negb (col_not_null c && bool_decide (fget r (col_name c) = FNull))) cols.

Definition has_id (id : string) (r : record) : bool := bool_decide (fget r "id" = FStr id).

(** [INSERT INTO t (columns) VALUES (?, ...)] *)
Definition insert_into (t : table_name) (values : record) (d : db) : outcome db :=
  let r := new_row (schema_of t) values in
  if negb (not_null_ok (schema_of t) r) then Throw "NOT NULL constraint failed"
  else if existsb (has_id (default "" (fget_str r "id"))) (rows_of t d)
  then Throw "UNIQUE constraint failed"
  else Ok (with_rows t (rows_of t d ++ [r]) d).

(** [UPDATE t SET column = ?, ... WHERE id = ?] *)
Definition update_where_id (t : table_name) (updates : record) (id : string) (d : db) : outcome db :=
  let rows := map (fun r => if has_id id r then set_columns (schema_of t) updates r else r) (rows_of t d) in
  if forallb (not_null_ok (schema_of t)) rows then Ok (with_rows t rows d)
  else Throw "NOT NULL constraint failed".

(** [SELECT * FROM t WHERE p ORDER BY created_at ASC|DESC] *)
Definition select_where (t : table_name) (p : record -> bool) (desc : bool) (d : db) : list record :=
  order_by desc "created_at" (List.filter p (rows_of t d)).

(** [SELECT * FROM t WHERE id = ?], first row. *)
Definition select_by_id (t : table_name) (id : string) (d : db) : option record :=
  List.find (has_id id) (rows_of t d).

(** [INSERT OR REPLACE INTO meta (key, value) VALUES (?, ?)] *)
Definition replace_meta (k v : string) (d : db) : db :=
  Db (deposits d) (withdrawals d)
    ((k, v) :: List.filter (fun kv => negb (String.eqb (fst kv) k)) (meta d)).

Definition select_meta (k : string) (d : db) : option string := rec_get (meta d) k.

(** ** Well-formed tables *)

(** A row has the columns of its table, in order; its id is a text; its NOT
    NULL columns hold values. *)
Definition row_ok (t : table_name) (r : record) : Prop :=
  map fst r = map col_name (schema_of t) /\ not_null_ok (schema_of t) r = true /\
  exists id, fget r "id" = FStr id.

Definition ids (rows : list record) : list field := map (fun r => fget r "id") rows.

Definition table_ok (t : table_name) (rows : list record) : Prop :=
  Forall (row_ok t) rows /\ NoDup (ids rows).

Definition db_ok (d : db) : Prop := table_ok Deposits (deposits d) /\ table_ok Withdrawals (withdrawals d).

Lemma db_ok_table t d : db_ok d -> table_ok t (rows_of t d).
Proof. intros []. by destruct t. Qed.

Lemma db_ok_with t rows d : db_ok d -> table_ok t rows -> db_ok (with_rows t rows d).
Proof. intros [] ?. by destruct t. Qed.

Lemma rows_with t rows d : rows_of t (with_rows t rows d) = rows.
Proof. by destruct t. Qed.

Lemma with_other t t' rows d : t <> t' -> rows_of t' (with_rows t rows d) = rows_of t' d.
Proof. by destruct t, t'. Qed.

(** Reading a row built column by column. *)
Lemma fget_columns (f : column -> field) cols c :
  NoDup (map col_name cols) -> In c cols ->
  fget (map (fun c => (col_name c, f c)) cols) (col_name c) = f c.
Proof.
  intros Hnd Hin. unfold fget. erewrite rec_get_nodup; [done| |].
  - rewrite map_map. exact Hnd.
  - apply (in_map (fun c => (col_name c, f c))) in Hin. exact Hin.
Qed.

Lemma fget_no_column (f : column -> field) cols k :
  ~ In k (map col_name cols) -> fget (map (fun c => (col_name c, f c)) cols) k = FNull.
Proof.
  intros Hn. unfold fget. rewrite (proj2 (rec_get_none _ k)); [done|]. by rewrite map_map.
Qed.

Lemma schema_nodup t : NoDup (map col_name (schema_of t)).
Proof. destruct t; apply (bool_decide_unpack _); vm_compute; exact I. Qed.

Lemma column_names_map cols (f : column -> field) :
  map fst (map (fun c => (col_name c, f c)) cols) = map col_name cols.
Proof. rewrite map_map. done. Qed.

(** A column left out of the SET list keeps its value. *)
Lemma set_columns_other t updates r k :
  map fst r = map col_name (schema_of t) -> rec_get updates k = None ->
  fget (set_columns (schema_of t) updates r) k = fget r k.
Proof.
  intros Hr Hk. unfold set_columns. destruct (in_dec string_dec k (map col_name (schema_of t))) as [Hin|Hn].
  - apply in_map_iff in Hin as (c & <- & Hin).
    rewrite (fget_columns (fun c => match rec_get updates (col_name c) with
      | Some v => store (col_type c) v | None => fget r (col_name c) end)) by auto using schema_nodup.
    by rewrite Hk.
  - rewrite (fget_no_column (fun c => match rec_get updates (col_name c) with
      | Some v => store (col_type c) v | None => fget r (col_name c) end)) by done.
    unfold fget. rewrite (proj2 (rec_get_none r k)); [done|]. by rewrite Hr.
Qed.

(** A column of the SET list takes its value, as the column stores it. *)
Lemma set_columns_set t updates r c v :
  In c (schema_of t) -> rec_get updates (col_name c) = Some v ->
  fget (set_columns (schema_of t) updates r) (col_name c) = store (col_type c) v.
Proof.
  intros Hin Hv. unfold set_columns.
  rewrite (fget_columns (fun c => match rec_get updates (col_name c) with
    | Some v => store (col_type c) v | None => fget r (col_name c) end)) by auto using schema_nodup.
  by rewrite Hv.
Qed.

Lemma new_row_get t values c :
  In c (schema_of t) ->
  fget (new_row (schema_of t) values) (col_name c) =
    match rec_get values (col_name c) with Some v => store (col_type c) v | None => col_default c end.
Proof.
  intros Hin. unfold new_row.
  by rewrite (fget_columns (fun c => match rec_get values (col_name c) with
    | Some v => store (col_type c) v | None => col_default c end)) by auto using schema_nodup.
Qed.

Lemma has_id_iff id r : has_id id r = true <-> fget r "id" = FStr id.
Proof. unfold has_id. apply bool_decide_eq_true. Qed.

Lemma table_ok_nil t : table_ok t [].
Proof. split; constructor. Qed.

Lemma id_column t : In (Column "id" TEXT false FNull) (schema_of t).
Proof. destruct t; by left. Qed.

Lemma insert_into_ok t values id d d' :
  rec_get values "id" = Some (FStr id) -> insert_into t values d = Ok d' ->
  db_ok d -> db_ok d'.
Proof.
  unfold insert_into. set (r := new_row _ _). intros Hid Hins Hd.
  assert (Hr : fget r "id" = FStr id).
  { unfold r. pose proof (new_row_get t values _ (id_column t)) as E. cbn [col_name col_type] in E.
    by rewrite E, Hid, store_text. }
  destruct (not_null_ok (schema_of t) r) eqn:En; [|done]. cbn [negb] in Hins.
  destruct (existsb _ _) eqn:Eu; [done|]. injection Hins as <-.
  apply db_ok_with; [done|]. apply (db_ok_table t) in Hd as [Hrows Hnd]. split.
  - apply Forall_app_2; [done|]. repeat constructor; [apply column_names_map|done|by exists id].
  - unfold ids. rewrite map_app. apply NoDup_app. split_and!; [done| |apply NoDup_singleton].
    intros x Hx ->%list_elem_of_singleton. apply list_elem_of_In, in_map_iff in Hx as (r' & Heq & Hin).
    apply not_true_iff_false in Eu. apply Eu, existsb_exists. exists r'. split; [done|].
    apply has_id_iff. by rewrite Heq, Hr, (fget_str_eq r "id" id Hr).
Qed.

(** An UPDATE that does not touch the key keeps the tables well formed. *)
Lemma set_columns_ids t updates id rows :
  Forall (row_ok t) rows -> rec_get updates "id" = None ->
  ids (map (fun r => if has_id id r then set_columns (schema_of t) updates r else r) rows) = ids rows.
Proof.
  intros Hrows Hu. unfold ids. rewrite map_map. apply map_ext_in. intros r Hin.
  rewrite Forall_forall in Hrows. apply list_elem_of_In, Hrows in Hin as (Hc & _ & _).
  destruct (has_id id r); [|done]. by apply set_columns_other.
Qed.

Lemma update_where_id_ok t updates id d d' :
  rec_get updates "id" = None -> update_where_id t updates id d = Ok d' -> db_ok d -> db_ok d'.
Proof.
  unfold update_where_id. intros Hu Hup Hd. destruct (forallb _ _) eqn:En; [|done].
  injection Hup as <-. apply db_ok_with; [done|]. apply (db_ok_table t) in Hd as [Hrows Hnd].
  split; [|by rewrite set_columns_ids].
  rewrite forallb_forall in En. rewrite Forall_forall in Hrows |- *. intros r Hin.
  apply list_elem_of_In in Hin. pose proof (En r Hin) as Hnn.
  apply in_map_iff in Hin as (r0 & <- & Hin). apply list_elem_of_In, Hrows in Hin as (Hc & Hn & k & Hk).
  destruct (has_id id r0); [|by split_and!; eauto].
  split_and!; [apply column_names_map|done|]. exists k. by rewrite set_columns_other.
Qed.

Lemma replace_meta_ok k v d : db_ok d -> db_ok (replace_meta k v d).
Proof. done. Qed.

Lemma select_meta_replace k v d : select_meta k (replace_meta k v d) = Some v.
Proof. unfold select_meta, replace_meta. simpl. by rewrite String.eqb_refl. Qed.

(** [SELECT] returns exactly the rows that satisfy its condition. *)
Lemma select_where_in t p desc d r :
  In r (select_where t p desc d) <-> In r (rows_of t d) /\ p r = true.
Proof.
  unfold select_where. rewrite <-filter_In, <-!list_elem_of_In. by rewrite order_by_perm.
Qed.

Lemma select_by_id_spec t id d :
  match select_by_id t id d with
  | Some r => In r (rows_of t d) /\ fget r "id" = FStr id
  | None => forall r, In r (rows_of t d) -> fget r "id" <> FStr id
  end.
Proof.
  unfold select_by_id. destruct (List.find _ _) as [r|] eqn:E.
  - apply find_some in E as [? ?%has_id_iff]. done.
  - intros r Hin Hid. apply (find_none _ _ E) in Hin. apply has_id_iff in Hid. congruence.
Qed.

(** The row an INSERT added is found by its id. *)
Lemma insert_select t values id d d' :
  rec_get values "id" = Some (FStr id) -> insert_into t values d = Ok d' ->
  select_by_id t id d' = Some (new_row (schema_of t) values) /\
  rows_of t d' = rows_of t d ++ [new_row (schema_of t) values].
Proof.
  unfold insert_into. set (r := new_row _ _). intros Hid Hins.
  assert (Hr : fget r "id" = FStr id).
  { unfold r. pose proof (new_row_get t values _ (id_column t)) as E. cbn [col_name col_type] in E.
    by rewrite E, Hid, store_text. }
  destruct (negb _); [done|]. destruct (existsb _ _) eqn:Eu; [done|]. injection Hins as <-.
  rewrite (fget_str_eq _ _ _ Hr) in Eu. change (default "" (Some id)) with id in Eu.
  unfold select_by_id. rewrite rows_with. split; [|done].
  induction (rows_of t d) as [|r' l IH]; cbn [app List.find existsb] in *.
  - by rewrite (proj2 (has_id_iff id r) Hr).
  - apply orb_false_iff in Eu as [-> Eu]. by apply IH.
Qed.
End statements.

(** ** A reference instance *)

(** A store that keeps every value, and a stable sort. *)
#[export, refine] Instance ref_sqlite : Sqlite := {|
  store _ f := f;
  order_by desc column l :=
    js_sort (fun a b => if desc then row_key column b - row_key column a
                        else - row_key column b - - row_key column a) l
|}.
Proof.
  - done.
  - done.
  - done.
  - done.
  - intros desc column l. apply js_sort_perm.
  - intros column l. eapply sorted_mono;
      [|apply (js_sort_desc_sorted (fun r => - row_key column r))]. simpl. lia.
  - intros column l. apply (js_sort_desc_sorted (row_key column)).
Defined.
