(* ===== verification/Api.v ===== *)
(** * Bridge API: packages/api/src/index.ts

    The Worker's schemas, its route handlers over the database, the federation
    middleware and the dispatch of a request to a handler. A handler may throw
    (D1 does when it is down or a constraint fails); Hono then answers 500. *)

From Stdlib Require Import ZArith Lia String List Bool.
From stdpp Require Import base list strings numbers.
From S2P Require Import Prelude JsNumber Effects Json Database.
Local Open Scope Z_scope.

(** ** Shared Zod schemas *)

Definition DepositSchema : schema := ZObject
  [("id", ZString); ("network", ZString); ("snowside_address", ZString);
   ("ecash_address", ZNullable ZString); ("derivation_index", ZNullable ZNumber);
   ("status", ZString); ("amount_sats", ZNullable ZNumber); ("amount_ecx", ZNullable ZNumber);
   ("ecash_tx_hash", ZNullable ZString); ("mint_tx_hash", ZNullable ZString);
   ("created_at", ZNumber); ("confirmed_at", ZNullable ZNumber); ("minted_at", ZNullable ZNumber)].

Definition WithdrawalSchema : schema := ZObject
  [("id", ZString); ("network", ZString); ("snowside_address", ZString);
   ("ecash_address", ZString); ("amount_ecx", ZNullable ZString);
   ("amount_sats", ZNullable ZNumber); ("burn_tx_hash", ZNullable ZString);
   ("ecash_tx_hash", ZNullable ZString); ("status", ZString); ("created_at", ZNumber);
   ("completed_at", ZNullable ZNumber)].

Definition network_enum : schema := ZEnum ["mainnet"; "testnet"; "signet"].

Definition deposit_body : list (string * schema) :=
  [("snowsideAddress", ZString); ("network", network_enum)].

Definition withdraw_body : list (string * schema) :=
  [("snowsideAddress", ZString); ("ecashAddress", ZString); ("amountEcx", ZString);
   ("network", network_enum); ("burnTxHash", ZOptional ZString)].

Definition deposit_patch_body : list (string * schema) :=
  [("ecash_address", ZOptional ZString); ("derivation_index", ZOptional ZNumber);
   ("amount_sats", ZOptional ZNumber); ("amount_ecx", ZOptional ZNumber);
   ("ecash_tx_hash", ZOptional ZString); ("mint_tx_hash", ZOptional ZString);
   ("status", ZOptional ZString)].

Definition withdraw_patch_body : list (string * schema) :=
  [("amount_sats", ZOptional ZNumber); ("ecash_tx_hash", ZOptional ZString);
   ("status", ZOptional ZString)].

(** ** Requests and answers *)

Inductive method := GET | POST | PATCH | OPTIONS | HEAD | OTHER.

(** The path is given as its decoded segments. A body is [None] when there is
    none or it is not JSON. *)
Record request := Request {
  rq_method : method;
  rq_path : list string;
  rq_authorization : option string;
  rq_body : option json
}.

(** What a handler reads from its surroundings. *)
Record runtime := Runtime {
  rt_now : Z;
  rt_uuid : string;
  rt_db_up : bool;
  rt_federation_token : option string
}.

(** [Empty] has no body. *)
Inductive answer :=
| Answer (status : Z) (body : json)
| Empty (status : Z)
| Docs
| RpcProxy (network : string)
| EsploraProxy
| NotFound.

Definition error_json (msg : string) : json := JObj [("error", JStr msg)].
Definition ok_json (fields : list (string * json)) : answer := Answer 200 (JObj fields).

(** The body of chanfana's 400 answer to an invalid request. *)
Class Chanfana := { validation_issues : schema -> option json -> json }.

(** A handler: database in, answer or exception out. *)
Definition api (A : Type) : Type := db -> outcome A * db.

Definition aret {A} (a : A) : api A := fun d => (Ok a, d).
Definition athrow {A} (m : string) : api A := fun d => (Throw m, d).
Definition abind {A B} (c : api A) (f : A -> api B) : api B := fun d =>
  match c d with
  | (Ok a, d') => f a d'
  | (Throw m, d') => (Throw m, d')
  end.

Declare Scope api_scope.
Delimit Scope api_scope with api.
Notation "x <- c ;; k" := (abind c (fun x => k))
  (at level 100, c at next level, right associativity) : api_scope.
Local Open Scope api_scope.

Section handlers.
Context `{SQ : Sqlite} `{ZD : Zod} `{CH : Chanfana}.
Context (rt : runtime).

(** Every statement first reaches D1. *)
Definition d1_read {A} (q : db -> A) : api A := fun d =>
  if rt_db_up rt then (Ok (q d), d) else (Throw "D1_ERROR", d).

Definition d1_write (w : db -> outcome db) : api unit := fun d =>
  if rt_db_up rt then
    match w d with Ok d' => (Ok tt, d') | Throw m => (Throw m, d) end
  else (Throw "D1_ERROR", d).

(** [getValidatedData] for a body schema, then the handler. *)
Definition validated (shape : list (string * schema)) (body : option json)
    (handler : list (string * json) -> api answer) : api answer :=
  match body with
  | Some j =>
      match zod_parse (ZObject shape) j with
      | Some (JObj data) => handler data
      | _ => aret (Answer 400 (validation_issues (ZObject shape) body))
      end
  | None => aret (Answer 400 (validation_issues (ZObject shape) None))
  end.

Definition body_str (data : list (string * json)) (k : string) : string :=
  match rec_get data k with Some (JScalar (FStr s)) => s | _ => "" end.

(** *** Public routes *)

Definition ESPLORA_URLS : list (string * string) :=
  [("mainnet", "https://esplora.mainnet.drivechain.dev");
   ("testnet", "https://esplora.drynet4.drivechain.dev");
   ("signet", "https://esplora.signet.drivechain.info")].

Definition testnet_esplora : string := "https://esplora.drynet4.drivechain.dev".

Definition get_status : api answer :=
  aret (ok_json [("status", JStr "ok"); ("esplora_proxy", JStr testnet_esplora)]).

(** [Number(row.value)] of a stored time stamp. *)
Definition Number_of_text (s : string) : jsnum :=
  match BigInt_of_string s with Ok z => Number_of_BigInt z | Throw _ => NaN end.

Definition json_of_num (n : jsnum) : json := match n with Fin z => JInt z | _ => JNull end.

(** [Date.now() - lastCheckin < 60000] *)
Definition federation_online (now : Z) (lastCheckin : option jsnum) : bool :=
  match lastCheckin with
  | Some n => num_lt (num_sub (Fin now) n) (Fin 60000)
  | None => false
  end.

Definition get_bridge_status : api answer := fun d =>
  match d1_read (select_meta "fed_last_checkin") d with
  | (Ok row, d') =>
      let lastCheckin := Number_of_text <$> row in
      (Ok (ok_json [("status", JStr "ok");
                    ("federation_online", JBool (federation_online (rt_now rt) lastCheckin));
                    ("last_checkin", from_option json_of_num JNull lastCheckin)]), d')
  | (Throw _, d') =>
      (Ok (ok_json [("status", JStr "ok"); ("federation_online", JBool false);
                    ("last_checkin", JNull)]), d')
  end.

Definition create_deposit (data : list (string * json)) : api answer :=
  let snowsideAddress := body_str data "snowsideAddress" in
  let network := body_str data "network" in
  if negb (str_truthy snowsideAddress) || negb (str_truthy network)
  then aret (Answer 400 (error_json "Missing fields"))
  else
    let id := rt_uuid rt in
    _ <- d1_write (insert_into Deposits
           [("id", FStr id); ("network", FStr network); ("snowside_address", FStr snowsideAddress);
            ("status", FStr "pending"); ("created_at", FInt (rt_now rt))]) ;;
    aret (ok_json [("id", JStr id); ("status", JStr "pending")]).

Definition get_deposit (id : string) : api answer :=
  row <- d1_read (select_by_id Deposits id) ;;
  match row with
  | Some r => aret (Answer 200 (json_of_row r))
  | None => aret (Answer 404 (error_json "Not found"))
  end.

Definition rows_answer (rows : list record) : answer := Answer 200 (JArr (map json_of_row rows)).

Definition has_text (column v : string) (r : record) : bool := bool_decide (fget r column = FStr v).

Definition list_deposits (address : string) : api answer :=
  rows <- d1_read (select_where Deposits (has_text "snowside_address" address) true) ;;
  aret (rows_answer rows).

Definition create_withdrawal (data : list (string * json)) : api answer :=
  let snowsideAddress := body_str data "snowsideAddress" in
  let ecashAddress := body_str data "ecashAddress" in
  let amountEcx := body_str data "amountEcx" in
  let network := body_str data "network" in
  let burnTxHash := body_str data "burnTxHash" in
  if negb (str_truthy snowsideAddress) || negb (str_truthy ecashAddress)
     || negb (str_truthy amountEcx) || negb (str_truthy network)
  then aret (Answer 400 (error_json "Missing fields"))
  else
    let id := rt_uuid rt in
    _ <- d1_write (insert_into Withdrawals
           [("id", FStr id); ("network", FStr network); ("snowside_address", FStr snowsideAddress);
            ("ecash_address", FStr ecashAddress); ("amount_ecx", FStr amountEcx);
            ("burn_tx_hash", if str_truthy burnTxHash then FStr burnTxHash else FNull);
            ("status", FStr "pending"); ("created_at", FInt (rt_now rt))]) ;;
    aret (ok_json [("id", JStr id); ("status", JStr "pending")]).

Definition list_withdrawals (address : string) : api answer :=
  rows <- d1_read (select_where Withdrawals (has_text "snowside_address" address) true) ;;
  aret (rows_answer rows).

(** *** Federation routes *)

Definition fed_checkin : api answer :=
  _ <- d1_write (fun d => Ok (replace_meta "fed_last_checkin" (dec_str (rt_now rt)) d)) ;;
  aret (ok_json [("status", JStr "ok")]).

Definition is_pending_deposit (r : record) : bool :=
  has_text "status" "pending" r || has_text "status" "confirmed" r.

Definition fed_pending_deposits : api answer :=
  rows <- d1_read (select_where Deposits is_pending_deposit false) ;;
  aret (rows_answer rows).

(** [for (const [key, val] of Object.entries(body)) if (allowed.includes(key)) ...] *)
Definition allowed_updates (allowed : list string) (body : list (string * json)) : list (string * json) :=
  List.filter (fun kv => existsb (String.eqb (fst kv)) allowed) body.

(** [.bind(...values)]: D1 binds scalars and throws on anything else. *)
Fixpoint bind_values (updates : list (string * json)) : outcome record :=
  match updates with
  | [] => Ok []
  | (k, JScalar f) :: rest => obind (bind_values rest) (fun r => Ok ((k, f) :: r))
  | _ => Throw "D1_TYPE_ERROR"
  end.

(** The tail both PATCH handlers share. *)
Definition patch_row (t : table_name) (id : string) (updates : list (string * json)) : api answer :=
  match updates with
  | [] => aret (Answer 400 (error_json "No valid fields"))
  | _ =>
      _ <- d1_write (fun d => obind (bind_values updates) (fun set => update_where_id t set id d)) ;;
      aret (ok_json [("status", JStr "ok")])
  end.

Definition deposit_allowed : list string :=
  ["ecash_address"; "derivation_index"; "amount_sats"; "amount_ecx"; "ecash_tx_hash";
   "mint_tx_hash"; "status"].

(** [if (body.status === s) { updates.push(`${column} = ?`); values.push(Date.now()) }] *)
Definition stamp (body : list (string * json)) (s column : string) : list (string * json) :=
  if String.eqb (body_str body "status") s then [(column, JInt (rt_now rt))] else [].

Definition patch_deposit (id : string) (body : list (string * json)) : api answer :=
  patch_row Deposits id
    (allowed_updates deposit_allowed body ++ stamp body "confirmed" "confirmed_at"
       ++ stamp body "minted" "minted_at").

Definition is_funded (r : record) : bool :=
  bool_decide (fget r "amount_sats" <> FNull) && bool_decide (fget r "ecash_address" <> FNull)
  && bool_decide (fget r "derivation_index" <> FNull).

Definition fed_funded_deposits : api answer :=
  rows <- d1_read (select_where Deposits is_funded false) ;;
  aret (rows_answer rows).

Definition fed_pending_withdrawals : api answer :=
  rows <- d1_read (select_where Withdrawals (has_text "status" "pending") false) ;;
  aret (rows_answer rows).

Definition withdraw_allowed : list string := ["amount_sats"; "ecash_tx_hash"; "status"].

Definition patch_withdrawal (id : string) (body : list (string * json)) : api answer :=
  patch_row Withdrawals id
    (allowed_updates withdraw_allowed body ++ stamp body "completed" "completed_at").

(** *** Dispatch *)

(** The federation middleware: [true] lets the request through. *)
Definition fed_authorized (authorization : option string) : bool :=
  let token := str_or (default "" (rt_federation_token rt)) "dev-secret" in
  bool_decide (authorization = Some ("Bearer " +:+ token)).

Definition fed_route (m : method) (path : list string) (body : option json) : api answer :=
  match m, path with
  | POST, ["checkin"] => fed_checkin
  | GET, ["deposits"; "pending"] => fed_pending_deposits
  | PATCH, ["deposit"; String _ _ as id] => validated deposit_patch_body body (patch_deposit id)
  | GET, ["deposits"; "funded"] => fed_funded_deposits
  | GET, ["withdrawals"; "pending"] => fed_pending_withdrawals
  | PATCH, ["withdraw"; String _ _ as id] => validated withdraw_patch_body body (patch_withdrawal id)
  | _, _ => aret EsploraProxy
  end.

Definition is_network (s : string) : bool := existsb (String.eqb s) ["mainnet"; "testnet"; "signet"].

(** Routes in the order the Worker registers them. A parameter of a path is
    not empty. *)
Definition route (rq : request) : api answer :=
  match rq_method rq, rq_path rq with
  | GET, ["v1"; "status"] => get_status
  | GET, ["v1"; "bridge"; "status"] => get_bridge_status
  | POST, ["v1"; "bridge"; "deposit"] => validated deposit_body (rq_body rq) create_deposit
  | GET, ["v1"; "bridge"; "deposit"; String _ _ as id] => get_deposit id
  | GET, ["v1"; "bridge"; "deposits"; String _ _ as address] => list_deposits address
  | POST, ["v1"; "bridge"; "withdraw"] => validated withdraw_body (rq_body rq) create_withdrawal
  | GET, ["v1"; "bridge"; "withdrawals"; String _ _ as address] => list_withdrawals address
  | m, "v1" :: "fed" :: rest =>
      if fed_authorized (rq_authorization rq) then fed_route m rest (rq_body rq)
      else aret (Answer 401 (error_json "Unauthorized"))
  | GET, ["v1"] | GET, ["v1"; "openapi.json"] => aret Docs
  | _, "v1" :: _ => aret EsploraProxy
  | _, network :: _ => aret (if is_network network then RpcProxy network else NotFound)
  | _, [] => aret NotFound
  end.

(** An exception no handler catches becomes a 500. *)
Definition dispatch (rq : request) (d : db) : answer * db :=
  match route rq d with
  | (Ok a, d') => (a, d')
  | (Throw _, d') => (Answer 500 (JStr "Internal Server Error"), d')
  end.

Definition without_body (a : answer) : answer := match a with Answer st _ => Empty st | _ => a end.

(** The Worker. [cors()], which comes before every route, answers OPTIONS; a
    HEAD is a GET whose answer loses its body. *)
Definition handle_request (rq : request) (d : db) : answer * db :=
  match rq_method rq with
  | OPTIONS => (Empty 204, d)
  | HEAD =>
      let (a, d') := dispatch (Request GET (rq_path rq) (rq_authorization rq) (rq_body rq)) d in
      (without_body a, d')
  | _ => dispatch rq d
  end.
End handlers.
