(* ===== verification/ApiSpec.v ===== *)
(** * What the bridge API promises

    Every request changes the database by one of five steps; the invariants
    of the tables, the life of a row and the answers follow from that. *)

From Stdlib Require Import ZArith Lia String List Bool.
From stdpp Require Import base list strings numbers sorting.
From S2P Require Import Prelude JsNumber Effects Json Database Api.
Local Open Scope Z_scope.

(** ** Lists of updates *)

Lemma rec_get_app {A} (l k : list (string * A)) x :
  rec_get (l ++ k) x = match rec_get l x with Some a => Some a | None => rec_get k x end.
Proof. induction l as [|[y a] l IH]; simpl; [done|]. by destruct (String.eqb y x). Qed.

Lemma rec_get_allowed allowed body k :
  rec_get (allowed_updates allowed body) k =
    if existsb (String.eqb k) allowed then rec_get body k else None.
Proof.
  unfold allowed_updates. induction body as [|[y a] l IH]; cbn [List.filter fst].
  - by destruct (existsb _ _).
  - destruct (existsb (String.eqb y) allowed) eqn:E; cbn [rec_get];
      destruct (String.eqb_spec y k) as [->|]; rewrite ?E; try done. by rewrite IH, E.
Qed.

Lemma bind_values_get l set k f :
  bind_values l = Ok set -> rec_get set k = Some f <-> rec_get l k = Some (JScalar f).
Proof.
  revert set. induction l as [|[y a] l IH]; cbn [bind_values]; intros set; [by intros [= <-]|].
  destruct a as [g| | |]; try done. destruct (bind_values l) as [r|] eqn:E; [|done].
  intros [= <-]. cbn [rec_get]. destruct (String.eqb y k); [|by apply IH]. by split; intros [= ->].
Qed.

Lemma bind_values_ok l :
  (forall k v, In (k, v) l -> exists f, v = JScalar f) -> exists set, bind_values l = Ok set.
Proof.
  induction l as [|[y a] l IH]; intros H; [by exists []|]. cbn [bind_values].
  destruct (H y a) as [f ->]; [by left|]. destruct IH as [set ->]; [intros; apply (H k); by right|].
  by exists ((y, f) :: set).
Qed.

(** The columns a PATCH may set, and with what. *)
Definition typed_for (t : table_name) (k : string) (f : field) : Prop :=
  exists c, In c (schema_of t) /\ col_name c = k /\
    match col_type c with
    | TEXT => exists s, f = FStr s
    | INTEGER => is_number f = true
    end.

Definition mutable (t : table_name) : list string :=
  match t with
  | Deposits => deposit_allowed ++ ["confirmed_at"; "minted_at"]
  | Withdrawals => withdraw_allowed ++ ["completed_at"]
  end.

Definition patch_ok (t : table_name) (set : record) : Prop :=
  forall k f, rec_get set k = Some f -> In k (mutable t) /\ typed_for t k f.

(** What a request can do to the database. *)
Inductive db_step `{Sqlite} (d : db) : db -> Prop :=
| step_none : db_step d d
| step_deposit id network address now d' :
    insert_into Deposits
      [("id", FStr id); ("network", FStr network); ("snowside_address", FStr address);
       ("status", FStr "pending"); ("created_at", FInt now)] d = Ok d' -> db_step d d'
| step_withdrawal id network address ecash amount burn now d' :
    (burn = FNull \/ exists h, burn = FStr h) ->
    insert_into Withdrawals
      [("id", FStr id); ("network", FStr network); ("snowside_address", FStr address);
       ("ecash_address", FStr ecash); ("amount_ecx", FStr amount); ("burn_tx_hash", burn);
       ("status", FStr "pending"); ("created_at", FInt now)] d = Ok d' -> db_step d d'
| step_patch t id set d' :
    patch_ok t set -> update_where_id t set id d = Ok d' -> db_step d d'
| step_checkin now : db_step d (replace_meta "fed_last_checkin" (dec_str now) d).

(** The declaration of a column by its name. *)
Definition column_named (t : table_name) (k : string) : column :=
  default (Column "" TEXT false FNull) (List.find (fun c => String.eqb (col_name c) k) (schema_of t)).


Ltac in_list := simpl; repeat (first [left; reflexivity | right]).

Section steps.
Context `{SQ : Sqlite} `{ZD : Zod} `{CH : Chanfana}.
Context (rt : runtime).

(** A handler that ends in a step from wherever it starts. *)
Definition steps {A} (c : api A) : Prop := forall d, db_step d (snd (c d)).

Lemma steps_ret {A} (a : A) : steps (aret a).
Proof. intros d. constructor. Qed.

Lemma steps_read {A B} (q : db -> A) (f : A -> api B) :
  (forall a, steps (f a)) -> steps (abind (d1_read rt q) f).
Proof.
  intros Hf d. unfold abind, d1_read. destruct (rt_db_up rt); [apply Hf|constructor].
Qed.

Lemma steps_write {B} (w : db -> outcome db) (b : B) :
  (forall d d', w d = Ok d' -> db_step d d') ->
  steps (abind (d1_write rt w) (fun _ => aret b)).
Proof.
  intros Hw d. unfold abind, d1_write. destruct (rt_db_up rt); [|constructor].
  destruct (w d) eqn:E; [by apply Hw|constructor].
Qed.

Lemma steps_validated shape body h :
  (forall kept, conforms (ZObject shape) (JObj kept) = true -> steps (h kept)) ->
  steps (validated shape body h).
Proof.
  intros Hh. unfold validated. destruct body as [j|]; [|apply steps_ret].
  destruct (zod_parse (ZObject shape) j) as [v|] eqn:E; [|apply steps_ret].
  apply zod_sound in E. destruct v; try apply steps_ret. by apply Hh.
Qed.

(** A field of a conforming object has the type its schema declares. *)
Lemma conforms_field shape kept k s v :
  conforms (ZObject shape) (JObj kept) = true -> In (k, s) shape ->
  rec_get kept k = Some v -> conforms s v = true.
Proof.
  rewrite conforms_object, forallb_forall. intros Hc Hin Hv. specialize (Hc _ Hin).
  unfold field_conforms in Hc. cbn [fst snd] in Hc. by rewrite Hv in Hc.
Qed.

(** [in_schema shape t]: what [shape] declares for an allowed column is what
    the column of [t] holds. *)
Definition shape_matches (t : table_name) (shape : list (string * schema)) (allowed : list string) : Prop :=
  forall k, In k allowed -> exists s c, In (k, ZOptional s) shape /\ In c (schema_of t) /\ col_name c = k /\
    s = match col_type c with TEXT => ZString | INTEGER => ZNumber end.

Lemma typed_scalar t c k f :
  In c (schema_of t) -> col_name c = k ->
  conforms (match col_type c with TEXT => ZString | INTEGER => ZNumber end) (JScalar f) = true ->
  typed_for t k f.
Proof.
  intros Hin Hk Hc. exists c. split_and!; [done|done|].
  destruct (col_type c), f; try done. by eexists.
Qed.

(** A time stamp column. *)
Definition stamped (t : table_name) (now : Z) (stamps : list (string * json)) : Prop :=
  forall k v, rec_get stamps k = Some v ->
    v = JInt now /\ In k (mutable t) /\ exists c, In c (schema_of t) /\ col_name c = k /\ col_type c = INTEGER.

Lemma updates_patch_ok t shape allowed stamps kept set :
  conforms (ZObject shape) (JObj kept) = true ->
  shape_matches t shape allowed -> (forall k, In k allowed -> In k (mutable t)) ->
  stamped t (rt_now rt) stamps ->
  bind_values (allowed_updates allowed kept ++ stamps) = Ok set -> patch_ok t set.
Proof.
  intros Hc Hshape Hmut Hst Eb k f Hk.
  apply (bind_values_get _ _ _ _ Eb) in Hk. rewrite rec_get_app, rec_get_allowed in Hk.
  destruct (existsb (String.eqb k) allowed) eqn:Ea.
  - apply existsb_eqb_in in Ea. destruct (rec_get kept k) as [v|] eqn:Ev.
    + injection Hk as ->. split; [by apply Hmut|].
      destruct (Hshape k Ea) as (s & c & Hin & Hcin & Hck & ->).
      eapply typed_scalar; [done..|]. by apply (conforms_field _ _ _ _ _ Hc Hin Ev).
    + destruct (Hst k _ Hk) as ([= ->] & Hm & c & Hcin & Hck & Hct). split; [done|].
      exists c. rewrite Hct. by split_and!.
  - destruct (Hst k _ Hk) as ([= ->] & Hm & c & Hcin & Hck & Hct). split; [done|].
    exists c. rewrite Hct. by split_and!.
Qed.

Lemma steps_patch t id shape allowed stamps kept :
  conforms (ZObject shape) (JObj kept) = true ->
  shape_matches t shape allowed -> (forall k, In k allowed -> In k (mutable t)) ->
  stamped t (rt_now rt) stamps ->
  steps (patch_row rt t id (allowed_updates allowed kept ++ stamps)).
Proof.
  intros Hc Hshape Hmut Hst. pose proof (updates_patch_ok t shape allowed stamps kept) as Hok.
  unfold patch_row. destruct (allowed_updates allowed kept ++ stamps) as [|u us]; [apply steps_ret|].
  apply steps_write. intros d d'.
  destruct (bind_values _) as [set|] eqn:Eb; [|done]. cbn [obind]. apply step_patch. by apply Hok.
Qed.

Ltac each_column t :=
  let k := fresh "k" in
  let Hk := fresh "Hk" in
  intros k Hk;
  repeat (destruct Hk as [<-|Hk];
    [match goal with |- context [col_name _ = ?k] =>
       eexists _, (column_named t k); split_and!;
         [in_list|simpl; in_list|reflexivity|reflexivity] end|]);
  destruct Hk.

Lemma deposit_shape_matches : shape_matches Deposits deposit_patch_body deposit_allowed.
Proof. each_column Deposits. Qed.

Lemma withdraw_shape_matches : shape_matches Withdrawals withdraw_patch_body withdraw_allowed.
Proof. each_column Withdrawals. Qed.
Lemma stamp_get body st column k v :
  rec_get (stamp rt body st column) k = Some v -> k = column /\ v = JInt (rt_now rt).
Proof.
  unfold stamp. destruct (String.eqb _ st); [|done]. cbn [rec_get].
  destruct (String.eqb_spec column k); [|done]. by intros [= <-].
Qed.

Lemma deposit_stamps body :
  stamped Deposits (rt_now rt)
    (stamp rt body "confirmed" "confirmed_at" ++ stamp rt body "minted" "minted_at").
Proof.
  intros k v. rewrite rec_get_app. destruct (rec_get (stamp rt body "confirmed" _) k) eqn:E; intros H.
  - apply stamp_get in E as [-> ->]. injection H as <-. split_and!; [done|by in_list|].
    exists (column_named Deposits "confirmed_at"). split_and!; [in_list|done|done].
  - apply stamp_get in H as [-> ->]. split_and!; [done|by in_list|].
    exists (column_named Deposits "minted_at"). split_and!; [in_list|done|done].
Qed.

Lemma withdrawal_stamps body :
  stamped Withdrawals (rt_now rt) (stamp rt body "completed" "completed_at").
Proof.
  intros k v [-> ->]%stamp_get. split_and!; [done|by in_list|].
  exists (column_named Withdrawals "completed_at"). split_and!; [in_list|done|done].
Qed.

Lemma create_deposit_steps kept : steps (create_deposit rt kept).
Proof.
  unfold create_deposit. destruct (_ || _); [apply steps_ret|].
  apply steps_write. intros d d'. apply step_deposit.
Qed.

Lemma create_withdrawal_steps kept : steps (create_withdrawal rt kept).
Proof.
  unfold create_withdrawal. destruct (_ || _); [apply steps_ret|].
  apply steps_write. intros d d'. apply step_withdrawal.
  destruct (str_truthy _); [right; by eexists|by left].
Qed.

Lemma patch_deposit_steps id body : steps (validated deposit_patch_body body (patch_deposit rt id)).
Proof.
  apply steps_validated. intros kept Hc. unfold patch_deposit.
  apply (steps_patch _ _ deposit_patch_body _ _ _ Hc deposit_shape_matches);
    [intros k Hk; apply in_or_app; by left|apply deposit_stamps].
Qed.

Lemma patch_withdrawal_steps id body :
  steps (validated withdraw_patch_body body (patch_withdrawal rt id)).
Proof.
  apply steps_validated. intros kept Hc. unfold patch_withdrawal.
  apply (steps_patch _ _ withdraw_patch_body _ _ _ Hc withdraw_shape_matches);
    [intros k Hk; apply in_or_app; by left|apply withdrawal_stamps].
Qed.

Lemma fed_checkin_steps : steps (fed_checkin rt).
Proof. apply steps_write. intros d d' [= <-]. apply step_checkin. Qed.

Lemma rows_steps (q : db -> list record) :
  steps (abind (d1_read rt q) (fun rows => aret (rows_answer rows))).
Proof. apply steps_read. intros. apply steps_ret. Qed.

Lemma fed_route_steps m path body : steps (fed_route rt m path body).
Proof.
  unfold fed_route.
  repeat match goal with |- steps (match ?x with _ => _ end) => destruct x end;
    first [apply steps_ret | apply rows_steps | apply fed_checkin_steps
          | apply patch_deposit_steps | apply patch_withdrawal_steps].
Qed.

Lemma get_bridge_status_steps : steps (get_bridge_status rt).
Proof. intros d. unfold get_bridge_status, d1_read. destruct (rt_db_up rt); constructor. Qed.

Lemma get_deposit_steps id : steps (get_deposit rt id).
Proof. apply steps_read. intros [r|]; apply steps_ret. Qed.

Lemma route_steps rq : steps (route rt rq).
Proof.
  unfold route.
  repeat match goal with |- steps (match ?x with _ => _ end) => destruct x end;
    first [apply steps_ret | apply rows_steps | apply fed_route_steps | apply get_bridge_status_steps
          | apply get_deposit_steps
          | apply steps_validated; intros; apply create_deposit_steps
          | apply steps_validated; intros; apply create_withdrawal_steps].
Qed.

Lemma handle_request_steps rq d : db_step d (snd (handle_request rt rq d)).
Proof.
  assert (Hd : forall rq, db_step d (snd (dispatch rt rq d))).
  { intros rq'. pose proof (route_steps rq' d) as Hs. unfold dispatch. by destruct (route rt rq' d) as [[a|m] d']. }
  unfold handle_request. destruct (rq_method rq); try apply Hd; [constructor|].
  specialize (Hd (Request GET (rq_path rq) (rq_authorization rq) (rq_body rq))). by destruct (dispatch _ _ _).
Qed.
End steps.

(** ** Invariants of the tables *)

Section invariants.
Context `{SQ : Sqlite} `{ZD : Zod} `{CH : Chanfana}.

(** The databases the API can be in, whatever requests it was sent. *)
Inductive reachable : db -> Prop :=
| reach_init : reachable empty_db
| reach_request rt rq d : reachable d -> reachable (snd (handle_request rt rq d)).

Lemma patch_keeps_id t set : patch_ok t set -> rec_get set "id" = None.
Proof.
  intros Hp. destruct (rec_get set "id") as [f|] eqn:E; [|done].
  apply Hp in E as [Hm _]. destruct t; simpl in Hm; intuition discriminate.
Qed.

Lemma db_step_ok d d' : db_step d d' -> db_ok d -> db_ok d'.
Proof.
  intros [| ? ? ? ? ? Hi | ? ? ? ? ? ? ? ? _ Hi | t id set ? Hp Hu | ?] Hd; [done| | | |done].
  - eapply insert_into_ok; [|exact Hi|done]. done.
  - eapply insert_into_ok; [|exact Hi|done]. done.
  - eapply update_where_id_ok; [by eapply patch_keeps_id|done|done].
Qed.

Lemma reachable_ok d : reachable d -> db_ok d.
Proof.
  induction 1 as [|rt rq d _ IH]; [split; apply table_ok_nil|].
  eapply db_step_ok; [apply handle_request_steps|done].
Qed.

(** A deposit row holds texts in its TEXT columns and numbers in the others,
    where it holds anything. *)
Definition deposit_typed (r : record) : Prop :=
  forall c, In c deposits_schema ->
    fget r (col_name c) = FNull \/
    match col_type c with
    | TEXT => exists s, fget r (col_name c) = FStr s
    | INTEGER => is_number (fget r (col_name c)) = true
    end.

Lemma new_deposit_typed id network address now :
  deposit_typed (new_row deposits_schema
    [("id", FStr id); ("network", FStr network); ("snowside_address", FStr address);
     ("status", FStr "pending"); ("created_at", FInt now)]).
Proof.
  intros c Hin. rewrite (new_row_get Deposits) by done.
  cbn [schema_of deposits_schema In] in Hin.
  repeat (destruct Hin as [<-|Hin]; [simpl; rewrite ?store_text, ?store_integer; eauto|]). destruct Hin.
Qed.

Lemma set_deposit_typed set r :
  patch_ok Deposits set -> map fst r = map col_name deposits_schema ->
  deposit_typed r -> deposit_typed (set_columns deposits_schema set r).
Proof.
  intros Hp Hr Ht c Hin. destruct (rec_get set (col_name c)) as [v|] eqn:E.
  - right. rewrite (set_columns_set Deposits set r c v) by done.
    destruct (Hp _ _ E) as (_ & c' & Hin' & Hname & Hty).
    assert (c' = c) as ->.
    { cbn in Hin, Hin'. intuition (subst; try done); subst; simpl in Hname; discriminate. }
    destruct (col_type c); [destruct Hty as [s ->]; exists s; apply store_text|by apply store_number].
  - rewrite (set_columns_other Deposits) by done. by apply Ht.
Qed.

Lemma reachable_typed d : reachable d -> Forall deposit_typed (deposits d).
Proof.
  induction 1 as [|rt rq d Hr IH]; [constructor|].
  pose proof (reachable_ok d Hr) as Hok. apply (db_ok_table Deposits) in Hok as [Hrows _].
  destruct (handle_request_steps rt rq d)
    as [| id net addr now d' Hi | ? ? ? ? ? ? ? d' _ Hi | t id set d' Hp Hu | ?]; [done| | | |done].
  - apply (insert_select _ _ id) in Hi as [_ Hi]; [|done]. cbn [rows_of schema_of] in Hi. rewrite Hi.
    apply Forall_app_2; [done|]. constructor; [apply new_deposit_typed|constructor].
  - unfold insert_into in Hi. destruct (negb _); [done|]. destruct (existsb _ _); [done|]. by injection Hi as <-.
  - unfold update_where_id in Hu. destruct (forallb _ _); [|done]. injection Hu as <-.
    destruct t; [|done]. cbn [with_rows deposits rows_of schema_of] in *.
    rewrite Forall_forall in IH, Hrows |- *. intros r Hin.
    apply list_elem_of_In, in_map_iff in Hin as (r0 & <- & Hin). apply list_elem_of_In in Hin.
    destruct (has_id id r0); [|by apply IH].
    apply set_deposit_typed; [done|by apply Hrows|by apply IH].
Qed.

(** A row's columns, read through the JSON object it is sent as. *)
Lemma json_row_get cols r k :
  map fst r = map col_name cols -> In k (map col_name cols) ->
  rec_get (map (fun kv => (fst kv, JScalar (snd kv))) r) k = Some (JScalar (fget r k)).
Proof.
  intros Hr Hin. rewrite rec_get_map. unfold fget.
  destruct (rec_get r k) eqn:E; [done|]. apply rec_get_none in E. by rewrite Hr in E.
Qed.

Lemma deposit_row_conforms r :
  row_ok Deposits r -> deposit_typed r -> conforms DepositSchema (json_of_row r) = true.
Proof.
  intros (Hc & Hn & id & Hid) Ht. unfold json_of_row, DepositSchema. rewrite conforms_object.
  unfold not_null_ok in Hn. rewrite forallb_forall in Hn.
  apply forallb_forall. intros [k s] Hin. unfold field_conforms. cbn [fst snd].
  assert (Hk : exists c, In c deposits_schema /\ col_name c = k /\
    (s = ZNullable (match col_type c with TEXT => ZString | INTEGER => ZNumber end) \/
     s = (match col_type c with TEXT => ZString | INTEGER => ZNumber end) /\
     (col_not_null c = true \/ k = "id"))).
  { exists (column_named Deposits k). cbn [In] in Hin.
    repeat (destruct Hin as [[= <- <-]|Hin];
      [split_and!; [in_list|reflexivity|first [by left | right; split; [reflexivity|by auto]]]|]).
    destruct Hin. }
  destruct Hk as (c & Hcin & <- & Hs).
  rewrite (json_row_get deposits_schema) by (try done; by apply in_map).
  specialize (Ht c Hcin). specialize (Hn c Hcin). rewrite negb_true_iff in Hn.
  assert (Hnull : fget r (col_name c) = FNull -> s = ZNullable (match col_type c with TEXT => ZString | INTEGER => ZNumber end)).
  { intros Hf. destruct Hs as [?|[_ [Hnn|Hk]]]; [done| |].
    - rewrite Hnn, Hf in Hn. done.
    - rewrite Hk, Hid in Hf. done. }
  destruct Ht as [Hf|Ht]; [rewrite (Hnull Hf), Hf; done|].
  assert (Hty : conforms (match col_type c with TEXT => ZString | INTEGER => ZNumber end)
    (JScalar (fget r (col_name c))) = true).
  { clear -Ht. destruct (col_type c); [by destruct Ht as [x ->]|by destruct (fget r (col_name c))]. }
  destruct Hs as [->|[-> _]]; [|done]. cbn [conforms]. by destruct (fget r (col_name c)).
Qed.

(** An UPDATE the API makes never fails, and changes exactly the rows with
    the id, exactly in the columns of the SET list. *)
Lemma update_effect t set id d :
  patch_ok t set -> db_ok d ->
  exists d', update_where_id t set id d = Ok d' /\
    rows_of t d' = map (fun r => if has_id id r then set_columns (schema_of t) set r else r) (rows_of t d) /\
    (forall t', t <> t' -> rows_of t' d' = rows_of t' d) /\ meta d' = meta d.
Proof.
  intros Hp Hd. unfold update_where_id. set (rows := map _ _).
  assert (Hall : forallb (not_null_ok (schema_of t)) rows = true).
  { apply forallb_forall. intros r Hin. apply in_map_iff in Hin as (r0 & <- & Hin).
    apply (db_ok_table t) in Hd as [Hrows _]. rewrite Forall_forall in Hrows.
    apply list_elem_of_In, Hrows in Hin as (Hc & Hn & _). destruct (has_id id r0); [|done].
    unfold not_null_ok in *. rewrite forallb_forall in Hn |- *. intros c Hcin. specialize (Hn c Hcin).
    destruct (rec_get set (col_name c)) as [v|] eqn:E; [|by rewrite set_columns_other].
    rewrite (set_columns_set t set r0 c v) by done. destruct (Hp _ _ E) as (_ & c' & _ & _ & Hty).
    rewrite bool_decide_eq_false_2; [by rewrite andb_false_r|]. rewrite store_null.
    destruct (col_type c'); [by destruct Hty as [s ->]|by intros ->]. }
  rewrite Hall. eexists. split_and!; [done|by rewrite rows_with| |by destruct t].
  intros t' Hne. by rewrite with_other.
Qed.
End invariants.

(** The rows of a table after a step: some added at the end, or those with an
    id updated in place. *)
Lemma insert_rows `{Sqlite} t values d d' t' :
  insert_into t values d = Ok d' -> exists added, rows_of t' d' = rows_of t' d ++ added.
Proof.
  unfold insert_into. destruct (negb _); [done|]. destruct (existsb _ _); [done|]. intros [= <-].
  destruct t, t'; cbn [rows_of with_rows deposits withdrawals];
    (by eexists) || (by exists []; rewrite app_nil_r).
Qed.

Lemma db_step_rows `{Sqlite} t d d' :
  db_ok d -> db_step d d' ->
  (exists added, rows_of t d' = rows_of t d ++ added) \/
  (exists id set, patch_ok t set /\
     rows_of t d' = map (fun r => if has_id id r then set_columns (schema_of t) set r else r) (rows_of t d)).
Proof.
  intros Hd [| ? ? ? ? ? Hi | ? ? ? ? ? ? ? ? _ Hi | t' id set ? Hp Hu | ?].
  - left. exists []. by rewrite app_nil_r.
  - left. by eapply insert_rows.
  - left. by eapply insert_rows.
  - destruct (update_effect t' set id d Hp Hd) as (d'' & Hu' & Hrows & Hother & _).
    rewrite Hu' in Hu. injection Hu as <-. destruct (decide (t' = t)) as [->|Hne].
    + right. by exists id, set.
    + left. exists []. by rewrite app_nil_r, Hother.
  - left. exists []. rewrite app_nil_r. by destruct t.
Qed.

(** ** Requests the theorems speak of *)

Section requests.
Context `{SQ : Sqlite} `{ZD : Zod} `{CH : Chanfana}.
Context (rt : runtime).

Definition fed_token : string := "Bearer " +:+ str_or (default "" (rt_federation_token rt)) "dev-secret".

Definition fed_request (m : method) (path : list string) (body : option json) : request :=
  Request m ("v1" :: "fed" :: path) (Some fed_token) body.

Lemma fed_token_authorized : fed_authorized rt (Some fed_token) = true.
Proof. unfold fed_authorized, fed_token. by apply bool_decide_eq_true. Qed.

Lemma handle_fed m path body d :
  m = GET \/ m = POST \/ m = PATCH ->
  handle_request rt (fed_request m path body) d =
    match fed_route rt m path body d with
    | (Ok a, d') => (a, d')
    | (Throw _, d') => (Answer 500 (JStr "Internal Server Error"), d')
    end.
Proof.
  intros Hm. unfold handle_request, dispatch, route, fed_request. cbn [rq_method rq_path rq_authorization rq_body].
  rewrite fed_token_authorized. by destruct Hm as [->|[->| ->]].
Qed.

(** What a PATCH with the fields [given] makes of a row's column [c]. *)
Definition patched (t : table_name) (allowed : list string) (stamps given : list (string * json))
    (c : column) (old : field) : field :=
  if existsb (String.eqb (col_name c)) allowed then
    match rec_get given (col_name c) with
    | Some (JScalar f) => store (col_type c) f
    | _ => old
    end
  else match rec_get stamps (col_name c) with
       | Some (JScalar f) => store (col_type c) f
       | _ => old
       end.

(** The effect of a validated PATCH on the table. *)
Definition patch_effect (t : table_name) (allowed : list string) (stamps given : list (string * json))
    (id : string) (rows rows' : list record) : Prop :=
  Forall2 (fun r r' =>
    if has_id id r
    then forall c, In c (schema_of t) ->
           fget r' (col_name c) = patched t allowed stamps given c (fget r (col_name c))
    else r' = r) rows rows'.

Lemma allowed_some allowed given kept :
  existsb (fun k => match rec_get given k with Some _ => true | None => false end) allowed = true ->
  (forall k, In k allowed -> rec_get kept k = rec_get given k) ->
  allowed_updates allowed kept <> [].
Proof.
  intros (k & Hin & Hk)%existsb_exists Hsame Hnil.
  assert (Hu : rec_get (allowed_updates allowed kept) k = None) by by rewrite Hnil.
  rewrite rec_get_allowed, (proj2 (existsb_eqb_in k allowed) Hin), Hsame in Hu by done.
  by rewrite Hu in Hk.
Qed.

(** The fields Zod keeps of a conforming body are the body's own. *)
Lemma kept_fields shape given v :
  conforms (ZObject shape) (JObj given) = true ->
  zod_parse (ZObject shape) (JObj given) = Some v ->
  (forall k s, In (k, s) shape -> s = ZOptional ZString \/ s = ZOptional ZNumber) ->
  exists kept, v = JObj kept /\ conforms (ZObject shape) (JObj kept) = true /\
    NoDup (map fst kept) /\ (forall k, In k (map fst kept) -> In k (map fst shape)) /\
    forall k, In k (map fst shape) -> rec_get kept k = rec_get given k.
Proof.
  intros Hc Hv Hscalar. pose proof (zod_sound _ _ _ Hv) as Hck.
  destruct (zod_object _ _ _ Hv) as (given' & kept & [= <-] & -> & Hnd & Hsub & Hkg & Hgk).
  exists kept. split_and!; [done..|]. intros k Hin.
  assert (Hty : forall fields x, conforms (ZObject shape) (JObj fields) = true ->
    rec_get fields k = Some x -> exists f, x = JScalar f).
  { intros fields x Hf Hx. apply in_map_iff in Hin as ([k' s] & <- & Hin).
    pose proof (conforms_field _ _ _ _ _ Hf Hin Hx) as Hs.
    destruct (Hscalar _ _ Hin) as [->| ->]; destruct x; try done; by eexists. }
  destruct (rec_get kept k) as [x|] eqn:Ek.
  - destruct (Hty _ _ Hck Ek) as [f ->]. by rewrite (Hkg _ _ Ek).
  - destruct (rec_get given k) as [x|] eqn:Eg; [|done].
    destruct (Hty _ _ Hc Eg) as [f ->]. by rewrite (Hgk _ _ Hin Eg) in Ek.
Qed.

End requests.

Lemma patch_row_nonempty `{Sqlite} rt t id l :
  l <> [] ->
  patch_row rt t id l =
    abind (d1_write rt (fun d => obind (bind_values l) (fun set => update_where_id t set id d)))
      (fun _ => aret (ok_json [("status", JStr "ok")])).
Proof. by destruct l. Qed.

(** *** One validated PATCH *)

Section patch.
Context `{SQ : Sqlite} `{ZD : Zod} `{CH : Chanfana}.
Context (rt : runtime) (t : table_name) (shape : list (string * schema)) (allowed : list string).
Context (stamps : list (string * json) -> list (string * json)).
Hypothesis Hshape : shape_matches t shape allowed.
Hypothesis Hmut : forall k, In k allowed -> In k (mutable t).
Hypothesis Hkeys : map fst shape = allowed.
Hypothesis Hst : forall kept, stamped t (rt_now rt) (stamps kept).
Hypothesis Hst_scalar : forall kept k v, In (k, v) (stamps kept) -> exists f, v = JScalar f.
Hypothesis Hdisj : forall k v kept, rec_get (stamps kept) k = Some v -> ~ In k allowed.
Hypothesis Hstat : forall kept given,
  rec_get kept "status" = rec_get given "status" -> stamps kept = stamps given.
Hypothesis Hstatus : In "status" allowed.

Context (given kept : list (string * json)).
Hypothesis Hc : conforms (ZObject shape) (JObj kept) = true.
Hypothesis Hnd : NoDup (map fst kept).
Hypothesis Hsame : forall k, In k allowed -> rec_get kept k = rec_get given k.

Let updates : list (string * json) := allowed_updates allowed kept ++ stamps kept.

Lemma updates_get k :
  rec_get updates k =
    if existsb (String.eqb k) allowed then rec_get given k else rec_get (stamps given) k.
Proof.
  unfold updates. rewrite rec_get_app, rec_get_allowed, (Hstat kept given) by by apply Hsame.
  destruct (existsb _ _) eqn:Ea; [|done]. apply existsb_eqb_in in Ea. rewrite Hsame by done.
  destruct (rec_get given k); [done|]. destruct (rec_get (stamps given) k) eqn:E; [|done].
  by destruct (Hdisj _ _ _ E).
Qed.

Lemma updates_typed k v :
  rec_get updates k = Some v -> In k (mutable t) /\ exists f, v = JScalar f /\ typed_for t k f.
Proof.
  rewrite updates_get. destruct (existsb _ _) eqn:Ea; intros Hk.
  - apply existsb_eqb_in in Ea. destruct (Hshape k Ea) as (s & c & Hin & Hcin & Hck & ->).
    split; [by apply Hmut|]. rewrite <-Hsame in Hk by done.
    pose proof (conforms_field _ _ _ _ _ Hc Hin Hk) as Hy.
    assert (exists f, v = JScalar f) as [f ->] by (destruct (col_type c); destruct v; try done; by eexists).
    exists f. split; [done|]. by eapply typed_scalar.
  - destruct (Hst given k _ Hk) as (-> & Hm & c & Hcin & Hck & Hct). split; [done|].
    exists (FInt (rt_now rt)). split; [done|]. exists c. rewrite Hct. by split_and!.
Qed.

Lemma updates_bound : exists set, bind_values updates = Ok set.
Proof.
  apply bind_values_ok. intros k v [Hin|Hin]%in_app_or; [|by eapply Hst_scalar].
  apply filter_In in Hin as [Hin Ha]. cbn [fst] in Ha.
  pose proof (rec_get_nodup _ _ _ Hnd Hin) as Hk.
  destruct (updates_typed k v) as (_ & f & ? & _); [|by exists f].
  rewrite updates_get, Ha, <-Hsame; [done|by apply existsb_eqb_in].
Qed.

Lemma patched_column set r c :
  bind_values updates = Ok set -> map fst r = map col_name (schema_of t) -> In c (schema_of t) ->
  fget (set_columns (schema_of t) set r) (col_name c) =
    patched t allowed (stamps given) given c (fget r (col_name c)).
Proof.
  intros Eb Hr Hcin. unfold patched. pose proof (updates_get (col_name c)) as Hu.
  assert (Hx : (if existsb (String.eqb (col_name c)) allowed
      then match rec_get given (col_name c) with Some (JScalar f) => store (col_type c) f | _ => fget r (col_name c) end
      else match rec_get (stamps given) (col_name c) with Some (JScalar f) => store (col_type c) f | _ => fget r (col_name c) end)
    = match rec_get updates (col_name c) with Some (JScalar f) => store (col_type c) f | _ => fget r (col_name c) end)
    by (rewrite Hu; by destruct (existsb _ _)).
  rewrite Hx. destruct (rec_get updates (col_name c)) as [v|] eqn:E.
  - destruct (updates_typed _ _ E) as (_ & f & -> & _).
    apply set_columns_set; [done|]. by apply (bind_values_get _ _ _ _ Eb).
  - apply set_columns_other; [done|]. destruct (rec_get set (col_name c)) eqn:Es; [|done].
    apply (bind_values_get _ _ _ _ Eb) in Es. by rewrite Es in E.
Qed.

Lemma patch_row_exact id d :
  rt_db_up rt = true -> db_ok d -> updates <> [] ->
  exists d', patch_row rt t id updates d = (Ok (ok_json [("status", JStr "ok")]), d') /\
    patch_effect t allowed (stamps given) given id (rows_of t d) (rows_of t d') /\
    (forall t', t <> t' -> rows_of t' d' = rows_of t' d) /\ meta d' = meta d.
Proof.
  intros Hup Hd Hne. destruct updates_bound as [set Eb].
  assert (Hp : patch_ok t set).
  { intros k f Hk. apply (bind_values_get _ _ _ _ Eb) in Hk.
    by destruct (updates_typed _ _ Hk) as (Hm & g & [= <-] & Hty). }
  destruct (update_effect t set id d Hp Hd) as (d' & Hupd & Hrows & Hother & Hmeta). exists d'.
  rewrite patch_row_nonempty by done. unfold abind, d1_write. rewrite Hup, Eb. cbn [obind].
  rewrite Hupd. split_and!; [done| |done|done].
  unfold patch_effect. rewrite Hrows. clear Hupd Hrows.
  apply (db_ok_table t) in Hd as [Hok _].
  induction Hok as [|r l Hr _ IH]; simpl; constructor; [|done].
  destruct (has_id id r); [|done]. intros c Hcin. apply patched_column; [done|by destruct Hr|done].
Qed.
End patch.
