(* ===== verification/ApiProps.v ===== *)
(** * The bridge API: properties

    Theorems over [handle_request] (packages/api/src/index.ts): who may change
    what, what each answer says, and which shapes the stored rows keep. *)

From Stdlib Require Import ZArith Lia String List Bool.
From stdpp Require Import base list strings numbers sorting.
From S2P Require Import Prelude JsNumber Effects Json Database Api ApiSpec.
Local Open Scope Z_scope.

(** A Worker with no 400 details, the default token and a live database. *)
#[export] Instance ref_chanfana : Chanfana := {| validation_issues _ _ := JNull |}.

Definition toy_runtime (now : Z) (uuid : string) : runtime := Runtime now uuid true None.

Definition deposit_given (address network : string) : list (string * json) :=
  [("snowsideAddress", JStr address); ("network", JStr network)].

(** A request and the database it leaves. *)
Definition after_request `{SQ : Sqlite} `{ZD : Zod} `{CH : Chanfana} (rt : runtime) (rq : request) (d : db) : db := snd (handle_request rt rq d).

Definition create_request (address network : string) : request :=
  Request POST ["v1"; "bridge"; "deposit"] None (Some (JObj (deposit_given address network))).

(** One pending deposit, then assigned an address. *)
Definition toy_db : db :=
  after_request (toy_runtime 1000 "d1") (create_request "0xuser" "signet") empty_db.

Lemma toy_db_reachable : reachable toy_db.
Proof. apply reach_request, reach_init. Qed.

Definition deposit_stamps (rt : runtime) (given : list (string * json)) : list (string * json) :=
  stamp rt given "confirmed" "confirmed_at" ++ stamp rt given "minted" "minted_at".

Definition withdrawal_stamp (rt : runtime) (given : list (string * json)) : list (string * json) :=
  stamp rt given "completed" "completed_at".

(** Some field the handler accepts is present. *)
Definition some_allowed (allowed : list string) (given : list (string * json)) : bool :=
  existsb (fun k => match rec_get given k with Some _ => true | None => false end) allowed.

Lemma stamp_scalar rt body st column k v :
  In (k, v) (stamp rt body st column) -> exists f, v = JScalar f.
Proof.
  unfold stamp. destruct (String.eqb _ _); [|done]. intros [[= <- <-]|[]]. by eexists.
Qed.

Lemma stamp_same rt kept given st column :
  rec_get kept "status" = rec_get given "status" -> stamp rt kept st column = stamp rt given st column.
Proof. unfold stamp, body_str. by intros ->. Qed.

Section api_patch.
Context `{SQ : Sqlite} `{ZD : Zod} `{CH : Chanfana}.

Lemma patch_shape_scalar k s :
  In (k, s) deposit_patch_body \/ In (k, s) withdraw_patch_body ->
  s = ZOptional ZString \/ s = ZOptional ZNumber.
Proof.
  cbn [deposit_patch_body withdraw_patch_body In]. intros H.
  repeat match goal with H : _ \/ _ |- _ => destruct H as [H|H] | H : _ = _ |- _ => injection H as <- <- end;
    try (by left); try (by right); done.
Qed.

(** An INSERT with a fresh id and no missing value succeeds. *)
Lemma insert_fresh t values id d :
  rec_get values "id" = Some (FStr id) -> select_by_id t id d = None ->
  not_null_ok (schema_of t) (new_row (schema_of t) values) = true ->
  exists d', insert_into t values d = Ok d'.
Proof.
  intros Hid Hf Hn. unfold insert_into. rewrite Hn. cbn [negb].
  assert (Hr : fget (new_row (schema_of t) values) "id" = FStr id).
  { pose proof (new_row_get t values _ (id_column t)) as E. cbn [col_name col_type] in E.
    by rewrite E, Hid, store_text. }
  rewrite (fget_str_eq _ _ _ Hr). change (default "" (Some id)) with id.
  destruct (existsb _ _) eqn:E; [|by eexists].
  apply existsb_exists in E as (r & Hin & Hrid).
  pose proof (select_by_id_spec t id d) as Hs. rewrite Hf in Hs. apply has_id_iff in Hrid.
  by destruct (Hs r Hin).
Qed.

Lemma new_deposit_not_null id network address now :
  not_null_ok deposits_schema (new_row deposits_schema
    [("id", FStr id); ("network", FStr network); ("snowside_address", FStr address);
     ("status", FStr "pending"); ("created_at", FInt now)]) = true.
Proof.
  unfold not_null_ok. apply forallb_forall. intros c Hin.
  rewrite (new_row_get Deposits) by done. cbn [deposits_schema In] in Hin.
  repeat (destruct Hin as [<-|Hin]; [simpl; rewrite ?store_text, ?store_integer; done|]). destruct Hin.
Qed.

Lemma handle_create_deposit rt address network d d' :
  rt_db_up rt = true -> str_truthy address = true -> is_network network = true ->
  insert_into Deposits
    [("id", FStr (rt_uuid rt)); ("network", FStr network); ("snowside_address", FStr address);
     ("status", FStr "pending"); ("created_at", FInt (rt_now rt))] d = Ok d' ->
  handle_request rt (create_request address network) d =
    (ok_json [("id", JStr (rt_uuid rt)); ("status", JStr "pending")], d').
Proof.
  intros Hup Ha Hn Hi. unfold handle_request, dispatch, route, create_request.
  cbn [rq_method rq_path rq_authorization rq_body]. unfold validated.
  assert (Hc : conforms (ZObject deposit_body) (JObj (deposit_given address network)) = true).
  { rewrite conforms_object. cbn [deposit_body forallb]. unfold field_conforms, deposit_given. simpl.
    unfold is_network in Hn. simpl in Hn. by rewrite Hn. }
  destruct (zod_complete _ _ Hc) as [v Hv]. rewrite Hv.
  destruct (zod_object _ _ _ Hv) as (given & kept & [= <-] & -> & _ & _ & _ & Hk).
  unfold create_deposit, body_str.
  rewrite (Hk "snowsideAddress" (FStr address)) by (try done; by left).
  rewrite (Hk "network" (FStr network)) by (try done; right; by left).
  rewrite Ha. assert (str_truthy network = true) as -> by by destruct network.
  cbn [negb orb]. unfold abind, d1_write. by rewrite Hup, Hi.
Qed.

(** ** A withdrawal request and its row *)

(** An empty burn hash is left out. *)
Definition withdraw_fields (snowside ecash amount network hash : string) : list (string * json) :=
  [("snowsideAddress", JStr snowside); ("ecashAddress", JStr ecash); ("amountEcx", JStr amount);
   ("network", JStr network)] ++ (if str_truthy hash then [("burnTxHash", JStr hash)] else []).

Definition withdrawal_request (snowside ecash amount network hash : string) : request :=
  Request POST ["v1"; "bridge"; "withdraw"] None (Some (JObj (withdraw_fields snowside ecash amount network hash))).

(** The API is up and well-formed, and the id it draws is new. *)
Record takes (rt : runtime) (d : db) : Prop := {
  tk_up : rt_db_up rt = true;
  tk_ok : db_ok d;
  tk_fresh : select_by_id Withdrawals (rt_uuid rt) d = None
}.

Section stored.
Context (rt : runtime) (snowside ecash amount network hash : string).

Definition stored_values : record :=
  [("id", FStr (rt_uuid rt)); ("network", FStr network); ("snowside_address", FStr snowside);
   ("ecash_address", FStr ecash); ("amount_ecx", FStr amount); ("burn_tx_hash", if str_truthy hash then FStr hash else FNull);
   ("status", FStr "pending"); ("created_at", FInt (rt_now rt))].

Definition stored_row : record := new_row (schema_of Withdrawals) stored_values.

Lemma stored_row_get c :
  In c (schema_of Withdrawals) ->
  fget stored_row (col_name c) =
    match rec_get stored_values (col_name c) with Some v => store (col_type c) v | None => col_default c end.
Proof. apply (new_row_get Withdrawals). Qed.

Lemma stored_row_id : fget stored_row "id" = FStr (rt_uuid rt).
Proof. refine (eq_trans (stored_row_get (column_named Withdrawals "id") _) _); [in_list|apply store_text]. Qed.

Lemma stored_row_status : fget stored_row "status" = FStr "pending".
Proof. refine (eq_trans (stored_row_get (column_named Withdrawals "status") _) _); [in_list|apply store_text]. Qed.

Lemma stored_row_amount : fget stored_row "amount_ecx" = store INTEGER (FStr amount).
Proof. refine (stored_row_get (column_named Withdrawals "amount_ecx") _). in_list. Qed.

Lemma stored_row_address : fget stored_row "snowside_address" = FStr snowside.
Proof. refine (eq_trans (stored_row_get (column_named Withdrawals "snowside_address") _) _); [in_list|apply store_text]. Qed.

Lemma stored_row_sats : fget stored_row "amount_sats" = FNull.
Proof. refine (stored_row_get (column_named Withdrawals "amount_sats") _). in_list. Qed.

Lemma withdrawal_not_null : not_null_ok (schema_of Withdrawals) stored_row = true.
Proof.
  unfold not_null_ok. apply forallb_forall. intros c Hin. rewrite stored_row_get by done.
  cbn [schema_of withdrawals_schema In] in Hin.
  repeat (destruct Hin as [<-|Hin]; [simpl; rewrite ?store_text, ?store_integer; done|]). destruct Hin.
Qed.

(** The request of a client whose fields are filled in becomes one new row. *)
Lemma withdrawal_created d :
  takes rt d -> str_truthy snowside = true -> str_truthy ecash = true -> str_truthy amount = true ->
  is_network network = true ->
  exists d', handle_request rt (withdrawal_request snowside ecash amount network hash) d =
      (ok_json [("id", JStr (rt_uuid rt)); ("status", JStr "pending")], d') /\
    db_ok d' /\ withdrawals d' = withdrawals d ++ [stored_row] /\ deposits d' = deposits d.
Proof.
  intros [Hup Hok Hfresh] Hs He Ha Hn.
  destruct (insert_fresh Withdrawals stored_values (rt_uuid rt) d eq_refl Hfresh withdrawal_not_null) as [d' Hi].
  exists d'. pose proof (insert_select Withdrawals stored_values _ d d' eq_refl Hi) as [_ Hrows].
  split_and!; [|by apply (insert_into_ok Withdrawals stored_values (rt_uuid rt) d)|exact Hrows|].
  2: { unfold insert_into in Hi. destruct (negb _); [done|]. destruct (existsb _ _); [done|]. by injection Hi as <-. }
  unfold handle_request, dispatch, route, withdrawal_request. cbn [rq_method rq_path rq_authorization rq_body]. unfold validated.
  assert (Hc : conforms (ZObject withdraw_body) (JObj (withdraw_fields snowside ecash amount network hash)) = true).
  { rewrite conforms_object. cbn [withdraw_body forallb]. unfold field_conforms, withdraw_fields.
    unfold is_network in Hn. by destruct (str_truthy hash); simpl; simpl in Hn; rewrite Hn. }
  destruct (zod_complete _ _ Hc) as [v Hv]. rewrite Hv.
  destruct (zod_object _ _ _ Hv) as (given & kept & [= <-] & -> & _ & _ & Hg & Hk).
  assert (Hh : body_str kept "burnTxHash" = hash).
  { unfold body_str. destruct (str_truthy hash) eqn:Eh.
    - rewrite (Hk "burnTxHash" (FStr hash)); [done|in_list|]. unfold withdraw_fields. by rewrite Eh.
    - assert (hash = "") as -> by by destruct hash.
      destruct (rec_get kept "burnTxHash") as [[f| | |]|] eqn:E; try done. by apply Hg in E. }
  unfold create_withdrawal. rewrite Hh. unfold body_str.
  rewrite (Hk "snowsideAddress" (FStr snowside)), (Hk "ecashAddress" (FStr ecash)), (Hk "amountEcx" (FStr amount)),
    (Hk "network" (FStr network)) by (try done; in_list).
  rewrite Hs, He, Ha. assert (str_truthy network = true) as -> by by destruct network.
  cbn [negb orb]. unfold abind, d1_write. rewrite Hup. fold stored_values. by rewrite Hi.
Qed.
End stored.

(** The validated handler of a PATCH, when its body conforms. *)
Lemma patch_deposit_row rt id given d :
  rt_db_up rt = true -> db_ok d ->
  conforms (ZObject deposit_patch_body) (JObj given) = true ->
  some_allowed deposit_allowed given = true ->
  exists d', validated deposit_patch_body (Some (JObj given)) (patch_deposit rt id) d =
      (Ok (ok_json [("status", JStr "ok")]), d') /\
    patch_effect Deposits deposit_allowed (deposit_stamps rt given) given id (deposits d) (deposits d') /\
    (forall t, Deposits <> t -> rows_of t d' = rows_of t d) /\ meta d' = meta d.
Proof.
  intros Hup Hd Hc Hsome. unfold validated. destruct (zod_complete _ _ Hc) as [v Hv]. rewrite Hv.
  destruct (kept_fields _ _ _ Hc Hv) as (kept & -> & Hck & Hnd & _ & Hsame);
    [intros k s ?; apply (patch_shape_scalar k); by left|].
  apply (patch_row_exact rt Deposits deposit_patch_body deposit_allowed (deposit_stamps rt)
    deposit_shape_matches) with (given := given) (kept := kept); try done.
  - intros k Hk. apply in_or_app. by left.
  - intros l. apply ApiSpec.deposit_stamps.
  - intros l k x [?|?]%in_app_or; by eapply stamp_scalar.
  - intros k x l. unfold deposit_stamps. rewrite rec_get_app.
    destruct (rec_get (stamp rt l "confirmed" _) k) eqn:E; intros H;
      [apply stamp_get in E as [-> _]|apply stamp_get in H as [-> _]]; simpl; intuition discriminate.
  - intros l1 l2 Hl. unfold deposit_stamps. by rewrite !(stamp_same rt l1 l2).
  - simpl. tauto.
  - intros Hnil%app_eq_nil. destruct Hnil as [Hnil _]. by eapply allowed_some in Hnil.
Qed.

Lemma patch_withdrawal_row rt id given d :
  rt_db_up rt = true -> db_ok d ->
  conforms (ZObject withdraw_patch_body) (JObj given) = true ->
  some_allowed withdraw_allowed given = true ->
  exists d', validated withdraw_patch_body (Some (JObj given)) (patch_withdrawal rt id) d =
      (Ok (ok_json [("status", JStr "ok")]), d') /\
    patch_effect Withdrawals withdraw_allowed (withdrawal_stamp rt given) given id
      (withdrawals d) (withdrawals d') /\
    (forall t, Withdrawals <> t -> rows_of t d' = rows_of t d) /\ meta d' = meta d.
Proof.
  intros Hup Hd Hc Hsome. unfold validated. destruct (zod_complete _ _ Hc) as [v Hv]. rewrite Hv.
  destruct (kept_fields _ _ _ Hc Hv) as (kept & -> & Hck & Hnd & _ & Hsame);
    [intros k s ?; apply (patch_shape_scalar k); by right|].
  apply (patch_row_exact rt Withdrawals withdraw_patch_body withdraw_allowed (withdrawal_stamp rt)
    withdraw_shape_matches) with (given := given) (kept := kept); try done.
  - intros k Hk. apply in_or_app. by left.
  - intros l. apply withdrawal_stamps.
  - intros l k x ?. by eapply stamp_scalar.
  - intros k x l [-> _]%stamp_get. simpl. intuition discriminate.
  - intros l1 l2 Hl. by apply stamp_same.
  - simpl. tauto.
  - intros Hnil%app_eq_nil. destruct Hnil as [Hnil _]. by eapply allowed_some in Hnil.
Qed.
End api_patch.

(** ** Properties *)

(** What a request without the token gets: OPTIONS is answered before the
    token is looked at, and the answer to a HEAD has no body. *)
Definition no_token (m : method) : answer :=
  match m with
  | OPTIONS => Empty 204
  | HEAD => Empty 401
  | GET | POST | PATCH | OTHER => Answer 401 (JObj [("error", JStr "Unauthorized")])
  end.

(** C19. Requests to the federation routes without the right bearer token leave
    the database as it was, whatever the method, path and body, and are
    refused with 401, except that OPTIONS is answered by the CORS middleware
    with 204 and nothing else; without a configured token the right one is
    "dev-secret". *)
Theorem fed_routes_need_the_token `{SQ : Sqlite} `{ZD : Zod} `{CH : Chanfana} rt m path authorization body d :
  authorization <> Some ("Bearer " +:+ str_or (default "" (rt_federation_token rt)) "dev-secret") ->
  handle_request rt (Request m ("v1" :: "fed" :: path) authorization body) d = (no_token m, d).
Proof.
  intros Hne. assert (Ha : fed_authorized rt authorization = false) by by apply bool_decide_eq_false.
  unfold handle_request, dispatch, route. cbn [rq_method rq_path rq_authorization rq_body]. rewrite Ha.
  by destruct m.
Qed.

Lemma fed_routes_need_the_token_witness :
  handle_request (toy_runtime 0 "") (Request PATCH ["v1"; "fed"; "deposit"; "d1"] None None) toy_db =
    (Answer 401 (error_json "Unauthorized"), toy_db).
Proof. apply (fed_routes_need_the_token (toy_runtime 0 "")). discriminate. Defined.

(** C17. In every database the API can reach, the tables are well formed: each
    row has exactly its table's columns in order, its NOT NULL columns hold
    values, its id is a text, and no two rows of a table share an id. *)
Theorem reachable_tables_well_formed `{SQ : Sqlite} `{ZD : Zod} `{CH : Chanfana} d :
  reachable d -> db_ok d.
Proof. apply reachable_ok. Qed.

Lemma reachable_tables_well_formed_witness : db_ok toy_db /\ length (deposits toy_db) = 1%nat.
Proof. split; [apply (reachable_tables_well_formed _ toy_db_reachable)|reflexivity]. Defined.

(** C23. Every deposit the API returns conforms to the DepositSchema it
    documents: in every reachable database each row of the table does, and so
    does the array of each listing. *)
Theorem deposits_conform `{SQ : Sqlite} `{ZD : Zod} `{CH : Chanfana} d :
  reachable d ->
  Forall (fun r => conforms DepositSchema (json_of_row r) = true) (deposits d) /\
  forall p desc, conforms (ZArray DepositSchema)
    (JArr (map json_of_row (select_where Deposits p desc d))) = true.
Proof.
  intros Hr. pose proof (reachable_typed d Hr) as Ht.
  destruct (db_ok_table Deposits d (reachable_ok d Hr)) as [Hok _]. cbn [rows_of] in Hok.
  rewrite Forall_forall in Ht, Hok.
  assert (Hall : forall r, r ∈ deposits d -> conforms DepositSchema (json_of_row r) = true).
  { intros r Hin. apply deposit_row_conforms; [by apply Hok|by apply Ht]. }
  split; [by apply Forall_forall|]. intros p desc. cbn [conforms].
  apply forallb_forall. intros j (r & <- & Hin)%in_map_iff.
  apply select_where_in in Hin as [Hin _]. by apply Hall, list_elem_of_In.
Qed.

Lemma deposits_conform_witness :
  Forall (fun r => conforms DepositSchema (json_of_row r) = true) (deposits toy_db).
Proof. apply (deposits_conform _ toy_db_reachable). Defined.

(** C18. What identifies a row never changes. Whatever request comes, each row
    of a table has a row with the same id after it, equal in every column the
    PATCH handlers may not set: its network, its addresses on Snowside, its
    burn transaction, its requested amount and its creation time. *)
Theorem row_identity_is_permanent `{SQ : Sqlite} `{ZD : Zod} `{CH : Chanfana} rt rq d t r :
  db_ok d -> In r (rows_of t d) ->
  exists r', In r' (rows_of t (after_request rt rq d)) /\
    forall k, ~ In k (mutable t) -> fget r' k = fget r k.
Proof.
  intros Hd Hin. unfold after_request.
  destruct (db_step_rows t _ _ Hd (handle_request_steps rt rq d)) as [[added ->]|(id & set & Hp & ->)].
  - exists r. split; [apply in_or_app; by left|done].
  - exists (if has_id id r then set_columns (schema_of t) set r else r). split.
    + apply in_map_iff. by exists r.
    + intros k Hk. destruct (has_id id r); [|done]. apply set_columns_other.
      * apply (db_ok_table t) in Hd as [Hok _]. rewrite Forall_forall in Hok.
        by apply list_elem_of_In, Hok in Hin as [? _].
      * destruct (rec_get set k) eqn:E; [|done]. by apply Hp in E as [? _].
Qed.

Lemma row_identity_is_permanent_witness :
  exists r', In r' (deposits (after_request (toy_runtime 2000 "")
      (fed_request (toy_runtime 2000 "") PATCH ["deposit"; "d1"]
         (Some (JObj [("status", JStr "minted"); ("network", JStr "mainnet")]))) toy_db)) /\
    fget r' "network" = FStr "signet".
Proof.
  destruct (row_identity_is_permanent (toy_runtime 2000 "")
    (fed_request (toy_runtime 2000 "") PATCH ["deposit"; "d1"]
       (Some (JObj [("status", JStr "minted"); ("network", JStr "mainnet")]))) toy_db Deposits
    (default [] (head (deposits toy_db)))) as (r' & Hin & Heq).
  - apply (reachable_ok _ toy_db_reachable).
  - by left.
  - exists r'. split; [exact Hin|]. rewrite Heq; [reflexivity|]. simpl. intuition discriminate.
Defined.

(** C25. A deposit that is created can be read back: POST /v1/bridge/deposit
    with a fresh UUID answers with that id, and GET /v1/bridge/deposit/:id
    then returns one row with the given network and address, status
    "pending", the creation time, and nothing in its other columns. *)
Theorem created_deposit_reads_back `{SQ : Sqlite} `{ZD : Zod} `{CH : Chanfana} rt rt' address network d :
  db_ok d -> rt_db_up rt = true -> rt_db_up rt' = true ->
  str_truthy address = true -> is_network network = true ->
  select_by_id Deposits (rt_uuid rt) d = None -> rt_uuid rt <> "" ->
  let posted := handle_request rt (create_request address network) d in
  let got := handle_request rt' (Request GET ["v1"; "bridge"; "deposit"; rt_uuid rt] None None) (snd posted) in
  fst posted = ok_json [("id", JStr (rt_uuid rt)); ("status", JStr "pending")] /\
  exists row, got = (Answer 200 (json_of_row row), snd posted) /\
    forall c, In c deposits_schema -> fget row (col_name c) =
      match rec_get [("id", FStr (rt_uuid rt)); ("network", FStr network);
                     ("snowside_address", FStr address); ("status", FStr "pending");
                     ("created_at", FInt (rt_now rt))] (col_name c) with
      | Some v => v
      | None => FNull
      end.
Proof.
  intros Hd Hup Hup' Ha Hn Hfresh Hne posted.
  set (values := [("id", FStr (rt_uuid rt)); ("network", FStr network);
    ("snowside_address", FStr address); ("status", FStr "pending"); ("created_at", FInt (rt_now rt))]).
  destruct (insert_fresh Deposits values (rt_uuid rt) d) as [d' Hi]; [done|done| |].
  { apply new_deposit_not_null. }
  assert (Hp : posted = (ok_json [("id", JStr (rt_uuid rt)); ("status", JStr "pending")], d')).
  { unfold posted. by apply handle_create_deposit. }
  rewrite Hp. cbn [fst snd]. split; [done|].
  exists (new_row deposits_schema values). split.
  - unfold handle_request, dispatch, route. cbn [rq_method rq_path rq_authorization rq_body].
    destruct (insert_select Deposits values (rt_uuid rt) d d') as [Hs _]; [done..|].
    destruct (rt_uuid rt) as [|u us]; [done|].
    unfold get_deposit, abind, d1_read. by rewrite Hup', Hs.
  - intros c Hin. rewrite (new_row_get Deposits) by done.
    destruct (rec_get values (col_name c)) as [v|] eqn:E.
    + cbn [deposits_schema In] in Hin.
      repeat (destruct Hin as [<-|Hin]; [vm_compute in E; first [discriminate E
        | injection E as <-; first [apply store_text | apply store_integer]]|]). destruct Hin.
    + cbn [deposits_schema In] in Hin.
      repeat (destruct Hin as [<-|Hin]; [first [discriminate E | reflexivity]|]). destruct Hin.
Qed.

Lemma created_deposit_reads_back_witness :
  exists row,
    handle_request (toy_runtime 1001 "") (Request GET ["v1"; "bridge"; "deposit"; "d2"] None None)
      (after_request (toy_runtime 1000 "d2") (create_request "0xother" "signet") toy_db) =
    (Answer 200 (json_of_row row),
     after_request (toy_runtime 1000 "d2") (create_request "0xother" "signet") toy_db) /\
    fget row "snowside_address" = FStr "0xother".
Proof.
  destruct (created_deposit_reads_back (toy_runtime 1000 "d2") (toy_runtime 1001 "") "0xother" "signet"
    toy_db) as (_ & row & Hgot & Hrow); try done.
  - apply (reachable_ok _ toy_db_reachable).
  - exists row. split; [exact Hgot|].
    apply (Hrow (Column "snowside_address" TEXT true FNull)). simpl. auto.
Defined.

(** What a PATCH of a deposit at [now] with the fields [given] makes of its row. *)
Record deposit_patched `{SQ : Sqlite} (now : Z) (given : list (string * json)) (r r' : record) : Prop := {
  dp_text k : In k ["ecash_address"; "ecash_tx_hash"; "mint_tx_hash"; "status"] ->
    fget r' k = match rec_get given k with Some (JScalar f) => f | _ => fget r k end;
  dp_number k : In k ["derivation_index"; "amount_sats"; "amount_ecx"] ->
    fget r' k = match rec_get given k with Some (JScalar f) => store INTEGER f | _ => fget r k end;
  dp_confirmed : rec_get given "status" = Some (JStr "confirmed") -> fget r' "confirmed_at" = FInt now;
  dp_not_confirmed : rec_get given "status" <> Some (JStr "confirmed") ->
    fget r' "confirmed_at" = fget r "confirmed_at";
  dp_minted : rec_get given "status" = Some (JStr "minted") -> fget r' "minted_at" = FInt now;
  dp_not_minted : rec_get given "status" <> Some (JStr "minted") -> fget r' "minted_at" = fget r "minted_at";
  dp_kept k : In k ["id"; "network"; "snowside_address"; "created_at"] -> fget r' k = fget r k
}.

Lemma stamp_value rt given s c :
  rec_get given "status" = Some (JStr s) -> rec_get (stamp rt given s c) c = Some (JInt (rt_now rt)).
Proof. unfold stamp, body_str, JStr. intros ->. rewrite String.eqb_refl. cbn [rec_get]. by rewrite String.eqb_refl. Qed.

Lemma stamp_missing rt given s c k :
  str_truthy s = true -> rec_get given "status" <> Some (JStr s) -> rec_get (stamp rt given s c) k = None.
Proof.
  intros Hs Hne. unfold stamp. destruct (String.eqb_spec (body_str given "status") s) as [E|]; [|done].
  unfold body_str in E. destruct (rec_get given "status") as [[[| | |x]| | |]|] eqn:Ek; subst s; done.
Qed.

Lemma deposit_patch_fields `{SQ : Sqlite} rt given r r' :
  conforms (ZObject deposit_patch_body) (JObj given) = true ->
  (forall c, In c deposits_schema -> fget r' (col_name c) =
     patched Deposits deposit_allowed (deposit_stamps rt given) given c (fget r (col_name c))) ->
  deposit_patched (rt_now rt) given r r'.
Proof.
  intros Hconf Hc.
  assert (Hcol : forall k, In k (map col_name deposits_schema) -> fget r' k =
    patched Deposits deposit_allowed (deposit_stamps rt given) given (column_named Deposits k) (fget r k)).
  { intros k Hk. cbn in Hk. repeat destruct Hk as [<-|Hk]; try contradiction;
      match goal with |- fget r' ?k = _ => exact (Hc (column_named Deposits k) ltac:(in_list)) end. }
  assert (Htext : forall k f, In k ["ecash_address"; "ecash_tx_hash"; "mint_tx_hash"; "status"] ->
    rec_get given k = Some (JScalar f) -> store TEXT f = f).
  { intros k f Hk Hg. rewrite conforms_object, forallb_forall in Hconf.
    specialize (Hconf (k, ZOptional ZString)). unfold field_conforms in Hconf. cbn [fst snd] in Hconf. rewrite Hg in Hconf.
    assert (Hin : In (k, ZOptional ZString) deposit_patch_body)
      by (cbn in Hk; repeat destruct Hk as [<-|Hk]; try contradiction; in_list).
    specialize (Hconf Hin). destruct f; try done. apply store_text. }
  split.
  - intros k Hk. rewrite Hcol by (cbn in Hk |- *; tauto). specialize (Htext k).
    cbn in Hk. repeat destruct Hk as [<-|Hk]; try contradiction; unfold patched; simpl;
      (match goal with |- context [rec_get given ?k] => destruct (rec_get given k) as [[f| | |]|] eqn:E end);
      try done; (apply (Htext f); [in_list|done]).
  - intros k Hk. rewrite Hcol by (cbn in Hk |- *; tauto).
    cbn in Hk. by repeat destruct Hk as [<-|Hk]; try contradiction.
  - intros Hs. rewrite Hcol by (cbn; tauto). unfold patched, deposit_stamps. simpl existsb. cbv iota.
    rewrite rec_get_app. change (col_name _) with "confirmed_at". rewrite stamp_value by done. apply store_integer.
  - intros Hs. rewrite Hcol by (cbn; tauto). unfold patched, deposit_stamps. simpl existsb. cbv iota.
    rewrite rec_get_app, stamp_missing by done. change (col_name _) with "confirmed_at".
    destruct (rec_get (stamp _ _ _ _) _) eqn:E; [|done]. by apply stamp_get in E as [? _].
  - intros Hs. rewrite Hcol by (cbn; tauto). unfold patched, deposit_stamps. simpl existsb. cbv iota.
    rewrite rec_get_app, (stamp_missing rt given "confirmed") by (try done; by rewrite Hs). change (col_name _) with "minted_at".
    rewrite stamp_value by done. apply store_integer.
  - intros Hs. rewrite Hcol by (cbn; tauto). unfold patched, deposit_stamps. simpl existsb. cbv iota.
    rewrite rec_get_app, (stamp_missing _ _ "minted") by done. change (col_name _) with "minted_at".
    destruct (rec_get (stamp _ _ _ _) _) eqn:E; [|done]. by apply stamp_get in E as [? _].
  - intros k Hk. rewrite Hcol by (cbn in Hk |- *; tauto).
    assert (Hst : rec_get (deposit_stamps rt given) k = None).
    { destruct (rec_get (deposit_stamps rt given) k) as [v|] eqn:E; [|done]. exfalso. unfold deposit_stamps in E.
      rewrite rec_get_app in E.
      destruct (rec_get (stamp rt given "confirmed" "confirmed_at") k) eqn:E1;
        [apply stamp_get in E1 as [-> _]|apply stamp_get in E as [-> _]]; cbn in Hk; intuition discriminate. }
    cbn in Hk. repeat destruct Hk as [<-|Hk]; try contradiction; unfold patched; simpl existsb; cbv iota;
      match type of Hst with rec_get _ ?k = None => change (col_name (column_named Deposits k)) with k end;
      by rewrite Hst.
Qed.

(** C24. PATCH /v1/fed/deposit/:id does exactly what it says. With the token, a
    conforming body and at least one of the seven fields that may be set, it
    answers 200; in the rows with that id these fields take the given values,
    confirmed_at (minted_at) becomes the current time exactly when the status
    given is "confirmed" ("minted"), and every other column, row and table
    stays as it was. *)
Theorem patch_deposit_exact `{SQ : Sqlite} `{ZD : Zod} `{CH : Chanfana} rt id given d :
  rt_db_up rt = true -> db_ok d -> id <> "" ->
  conforms (ZObject deposit_patch_body) (JObj given) = true ->
  (exists k, In k ["ecash_address"; "derivation_index"; "amount_sats"; "amount_ecx"; "ecash_tx_hash";
     "mint_tx_hash"; "status"] /\ rec_get given k <> None) ->
  exists d', handle_request rt (fed_request rt PATCH ["deposit"; id] (Some (JObj given))) d =
      (Answer 200 (JObj [("status", JStr "ok")]), d') /\
    Forall2 (fun r r' => (fget r "id" = FStr id -> deposit_patched (rt_now rt) given r r') /\
      (fget r "id" <> FStr id -> r' = r)) (deposits d) (deposits d') /\
    withdrawals d' = withdrawals d /\ meta d' = meta d.
Proof.
  intros Hup Hd Hid Hc (k & Hk & Hg). rewrite handle_fed by tauto. destruct id as [|c id]; [done|]. cbn [fed_route].
  assert (Hsome : some_allowed deposit_allowed given = true).
  { apply existsb_exists. exists k. split; [exact Hk|]. by destruct (rec_get given k). }
  destruct (patch_deposit_row rt (String c id) given d Hup Hd Hc Hsome) as (d' & -> & He & Hother & Hm).
  exists d'. split_and!; [done| |by apply (Hother Withdrawals)|done].
  eapply Forall2_impl; [exact He|]. cbv beta. intros r r' Hr. destruct (has_id _ r) eqn:E.
  - apply has_id_iff in E. split; [intros _; by apply deposit_patch_fields|done].
  - split; [|done]. intros Hrid. apply has_id_iff in Hrid. congruence.
Qed.

Lemma patch_deposit_exact_witness :
  exists d', Forall2 (fun r r' =>
    (fget r "id" = FStr "d1" -> deposit_patched 2000 [("status", JStr "confirmed"); ("amount_sats", JInt 100000)] r r') /\
    (fget r "id" <> FStr "d1" -> r' = r)) (deposits toy_db) (deposits d').
Proof.
  destruct (patch_deposit_exact (toy_runtime 2000 "") "d1"
    [("status", JStr "confirmed"); ("amount_sats", JInt 100000)] toy_db) as (d' & _ & He & _);
    [reflexivity|apply (reachable_ok _ toy_db_reachable)|discriminate|reflexivity|
     exists "status"; split; [right; right; right; right; right; right; left; reflexivity|discriminate]|].
  exists d'. exact He.
Defined.

(** A withdrawal the service gives up on gets no completion time: the PATCH
    it sends on a timeout ({status: "failed", completed_at: now}) is accepted,
    sets the status and leaves completed_at as it was. *)
Theorem failed_withdrawal_keeps_completed_at `{SQ : Sqlite} `{ZD : Zod} `{CH : Chanfana} rt id now d :
  rt_db_up rt = true -> db_ok d -> id <> "" ->
  exists d', handle_request rt (fed_request rt PATCH ["withdraw"; id]
      (Some (JObj [("status", JStr "failed"); ("completed_at", JInt now)]))) d =
      (ok_json [("status", JStr "ok")], d') /\
    Forall2 (fun r r' => if has_id id r
      then fget r' "status" = FStr "failed" /\ fget r' "completed_at" = fget r "completed_at"
      else r' = r) (withdrawals d) (withdrawals d').
Proof.
  intros Hup Hd Hid. rewrite handle_fed by tauto. destruct id as [|c id]; [done|]. cbn [fed_route].
  destruct (patch_withdrawal_row rt (String c id) [("status", JStr "failed"); ("completed_at", JInt now)] d Hup Hd)
    as (d' & -> & He & _); [reflexivity|reflexivity|].
  exists d'. split; [done|]. eapply Forall2_impl; [exact He|]. intros r r'. cbv beta.
  destruct (has_id _ r); [|done]. intros Hc. split.
  - etransitivity; [apply (Hc (Column "status" TEXT true (FStr "pending"))); simpl; tauto|].
    unfold patched. simpl. apply store_text.
  - etransitivity; [apply (Hc (Column "completed_at" INTEGER false FNull)); simpl; tauto|]. done.
Qed.

Definition withdraw_request (amount : string) : request :=
  Request POST ["v1"; "bridge"; "withdraw"] None
    (Some (JObj [("snowsideAddress", JStr "0xuser"); ("ecashAddress", JStr "tb1quser");
                 ("amountEcx", JStr amount); ("network", JStr "signet");
                 ("burnTxHash", JStr "0xburn")])).

Definition toy_withdrawal_db : db :=
  after_request (toy_runtime 1000 "w1") (withdraw_request "0.5") toy_db.

Lemma toy_withdrawal_db_reachable : reachable toy_withdrawal_db.
Proof. apply reach_request, toy_db_reachable. Qed.

Lemma failed_withdrawal_keeps_completed_at_witness :
  exists d', length (withdrawals d') = 1%nat /\
    Forall2 (fun r r' => if has_id "w1" r
      then fget r' "status" = FStr "failed" /\ fget r' "completed_at" = fget r "completed_at"
      else r' = r) (withdrawals toy_withdrawal_db) (withdrawals d').
Proof.
  destruct (failed_withdrawal_keeps_completed_at (toy_runtime 2000 "") "w1" 2000 toy_withdrawal_db)
    as (d' & _ & He); [reflexivity|apply (reachable_ok _ toy_withdrawal_db_reachable)|discriminate|].
  exists d'. split; [|exact He]. by rewrite <-(Forall2_length _ _ _ He).
Defined.

(** What the service is given to work on. GET /v1/fed/deposits/pending
    answers with exactly the rows whose status is "pending" or "confirmed",
    GET /v1/fed/withdrawals/pending with exactly the pending withdrawals, and
    GET /v1/fed/deposits/funded with exactly the deposits that have an amount,
    an address and a derivation index; each oldest first. *)
Theorem fed_listings_exact `{SQ : Sqlite} `{ZD : Zod} `{CH : Chanfana} rt d :
  rt_db_up rt = true ->
  Forall (fun q : list string * table_name * (record -> bool) =>
    let '(path, t, wanted) := q in
    exists rows, handle_request rt (fed_request rt GET path None) d = (rows_answer rows, d) /\
      (forall r, In r rows <-> In r (rows_of t d) /\ wanted r = true) /\
      StronglySorted (fun a b => row_key "created_at" a <= row_key "created_at" b) rows)
    [(["deposits"; "pending"], Deposits, fun r =>
        bool_decide (fget r "status" = FStr "pending") || bool_decide (fget r "status" = FStr "confirmed"));
     (["withdrawals"; "pending"], Withdrawals, fun r => bool_decide (fget r "status" = FStr "pending"));
     (["deposits"; "funded"], Deposits, fun r =>
        negb (bool_decide (fget r "amount_sats" = FNull)) && negb (bool_decide (fget r "ecash_address" = FNull))
        && negb (bool_decide (fget r "derivation_index" = FNull)))].
Proof.
  intros Hup.
  assert (Hlist : forall t p, forall rows, rows = select_where t p false d ->
    (forall r, In r rows <-> In r (rows_of t d) /\ p r = true) /\
    StronglySorted (fun a b => row_key "created_at" a <= row_key "created_at" b) rows).
  { intros t p rows ->. split; [intros r; apply select_where_in|apply order_by_asc]. }
  repeat constructor; cbv beta iota; eexists; rewrite handle_fed by tauto; cbn [fed_route];
    unfold fed_pending_deposits, fed_pending_withdrawals, fed_funded_deposits, abind, d1_read;
    rewrite Hup; (split; [reflexivity|]).
  - by apply (Hlist Deposits is_pending_deposit).
  - by apply (Hlist Withdrawals (has_text "status" "pending")).
  - destruct (Hlist Deposits is_funded _ eq_refl) as [Hin Hs]. split; [|done].
    intros r. rewrite Hin. unfold is_funded. by rewrite !bool_decide_not.
Qed.

Lemma fed_listings_exact_witness :
  exists rows, handle_request (toy_runtime 2000 "")
    (fed_request (toy_runtime 2000 "") GET ["deposits"; "pending"] None) toy_db = (rows_answer rows, toy_db) /\
    (forall r, In r rows <-> In r (deposits toy_db) /\ is_pending_deposit r = true).
Proof.
  pose proof (fed_listings_exact (toy_runtime 2000 "") toy_db eq_refl) as H.
  apply Forall_cons in H as [(rows & Hh & Hin & _) _]. exists rows. split; [exact Hh|exact Hin].
Defined.

(** The bridge reports the federation online for one minute: after a
    check-in at [t0], GET /v1/bridge/status at a later [t1] answers online
    exactly when [t1 - t0 < 60000], with [t0] as the last check-in; and with
    no database it answers offline instead of failing. *)
Theorem federation_online_for_a_minute `{SQ : Sqlite} `{ZD : Zod} `{CH : Chanfana} rt rt' d :
  rt_db_up rt = true -> 0 <= rt_now rt <= rt_now rt' -> rt_now rt' < 2 ^ 53 ->
  let checked := snd (handle_request rt (fed_request rt POST ["checkin"] None) d) in
  let status := fst (handle_request rt' (Request GET ["v1"; "bridge"; "status"] None None) checked) in
  status = ok_json
    (if rt_db_up rt'
     then [("status", JStr "ok"); ("federation_online", JBool (rt_now rt' - rt_now rt <? 60000));
           ("last_checkin", JInt (rt_now rt))]
     else [("status", JStr "ok"); ("federation_online", JBool false); ("last_checkin", JNull)]).
Proof.
  intros Hup Hle Hb checked.
  assert (Hch : checked = replace_meta "fed_last_checkin" (dec_str (rt_now rt)) d).
  { unfold checked. rewrite handle_fed by tauto. cbn [fed_route]. unfold fed_checkin, abind, d1_write. by rewrite Hup. }
  rewrite Hch. unfold handle_request, dispatch, route. cbn [rq_method rq_path].
  unfold get_bridge_status, d1_read. destruct (rt_db_up rt'); [|done].
  rewrite select_meta_replace. cbn [fmap option_fmap option_map from_option].
  unfold Number_of_text. rewrite BigInt_of_dec_str by lia.
  by rewrite Number_of_BigInt_exact by lia.
Qed.

Lemma federation_online_for_a_minute_witness :
  fst (handle_request (toy_runtime 60999 "") (Request GET ["v1"; "bridge"; "status"] None None)
    (snd (handle_request (toy_runtime 1000 "") (fed_request (toy_runtime 1000 "") POST ["checkin"] None) toy_db))) =
  ok_json [("status", JStr "ok"); ("federation_online", JBool true); ("last_checkin", JInt 1000)].
Proof.
  apply (federation_online_for_a_minute (toy_runtime 1000 "") (toy_runtime 60999 "") toy_db);
    [reflexivity|simpl; lia|simpl; lia].
Defined.

(** SQLite's documented INTEGER affinity, for texts that are digits: they are
    stored as integers. *)
#[local, refine] Instance affinity_sqlite : Sqlite := {|
  store a f := match a, f with
    | INTEGER, FStr s =>
        if str_truthy s && all_str is_digit s
        then match BigInt_of_string s with Ok z => FInt z | Throw _ => f end else f
    | _, _ => f
    end;
  order_by := @order_by ref_sqlite
|}.
Proof.
  - done.
  - done.
  - intros f. by destruct f.
  - intros [] f; try done. destruct f as [|z|s|s]; try done.
    destruct (_ && _); [|done]. by destruct (BigInt_of_string s).
  - apply (@order_by_perm ref_sqlite).
  - apply (@order_by_asc ref_sqlite).
  - apply (@order_by_desc ref_sqlite).
Defined.

(** Withdrawals do not conform to their schema when SQLite applies its
    affinity: withdrawals.amount_ecx is an INTEGER column, so once it stores
    the amount text as a number, the listings return a number where the
    documented WithdrawalSchema says string. *)
Theorem stored_amount_breaks_the_schema `{SQ : Sqlite} r amount :
  store INTEGER (FStr amount) = fget r "amount_ecx" ->
  is_number (store INTEGER (FStr amount)) = true ->
  conforms WithdrawalSchema (json_of_row r) = false.
Proof.
  intros Hr Hn. apply not_true_iff_false. unfold WithdrawalSchema, json_of_row.
  rewrite conforms_object, forallb_forall. intros Hc.
  specialize (Hc ("amount_ecx", ZNullable ZString) ltac:(simpl; tauto)).
  unfold field_conforms in Hc. cbn [fst snd] in Hc. rewrite rec_get_map in Hc.
  rewrite Hr in Hn. unfold fget in Hn. destruct (rec_get r "amount_ecx") as [f|]; [|done].
  by destruct f.
Qed.

Definition affinity_db : db :=
  @after_request affinity_sqlite ref_zod ref_chanfana (toy_runtime 1000 "w2")
    (withdraw_request "500000000000000") empty_db.

Lemma stored_amount_breaks_the_schema_witness :
  Forall (fun r => fget r "status" = FStr "pending" /\
    conforms WithdrawalSchema (json_of_row r) = false) (withdrawals affinity_db) /\
  length (withdrawals affinity_db) = 1%nat.
Proof.
  split; [|reflexivity]. constructor; [|constructor]. split; [reflexivity|].
  apply (@stored_amount_breaks_the_schema affinity_sqlite _ "500000000000000"); reflexivity.
Defined.
