(* ===== verification/ApiTests.v ===== *)
(** * The API's own tests: packages/api/test

    setup.ts and index.test.ts run on the model, with the reference store and
    schemas in the place of the test's in-memory D1: each test as the requests
    it makes and what it expects of the answers. The last one, which reaches
    out to a server on the network, is what the router does with its path. *)

From Stdlib Require Import ZArith Lia String List Bool.
From stdpp Require Import base list strings numbers.
From S2P Require Import Prelude Effects Json Database Api ApiSpec ApiProps.
Local Open Scope Z_scope.

(** ** setup.ts *)

Definition TEST_TOKEN : string := "test-fed-token".

(** An environment is its database; every request has its own time and id. *)
Record env := Env { env_clock : Z; env_db : db }.

(** [makeEnv()] and [applySchema(env.DB)] *)
Definition makeEnv : env := Env 0 empty_db.

Definition env_runtime (e : env) : runtime :=
  Runtime (1000000 + env_clock e) ("id-" +:+ dec_str (env_clock e)) true (Some TEST_TOKEN).

(** [app.fetch(req(path, init), env)]; the body of the answer is what
    [res.json()] yields. *)
Definition fetch (rq : request) (e : env) : answer * env :=
  let (a, d) := handle_request (env_runtime e) rq (env_db e) in (a, Env (env_clock e + 1) d).

(** ** index.test.ts *)

(** [call(path, init)]: one request against a fresh environment. *)
Definition call (rq : request) : answer := fst (fetch rq makeEnv).

Definition get_req (path : list string) : request := Request GET ("v1" :: path) None None.
Definition post_req (path : list string) (body : list (string * json)) : request :=
  Request POST ("v1" :: path) None (Some (JObj body)).
Definition fed (token : string) (m : method) (path : list string) (body : option json) : request :=
  Request m ("v1" :: "fed" :: path) (Some ("Bearer " +:+ token)) body.

(** *** Expectations *)

Definition status_is (a : answer) (st : Z) : bool :=
  match a with Answer s _ => s =? st | _ => false end.

Definition body_of (a : answer) : json := match a with Answer _ j => j | _ => JNull end.

(** [json.k], [json[0].k] *)
Definition prop (j : json) (k : string) : option json :=
  match json_get j k with Ok v => v | Throw _ => None end.
Definition first_prop (j : json) (k : string) : option json :=
  match j with JArr (r :: _) => prop r k | _ => None end.

Definition json_is (v : option json) (f : field) : bool :=
  match v with Some (JScalar g) => bool_decide (f = g) | _ => false end.
Definition bool_is (v : option json) (b : bool) : bool :=
  match v with Some (JBool c) => Bool.eqb b c | _ => false end.
Definition is_string (v : option json) : bool :=
  match v with Some (JScalar (FStr _)) => true | _ => false end.
Definition is_number_json (v : option json) : bool :=
  match v with Some (JScalar (FInt _)) => true | _ => false end.
Definition length_is (j : json) (n : nat) : bool :=
  match j with JArr l => Nat.eqb (length l) n | _ => false end.
Definition text_of (v : option json) : string :=
  match v with Some (JScalar (FStr s)) => s | _ => "" end.

(** *** The tests *)

Definition test_status : bool :=
  let a := call (get_req ["status"]) in
  status_is a 200 && json_is (prop (body_of a) "status") (FStr "ok")
  && includes "drivechain.dev" (text_of (prop (body_of a) "esplora_proxy")).

Definition test_offline : bool :=
  let a := call (get_req ["bridge"; "status"]) in
  status_is a 200 && json_is (prop (body_of a) "status") (FStr "ok")
  && bool_is (prop (body_of a) "federation_online") false
  && json_is (prop (body_of a) "last_checkin") FNull.

Definition test_online : bool :=
  let (_, e) := fetch (fed TEST_TOKEN POST ["checkin"] None) makeEnv in
  let (a, _) := fetch (get_req ["bridge"; "status"]) e in
  status_is a 200 && bool_is (prop (body_of a) "federation_online") true
  && is_number_json (prop (body_of a) "last_checkin").

Definition deposit_post (snowsideAddress network : string) : request :=
  post_req ["bridge"; "deposit"] [("snowsideAddress", JStr snowsideAddress); ("network", JStr network)].

Definition test_create_deposit : bool :=
  let a := call (deposit_post "0xabc123" "testnet") in
  status_is a 200 && json_is (prop (body_of a) "status") (FStr "pending")
  && is_string (prop (body_of a) "id").

Definition test_deposit_missing_field : bool :=
  status_is (call (post_req ["bridge"; "deposit"] [("network", JStr "testnet")])) 400.

Definition test_deposit_bad_network : bool := status_is (call (deposit_post "0xabc" "fakenet")) 400.

Definition test_deposit_not_found : bool :=
  let a := call (get_req ["bridge"; "deposit"; "nonexistent"]) in
  status_is a 404 && json_is (prop (body_of a) "error") (FStr "Not found").

Definition test_deposit_by_id : bool :=
  let (created, e) := fetch (deposit_post "0xdef456" "mainnet") makeEnv in
  let id := text_of (prop (body_of created) "id") in
  let (a, _) := fetch (get_req ["bridge"; "deposit"; id]) e in
  let j := body_of a in
  status_is a 200 && json_is (prop j "id") (FStr id)
  && json_is (prop j "snowside_address") (FStr "0xdef456")
  && json_is (prop j "network") (FStr "mainnet") && json_is (prop j "status") (FStr "pending").

Definition test_no_deposits : bool :=
  let a := call (get_req ["bridge"; "deposits"; "0xempty"]) in
  status_is a 200 && length_is (body_of a) 0.

Definition test_deposits_of_address : bool :=
  let (_, e) := fetch (deposit_post "0xaddr1" "signet") makeEnv in
  let (a, _) := fetch (get_req ["bridge"; "deposits"; "0xaddr1"]) e in
  let j := body_of a in
  status_is a 200 && length_is j 1 && json_is (first_prop j "snowside_address") (FStr "0xaddr1")
  && json_is (first_prop j "network") (FStr "signet").

Definition withdraw_post (snowsideAddress ecashAddress amountEcx network : string) : request :=
  post_req ["bridge"; "withdraw"]
    [("snowsideAddress", JStr snowsideAddress); ("ecashAddress", JStr ecashAddress);
     ("amountEcx", JStr amountEcx); ("network", JStr network)].

Definition test_create_withdrawal : bool :=
  let a := call (withdraw_post "0xabc" "ecash:qxyz" "1000" "testnet") in
  status_is a 200 && json_is (prop (body_of a) "status") (FStr "pending")
  && is_string (prop (body_of a) "id").

Definition test_withdrawal_missing_fields : bool :=
  status_is (call (post_req ["bridge"; "withdraw"] [("snowsideAddress", JStr "0xabc")])) 400.

Definition test_no_withdrawals : bool :=
  let a := call (get_req ["bridge"; "withdrawals"; "0xempty"]) in
  status_is a 200 && length_is (body_of a) 0.

Definition test_withdrawals_of_address : bool :=
  let (_, e) := fetch (withdraw_post "0xwaddr" "ecash:qabc" "500" "mainnet") makeEnv in
  let (a, _) := fetch (get_req ["bridge"; "withdrawals"; "0xwaddr"]) e in
  let j := body_of a in
  status_is a 200 && length_is j 1 && json_is (first_prop j "snowside_address") (FStr "0xwaddr")
  && json_is (first_prop j "amount_ecx") (FStr "500").

Definition test_no_token : bool :=
  let a := call (Request POST ["v1"; "fed"; "checkin"] None None) in
  status_is a 401 && json_is (prop (body_of a) "error") (FStr "Unauthorized").

Definition test_wrong_token : bool := status_is (call (fed "wrong-token" POST ["checkin"] None)) 401.

Definition test_right_token : bool :=
  let a := call (fed TEST_TOKEN POST ["checkin"] None) in
  status_is a 200 && json_is (prop (body_of a) "status") (FStr "ok").

Definition test_deposit_lifecycle : bool :=
  let (created, e) := fetch (deposit_post "0xlifecycle" "testnet") makeEnv in
  let id := text_of (prop (body_of created) "id") in
  let (pending, e) := fetch (fed TEST_TOKEN GET ["deposits"; "pending"] None) e in
  let (patched, e) := fetch (fed TEST_TOKEN PATCH ["deposit"; id]
    (Some (JObj [("ecash_address", JStr "ecash:qfunded"); ("derivation_index", JInt 5);
                 ("amount_sats", JInt 50000); ("amount_ecx", JInt 50000);
                 ("status", JStr "confirmed")]))) e in
  let (funded, _) := fetch (fed TEST_TOKEN GET ["deposits"; "funded"] None) e in
  let j := body_of funded in
  status_is pending 200 && length_is (body_of pending) 1
  && json_is (first_prop (body_of pending) "id") (FStr id)
  && status_is patched 200 && json_is (prop (body_of patched) "status") (FStr "ok")
  && status_is funded 200 && length_is j 1
  && json_is (first_prop j "ecash_address") (FStr "ecash:qfunded")
  && json_is (first_prop j "derivation_index") (FInt 5)
  && json_is (first_prop j "status") (FStr "confirmed")
  && json_truthy (first_prop j "confirmed_at").

Definition test_deposit_no_valid_fields : bool :=
  let a := call (fed TEST_TOKEN PATCH ["deposit"; "someid"] (Some (JObj [("invalid_field", JStr "x")]))) in
  status_is a 400 && json_is (prop (body_of a) "error") (FStr "No valid fields").

Definition test_withdrawal_lifecycle : bool :=
  let (created, e) := fetch (withdraw_post "0xwlife" "ecash:qlife" "250" "signet") makeEnv in
  let id := text_of (prop (body_of created) "id") in
  let (pending, e) := fetch (fed TEST_TOKEN GET ["withdrawals"; "pending"] None) e in
  let (patched, e) := fetch (fed TEST_TOKEN PATCH ["withdraw"; id]
    (Some (JObj [("amount_sats", JInt 250); ("ecash_tx_hash", JStr "deadbeef");
                 ("status", JStr "completed")]))) e in
  let (pending2, _) := fetch (fed TEST_TOKEN GET ["withdrawals"; "pending"] None) e in
  status_is pending 200 && length_is (body_of pending) 1
  && json_is (first_prop (body_of pending) "id") (FStr id)
  && status_is patched 200 && status_is pending2 200 && length_is (body_of pending2) 0.

Definition test_withdrawal_no_valid_fields : bool :=
  let a := call (fed TEST_TOKEN PATCH ["withdraw"; "someid"] (Some (JObj [("invalid_field", JStr "x")]))) in
  status_is a 400 && json_is (prop (body_of a) "error") (FStr "No valid fields").

Definition test_esplora_proxy : bool :=
  match call (get_req ["esplora"; "testnet"; "blocks"]) with EsploraProxy => true | _ => false end.

Definition suite : list (string * bool) :=
  [("returns ok status", test_status);
   ("returns ok with no federation when no check-in exists", test_offline);
   ("reports online after federation check-in", test_online);
   ("creates a deposit with valid fields", test_create_deposit);
   ("rejects missing fields with 400", test_deposit_missing_field);
   ("rejects invalid network enum", test_deposit_bad_network);
   ("returns 404 for non-existent deposit", test_deposit_not_found);
   ("returns a created deposit by id", test_deposit_by_id);
   ("returns empty array when no deposits exist", test_no_deposits);
   ("returns deposits for an address", test_deposits_of_address);
   ("creates a withdrawal with valid fields", test_create_withdrawal);
   ("rejects missing fields with 400", test_withdrawal_missing_fields);
   ("returns empty array when no withdrawals exist", test_no_withdrawals);
   ("returns withdrawals for an address", test_withdrawals_of_address);
   ("rejects requests without Bearer token with 401", test_no_token);
   ("rejects wrong token with 401", test_wrong_token);
   ("accepts correct Bearer token", test_right_token);
   ("lists pending deposits, updates status, lists funded", test_deposit_lifecycle);
   ("rejects PATCH with no valid fields", test_deposit_no_valid_fields);
   ("lists pending withdrawals, updates to completed", test_withdrawal_lifecycle);
   ("rejects withdrawal PATCH with no valid fields", test_withdrawal_no_valid_fields);
   ("executes the proxy path", test_esplora_proxy)].

(** Every test of the suite passes on the model. *)
Example suite_passes : List.filter (fun t => negb (snd t)) suite = [].
Proof. vm_compute. reflexivity. Qed.
