(* ===== verification/D1Mock.v ===== *)
(** * The database of the API's tests: packages/api/test/d1-mock.ts

    The in-memory D1 mock reads SQL with regular expressions. The ones it uses
    are values of [regex], matched as JavaScript matches them; [exec] and
    [query] are the mock's, and [prepared] statements put the bound values into
    the text first. Values are what the mock keeps in its rows, with JavaScript's
    [String] and [Number]. A number above 10^21 would print with an exponent,
    and a fraction keeps the text it was read from. *)

From Stdlib Require Import ZArith Lia Ascii String List Bool.
From stdpp Require Import base list strings numbers.
From S2P Require Import Prelude JsNumber Effects Json Database Api ApiProps.
Local Open Scope Z_scope.

(** ** Regular expressions

    Stars repeat a class of characters; [ci] is the flag i. A match yields the
    captures, by number, and the text after it; the choice is that of a
    backtracking search, the longer first for a greedy star. *)

Inductive regex :=
| RLit (ci : bool) (l : string)
| RClass (p : ascii -> bool)
| RStar (greedy : bool) (p : ascii -> bool)
| RSeq (a b : regex)
| ROpt (a : regex)
| RGroup (n : nat) (a : regex)
| REnd.

Definition captures := list (nat * string).

Definition same_char (ci : bool) (a b : ascii) : bool :=
  if ci then Ascii.eqb (lower_char a) (lower_char b) else Ascii.eqb a b.

Fixpoint lit_match (ci : bool) (l s : string) : option string :=
  match l, s with
  | EmptyString, _ => Some s
  | String a l', String b s' => if same_char ci a b then lit_match ci l' s' else None
  | String _ _, EmptyString => None
  end.

Fixpoint star_match {A} (greedy : bool) (p : ascii -> bool) (s : string) (k : string -> option A) : option A :=
  match s with
  | String x s' =>
      if p x then
        if greedy then match star_match greedy p s' k with Some a => Some a | None => k s end
        else match k s with Some a => Some a | None => star_match greedy p s' k end
      else k s
  | EmptyString => k s
  end.

(** The text before [s'], which is an end of [s]. *)
Definition before (s s' : string) : string := take_str (String.length s - String.length s') s.

Fixpoint rmatch {A} (r : regex) (s : string) (c : captures) (k : string -> captures -> option A) : option A :=
  match r with
  | RLit ci l => match lit_match ci l s with Some s' => k s' c | None => None end
  | RClass p => match s with String x s' => if p x then k s' c else None | EmptyString => None end
  | RStar greedy p => star_match greedy p s (fun s' => k s' c)
  | RSeq a b => rmatch a s c (fun s' c' => rmatch b s' c' k)
  | ROpt a => match rmatch a s c k with Some x => Some x | None => k s c end
  | RGroup n a => rmatch a s c (fun s' c' => k s' ((n, before s s') :: c'))
  | REnd => match s with EmptyString => k s c | _ => None end
  end.

(** [text.match(r)]: the leftmost match, as the text before it, its captures
    and the text after it. *)
Fixpoint rsearch (r : regex) (s : string) : option (string * captures * string) :=
  match rmatch r s [] (fun s' c => Some (c, s')) with
  | Some (c, s') => Some ("", c, s')
  | None =>
      match s with
      | EmptyString => None
      | String x s' =>
          match rsearch r s' with Some (pre, c, post) => Some (String x pre, c, post) | None => None end
      end
  end.

Definition js_match (r : regex) (s : string) : option captures := (fun m => snd (fst m)) <$> rsearch r s.

Fixpoint capture (n : nat) (c : captures) : option string :=
  match c with
  | [] => None
  | (m, s) :: c' => if Nat.eqb m n then Some s else capture n c'
  end.

(** The captures that take part in every match. *)
Definition group (n : nat) (c : captures) : string := default "" (capture n c).

(** [text.replace(r, '')] and [text.split(r)], for matches that are not empty. *)
Definition remove_match (r : regex) (s : string) : string :=
  match rsearch r s with Some (pre, _, post) => pre +:+ post | None => s end.

Fixpoint split_match (fuel : nat) (r : regex) (s : string) : list string :=
  match fuel, rsearch r s with
  | S fuel', Some (pre, _, post) => pre :: split_match fuel' r post
  | _, _ => [s]
  end.

(** *** The classes and the short forms *)

Definition is_word (c : ascii) : bool :=
  is_digit c || ascii_in "a" "z" c || ascii_in "A" "Z" c || Ascii.eqb c "_".
Definition any_char (c : ascii) : bool := true.
Definition not_newline (c : ascii) : bool := negb (Ascii.eqb c "010" || Ascii.eqb c "013").
Definition not_close (c : ascii) : bool := negb (Ascii.eqb c ")").

(** [p+], [p+?] and [p*] *)
Definition plus (p : ascii -> bool) : regex := RSeq (RClass p) (RStar true p).
Definition plus_lazy (p : ascii -> bool) : regex := RSeq (RClass p) (RStar false p).
Definition star (p : ascii -> bool) : regex := RStar true p.

Definition seqs (l : list regex) : regex := foldr RSeq (RLit false "") l.

(** ** The regular expressions of the mock *)

(** [/;+\s*$/] *)
Definition semicolons_re : regex := seqs [plus (Ascii.eqb ";"); star is_space; REnd].

(** [CREATE TABLE IF NOT EXISTS (\w+)\s*\((...)\)], the last group any text *)
Definition create_re : regex :=
  seqs [RLit true "CREATE TABLE IF NOT EXISTS "; RGroup 1 (plus is_word); star is_space; RLit true "(";
        RGroup 2 (star any_char); RLit true ")"].

(** [/INSERT OR REPLACE INTO meta\s*\(([^)]+)\)\s*VALUES\s*\(([^)]+)\)/i] *)
Definition insert_meta_re : regex :=
  seqs [RLit true "INSERT OR REPLACE INTO meta"; star is_space; RLit true "("; RGroup 1 (plus not_close);
        RLit true ")"; star is_space; RLit true "VALUES"; star is_space; RLit true "("; RGroup 2 (plus not_close);
        RLit true ")"].

(** [/INSERT INTO (\w+)\s*\(([^)]+)\)\s*VALUES\s*\(([^)]+)\)/i] *)
Definition insert_re : regex :=
  seqs [RLit true "INSERT INTO "; RGroup 1 (plus is_word); star is_space; RLit true "("; RGroup 2 (plus not_close);
        RLit true ")"; star is_space; RLit true "VALUES"; star is_space; RLit true "("; RGroup 3 (plus not_close);
        RLit true ")"].

(** [/UPDATE (\w+)\s+SET\s+(.+?)(?:\s+WHERE\s+(.+))?$/is] *)
Definition update_re : regex :=
  seqs [RLit true "UPDATE "; RGroup 1 (plus is_word); plus is_space; RLit true "SET"; plus is_space;
        RGroup 2 (plus_lazy any_char);
        ROpt (seqs [plus is_space; RLit true "WHERE"; plus is_space; RGroup 3 (plus any_char)]); REnd].

(** [/SELECT\s+(.+?)\s+FROM\s+(\w+)(?:\s+WHERE\s+(.+?))?(?:\s+ORDER BY\s+.+?)?$/is] *)
Definition select_re : regex :=
  seqs [RLit true "SELECT"; plus is_space; RGroup 1 (plus_lazy any_char); plus is_space; RLit true "FROM";
        plus is_space; RGroup 2 (plus is_word);
        ROpt (seqs [plus is_space; RLit true "WHERE"; plus is_space; RGroup 3 (plus_lazy any_char)]);
        ROpt (seqs [plus is_space; RLit true "ORDER BY"; plus is_space; plus_lazy any_char]); REnd].

(** [/(\w+)\s+IN\s*\(([^)]+)\)/i] *)
Definition in_re : regex :=
  seqs [RGroup 1 (plus is_word); plus is_space; RLit true "IN"; star is_space; RLit true "(";
        RGroup 2 (plus not_close); RLit true ")"].

(** [/(\w+)\s*=\s*(.+)$/], and without the anchor *)
Definition eq_re : regex :=
  seqs [RGroup 1 (plus is_word); star is_space; RLit false "="; star is_space; RGroup 2 (plus not_newline); REnd].
Definition eq_part_re : regex :=
  seqs [RGroup 1 (plus is_word); star is_space; RLit false "="; star is_space; RGroup 2 (plus not_newline)].

(** [/\s+AND\s+/i] *)
Definition and_re : regex := seqs [plus is_space; RLit true "AND"; plus is_space].

(** [/(\w+)\s+IS\s+NOT\s+NULL/i] *)
Definition not_null_re : regex :=
  seqs [RGroup 1 (plus is_word); plus is_space; RLit true "IS"; plus is_space; RLit true "NOT"; plus is_space;
        RLit true "NULL"].

(** ** Values *)

Inductive value := Undefined | Null | Num (n : jsnum) | Frac (repr : string) | Text (s : string).

#[export] Instance jsnum_eq_dec : EqDecision jsnum.
Proof. solve_decision. Defined.
#[export] Instance value_eq_dec : EqDecision value.
Proof. solve_decision. Defined.

(** [String(v)] *)
Definition String_of (v : value) : string :=
  match v with
  | Undefined => "undefined"
  | Null => "null"
  | Num (Fin z) => dec_str z
  | Num NaN => "NaN"
  | Num PosInf => "Infinity"
  | Num NegInf => "-Infinity"
  | Frac repr => repr
  | Text s => s
  end.

(** [Number(text)] *)
Definition Number_of (s : string) : value :=
  match Number_parse s with
  | None => Num NaN
  | Some (PInf neg) => Num (if neg then NegInf else PosInf)
  | Some (PFrac neg n d) =>
      if n mod d =? 0 then Num (Number_of_BigInt (if neg then - (n / d) else n / d)) else Frac (trim s)
  end.

Definition row := list (string * value).

Definition vget (r : row) (k : string) : value := default Undefined (rec_get r k).

(** [row[k] = v] *)
Fixpoint set_key {A} (k : string) (v : A) (r : list (string * A)) : list (string * A) :=
  match r with
  | [] => [(k, v)]
  | (k', v') :: r' => if String.eqb k' k then (k, v) :: r' else (k', v') :: set_key k v r'
  end.

(** ** Pieces of text *)

(** [s.split(c)] for a character [c] *)
Fixpoint split_char (c : ascii) (s : string) : list string :=
  match s with
  | EmptyString => [""]
  | String x s' =>
      if Ascii.eqb x c then "" :: split_char c s'
      else match split_char c s' with
           | [] => [String x ""]
           | y :: l => String x y :: l
           end
  end.

Fixpoint remove_chars (p : ascii -> bool) (s : string) : string :=
  match s with
  | EmptyString => ""
  | String x s' => if p x then remove_chars p s' else String x (remove_chars p s')
  end.

(** Each quote doubled, and pairs of quotes made one. *)
Fixpoint double_quotes (s : string) : string :=
  match s with
  | EmptyString => ""
  | String x s' => if Ascii.eqb x "'" then String "'" (String "'" (double_quotes s')) else String x (double_quotes s')
  end.

Fixpoint single_quotes (s : string) : string :=
  match s with
  | String "'" (String "'" s') => String "'" (single_quotes s')
  | String x s' => String x (single_quotes s')
  | EmptyString => ""
  end.

(** [s.slice(1, -1)] *)
Definition slice_ends (s : string) : string := take_str (String.length s - 2) (drop_str 1 s).

(** Without quotes of either kind. *)
Definition is_quote (c : ascii) : bool := Ascii.eqb c "'" || Ascii.eqb c "034".
Definition unquoted (s : string) : string := remove_chars is_quote s.

Definition all_digits (s : string) : bool := str_truthy s && all_str is_digit s.

(** The value of a literal: a quoted text, a number of digits, or the text as it is. *)
Definition literal (v : string) : value :=
  if starts_with "'" v then Text (single_quotes (slice_ends v))
  else if all_digits v then Number_of v
  else Text v.

(** ** The tables *)

Record mock := Mock { tables : list (string * list row); lastChanges : Z }.

Definition createInMemoryD1 : mock := Mock [] 0.

Definition table (name : string) (m : mock) : list row := default [] (rec_get (tables m) name).

Definition cleanSql (sql : string) : string := remove_match semicolons_re (trim sql).

(** [this.matchWhere(row, where)] *)
Definition matchWhere (r : row) (wh : string) : bool :=
  match js_match in_re wh with
  | Some c =>
      existsb (String.eqb (String_of (vget r (group 1 c))))
        (map (fun s => unquoted (trim s)) (split_char "," (group 2 c)))
  | None =>
      match js_match eq_re wh with
      | Some c =>
          match split_match (String.length wh) and_re wh with
          | [] | [_] => String.eqb (String_of (vget r (group 1 c))) (String_of (literal (trim (group 2 c))))
          | parts =>
              forallb (fun part =>
                match js_match eq_part_re part with
                | None => true
                | Some c => String.eqb (String_of (vget r (group 1 c))) (String_of (literal (trim (group 2 c))))
                end) parts
          end
      | None =>
          match js_match not_null_re wh with
          | Some c => match vget r (group 1 c) with Undefined | Null => false | _ => true end
          | None => true
          end
      end
  end.

(** *** exec *)

(** The row an INSERT makes of its keys and values, [undefined] where a value
    is missing. *)
Fixpoint zip_row (ks : list string) (vs : list value) (r : row) : row :=
  match ks with
  | [] => r
  | k :: ks' => zip_row ks' (List.tail vs) (set_key k (default Undefined (head vs)) r)
  end.

Definition exec_create (c : captures) (m : mock) : mock :=
  Mock (match rec_get (tables m) (group 1 c) with
        | Some _ => tables m
        | None => set_key (group 1 c) [] (tables m)
        end) 0.

Definition exec_insert_meta (c : captures) (m : mock) : mock :=
  let ks := map (fun s => unquoted (trim s)) (split_char "," (group 1 c)) in
  let vs := map (fun s => Text (unquoted (trim s))) (split_char "," (group 2 c)) in
  Mock (set_key "meta" [zip_row ks vs []] (tables m)) 1.

Definition insert_value (s : string) : value :=
  let v := trim s in
  if starts_with "'" v then Text (single_quotes (slice_ends v)) else Number_of v.

Definition exec_insert (c : captures) (m : mock) : mock :=
  let ks := map trim (split_char "," (group 2 c)) in
  let vs := map insert_value (split_char "," (group 3 c)) in
  Mock (set_key (group 1 c) (table (group 1 c) m ++ [zip_row ks vs []]) (tables m)) 1.

(** The right side of an assignment. *)
Definition update_value (v : string) : value :=
  if starts_with "'" v then Text (single_quotes (slice_ends v))
  else if all_digits v then Number_of v
  else if String.eqb v "NULL" then Null
  else Text v.

(** One assignment; without an equals sign [v.trim()] throws. *)
Definition assign_part (part : string) (r : row) : outcome row :=
  match map trim (split_char "=" part) with
  | k :: v :: _ => Ok (set_key (trim k) (update_value (trim v)) r)
  | _ => Throw "TypeError"
  end.

(** The assignments of a row in order; what was assigned before a throw stays. *)
Fixpoint assign_parts (parts : list string) (r : row) : outcome unit * row :=
  match parts with
  | [] => (Ok tt, r)
  | p :: parts' =>
      match assign_part p r with
      | Ok r' => assign_parts parts' r'
      | Throw e => (Throw e, r)
      end
  end.

Fixpoint update_rows (setClause : string) (wh : option string) (rows : list row) : outcome Z * list row :=
  match rows with
  | [] => (Ok 0, [])
  | r :: rows' =>
      let skip := match wh with Some w => str_truthy w && negb (matchWhere r w) | None => false end in
      if skip then let (o, rows'') := update_rows setClause wh rows' in (o, r :: rows'')
      else
        match assign_parts (map trim (split_char "," setClause)) r with
        | (Ok _, r') =>
            let (o, rows'') := update_rows setClause wh rows' in
            (match o with Ok n => Ok (n + 1) | Throw e => Throw e end, r' :: rows'')
        | (Throw e, r') => (Throw e, r' :: rows')
        end
  end.

Definition exec_update (c : captures) (m : mock) : outcome unit * mock :=
  match rec_get (tables m) (group 1 c) with
  | None => (Ok tt, Mock (tables m) 0)
  | Some rows =>
      match update_rows (group 2 c) (capture 3 c) rows with
      | (Ok changed, rows') => (Ok tt, Mock (set_key (group 1 c) rows' (tables m)) changed)
      | (Throw e, rows') => (Throw e, Mock (set_key (group 1 c) rows' (tables m)) (lastChanges m))
      end
  end.

(** The branches after the first four leave the tables alone. *)
Definition exec (sql : string) (m : mock) : outcome unit * mock :=
  let clean := cleanSql sql in
  match js_match create_re clean with
  | Some c => (Ok tt, exec_create c m)
  | None =>
      match js_match insert_meta_re clean with
      | Some c => (Ok tt, exec_insert_meta c m)
      | None =>
          match js_match insert_re clean with
          | Some c => (Ok tt, exec_insert c m)
          | None =>
              match js_match update_re clean with
              | Some c => exec_update c m
              | None => (Ok tt, Mock (tables m) 0)
              end
          end
      end
  end.

(** *** query *)

Definition query (sql : string) (m : mock) : list row :=
  match js_match select_re (cleanSql sql) with
  | None => []
  | Some c =>
      let rows := table (group 2 c) m in
      let filtered := match capture 3 c with
                      | Some wh => if str_truthy wh then List.filter (fun r => matchWhere r wh) rows else rows
                      | None => rows
                      end in
      if String.eqb (trim (group 1 c)) "*" then filtered
      else map (fun r => fold_left (fun out k => set_key k (vget r k) out) (map trim (split_char "," (group 1 c))) [])
             filtered
  end.

(** ** Prepared statements *)

(** A bound value in the text. *)
Definition param_text (v : field) : string :=
  match v with
  | FStr s => "'" +:+ double_quotes s +:+ "'"
  | FInt z => dec_str z
  | FFrac repr => repr
  | FNull => "NULL"
  end.

Fixpoint substitute (sql : string) (params : list field) : string :=
  match sql with
  | EmptyString => ""
  | String x sql' =>
      if Ascii.eqb x "?" then param_text (default FNull (head params)) +:+ substitute sql' (List.tail params)
      else String x (substitute sql' params)
  end.

Record prepared := Prepared { statement : string; bound : list field }.

Definition prepare (sql : string) : prepared := Prepared sql [].
Definition bind (params : list field) (p : prepared) : prepared := Prepared (statement p) params.
Definition full_text (p : prepared) : string := substitute (cleanSql (statement p)) (bound p).

Definition run (p : prepared) (m : mock) : outcome Z * mock :=
  match exec (full_text p) m with
  | (Ok _, m') => (Ok (lastChanges m'), m')
  | (Throw e, m') => (Throw e, m')
  end.

Definition first (p : prepared) (m : mock) : option row := head (query (full_text p) m).
Definition all (p : prepared) (m : mock) : list row := query (full_text p) m.

(** ** Running a match *)

Definition is_end (s' s : string) : Prop := exists p, s = p +:+ s'.

Lemma is_end_refl s : is_end s s.
Proof. by exists "". Qed.

Lemma is_end_cons x s' s : is_end s' s -> is_end s' (String x s).
Proof. intros [p ->]. by exists (String x p). Qed.

Lemma is_end_trans a b c : is_end a b -> is_end b c -> is_end a c.
Proof. intros [p ->] [q ->]. exists (q +:+ p). by rewrite app_assoc_str. Qed.

Lemma lit_match_end ci l s s' : lit_match ci l s = Some s' -> is_end s' s.
Proof.
  revert s. induction l as [|a l IH]; intros [|b s]; cbn [lit_match]; try done.
  - intros [= <-]. apply is_end_refl.
  - intros [= <-]. apply is_end_refl.
  - destruct (same_char ci a b); [|done]. intros H. by apply is_end_cons, IH.
Qed.

(** A match fails when the rest fails at every end of the text. *)
Lemma star_none {A} greedy p s (k : string -> option A) :
  (forall s', is_end s' s -> k s' = None) -> star_match greedy p s k = None.
Proof.
  induction s as [|x s IH]; intros Hk; cbn [star_match]; [by apply Hk, is_end_refl|].
  pose proof (Hk _ (is_end_refl _)) as H0.
  rewrite IH by (intros s' Hs; by apply Hk, is_end_cons). rewrite H0. by destruct (p x), greedy.
Qed.

Lemma rmatch_none {A} r s c (k : string -> captures -> option A) :
  (forall s' c', is_end s' s -> k s' c' = None) -> rmatch r s c k = None.
Proof.
  revert s c k. induction r as [ci l|p|greedy p|a IHa b IHb|a IHa|n a IHa|]; intros s c k Hk; cbn [rmatch].
  - destruct (lit_match ci l s) as [s'|] eqn:E; [|done]. by eapply Hk, lit_match_end.
  - destruct s as [|x s]; [done|]. destruct (p x); [|done]. apply Hk, is_end_cons, is_end_refl.
  - apply star_none. intros s' Hs. by apply Hk.
  - apply IHa. intros s' c' Hs. apply IHb. intros s2 c2 Hs2. eapply Hk, is_end_trans; done.
  - rewrite IHa by done. apply Hk, is_end_refl.
  - apply IHa. intros s' c' Hs. by apply Hk.
  - destruct s; [|done]. apply Hk, is_end_refl.
Qed.

Lemma seq_none {A} a b s c (k : string -> captures -> option A) :
  (forall s' c', is_end s' s -> rmatch b s' c' k = None) -> rmatch (RSeq a b) s c k = None.
Proof. intros H. cbn [rmatch]. by apply rmatch_none. Qed.

(** *** Literals that do not occur *)

Fixpoint lit_in (ci : bool) (l s : string) : bool :=
  match lit_match ci l s with
  | Some _ => true
  | None => match s with EmptyString => false | String _ s' => lit_in ci l s' end
  end.

Lemma lit_in_end ci l s s' : lit_in ci l s = false -> is_end s' s -> lit_in ci l s' = false.
Proof.
  intros H [p ->]. revert H. induction p as [|x p IH]; cbn [String.append lit_in]; [done|].
  destruct (lit_match _ _ _); [done|]. done.
Qed.

Lemma lit_absent {A} ci l b s c (k : string -> captures -> option A) :
  lit_in ci l s = false -> rmatch (RSeq (RLit ci l) b) s c k = None.
Proof. intros H. cbn [rmatch]. destruct s; cbn [lit_in] in H; by destruct (lit_match ci l _). Qed.

Lemma rsearch_none r s :
  (forall s', is_end s' s -> rmatch r s' [] (fun s' c => Some (c, s')) = None) -> rsearch r s = None.
Proof.
  induction s as [|x s IH]; intros H; cbn [rsearch]; rewrite (H _ (is_end_refl _)); [done|].
  by rewrite IH by (intros s' Hs; by apply H, is_end_cons).
Qed.

(** A match that starts with a literal. *)
Lemma rsearch_lit_none ci l b s : lit_in ci l s = false -> rsearch (RSeq (RLit ci l) b) s = None.
Proof. intros H. apply rsearch_none. intros s' Hs. by apply lit_absent, (lit_in_end ci l s). Qed.

(** A match that starts with a character of a class. *)
Lemma rsearch_class_none p b s : all_str (fun x => negb (p x)) s = true -> rsearch (RSeq (plus p) b) s = None.
Proof.
  unfold plus. induction s as [|x s IH]; [done|]. cbn [all_str rsearch rmatch]. intros [->%negb_true_iff Hs]%andb_true_iff.
  by rewrite IH.
Qed.

(** *** Matches that succeed *)

Lemma before_app w t : before (w +:+ t) t = w.
Proof.
  unfold before. assert (String.length (w +:+ t) - String.length t = String.length w)%nat as ->.
  { rewrite app_length_str. lia. }
  apply take_str_app.
Qed.

Lemma lit_match_app ci l t : lit_match ci l (l +:+ t) = Some t.
Proof.
  induction l as [|a l IH]; [by destruct t|]. cbn [String.append lit_match].
  assert (same_char ci a a = true) as -> by (unfold same_char; destruct ci; apply Ascii.eqb_refl). done.
Qed.

Lemma step_lit {A} ci l b t c (k : string -> captures -> option A) :
  rmatch (RSeq (RLit ci l) b) (l +:+ t) c k = rmatch b t c k.
Proof. cbn [rmatch]. by rewrite lit_match_app. Qed.

(** The next character is not of the class. *)
Definition stops (p : ascii -> bool) (t : string) : bool :=
  match t with String x _ => negb (p x) | EmptyString => true end.

Lemma star_greedy_run {A} p w t (k : string -> option A) o :
  all_str p w = true -> stops p t = true -> k t = Some o -> star_match true p (w +:+ t) k = Some o.
Proof.
  intros Hw Ht Hk. induction w as [|x w IH]; cbn [String.append].
  - destruct t as [|x t]; cbn [star_match stops] in *; [done|]. apply negb_true_iff in Ht as ->. done.
  - cbn [all_str] in Hw. apply andb_true_iff in Hw as [Hx Hw]. cbn [star_match]. by rewrite Hx, IH.
Qed.

Lemma step_star {A} p w b t c (k : string -> captures -> option A) o :
  all_str p w = true -> stops p t = true -> rmatch b t c k = Some o ->
  rmatch (RSeq (star p) b) (w +:+ t) c k = Some o.
Proof. intros. cbn [rmatch star]. by apply star_greedy_run. Qed.

Lemma step_plus {A} p x w b t c (k : string -> captures -> option A) o :
  all_str p (String x w) = true -> stops p t = true -> rmatch b t c k = Some o ->
  rmatch (RSeq (plus p) b) (String x w +:+ t) c k = Some o.
Proof.
  cbn [all_str]. intros [Hx Hw]%andb_true_iff Ht Hk. cbn [rmatch plus String.append]. rewrite Hx.
  by apply star_greedy_run.
Qed.

Lemma step_group {A} n p x w b t c (k : string -> captures -> option A) o :
  all_str p (String x w) = true -> stops p t = true -> rmatch b t ((n, String x w) :: c) k = Some o ->
  rmatch (RSeq (RGroup n (plus p)) b) (String x w +:+ t) c k = Some o.
Proof.
  cbn [all_str]. intros [Hx Hw]%andb_true_iff Ht Hk. cbn [rmatch plus String.append]. rewrite Hx.
  apply star_greedy_run; [done..|]. change (String x (w +:+ t)) with (String x w +:+ t). by rewrite before_app.
Qed.

(** A lazy star takes nothing when the rest matches here, and all of the text
    when the rest matches only at its end. *)
Lemma star_lazy_here {A} p s (k : string -> option A) o : k s = Some o -> star_match false p s k = Some o.
Proof. intros Hk. destruct s as [|x s]; cbn [star_match]; [done|]. rewrite Hk. by destruct (p x). Qed.

Lemma star_lazy_end {A} p s (k : string -> option A) :
  all_str p s = true -> (forall s', is_end s' s -> s' <> "" -> k s' = None) -> star_match false p s k = k "".
Proof.
  induction s as [|x s IH]; intros Hp Hk; cbn [star_match]; [done|]. cbn [all_str] in Hp.
  apply andb_true_iff in Hp as [-> Hp]. rewrite (Hk _ (is_end_refl _)) by done.
  apply IH; [done|]. intros s' Hs. by apply Hk, is_end_cons.
Qed.

(** A match at the start of the text. *)
Lemma js_match_start r s c s' :
  rmatch r s [] (fun s' c => Some (c, s')) = Some (c, s') -> js_match r s = Some c.
Proof. unfold js_match. intros H. destruct s; cbn [rsearch]; by rewrite H. Qed.

Lemma step_lazy_group {A} n p x s b c (k : string -> captures -> option A) o :
  p x = true -> star_match false p s (fun s' => rmatch b s' ((n, before (String x s) s') :: c) k) = Some o ->
  rmatch (RSeq (RGroup n (plus_lazy p)) b) (String x s) c k = Some o.
Proof. intros Hx H. cbn [rmatch plus_lazy]. by rewrite Hx. Qed.

Lemma step_lazy_char {A} n p x t b c (k : string -> captures -> option A) o :
  p x = true -> rmatch b t ((n, String x "") :: c) k = Some o ->
  rmatch (RSeq (RGroup n (plus_lazy p)) b) (String x t) c k = Some o.
Proof.
  intros Hx H. apply step_lazy_group; [done|]. apply star_lazy_here.
  change (String x t) with (String x "" +:+ t). by rewrite before_app.
Qed.

Lemma step_opt {A} a b s c (k : string -> captures -> option A) o :
  rmatch a s c (fun s' c' => rmatch b s' c' k) = Some o -> rmatch (RSeq (ROpt a) b) s c k = Some o.
Proof. intros H. cbn [rmatch]. by rewrite H. Qed.
