(* ===== verification/D1MockProps.v ===== *)
(** * The test database beside the reference store

    What the in-memory D1 answers to the statements of the API, compared with
    the reference store of [Database]: where the two agree, and where a test
    that passes with one says nothing of the other. *)

From Stdlib Require Import ZArith Lia Ascii String List Bool.
From stdpp Require Import base list strings numbers.
From S2P Require Import Prelude JsNumber Effects Json Database Api ApiSpec ApiProps D1Mock.
Local Open Scope Z_scope.

(** ** The statements of the API: packages/api/src/index.ts *)

Definition checkin_sql : string := "INSERT OR REPLACE INTO meta (key, value) VALUES (?, ?)".
Definition last_checkin_sql : string := "SELECT value FROM meta WHERE key = ?".
Definition insert_deposit_sql : string :=
  "INSERT INTO deposits (id, network, snowside_address, status, created_at) VALUES (?, ?, ?, ?, ?)".
Definition insert_withdrawal_sql : string :=
  "INSERT INTO withdrawals (id, network, snowside_address, ecash_address, amount_ecx, burn_tx_hash, status, created_at) VALUES (?, ?, ?, ?, ?, ?, ?, ?)".
Definition deposit_sql : string := "SELECT * FROM deposits WHERE id = ?".
Definition deposits_sql : string := "SELECT * FROM deposits WHERE snowside_address = ? ORDER BY created_at DESC".
Definition withdrawals_sql : string := "SELECT * FROM withdrawals WHERE snowside_address = ? ORDER BY created_at DESC".
Definition pending_deposits_sql : string :=
  "SELECT * FROM deposits WHERE status IN ('pending', 'confirmed') ORDER BY created_at ASC".
Definition funded_deposits_sql : string :=
  "SELECT * FROM deposits WHERE amount_sats IS NOT NULL AND ecash_address IS NOT NULL AND derivation_index IS NOT NULL ORDER BY created_at ASC".
Definition pending_withdrawals_sql : string :=
  "SELECT * FROM withdrawals WHERE status = 'pending' ORDER BY created_at ASC".

Definition table_text (t : table_name) : string := match t with Deposits => "deposits" | Withdrawals => "withdrawals" end.

(** [`UPDATE deposits SET ${updates.join(', ')} WHERE id = ?`] *)
Definition update_sql (t : table_name) (columns : list string) : string :=
  "UPDATE " +:+ table_text t +:+ " SET " +:+ join_with ", " (map (fun k => k +:+ " = ?") columns) +:+ " WHERE id = ?".

(** setup.ts: [applySchema] runs the statements between semicolons. *)
Definition schema_sql : string := "
CREATE TABLE IF NOT EXISTS deposits (
  id TEXT PRIMARY KEY, network TEXT NOT NULL, snowside_address TEXT NOT NULL,
  ecash_address TEXT, amount_sats INTEGER, amount_ecx INTEGER,
  status TEXT NOT NULL DEFAULT 'pending', ecash_tx_hash TEXT, mint_tx_hash TEXT,
  created_at INTEGER NOT NULL, confirmed_at INTEGER, minted_at INTEGER,
  derivation_index INTEGER
);
CREATE TABLE IF NOT EXISTS withdrawals (
  id TEXT PRIMARY KEY, network TEXT NOT NULL, snowside_address TEXT NOT NULL,
  ecash_address TEXT NOT NULL, amount_ecx INTEGER, amount_sats INTEGER,
  burn_tx_hash TEXT, ecash_tx_hash TEXT, status TEXT NOT NULL DEFAULT 'pending',
  created_at INTEGER NOT NULL, completed_at INTEGER
);
CREATE TABLE IF NOT EXISTS meta ( key TEXT PRIMARY KEY, value TEXT NOT NULL );
".

Definition applySchema (m : mock) : mock :=
  fold_left (fun m stmt => snd (run (prepare stmt) m)) (List.filter str_truthy (map trim (split_char ";" schema_sql))) m.

Example schema_makes_tables :
  tables (applySchema createInMemoryD1) = [("deposits", []); ("withdrawals", []); ("meta", [])].
Proof. vm_compute. reflexivity. Qed.

(** ** Plain texts

    Words with the other characters of addresses, hashes, ids and statuses: no
    space, quote, comma, semicolon, parenthesis or equals sign. *)

Definition plain_char (c : ascii) : bool := is_word c || existsb (Ascii.eqb c) [":"; "-"; "."]%char.
Definition plain (s : string) : bool := all_str plain_char s.

Definition quoted (s : string) : string := "'" +:+ s +:+ "'".

Lemma plain_char_not c d : plain_char c = true -> plain_char d = false -> Ascii.eqb c d = false.
Proof. intros Hc Hd. apply not_true_iff_false. intros ->%Ascii.eqb_eq. congruence. Qed.

Lemma plain_char_lower c d : plain_char c = true -> plain_char (lower_char d) = false -> lower_char d = d ->
  Ascii.eqb (lower_char d) (lower_char c) = false.
Proof.
  intros Hc Hd E. apply not_true_iff_false. intros H%Ascii.eqb_eq.
  assert (Hl : plain_char (lower_char c) = true); [|congruence].
  revert Hc. clear. destruct c as [[] [] [] [] [] [] [] []]; vm_compute; done.
Qed.

Lemma all_str_impl (p q : ascii -> bool) s :
  (forall c, p c = true -> q c = true) -> all_str p s = true -> all_str q s = true.
Proof.
  intros H. induction s as [|c s IH]; [done|]. cbn [all_str]. intros [Hc Hs]%andb_true_iff.
  by rewrite (H c Hc), (IH Hs).
Qed.

(** What no plain character is. *)
Lemma plain_other (q : ascii -> bool) s :
  (forall c, q c = true -> plain_char c = false) -> plain s = true -> all_str (fun c => negb (q c)) s = true.
Proof.
  intros Hq. apply all_str_impl. intros c Hc. apply negb_true_iff, not_true_iff_false. intros H%Hq. congruence.
Qed.

Lemma space_not_plain c : is_space c = true -> plain_char c = false.
Proof. destruct c as [[] [] [] [] [] [] [] []]; vm_compute; done. Qed.

Lemma char_not_plain d c : plain_char d = false -> Ascii.eqb d c = true -> plain_char c = false.
Proof. intros Hd ->%Ascii.eqb_eq. done. Qed.

Lemma double_quotes_plain s : plain s = true -> double_quotes s = s.
Proof.
  unfold plain. induction s as [|c s IH]; [done|]. cbn [all_str double_quotes]. intros [Hc Hs]%andb_true_iff.
  by rewrite (plain_char_not c "'") , IH.
Qed.

Lemma single_quotes_plain s : plain s = true -> single_quotes s = s.
Proof.
  unfold plain. induction s as [|c s IH]; [done|]. cbn [all_str]. intros [Hc Hs]%andb_true_iff.
  assert (c <> "'"%char) by (intros ->; done).
  assert (single_quotes (String c s) = String c (single_quotes s)) as ->; [|by rewrite IH].
  destruct c as [[] [] [] [] [] [] [] []]; done.
Qed.

Lemma param_plain s : plain s = true -> param_text (FStr s) = quoted s.
Proof. intros Hs. unfold param_text. by rewrite double_quotes_plain. Qed.

(** *** Their place in a statement *)

Lemma slice_quoted s : slice_ends (quoted s) = s.
Proof.
  unfold slice_ends, quoted. cbn [String.append drop_str String.length].
  rewrite app_length_str. cbn [String.length]. rewrite Nat.add_comm. cbn [Nat.add Nat.sub].
  rewrite Nat.sub_0_r. apply take_str_app.
Qed.

Lemma trim_ends a v b : is_space a = false -> is_space b = false ->
  trim (String a (v +:+ String b "")) = String a (v +:+ String b "").
Proof.
  intros Ha Hb. unfold trim. cbn [trim_start]. rewrite Ha.
  change (String a (v +:+ String b "")) with (String a v +:+ String b "").
  rewrite reverse_str_app. change (reverse_str (String b "")) with (String b ""). cbn [String.append trim_start].
  rewrite Hb. change (String b (reverse_str (String a v))) with (reverse_str (String b "") +:+ reverse_str (String a v)).
  by rewrite <-reverse_str_app, reverse_str_involutive.
Qed.

Lemma trim_quoted s : trim (quoted s) = quoted s.
Proof. by apply trim_ends. Qed.

Lemma literal_quoted s : plain s = true -> literal (quoted s) = Text s.
Proof. intros Hs. unfold literal. change (starts_with "'" (quoted s)) with true. by rewrite slice_quoted, single_quotes_plain. Qed.

(** A statement without a semicolon. *)
Lemma cleanSql_plain a v b :
  is_space a = false -> is_space b = false ->
  all_str (fun c => negb (Ascii.eqb ";" c)) (String a (v +:+ String b "")) = true ->
  cleanSql (String a (v +:+ String b "")) = String a (v +:+ String b "").
Proof. intros Ha Hb Hs. unfold cleanSql. rewrite trim_ends by done. unfold remove_match, semicolons_re. cbn [seqs foldr]. by rewrite rsearch_class_none. Qed.

(** A literal with a space after letters does not start in a plain text that
    ends in a character it does not have before the space. *)
Lemma lit_not_plain ci l1 l2 v d t :
  all_str (fun c => negb (same_char ci c d)) l1 = true -> same_char ci " " d = false -> plain v = true ->
  lit_match ci (l1 +:+ String " " l2) (v +:+ String d t) = None.
Proof.
  intros Hl Hd. revert v Hl. induction l1 as [|a l1 IH]; intros v Hl Hv; cbn [String.append].
  - destruct v as [|x v]; cbn [String.append lit_match]; [by rewrite Hd|].
    unfold plain in Hv. cbn [all_str] in Hv. apply andb_true_iff in Hv as [Hx _].
    assert (same_char ci " " x = false) as ->; [|done]. unfold same_char. destruct ci.
    + by apply plain_char_lower.
    + rewrite Ascii.eqb_sym. by apply plain_char_not.
  - cbn [all_str] in Hl. apply andb_true_iff in Hl as [Ha%negb_true_iff Hl].
    destruct v as [|x v]; cbn [String.append lit_match]; [by rewrite Ha|].
    destruct (same_char ci a x); [|done]. apply IH; [done|]. unfold plain in Hv. cbn [all_str] in Hv.
    by apply andb_true_iff in Hv as [_ Hv].
Qed.

Lemma lit_in_plain ci l1 l2 v d t :
  all_str (fun c => negb (same_char ci c d)) l1 = true -> same_char ci " " d = false -> plain v = true ->
  lit_in ci (l1 +:+ String " " l2) (v +:+ String d t) = lit_in ci (l1 +:+ String " " l2) t.
Proof.
  intros Hl Hd. induction v as [|x v IH]; intros Hv.
  - pose proof (lit_not_plain ci l1 l2 "" d t Hl Hd eq_refl) as E. cbn [String.append lit_in] in *. by rewrite E.
  - pose proof (lit_not_plain ci l1 l2 (String x v) d t Hl Hd Hv) as E. cbn [String.append lit_in] in *. rewrite E.
    apply IH. unfold plain in *. cbn [all_str] in Hv. by apply andb_true_iff in Hv as [_ Hv].
Qed.

(** A literal of the expression that is next in the text. *)
Ltac lit l := refine (eq_trans (step_lit _ l _ _ _ _) _).

(** *** WHERE column = 'text' *)

Lemma all_str_join f a b : all_str f a = true -> all_str f b = true -> all_str f (a +:+ b) = true.
Proof. intros Ha Hb. by rewrite all_str_app, Ha, Hb. Qed.

Lemma word_plain c : is_word c = true -> plain_char c = true.
Proof. unfold plain_char. by intros ->. Qed.

(** A class that holds of plain characters and of those around them. *)
Lemma clause_all f col x :
  (forall c, plain_char c = true -> f c = true) -> all_str f " ='" = true ->
  all_str is_word col = true -> plain x = true -> all_str f (col +:+ " = " +:+ quoted x) = true.
Proof.
  intros Hf Hs Hcol Hx. cbn [all_str] in Hs. apply andb_true_iff in Hs as [Hsp [He [Hq _]%andb_true_iff]%andb_true_iff].
  apply all_str_join; [eapply all_str_impl, Hcol; intros c Hc; by apply Hf, word_plain|].
  cbn [String.append all_str]. rewrite Hsp, He. cbn [andb]. unfold quoted. cbn [String.append all_str]. rewrite Hq.
  apply all_str_join; [by eapply all_str_impl, Hx|]. cbn [all_str]. by rewrite Hq.
Qed.

Lemma absent_char ci d s :
  all_str (fun c => negb (same_char ci d c)) s = true -> lit_in ci (String d "") s = false.
Proof.
  induction s as [|c s IH]; [done|]. cbn [all_str lit_in lit_match]. intros [->%negb_true_iff Hs]%andb_true_iff.
  by apply IH.
Qed.

Lemma no_paren_not_in s : lit_in true "(" s = false -> rsearch in_re s = None.
Proof.
  intros H. apply rsearch_none. intros s1 H1. unfold in_re. cbn [seqs foldr].
  do 4 (apply seq_none; intros ? ? ?). apply lit_absent. eapply lit_in_end; [exact H|].
  repeat (eapply is_end_trans; [eassumption|]). apply is_end_refl.
Qed.

Section clause.
Context (a : ascii) (w x : string).
Hypothesis Hcol : all_str is_word (String a w) = true.
Hypothesis Hx : plain x = true.
Local Abbreviation col := (String a w).
Local Abbreviation clause := (col +:+ " = " +:+ quoted x).

Lemma clause_eq_re : js_match eq_re clause = Some [(2%nat, quoted x); (1%nat, col)].
Proof using Hcol Hx.
  assert (Hnl : all_str not_newline (quoted x) = true).
  { unfold quoted. apply all_str_join; [done|]. apply all_str_join; [|done]. eapply all_str_impl, Hx.
    intros c. destruct c as [[] [] [] [] [] [] [] []]; vm_compute; done. }
  apply js_match_start with (s' := ""). unfold eq_re. cbn [seqs foldr].
  apply step_group; [done|done|].
  apply (step_star is_space " "); [done..|]. lit "=".
  apply (step_star is_space " "); [done..|]. unfold quoted in *.
  change ("'" +:+ x +:+ "'") with (String "'" (x +:+ "'")) in *.
  pose proof (step_group (A := captures * string) 2 not_newline "'" (x +:+ "'") (RSeq REnd (RLit false ""))
    "" [(1%nat, col)] (fun s' c => Some (c, s')) ([(2%nat, String "'" (x +:+ "'")); (1%nat, col)], "") Hnl eq_refl eq_refl) as E.
  by rewrite app_nil_r_str in E.
Qed.

Lemma clause_no_and n : split_match n and_re clause = [clause].
Proof using Hcol Hx.
  destruct n as [|n]; [done|]. cbn [split_match].
  assert (rsearch and_re clause = None) as ->; [|done].
  assert (Hq : forall s, plain s = true -> rsearch and_re (s +:+ "'") = None).
  { intros s Hs. apply rsearch_class_none, all_str_join; [|done]. apply plain_other; [apply space_not_plain|done]. }
  assert (Ht : rsearch and_re (" = " +:+ quoted x) = None).
  { unfold quoted. cbn -[and_re]. cbn [and_re seqs foldr rmatch plus star_match is_space lit_match same_char].
    cbn. fold (plus is_space). change (rsearch _ (x +:+ "'")) with (rsearch and_re (x +:+ "'")). by rewrite Hq. }
  assert (Hw : forall s, all_str is_word s = true -> rsearch and_re (s +:+ " = " +:+ quoted x) = None).
  { induction s as [|c s IH]; [done|]. cbn [all_str String.append]. intros [Hc Hs]%andb_true_iff.
    cbn [rsearch]. unfold and_re at 1. cbn [seqs foldr rmatch plus].
    assert (is_space c = false) as ->; [|specialize (IH Hs); cbn [String.append] in IH; by rewrite IH].
    apply not_true_iff_false. intros E%space_not_plain. apply word_plain in Hc. congruence. }
  by apply Hw.
Qed.

(** The rows whose column prints as the text. *)
Lemma where_text r : matchWhere r clause = String.eqb (String_of (vget r col)) x.
Proof using Hcol Hx.
  unfold matchWhere, js_match at 1. rewrite no_paren_not_in.
  - cbn [fmap option_fmap option_map]. rewrite clause_eq_re, clause_no_and.
    change (group 1 _) with col. change (group 2 _) with (quoted x). by rewrite trim_quoted, literal_quoted.
  - apply absent_char, clause_all; try done. intros c Hc. apply negb_true_iff.
    assert (E : Ascii.eqb (lower_char "(") (lower_char c) = false) by by apply plain_char_lower. exact E.
Qed.
End clause.

(** ** SELECT *)

Lemma query_rows sql c wh m :
  js_match select_re (cleanSql sql) = Some c -> trim (group 1 c) = "*" -> capture 3 c = Some wh -> str_truthy wh = true ->
  query sql m = List.filter (fun r => matchWhere r wh) (table (group 2 c) m).
Proof. unfold query. intros -> -> -> ->. done. Qed.

Definition order_text : string := " ORDER BY created_at DESC".

(** A lazy group that has to reach past a clause. *)
Lemma lazy_past_clause {A} w x tail (k : string -> option A) o :
  all_str is_word w = true -> plain x = true ->
  (forall c s, is_space c = false -> k (String c s) = None) ->
  (forall c s, is_space c = false -> Ascii.eqb (lower_char c) "o" = false -> k (String " " (String c s)) = None) ->
  k tail = Some o ->
  star_match false any_char (w +:+ " = " +:+ quoted x +:+ tail) k = Some o.
Proof.
  intros Hw Hx H1 H2 Ht.
  assert (Hplain : forall s t, plain s = true -> star_match false any_char (s +:+ t) k = star_match false any_char t k).
  { intros s t. unfold plain. induction s as [|c s IH]; [done|]. cbn [all_str String.append star_match any_char].
    intros [Hc Hs]%andb_true_iff. rewrite H1, IH; [done|done|].
    apply not_true_iff_false. intros E%space_not_plain. congruence. }
  rewrite Hplain by (eapply all_str_impl, Hw; apply word_plain).
  unfold quoted. cbn [String.append star_match any_char]. rewrite H2, H1, H2, H1 by done.
  rewrite app_assoc_str, Hplain by done. cbn [String.append star_match any_char]. rewrite H1 by done.
  by apply star_lazy_here.
Qed.

Lemma stops_word c s t : all_str is_word (String c s) = true -> stops is_space (String c s +:+ t) = true.
Proof.
  cbn [all_str String.append stops]. intros [Hc _]%andb_true_iff. apply negb_true_iff, not_true_iff_false.
  intros E%space_not_plain. apply word_plain in Hc. congruence.
Qed.

Lemma select_clause n1 name a w x tail :
  all_str is_word (String n1 name) = true -> all_str is_word (String a w) = true -> plain x = true ->
  tail = "" \/ tail = order_text ->
  let clause := String a w +:+ " = " +:+ quoted x in
  js_match select_re ("SELECT * FROM " +:+ String n1 name +:+ " WHERE " +:+ clause +:+ tail) =
    Some [(3%nat, clause); (2%nat, String n1 name); (1%nat, "*")].
Proof.
  intros Hn Hcol Hx Htail clause. apply js_match_start with (s' := ""). unfold select_re. cbn [seqs foldr].
  lit "SELECT". apply (step_plus is_space " " ""); [done..|].
  apply step_lazy_char; [done|]. apply (step_plus is_space " " ""); [done..|].
  lit "FROM". apply (step_plus is_space " " ""); [done|by apply stops_word|].
  apply step_group; [done..|]. apply step_opt.
  assert (Heq : clause +:+ tail = String a w +:+ " = " +:+ quoted x +:+ tail) by (unfold clause; by rewrite app_assoc_str).
  apply (step_plus is_space " " ""); [done..|]. lit "WHERE". rewrite Heq.
  apply (step_plus is_space " " ""); [done|by apply (stops_word a w)|].
  apply step_lazy_group; [done|].
  refine (lazy_past_clause w x tail _ _ _ Hx _ _ _).
  - cbn [all_str] in Hcol. by apply andb_true_iff in Hcol as [_ Hcol].
  - intros c s Hc. cbn [rmatch plus lit_match]. by rewrite Hc.
  - intros c s Hc Ho. cbn [rmatch plus lit_match]. change (is_space " ") with true. cbn [star_match]. rewrite Hc.
    cbn [lit_match same_char]. change (lower_char "O") with "o"%char. by rewrite Ascii.eqb_sym, Ho.
  - assert (Hb : before (String a (w +:+ " = " +:+ quoted x +:+ tail)) tail = clause).
    { change (String a (w +:+ " = " +:+ quoted x +:+ tail)) with (String a w +:+ " = " +:+ quoted x +:+ tail).
      rewrite <-Heq. apply before_app. }
    cbv beta. assert (Hl : forall t, lit_match false "" t = Some t) by by intros [].
    unfold rmatch at 1. rewrite Hl.
    change (before (String a _) tail) with (before (String a (w +:+ " = " +:+ quoted x +:+ tail)) tail). rewrite Hb. by destruct Htail as [-> | ->].
Qed.

Lemma no_semicolon s : plain s = true -> all_str (fun c => negb (Ascii.eqb ";" c)) s = true.
Proof. apply plain_other. intros c. by apply char_not_plain. Qed.

(** A statement with one text in it. *)
Lemma cleanSql_around a pre x post b :
  is_space a = false -> is_space b = false -> plain x = true ->
  all_str (fun c => negb (Ascii.eqb ";" c)) (String a pre) = true ->
  all_str (fun c => negb (Ascii.eqb ";" c)) (post +:+ String b "") = true ->
  cleanSql (String a pre +:+ x +:+ post +:+ String b "") = String a pre +:+ x +:+ post +:+ String b "".
Proof.
  intros Ha Hb Hx H1 H2.
  assert (E : String a pre +:+ x +:+ post +:+ String b "" = String a ((pre +:+ x +:+ post) +:+ String b "")).
  { cbn [String.append]. by rewrite !app_assoc_str. }
  rewrite E. apply cleanSql_plain; [done|done|]. rewrite <-E.
  apply all_str_join; [done|]. apply all_str_join; [by apply no_semicolon|done].
Qed.

Definition prints_as (column x : string) (r : row) : bool := String.eqb (String_of (vget r column)) x.

(** The mock finds by a text what SQLite would, when the columns hold texts. *)
Lemma deposit_sql_finds x m :
  plain x = true ->
  all (bind [FStr x] (prepare deposit_sql)) m = List.filter (prints_as "id" x) (table "deposits" m).
Proof.
  intros Hx. unfold all.
  assert (full_text (bind [FStr x] (prepare deposit_sql)) = "SELECT * FROM deposits WHERE id = " +:+ param_text (FStr x) +:+ "")
    as -> by reflexivity.
  rewrite param_plain, app_nil_r_str by done.
  rewrite (query_rows _ [(3%nat, "id = " +:+ quoted x); (2%nat, "deposits"); (1%nat, "*")] ("id = " +:+ quoted x)); try done.
  - apply filter_ext. intros r. apply (where_text "i" "d"); [done|done].
  - change ("SELECT * FROM deposits WHERE id = " +:+ quoted x)
      with ("SELECT * FROM deposits WHERE id = '" +:+ x +:+ "" +:+ "'").
    rewrite cleanSql_around by done. pose proof (select_clause "d" "eposits" "i" "d" x "" eq_refl eq_refl Hx (or_introl eq_refl)) as E.
    cbv zeta in E. rewrite app_nil_r_str in E. exact E.
Qed.

Lemma listing_sql_finds t x m :
  plain x = true ->
  all (bind [FStr x] (prepare (match t with Deposits => deposits_sql | Withdrawals => withdrawals_sql end))) m =
    List.filter (prints_as "snowside_address" x) (table (table_text t) m).
Proof.
  intros Hx. unfold all.
  assert (full_text (bind [FStr x] (prepare (match t with Deposits => deposits_sql | Withdrawals => withdrawals_sql end)))
    = "SELECT * FROM " +:+ table_text t +:+ " WHERE snowside_address = " +:+ param_text (FStr x) +:+ order_text)
    as -> by by destruct t.
  rewrite param_plain by done.
  rewrite (query_rows _ [(3%nat, "snowside_address = " +:+ quoted x); (2%nat, table_text t); (1%nat, "*")]
    ("snowside_address = " +:+ quoted x)); try done.
  - apply filter_ext. intros r. apply (where_text "s" "nowside_address"); [done|done].
  - unfold quoted. rewrite !app_assoc_str.
    assert (E : "SELECT * FROM " +:+ table_text t +:+ " WHERE snowside_address = " +:+ "'" +:+ x +:+ "'" +:+ order_text =
      ("SELECT * FROM " +:+ table_text t +:+ " WHERE snowside_address = '") +:+ x +:+ "' ORDER BY created_at DES" +:+ "C")
      by by destruct t.
    rewrite E. assert (Hc : forall a, a = "SELECT * FROM " +:+ table_text t +:+ " WHERE snowside_address = '" ->
      cleanSql (a +:+ x +:+ "' ORDER BY created_at DES" +:+ "C") = a +:+ x +:+ "' ORDER BY created_at DES" +:+ "C").
    { intros a ->. destruct t; by apply cleanSql_around. }
    rewrite Hc by done. rewrite <-E.
    assert (Hsel : forall n1 name, all_str is_word (String n1 name) = true -> js_match select_re ("SELECT * FROM " +:+ String n1 name +:+ " WHERE snowside_address = " +:+ "'" +:+ x +:+ "'" +:+ order_text) =
      Some [(3%nat, "snowside_address = " +:+ quoted x); (2%nat, String n1 name); (1%nat, "*")]).
    { intros n1 name Hn.
      pose proof (select_clause n1 name "s" "nowside_address" x order_text Hn eq_refl Hx (or_intror eq_refl)) as Es.
      cbv zeta in Es. unfold quoted in *. rewrite !app_assoc_str in Es. exact Es. }
    destruct t; by apply Hsel.
Qed.

(** ** INSERT *)

(** What a bound value becomes in the mock's row: NULL is read as a number. *)
Definition stored (f : field) : value :=
  match f with
  | FNull => Num NaN
  | FInt z => Num (Fin z)
  | FFrac repr => Frac repr
  | FStr s => Text s
  end.

Definition plain_field (f : field) : Prop :=
  match f with
  | FNull => True
  | FInt z => 0 <= z < 2 ^ 53
  | FFrac _ => False
  | FStr s => plain s = true
  end.

Definition values_text (fs : list field) : string := join_with ", " (map param_text fs).

(** A value is a plain text, with or without quotes. *)
Lemma param_cases f :
  plain_field f ->
  (exists s, param_text f = quoted s /\ plain s = true /\ stored f = Text s) \/
  (exists c s, param_text f = String c s /\ plain (String c s) = true /\ stored f = Number_of (String c s)).
Proof.
  destruct f as [|z|repr|s]; cbn [plain_field stored]; [|intros [H0 H1]|done|intros Hs].
  - right. exists "N"%char, "ULL". done.
  - right. cbn [param_text]. destruct (dec_str_digits z H0) as (_ & _ & _ & Hd & _).
    destruct (dec_str_no_dot z H0) as [_ Ht]. pose proof (trim_digits (dec_str z) Hd) as Htr.
    pose proof (BigInt_of_dec_str z H0) as Hb.
    assert (Number_of (dec_str z) = Num (Fin z)) as En.
    { unfold Number_of, Number_parse. rewrite Htr.
      assert (String.eqb (dec_str z) "" = false) as -> by (unfold str_truthy in Ht; by apply negb_true_iff in Ht).
      rewrite Hb. destruct (Z.ltb_spec z 0); [lia|]. rewrite Z.mod_1_r, Z.div_1_r, Z.eqb_refl, Z.abs_eq by done.
      by rewrite Number_of_BigInt_exact by lia. }
    destruct (dec_str z) as [|c s]; [done|]. exists c, s. split_and!; [done| |done].
    eapply all_str_impl, Hd. intros x Hx. unfold plain_char, is_word. by rewrite Hx.
  - left. exists s. by rewrite param_plain.
Qed.

Lemma values_cons f g fs : values_text (f :: g :: fs) = param_text f +:+ ", " +:+ values_text (g :: fs).
Proof. done. Qed.

(** A literal of the other statements is not in the list of values. *)
Lemma values_lit_absent ci l0 l1 l2 fs :
  let l := String l0 l1 +:+ String " " l2 in
  Forall plain_field fs ->
  existsb (same_char ci l0) ["'"; ","; " "; ")"]%char = false ->
  forallb (fun d => all_str (fun c => negb (same_char ci c d)) (String l0 l1) && negb (same_char ci " " d)) ["'"; ","; ")"]%char = true ->
  lit_in ci l (values_text fs +:+ ")") = false.
Proof.
  intros l Hfs Hl0 Hstop.
  assert (Hd : forall d, In d ["'"; ","; ")"]%char ->
    all_str (fun c => negb (same_char ci c d)) (String l0 l1) = true /\ same_char ci " " d = false).
  { intros d Hd. rewrite forallb_forall in Hstop. apply Hstop in Hd. by apply andb_true_iff in Hd as [? ?%negb_true_iff]. }
  assert (Hskip : forall d t, In d ["'"; ","; " "; ")"]%char -> lit_in ci l (String d t) = lit_in ci l t).
  { intros d t Hin. unfold l. cbn [String.append lit_in lit_match].
    assert (same_char ci l0 d = false) as ->; [|done].
    apply not_true_iff_false. intros E. assert (existsb (same_char ci l0) ["'"; ","; " "; ")"]%char = true); [|congruence].
    apply existsb_exists. by exists d. }
  assert (Hone : forall f d t, plain_field f -> In d [","; ")"]%char -> lit_in ci l (param_text f +:+ String d t) = lit_in ci l t).
  { intros f d t [(s & -> & Hs & _)|(c & s & -> & Hs & _)]%param_cases Hin.
    - unfold quoted. rewrite !app_assoc_str. cbn [String.append].
      rewrite Hskip by in_list. unfold l. destruct (Hd "'"%char); [in_list|]. rewrite lit_in_plain by done.
      apply Hskip. right. cbn [In] in *. tauto.
    - destruct (Hd d); [right; cbn [In] in *; tauto|]. unfold l. by rewrite lit_in_plain. }
  induction Hfs as [|f fs Hf Hfs IH]; [by refine (eq_trans (Hskip ")"%char "" _) _); [in_list|]|].
  destruct fs as [|g fs].
  - unfold values_text. cbn [map join_with]. rewrite (Hone f) by (done || in_list). by destruct l0, l1.
  - rewrite values_cons, !app_assoc_str. cbn [String.append]. rewrite Hone by (done || in_list).
    rewrite (Hskip " "%char) by in_list. exact IH.
Qed.

(** A class that holds of plain characters and of those between values. *)
Lemma values_all p fs :
  (forall c, plain_char c = true -> p c = true) -> all_str p "', " = true -> Forall plain_field fs ->
  all_str p (values_text fs) = true.
Proof.
  intros Hp Hs Hfs. cbn [all_str] in Hs. apply andb_true_iff in Hs as [Hq [Hc [Hsp _]%andb_true_iff]%andb_true_iff].
  assert (Hone : forall f, plain_field f -> all_str p (param_text f) = true).
  { intros f [(s & -> & Hs & _)|(c & s & -> & Hs & _)]%param_cases; [|by eapply all_str_impl, Hs].
    unfold quoted. cbn [String.append all_str]. rewrite Hq. apply all_str_join; [by eapply all_str_impl, Hs|].
    cbn [all_str]. by rewrite Hq. }
  induction Hfs as [|f fs Hf Hfs IH]; [done|]. destruct fs as [|g fs]; [by apply Hone|].
  rewrite values_cons. apply all_str_join; [by apply Hone|]. cbn [String.append all_str]. by rewrite Hc, Hsp.
Qed.

Lemma split_comma_plain s : all_str (fun c => negb (Ascii.eqb c ",")) s = true -> split_char "," s = [s].
Proof.
  induction s as [|c s IH]; [done|]. cbn [all_str split_char]. intros [->%negb_true_iff Hs]%andb_true_iff. by rewrite IH.
Qed.

Lemma split_comma_cons s t : all_str (fun c => negb (Ascii.eqb c ",")) s = true ->
  split_char "," (s +:+ String "," t) = s :: split_char "," t.
Proof.
  induction s as [|c s IH]; [done|]. cbn [all_str String.append split_char].
  intros [->%negb_true_iff Hs]%andb_true_iff. by rewrite IH.
Qed.

Lemma trim_plain s : plain s = true -> trim s = s.
Proof.
  assert (Hstart : forall t, plain t = true -> trim_start t = t).
  { intros [|c t] Ht; [done|]. unfold plain in Ht. cbn [all_str] in Ht. apply andb_true_iff in Ht as [Hc _].
    cbn [trim_start]. destruct (is_space c) eqn:E; [|done]. apply space_not_plain in E. congruence. }
  intros Hs. unfold trim. rewrite (Hstart s) by done.
  assert (plain (reverse_str s) = true) as Hr by (unfold plain in *; by rewrite all_str_reverse).
  by rewrite Hstart, reverse_str_involutive.
Qed.

Lemma insert_value_param f : plain_field f -> insert_value (param_text f) = stored f.
Proof.
  unfold insert_value. intros [(s & -> & Hs & ->)|(c & s & -> & Hs & ->)]%param_cases.
  - rewrite trim_quoted. change (starts_with "'" (quoted s)) with true. by rewrite slice_quoted, single_quotes_plain.
  - rewrite trim_plain by done. cbn [starts_with]. unfold plain in Hs. cbn [all_str] in Hs.
    apply andb_true_iff in Hs as [Hc _]. rewrite Ascii.eqb_sym, (plain_char_not c "'") by done. done.
Qed.

Lemma values_read fs : fs <> [] -> Forall plain_field fs ->
  map insert_value (split_char "," (values_text fs)) = map stored fs.
Proof.
  assert (Hcomma : forall f, plain_field f -> all_str (fun c => negb (Ascii.eqb c ",")) (param_text f) = true).
  { assert (Hpl : forall s, plain s = true -> all_str (fun c => negb (Ascii.eqb c ",")) s = true).
    { intros s. apply all_str_impl. intros x Hx. by rewrite (plain_char_not x ","). }
    intros f [(s & -> & Hs & _)|(c & s & -> & Hs & _)]%param_cases; [|by apply Hpl].
    apply (all_str_join _ "'"); [done|]. apply all_str_join; [by apply Hpl|done]. }
  assert (H : forall fs, fs <> [] -> Forall plain_field fs -> forall sp, sp = "" \/ sp = " " ->
    map insert_value (split_char "," (sp +:+ values_text fs)) = map stored fs).
  { intros gs Hne Hgs. induction Hgs as [|f gs Hf Hgs IH]; [done|]. intros sp Hsp.
    assert (Hc : all_str (fun c => negb (Ascii.eqb c ",")) (sp +:+ param_text f) = true).
    { apply all_str_join; [by destruct Hsp as [-> | ->]|by apply Hcomma]. }
    assert (Hv : insert_value (sp +:+ param_text f) = stored f).
    { rewrite <-insert_value_param by done. by destruct Hsp as [-> | ->]. }
    destruct gs as [|g gs].
    - unfold values_text. cbn [map join_with]. rewrite split_comma_plain by done. cbn [map]. by rewrite Hv.
    - rewrite values_cons, <-app_assoc_str. cbn [String.append].
      rewrite split_comma_cons by done. cbn [map]. rewrite Hv. f_equal. by apply (IH ltac:(done) " "); right. }
  intros Hne Hfs. by apply (H fs Hne Hfs ""); left.
Qed.

Lemma insert_match t0 t k0 k v0 v :
  all_str is_word (String t0 t) = true -> all_str not_close (String k0 k) = true -> all_str not_close (String v0 v) = true ->
  js_match insert_re ("INSERT INTO " +:+ String t0 t +:+ " (" +:+ String k0 k +:+ ") VALUES (" +:+ String v0 v +:+ ")") =
    Some [(3%nat, String v0 v); (2%nat, String k0 k); (1%nat, String t0 t)].
Proof.
  intros Ht Hk Hv. apply js_match_start with (s' := ""). unfold insert_re. cbn [seqs foldr].
  lit "INSERT INTO ". apply step_group; [done..|]. apply (step_star is_space " "); [done..|]. lit "(".
  apply step_group; [done..|]. lit ")". apply (step_star is_space " "); [done..|]. lit "VALUES".
  apply (step_star is_space " "); [done..|]. lit "(". apply step_group; [done..|]. by lit ")".
Qed.

(** The text of an INSERT with its values put in, and what it does. *)
Definition insert_text (t : table_name) (keys : string) (fs : list field) : string :=
  "INSERT INTO " +:+ table_text t +:+ " (" +:+ keys +:+ ") VALUES (" +:+ values_text fs +:+ ")".

Definition keys_of (t : table_name) : string :=
  match t with
  | Deposits => "id, network, snowside_address, status, created_at"
  | Withdrawals => "id, network, snowside_address, ecash_address, amount_ecx, burn_tx_hash, status, created_at"
  end.

Lemma insert_text_runs t fs m :
  fs <> [] -> Forall plain_field fs ->
  exec (insert_text t (keys_of t) fs) m =
    (Ok tt, Mock (set_key (table_text t) (table (table_text t) m ++
       [zip_row (map trim (split_char "," (keys_of t))) (map stored fs) []]) (tables m)) 1).
Proof.
  intros Hne Hfs. unfold exec.
  assert (Hclean : cleanSql (insert_text t (keys_of t) fs) = insert_text t (keys_of t) fs).
  { assert (Hall : all_str (fun c => negb (Ascii.eqb ";" c)) (insert_text t (keys_of t) fs) = true).
    { unfold insert_text. destruct t; do 5 (apply all_str_join; [done|]); (apply all_str_join; [|done]);
        (apply values_all; [|done|done]; intros c Hc; by rewrite Ascii.eqb_sym, (plain_char_not c ";")). }
    assert (E : insert_text t (keys_of t) fs =
      String "I" (("NSERT INTO " +:+ table_text t +:+ " (" +:+ keys_of t +:+ ") VALUES (" +:+ values_text fs) +:+ ")"))
      by by destruct t.
    rewrite E in *. by apply cleanSql_plain. }
  rewrite Hclean.
  assert (Hcreate : lit_in true "CREATE TABLE IF NOT EXISTS " (insert_text t (keys_of t) fs) = false).
  { pose proof (values_lit_absent true "C" "REATE" "TABLE IF NOT EXISTS " fs Hfs eq_refl eq_refl) as E.
    destruct t; exact E. }
  assert (Hmeta : lit_in true "INSERT OR REPLACE INTO meta" (insert_text t (keys_of t) fs) = false).
  { pose proof (values_lit_absent true "I" "NSERT" "OR REPLACE INTO meta" fs Hfs eq_refl eq_refl) as E.
    destruct t; exact E. }
  unfold js_match at 1, create_re. cbn [seqs foldr]. rewrite rsearch_lit_none by done. cbn [fmap option_fmap option_map].
  unfold js_match at 1, insert_meta_re. cbn [seqs foldr]. rewrite rsearch_lit_none by done. cbn [fmap option_fmap option_map].
  assert (Hv : all_str not_close (values_text fs) = true).
  { apply values_all; [|done|done]. intros c Hc. unfold not_close. by rewrite (plain_char_not c ")"). }
  destruct (values_text fs) as [|v0 v] eqn:Ev.
  { exfalso. destruct fs as [|f fs]; [done|]. inversion Hfs as [|? ? Hf _]. 
    apply param_cases in Hf as [(s & Hf & _)|(c & s & Hf & _)]; unfold values_text in Ev; destruct fs; cbn [map join_with] in Ev;
      rewrite Hf in Ev; done. }
  assert (Hm : js_match insert_re (insert_text t (keys_of t) fs) =
    Some [(3%nat, values_text fs); (2%nat, keys_of t); (1%nat, table_text t)]).
  { unfold insert_text. rewrite Ev. destruct t; by apply insert_match. }
  rewrite Hm. unfold exec_insert.
  change (group 3 _) with (values_text fs). change (group 2 _) with (keys_of t). change (group 1 _) with (table_text t).
  by rewrite values_read.
Qed.

(** ** What the tests rely on *)

(** The row the mock keeps of a new deposit. *)
Definition mock_deposit (id network address : string) (now : Z) : row :=
  [("id", Text id); ("network", Text network); ("snowside_address", Text address); ("status", Text "pending");
   ("created_at", Num (Fin now))].

Definition create_in_mock (id network address : string) (now : Z) : mock -> outcome Z * mock :=
  run (bind [FStr id; FStr network; FStr address; FStr "pending"; FInt now] (prepare insert_deposit_sql)).

Lemma set_key_get {A} k (v : A) l : rec_get (set_key k v l) k = Some v.
Proof.
  induction l as [|[k' v'] l IH]; cbn [set_key rec_get]; [by rewrite String.eqb_refl|].
  destruct (String.eqb_spec k' k) as [->|Hne]; cbn [rec_get]; [by rewrite String.eqb_refl|].
  destruct (String.eqb_spec k' k); [done|exact IH].
Qed.

Lemma set_key_other {A} k k' (v : A) l : k <> k' -> rec_get (set_key k v l) k' = rec_get l k'.
Proof.
  intros Hk. induction l as [|[k2 v2] l IH]; cbn [set_key rec_get].
  - destruct (String.eqb_spec k k'); done.
  - destruct (String.eqb_spec k2 k) as [->|Hne]; cbn [rec_get]; [by destruct (String.eqb_spec k k')|].
    by rewrite IH.
Qed.

(** The INSERT of a deposit adds its row and nothing else. *)
Lemma create_in_mock_adds id network address now m :
  plain id = true -> plain network = true -> plain address = true -> 0 <= now < 2 ^ 53 ->
  exists m', create_in_mock id network address now m = (Ok 1, m') /\
    table "deposits" m' = table "deposits" m ++ [mock_deposit id network address now] /\
    forall name, name <> "deposits" -> table name m' = table name m.
Proof.
  intros Hid Hn Ha Hnow. unfold create_in_mock, run.
  set (fs := [FStr id; FStr network; FStr address; FStr "pending"; FInt now]).
  assert (full_text (bind fs (prepare insert_deposit_sql)) = insert_text Deposits (keys_of Deposits) fs) as ->
    by (unfold insert_text, values_text, fs; cbn [map join_with]; rewrite !app_assoc_str; reflexivity).
  rewrite insert_text_runs; [|done|unfold fs; do 5 (constructor; [done|]); constructor].
  eexists. split; [reflexivity|]. split.
  - unfold table. cbn [tables]. by rewrite set_key_get.
  - intros name Hne. unfold table. cbn [tables]. rewrite set_key_other; [done|]. intros E. apply Hne. by rewrite <-E.
Qed.

(** A created deposit is found by its id, as in the reference store. *)
Theorem mock_finds_created_deposit id network address now m :
  plain id = true -> plain network = true -> plain address = true -> 0 <= now < 2 ^ 53 ->
  (forall r, In r (table "deposits" m) -> prints_as "id" id r = false) ->
  let m' := snd (create_in_mock id network address now m) in
  first (bind [FStr id] (prepare deposit_sql)) m' = Some (mock_deposit id network address now).
Proof.
  intros Hid Hn Ha Hnow Hfresh m'. unfold m'.
  destruct (create_in_mock_adds id network address now m Hid Hn Ha Hnow) as (m2 & -> & Ht & _). cbn [snd].
  change (first ?p ?m) with (head (all p m)). rewrite deposit_sql_finds, Ht, List.filter_app by done.
  assert (List.filter (prints_as "id" id) (table "deposits" m) = []) as ->.
  { revert Hfresh. generalize (table "deposits" m). intros l. induction l as [|r l IH]; [done|]. intros Hl.
    cbn [List.filter]. rewrite Hl by by left. apply IH. intros x Hx. apply Hl. by right. }
  cbn [app List.filter]. unfold prints_as. change (vget (mock_deposit id network address now) "id") with (Text id).
  cbn [String_of]. by rewrite String.eqb_refl.
Qed.

(** *** The listings without parameters *)

(** A value of the mock's row and the column of the store's: what is NULL may
    be missing, null, or a number that is none. *)
Definition agrees (v : value) (f : field) : Prop :=
  match f with
  | FNull => v = Undefined \/ v = Null \/ v = Num NaN
  | f => v = stored f
  end.

Definition shows (t : table_name) (x : row) (r : record) : Prop :=
  forall c, In c (schema_of t) -> agrees (vget x (col_name c)) (fget r (col_name c)).

(** The column holds a text or nothing. *)
Definition texty (k : string) (r : record) : Prop := fget r k = FNull \/ exists s, fget r k = FStr s.

Lemma prints_as_text t x r c s :
  shows t x r -> In c (schema_of t) -> texty (col_name c) r ->
  ~ In s ["undefined"; "null"; "NaN"] -> prints_as (col_name c) s x = has_text (col_name c) s r.
Proof.
  intros Hx Hc Ht Hs. specialize (Hx c Hc). unfold prints_as, has_text.
  destruct Ht as [E|[u E]]; rewrite E in *; cbn [agrees stored] in Hx.
  - rewrite bool_decide_eq_false_2 by done.
    apply String.eqb_neq. intros E2. apply Hs. destruct Hx as [Hv|[Hv|Hv]]; rewrite Hv in E2; rewrite <-E2; cbn; tauto.
  - rewrite Hx. cbn [String_of]. destruct (String.eqb_spec u s) as [->|Hne];
      [by rewrite bool_decide_eq_true_2|by rewrite bool_decide_eq_false_2 by congruence].
Qed.

Lemma Forall2_filter {A B} (R : A -> B -> Prop) p q l k :
  Forall2 R l k -> (forall x y, R x y -> In y k -> p x = q y) -> Forall2 R (List.filter p l) (List.filter q k).
Proof.
  induction 1 as [|x y l k Hxy _ IH]; intros Hpq; [constructor|]. cbn [List.filter].
  rewrite (Hpq x y Hxy) by by left. assert (Hrest : Forall2 R (List.filter p l) (List.filter q k)).
  { apply IH. intros a b Hab Hin. apply Hpq; [done|by right]. }
  destruct (q y); [by constructor|done].
Qed.

Lemma pending_deposits_rows m :
  all (prepare pending_deposits_sql) m =
    List.filter (fun r => prints_as "status" "pending" r || prints_as "status" "confirmed" r) (table "deposits" m).
Proof.
  unfold all. rewrite (query_rows _ [(3%nat, "status IN ('pending', 'confirmed')"); (2%nat, "deposits"); (1%nat, "*")]
    "status IN ('pending', 'confirmed')"); [|by vm_compute|by vm_compute|done|done].
  apply filter_ext. intros r. unfold matchWhere.
  assert (js_match in_re "status IN ('pending', 'confirmed')" = Some [(2%nat, "'pending', 'confirmed'"); (1%nat, "status")])
    as -> by by vm_compute.
  change (group 1 _) with "status".
  assert (map (fun s => unquoted (trim s)) (split_char "," (group 2 [(2%nat, "'pending', 'confirmed'"); (1%nat, "status")]))
    = ["pending"; "confirmed"]) as -> by by vm_compute.
  cbn [existsb]. by rewrite orb_false_r.
Qed.

Lemma pending_withdrawals_rows m :
  all (prepare pending_withdrawals_sql) m = List.filter (prints_as "status" "pending") (table "withdrawals" m).
Proof.
  unfold all. rewrite (query_rows _ [(3%nat, "status = 'pending'"); (2%nat, "withdrawals"); (1%nat, "*")]
    "status = 'pending'"); [|by vm_compute|by vm_compute|done|done].
  apply filter_ext. intros r. by apply (where_text "s" "tatus" "pending").
Qed.

(** The pending rows: the mock answers, in the order of the INSERTs, what the
    reference store answers sorted. *)
Theorem mock_lists_pending `{Sqlite} t m d :
  Forall2 (shows t) (table (table_text t) m) (rows_of t d) ->
  Forall (texty "status") (rows_of t d) ->
  let open r := match t with Deposits => is_pending_deposit r | Withdrawals => has_text "status" "pending" r end in
  let sql := match t with Deposits => pending_deposits_sql | Withdrawals => pending_withdrawals_sql end in
  exists rows, Forall2 (shows t) (all (prepare sql) m) rows /\ rows ≡ₚ select_where t open false d.
Proof.
  intros Hrows Htext open sql. exists (List.filter open (rows_of t d)). split; [|symmetry; apply order_by_perm].
  rewrite list.Forall_forall in Htext.
  assert (Hcol : forall x r s, shows t x r -> In r (rows_of t d) -> ~ In s ["undefined"; "null"; "NaN"] ->
    prints_as "status" s x = has_text "status" s r).
  { intros x r s Hx Hin Hs. apply (prints_as_text t x r (Column "status" TEXT true (FStr "pending"))); [done| | |done].
    - destruct t; in_list.
    - apply Htext. by apply list_elem_of_In. }
  destruct t; cbn [table_text sql] in *.
  - rewrite pending_deposits_rows. apply Forall2_filter; [done|]. intros x r Hx Hin. unfold open, is_pending_deposit.
    rewrite (Hcol x r "pending"), (Hcol x r "confirmed") by (done || (cbn; intuition discriminate)). done.
  - rewrite pending_withdrawals_rows. apply Forall2_filter; [done|]. intros x r Hx Hin.
    apply Hcol; [done|done|]. cbn. intuition discriminate.
Qed.

(** The listing of funded deposits: of the three conditions the mock reads the
    first one only. *)
Theorem mock_funded_needs_only_an_amount m :
  all (prepare funded_deposits_sql) m =
    List.filter (fun r => match vget r "amount_sats" with Undefined | Null => false | _ => true end) (table "deposits" m).
Proof.
  unfold all.
  set (wh := "amount_sats IS NOT NULL AND ecash_address IS NOT NULL AND derivation_index IS NOT NULL").
  rewrite (query_rows _ [(3%nat, wh); (2%nat, "deposits"); (1%nat, "*")] wh); [|by vm_compute|by vm_compute|done|done].
  apply filter_ext. intros r. unfold matchWhere.
  assert (js_match in_re wh = None) as -> by by vm_compute. assert (js_match eq_re wh = None) as -> by by vm_compute.
  assert (js_match not_null_re wh = Some [(1%nat, "amount_sats")]) as -> by by vm_compute. done.
Qed.

(** *** Where the mock is no SQLite *)

Definition after_statements (l : list prepared) : mock :=
  fold_left (fun m p => snd (run p m)) l (applySchema createInMemoryD1).

(** A deposit that got an amount and no address: the mock lists it as funded,
    the reference store does not. *)
Example mock_lists_unfunded_deposit :
  let m := after_statements
    [bind [FStr "d1"; FStr "signet"; FStr "0xab"; FStr "pending"; FInt 1000] (prepare insert_deposit_sql);
     bind [FInt 5000; FStr "d1"] (prepare (update_sql Deposits ["amount_sats"]))] in
  map (fun r => (vget r "id", vget r "ecash_address")) (all (prepare funded_deposits_sql) m) = [(Text "d1", Undefined)] /\
  is_funded [("id", FStr "d1"); ("amount_sats", FInt 5000)] = false.
Proof. vm_compute. done. Qed.

(** A comma in a bound text splits it: the amount "1,000" is stored as an empty
    text, and the columns after it hold each other's values. *)
Example mock_splits_bound_texts :
  let m := after_statements
    [bind [FStr "w1"; FStr "signet"; FStr "0xab"; FStr "tb1quser"; FStr "1,000"; FStr "0xburn"; FStr "pending"; FInt 1000]
       (prepare insert_withdrawal_sql)] in
  map (fun r => (vget r "amount_ecx", vget r "burn_tx_hash", vget r "status", vget r "created_at")) (table "withdrawals" m) =
    [(Text "", Num NaN, Text "0xburn", Text "pending")] /\
  all (prepare pending_withdrawals_sql) m = [].
Proof. vm_compute. done. Qed.
