(* ===== verification/Bridge.v ===== *)
(** * The bridge: the federation service against the API's tables

    [Federation] is proved for an arbitrary world and [Api] for arbitrary
    clients. Here the two are put together: the service's calls are the
    requests the API handles, and everybody else lacks its token. *)

From Stdlib Require Import ZArith Lia Ascii String List Bool.
From stdpp Require Import base list strings numbers.
From S2P Require Import Prelude JsNumber HdWallet Effects Withdraw Federation Minting Json Database Api ApiSpec ApiProps.
Local Open Scope Z_scope.

(** ** The two tables, as both sides name them *)

Definition listing_path (t : table_name) : string :=
  match t with Deposits => deposit_listing | Withdrawals => withdrawal_listing end.
Definition item_path (t : table_name) : string :=
  match t with Deposits => deposit_item | Withdrawals => withdrawal_item end.

Definition listing_route (t : table_name) : list string :=
  match t with Deposits => ["deposits"; "pending"] | Withdrawals => ["withdrawals"; "pending"] end.
Definition item_route (t : table_name) (id : string) : list string :=
  match t with Deposits => ["deposit"; id] | Withdrawals => ["withdraw"; id] end.

Definition allowed_of (t : table_name) : list string :=
  match t with Deposits => deposit_allowed | Withdrawals => withdraw_allowed end.

(** The rows a listing shows. *)
Definition is_open (t : table_name) (r : record) : bool :=
  match t with Deposits => is_pending_deposit r | Withdrawals => has_text "status" "pending" r end.

(** The status that ends the work on a row well, and where its hash is kept. *)
Definition done_status (t : table_name) : string :=
  match t with Deposits => "minted" | Withdrawals => "completed" end.
Definition hash_column (t : table_name) : string :=
  match t with Deposits => "mint_tx_hash" | Withdrawals => "ecash_tx_hash" end.

Definition is_final (r : record) : Prop :=
  exists st, fget r "status" = FStr st /\ final_status st = true.

Lemma open_not_final t r : is_open t r = true -> ~ is_final r.
Proof.
  intros H (st & Hst & Hf). destruct t; unfold is_open, is_pending_deposit, has_text in H; rewrite Hst in H.
  - apply orb_true_iff in H as [H|H]; apply bool_decide_eq_true in H; injection H as ->; done.
  - apply bool_decide_eq_true in H. by injection H as ->.
Qed.

(** ** What a request does to the rows *)

Section requests.
Context `{SQ : Sqlite} `{ZD : Zod} `{CH : Chanfana}.
Context (rt : runtime).

Definition newborn (r : record) : Prop :=
  fget r "id" = FStr (rt_uuid rt) /\ fget r "status" = FStr "pending".

Definition grown (d d' : db) : Prop :=
  forall t, exists new, rows_of t d' = rows_of t d ++ new /\ Forall newborn new.

Lemma grown_refl d d' : (forall t, rows_of t d' = rows_of t d) -> grown d d'.
Proof. intros Heq t. exists []. by rewrite app_nil_r. Qed.

Definition grows {A} (c : api A) : Prop := forall d, grown d (snd (c d)).

Lemma grows_ret {A} (a : A) : grows (aret a).
Proof. intros d. by apply grown_refl. Qed.

Lemma grows_read {A B} (q : db -> A) (f : A -> api B) :
  (forall a, grows (f a)) -> grows (abind (d1_read rt q) f).
Proof. intros Hf d. unfold abind, d1_read. destruct (rt_db_up rt); [apply Hf|by apply grown_refl]. Qed.

Lemma grows_write {B} (w : db -> outcome db) (b : B) :
  (forall d d', w d = Ok d' -> grown d d') ->
  grows (abind (d1_write rt w) (fun _ => aret b)).
Proof.
  intros Hw d. unfold abind, d1_write. destruct (rt_db_up rt); [|by apply grown_refl].
  destruct (w d) eqn:E; [by apply Hw|by apply grown_refl].
Qed.

Lemma grows_validated shape body h : (forall kept, grows (h kept)) -> grows (validated shape body h).
Proof.
  intros Hh. unfold validated. destruct body as [j|]; [|apply grows_ret].
  destruct (zod_parse _ _) as [[]|]; try apply grows_ret. apply Hh.
Qed.

Lemma insert_grown t values d d' :
  rec_get values "id" = Some (FStr (rt_uuid rt)) -> rec_get values "status" = Some (FStr "pending") ->
  insert_into t values d = Ok d' -> grown d d'.
Proof.
  intros Hid Hst Hins t'. pose proof (insert_select t values _ d d' Hid Hins) as [_ Hrows].
  destruct (decide (t = t')) as [<-|Hne].
  - exists [new_row (schema_of t) values]. split; [done|]. repeat constructor.
    + pose proof (new_row_get t values _ (id_column t)) as E. cbn [col_name col_type] in E.
      by rewrite E, Hid, store_text.
    + assert (Hc : In (column_named t "status") (schema_of t)) by (destruct t; in_list).
      pose proof (new_row_get t values _ Hc) as E.
      assert (Hn : col_name (column_named t "status") = "status" /\ col_type (column_named t "status") = TEXT)
        by by destruct t.
      destruct Hn as [Hn Ht]. by rewrite Hn, Ht, Hst, store_text in E.
  - unfold insert_into in Hins. destruct (negb _); [done|]. destruct (existsb _ _); [done|].
    injection Hins as <-. exists []. by rewrite app_nil_r, with_other.
Qed.

Lemma create_deposit_grows kept : grows (create_deposit rt kept).
Proof.
  unfold create_deposit. destruct (_ || _); [apply grows_ret|]. apply grows_write. intros d d'. by apply insert_grown.
Qed.

Lemma create_withdrawal_grows kept : grows (create_withdrawal rt kept).
Proof.
  unfold create_withdrawal. destruct (_ || _); [apply grows_ret|]. apply grows_write. intros d d'. by apply insert_grown.
Qed.

Lemma rows_grows (q : db -> list record) :
  grows (abind (d1_read rt q) (fun rows => aret (rows_answer rows))).
Proof. apply grows_read. intros. apply grows_ret. Qed.

Lemma fed_checkin_grows : grows (fed_checkin rt).
Proof. apply grows_write. intros d d' [= <-]. apply grown_refl. by intros []. Qed.

Definition is_item (m : method) (path : list string) : bool :=
  match m, path with PATCH, ["deposit"; String _ _] | PATCH, ["withdraw"; String _ _] => true | _, _ => false end.

Lemma fed_route_grows m path body : is_item m path = false -> grows (fed_route rt m path body).
Proof.
  intros Hi. unfold fed_route.
  repeat match goal with |- grows (match ?x with _ => _ end) => destruct x end;
    first [apply grows_ret | apply rows_grows | apply fed_checkin_grows | done].
Qed.

Definition is_item_request (rq : request) : bool :=
  match rq_path rq with "v1" :: "fed" :: path => is_item (rq_method rq) path | _ => false end.

Lemma route_grows rq :
  fed_authorized rt (rq_authorization rq) = false \/ is_item_request rq = false -> grows (route rt rq).
Proof.
  assert (Hbs : grows (get_bridge_status rt)).
  { intros d. unfold get_bridge_status, d1_read. destruct (rt_db_up rt); by apply grown_refl. }
  assert (Hgd : forall id, grows (get_deposit rt id)).
  { intros id. apply grows_read. intros []; apply grows_ret. }
  assert (Hfed : forall m path a b,
    fed_authorized rt a = false \/ is_item m path = false ->
    grows (if fed_authorized rt a then fed_route rt m path b else aret (Answer 401 (error_json "Unauthorized")))).
  { intros m path a b Hi. destruct (fed_authorized rt a); [|apply grows_ret].
    apply fed_route_grows. by destruct Hi. }
  destruct rq as [m p a b]. unfold route, is_item_request. cbn [rq_method rq_path rq_authorization rq_body].
  repeat match goal with
    | |- _ -> grows (match ?x with _ => _ end) => is_var x; destruct x; try (intros _; apply grows_ret)
    end;
  try (intros Hi; first [exact Hbs | apply Hgd | apply rows_grows | by apply Hfed
    | apply grows_validated; intros; apply create_deposit_grows
    | apply grows_validated; intros; apply create_withdrawal_grows
    | by destruct (is_network _); apply grows_ret]).
Qed.

(** *** A PATCH of one row *)

Definition refused (a : answer) : Prop := exists st b, a = Answer st b /\ resp_ok st = false.

Definition patched_rows (t : table_name) (id : string) (given : list (string * json)) (d d' : db) : Prop :=
  exists set, patch_ok t set /\
    (forall k f, In k (allowed_of t) -> rec_get set k = Some f <-> rec_get given k = Some (JScalar f)) /\
    rows_of t d' = map (fun r => if has_id id r then set_columns (schema_of t) set r else r) (rows_of t d) /\
    (forall t', t <> t' -> rows_of t' d' = rows_of t' d).

Definition stamps_of (t : table_name) (body : list (string * json)) : list (string * json) :=
  match t with
  | Deposits => ApiProps.deposit_stamps rt body
  | Withdrawals => withdrawal_stamp rt body
  end.

Definition shape_of (t : table_name) : list (string * schema) :=
  match t with Deposits => deposit_patch_body | Withdrawals => withdraw_patch_body end.

Lemma shape_matches_of t : shape_matches t (shape_of t) (allowed_of t).
Proof. destruct t; [apply deposit_shape_matches|apply withdraw_shape_matches]. Qed.

Lemma stamped_of t body : stamped t (rt_now rt) (stamps_of t body).
Proof. destruct t; [apply ApiSpec.deposit_stamps|apply withdrawal_stamps]. Qed.

Lemma stamps_not_allowed t body k : In k (allowed_of t) -> rec_get (stamps_of t body) k = None.
Proof.
  intros Hk. destruct (rec_get (stamps_of t body) k) as [v|] eqn:E; [|done].
  assert (Hc : k = "confirmed_at" \/ k = "minted_at" \/ k = "completed_at").
  { destruct t; cbn [stamps_of] in E.
    - unfold ApiProps.deposit_stamps in E. rewrite rec_get_app in E.
      destruct (rec_get (stamp _ _ "confirmed" _) k) eqn:E'; [apply stamp_get in E' as [-> _]|apply stamp_get in E as [-> _]]; auto.
    - apply stamp_get in E as [-> _]. auto. }
  destruct t; simpl in Hk; intuition (subst; discriminate).
Qed.

Definition patch_handler (t : table_name) (id : string) (body : option json) : api answer :=
  validated (shape_of t) body
    (fun kept => patch_row rt t id (allowed_updates (allowed_of t) kept ++ stamps_of t kept)).

Lemma patch_handler_effect t id given d :
  db_ok d ->
  match patch_handler t id (Some (JObj given)) d with
  | (Ok a, d') => (refused a /\ d' = d) \/ patched_rows t id given d d'
  | (Throw _, d') => d' = d
  end.
Proof.
  intros Hd. unfold patch_handler, validated.
  destruct (zod_parse (ZObject (shape_of t)) (JObj given)) as [v|] eqn:Hv;
    [|left; split; [by eexists _, _|done]].
  pose proof (zod_sound _ _ _ Hv) as Hc.
  destruct (zod_object _ _ _ Hv) as (given' & kept & [= <-] & -> & _ & _ & Hkg & Hgk).
  pose proof (updates_patch_ok rt t (shape_of t) (allowed_of t) (stamps_of t kept) kept) as Hok.
  assert (Hget : forall k, In k (allowed_of t) ->
    rec_get (allowed_updates (allowed_of t) kept ++ stamps_of t kept) k = rec_get kept k).
  { intros k Hk. rewrite rec_get_app, rec_get_allowed, (proj2 (existsb_eqb_in k _) Hk).
    rewrite stamps_not_allowed by done. by destruct (rec_get kept k). }
  unfold patch_row. destruct (allowed_updates _ _ ++ _) as [|u us] eqn:Eu;
    [left; split; [by eexists _, _|done]|]. rewrite <-Eu in *.
  unfold abind, d1_write. destruct (rt_db_up rt); [|done].
  destruct (bind_values _) as [set|m] eqn:Eb; cbn [obind]; [|done].
  assert (Hp : patch_ok t set).
  { apply Hok; auto using shape_matches_of, stamped_of. intros k Hk. destruct t; apply in_or_app; by left. }
  destruct (update_effect t set id d Hp Hd) as (d' & -> & Hrows & Hother & _).
  right. exists set. split_and!; [done| |done|done].
  intros k f Hk. rewrite (bind_values_get _ _ _ _ Eb), Hget by done.
  split; [apply Hkg|]. apply Hgk. destruct t; exact Hk.
Qed.

Lemma handle_item t id a b d :
  id <> "" ->
  handle_request rt (Request PATCH ("v1" :: "fed" :: item_route t id) a b) d =
    if fed_authorized rt a then
      match patch_handler t id b d with
      | (Ok ans, d') => (ans, d')
      | (Throw _, d') => (Answer 500 (JStr "Internal Server Error"), d')
      end
    else (Answer 401 (error_json "Unauthorized"), d).
Proof.
  intros Hid. unfold handle_request, dispatch, route. cbn [rq_method rq_path rq_authorization rq_body].
  destruct id; [done|]. destruct t, (fed_authorized rt a); reflexivity.
Qed.

(** A PATCH of a row is refused without effect, or does what it says. *)
Lemma handle_patch t id a given d :
  db_ok d -> id <> "" ->
  let '(ans, d') := handle_request rt (Request PATCH ("v1" :: "fed" :: item_route t id) a (Some (JObj given))) d in
  (refused ans /\ d' = d) \/ patched_rows t id given d d'.
Proof.
  intros Hd Hid. rewrite handle_item by done. destruct (fed_authorized rt a); [|left; split; [by eexists _, _|done]].
  pose proof (patch_handler_effect t id given d Hd) as He.
  destruct (patch_handler _ _ _ _) as [[ans|m] d']; [done|]. left. split; [by eexists _, _|done].
Qed.

(** A listing that is answered with success is the list of the open rows. *)
Lemma handle_listing t a b d :
  let '(ans, d') := handle_request rt (Request GET ("v1" :: "fed" :: listing_route t) a b) d in
  d' = d /\ (refused ans \/ ans = rows_answer (select_where t (is_open t) false d)).
Proof.
  unfold handle_request, dispatch, route. cbn [rq_method rq_path rq_authorization rq_body].
  assert (Hr : refused (Answer 401 (error_json "Unauthorized")) /\
    refused (Answer 500 (JStr "Internal Server Error"))) by (split; by eexists _, _).
  destruct Hr. destruct t; cbn [listing_route]; (destruct (fed_authorized rt a); [|by split; [|left]]);
    cbn [fed_route]; unfold fed_pending_deposits, fed_pending_withdrawals, abind, d1_read;
    (destruct (rt_db_up rt); [by split; [|right]|by split; [|left]]).
Qed.
End requests.

(** ** The service's calls as requests *)

Lemma split_slash_cons s : exists x l, split_slash s = x :: l.
Proof.
  induction s as [|c s (x & l & IH)]; cbn [split_slash]; [eauto|].
  destruct (Ascii.eqb c "/"); [eauto|]. rewrite IH. eauto.
Qed.

Lemma split_slash_join s : s = join_with "/" (split_slash s) /\ Forall (fun x => no_slash x = true) (split_slash s).
Proof.
  induction s as [|c s [IH Hall]]; [split; [done|by repeat constructor]|]. cbn [split_slash].
  destruct (split_slash_cons s) as (x & l & E). rewrite E in *.
  destruct (Ascii.eqb_spec c "/") as [->|Hc].
  - split; [|by constructor].
    change (join_with "/" ("" :: x :: l)) with (String "/" (join_with "/" (x :: l))). by rewrite <-IH.
  - inversion Hall; subst. split; [by destruct l|].
    constructor; [|done]. unfold no_slash in *. cbn [all_str].
    by destruct (Ascii.eqb_spec c "/").
Qed.

Section calls.
Context (cfg : Config).

(** The API is deployed at [API_URL], whose last segment is the version its
    routes start with. *)
Definition request_path (url : string) : option (list string) :=
  if starts_with (API_URL cfg) url then
    match split_slash (drop_str (String.length (API_URL cfg)) url) with
    | "" :: segs => Some ("v1" :: segs)
    | _ => None
    end
  else None.

Definition call_request (q : query) : option request :=
  match q with
  | QApiGet url a => (fun p => Request GET p (Some a) None) <$> request_path url
  | QApiPatch url a body => (fun p => Request PATCH p (Some a) (Some (json_of_row body))) <$> request_path url
  | QApiPost url a => (fun p => Request POST p (Some a) None) <$> request_path url
  | _ => None
  end.

(** What the service sees of an answer: the status, and the body if it arrives
    whole. The answers of the servers the API forwards to are not constrained. *)
Definition seen (q : query) (a : answer) : reply q -> Prop :=
  match q return reply q -> Prop with
  | QApiGet _ _ => fun r =>
      match a with
      | Answer st j => exists b, r = Resp st b /\ forall rows, b = Some rows -> j = JArr (map json_of_row rows)
      | _ => True
      end
  | QApiPatch _ _ _ => fun r => match a with Answer st _ => exists b, r = Resp st b | _ => True end
  | QApiPost _ _ => fun r => match a with Answer st _ => exists b, r = Resp st b | _ => True end
  | _ => fun _ => True
  end.

(** The call failed on the way. *)
Definition lost (q : query) : reply q -> Prop :=
  match q return reply q -> Prop with
  | QApiGet _ _ => fun r => exists m, r = NetErr m
  | QApiPatch _ _ _ => fun r => exists m, r = NetErr m
  | QApiPost _ _ => fun r => exists m, r = NetErr m
  | _ => fun _ => False
  end.

Definition item_url (t : table_name) (id : string) : string := API_URL cfg +:+ item_path t +:+ id.

Lemma item_url_inj t id t' id' : item_url t id = item_url t' id' -> t = t' /\ id = id'.
Proof.
  intros H%app_inj_str. destruct t, t'; cbn in H; try discriminate; split; try done; by injection H.
Qed.

Lemma request_path_app s : request_path (API_URL cfg +:+ s) =
  match split_slash s with "" :: segs => Some ("v1" :: segs) | _ => None end.
Proof. unfold request_path. by rewrite starts_with_app, drop_str_app. Qed.

Lemma item_request_path t id :
  no_slash id = true -> request_path (item_url t id) = Some ("v1" :: "fed" :: item_route t id).
Proof.
  intros Hid. unfold item_url. rewrite request_path_app.
  destruct t; [change (item_path Deposits +:+ id) with ("" +:+ String "/" ("fed" +:+ String "/" ("deposit" +:+ String "/" id)))
    | change (item_path Withdrawals +:+ id) with ("" +:+ String "/" ("fed" +:+ String "/" ("withdraw" +:+ String "/" id)))];
    by rewrite !split_cons, split_plain.
Qed.

Lemma listing_request_path t :
  request_path (API_URL cfg +:+ listing_path t) = Some ("v1" :: "fed" :: listing_route t).
Proof. rewrite request_path_app. by destruct t. Qed.

(** A request for a row comes from that row's address. *)
Lemma item_request_url url t id :
  request_path url = Some ("v1" :: "fed" :: item_route t id) -> url = item_url t id /\ no_slash id = true.
Proof.
  unfold request_path. destruct (starts_with _ _) eqn:Es; [|done]. apply starts_with_split in Es.
  destruct (split_slash_join (drop_str (String.length (API_URL cfg)) url)) as [Hj Hall].
  destruct (split_slash _) as [|x l]; [done|]. destruct x as [|c x]; [|done]. intros [= ->].
  rewrite Es, Hj. unfold item_url. destruct t; (split; [done|]); inversion Hall as [|? ? _ H1]; subst;
    inversion H1 as [|? ? _ H2]; subst; inversion H2 as [|? ? _ H3]; subst; by inversion H3.
Qed.

(** ** The two together

    [served d0 t d]: the API started from [d0], answered the calls of [t] and
    the requests of others, who lack the token, in some order, and is now at
    [d]. A call that fails on the way was handled by then, or never is. *)

Context `{SQ : Sqlite} `{ZD : Zod} `{CH : Chanfana}.

Inductive served (d0 : db) : trace -> db -> Prop :=
| served_start : served d0 [] d0
| served_other rt rq t d :
    served d0 t d -> segment (rt_uuid rt) = true ->
    fed_authorized rt (rq_authorization rq) = false ->
    served d0 t (snd (handle_request rt rq d))
| served_call rt rq q r t d :
    served d0 t d -> segment (rt_uuid rt) = true ->
    call_request q = Some rq ->
    seen q (fst (handle_request rt rq d)) r \/ lost q r ->
    served d0 (Ev q r :: t) (snd (handle_request rt rq d))
| served_dropped q r t d : served d0 t d -> lost q r -> served d0 (Ev q r :: t) d
| served_elsewhere q r t d : served d0 t d -> call_request q = None -> served d0 (Ev q r :: t) d.

(** A final status whose report was accepted. *)
Definition accepted (e : event) : bool :=
  match e with
  | Ev q r =>
      match q return reply q -> bool with
      | QApiPatch _ _ _ => fun r => match r with Resp st _ => resp_ok st | NetErr _ => false end
      | _ => fun _ => false
      end r
  end.

Definition reported (url : string) (t : trace) : Prop :=
  exists e, In e t /\ settling e = Some url /\ accepted e = true.

(** What holds of the trace and the tables together. *)
Definition listing_ok (e : event) (before : trace) : Prop :=
  forall t st rows,
    e = Ev (QApiGet (API_URL cfg +:+ listing_path t) (auth cfg)) (Resp st (Some rows)) -> resp_ok st = true ->
    NoDup (map row_id rows) /\ forall row, In row rows -> ~ reported (item_url t (row_id row)) before.

Record together (t : trace) (d : db) : Prop := {
  tg_ok : db_ok d;
  tg_clean : forall tb r id, In r (rows_of tb d) -> fget r "id" = FStr id -> segment id = true;
  tg_listed : forall tb row, listed cfg (listing_path tb) row t ->
    exists r, In r (rows_of tb d) /\ fget r "id" = FStr (row_id row);
  tg_final : forall tb id r, reported (item_url tb id) t ->
    In r (rows_of tb d) -> fget r "id" = FStr id -> is_final r;
  tg_listings : trace_ok listing_ok t
}.

Lemma reported_cons url e t :
  reported url (e :: t) <-> (settling e = Some url /\ accepted e = true) \/ reported url t.
Proof.
  unfold reported. split.
  - intros (e' & [->|Hin] & H); [by left|]. right. by exists e'.
  - intros [H|(e' & Hin & H)]; [exists e; split; [by left|done]|exists e'; split; [by right|done]].
Qed.

(** A record that is fresh was not reported at all: not before the listing,
    which shows open rows, and not since. *)
Lemma fresh_unreported tb row t :
  trace_ok listing_ok t -> fresh cfg (listing_path tb) (item_path tb) row t ->
  ~ reported (item_url tb (row_id row)) t.
Proof.
  intros Hok (st & rows & mid & older & -> & Hst & Hin & Hmid).
  pose proof (trace_ok_split _ _ _ _ Hok) as Hl. destruct (Hl tb st rows eq_refl Hst) as [Hnd Hun].
  specialize (Hmid Hnd). rewrite list.Forall_forall in Hmid.
  intros (e & Hine & Hset & Hacc). apply in_app_iff in Hine as [Hm|[<-|Ho]].
  - by apply (Hmid e); [apply list_elem_of_In|].
  - done.
  - apply (Hun row Hin). by exists e.
Qed.

Context `{HL : HdLibrary} `{BL : BtcLibrary}.

Lemma funded_fresh d hit t :
  deposit_funded cfg d hit t ->
  exists row, d = Deposit_of row /\ fresh cfg (listing_path Deposits) (item_path Deposits) row t.
Proof. intros (row & a & Hf & -> & _). by exists row. Qed.

(** A justified status report is about a fresh record, at its address. *)
Lemma status_report_fresh url body t st :
  patch_justified cfg url body t -> fget_str body "status" = Some st ->
  exists tb row, url = item_url tb (row_id row) /\ fresh cfg (listing_path tb) (item_path tb) row t /\
    (st = done_status tb \/ final_status st = true \/ st = "confirmed") /\
    (final_status st = true -> forall tb', st = done_status tb' -> tb = tb').
Proof.
  unfold patch_justified. intros Hj Hst. rewrite Hst in Hj.
  destruct (String.eqb_spec st "minted") as [E|_].
  { subst st. destruct Hj as (d & hit & Hf & -> & _). apply funded_fresh in Hf as (row & -> & Hf).
    exists Deposits, row. split_and!; [done|done|by left|]. by intros _ []. }
  destruct (String.eqb_spec st "confirmed") as [E|_].
  { subst st. destruct Hj as (d & hit & Hf & _ & -> & _). apply funded_fresh in Hf as (row & -> & Hf).
    exists Deposits, row. split_and!; [done|done|by right; right|]. done. }
  destruct (String.eqb_spec st "completed") as [E|_].
  { subst st. destruct Hj as (w & u & raw & e & (row & burn & now & Hf & -> & _) & -> & _).
    exists Withdrawals, row. split_and!; [done|done|by left|]. by intros _ []. }
  destruct Hj as (-> & row & now & Hf & -> & _).
  exists Withdrawals, row. split_and!; [done|done|by right; left|]. by intros _ [].
Qed.

Lemma settling_status q r url :
  settling (Ev q r) = Some url ->
  exists a body st, q = QApiPatch url a body /\ fget_str body "status" = Some st /\ final_status st = true.
Proof.
  unfold settling. cbn [ev_query]. destruct q; try done.
  destruct (fget_str body "status") as [st|] eqn:E; [|done].
  destruct (final_status st) eqn:Ef; [|done]. intros [= ->]. eauto 6.
Qed.

(** Whatever was reported is a row of its table. *)
Lemma reported_known tb id t d :
  trace_ok (event_ok cfg) t ->
  (forall tb row, listed cfg (listing_path tb) row t ->
    exists r, In r (rows_of tb d) /\ fget r "id" = FStr (row_id row)) ->
  reported (item_url tb id) t -> exists r, In r (rows_of tb d) /\ fget r "id" = FStr id.
Proof.
  intros Hok Hl ([q r] & Hin & Hset & _). apply in_split in Hin as (after & before & ->).
  pose proof (trace_ok_split _ _ _ _ Hok) as He.
  apply settling_status in Hset as (a & body & st & -> & Hst & Hf).
  destruct (status_report_fresh _ _ _ _ He Hst) as (tb' & row & Hurl & Hfr & _).
  apply item_url_inj in Hurl as [<- ->]. apply Hl.
  apply fresh_listed in Hfr as (st' & rows & Hin & ?). exists st', rows.
  split; [|done]. apply in_app_iff. right. by right.
Qed.

(** *** New rows *)

Lemma unique_id tb d r r' : db_ok d -> In r (rows_of tb d) -> In r' (rows_of tb d) ->
  fget r "id" = fget r' "id" -> r = r'.
Proof.
  intros Hd Hr Hr' Heq. apply (db_ok_table tb) in Hd as [_ Hnd].
  apply list_elem_of_In, list_elem_of_lookup_1 in Hr as [i Hi].
  apply list_elem_of_In, list_elem_of_lookup_1 in Hr' as [j Hj].
  assert (i = j) as ->; [|congruence].
  apply (NoDup_lookup (ids (rows_of tb d)) i j (fget r "id")); [done| |];
    unfold ids; rewrite list_lookup_fmap.
  - by rewrite Hi.
  - rewrite Hj. simpl. by rewrite Heq.
Qed.

Lemma together_grown rt t d d' :
  trace_ok (event_ok cfg) t -> segment (rt_uuid rt) = true ->
  grown rt d d' -> db_ok d' -> together t d -> together t d'.
Proof.
  intros Hev Hu Hg Hok' [Hok Hclean Hlisted Hfinal Hlist].
  assert (Hold : forall tb r, In r (rows_of tb d) -> In r (rows_of tb d')).
  { intros tb r Hin. destruct (Hg tb) as (new & -> & _). apply in_app_iff. by left. }
  assert (Hl' : forall tb row, listed cfg (listing_path tb) row t ->
    exists r, In r (rows_of tb d') /\ fget r "id" = FStr (row_id row)).
  { intros tb row Hl. destruct (Hlisted tb row Hl) as (r & ? & ?). exists r. auto. }
  split; try done.
  - intros tb r id Hin Hid. destruct (Hg tb) as (new & E & Hnew). rewrite E in Hin.
    apply in_app_iff in Hin as [Hin|Hin]; [by eapply Hclean|].
    rewrite list.Forall_forall in Hnew. apply list_elem_of_In, Hnew in Hin as [Hr _].
    rewrite Hid in Hr. by injection Hr as ->.
  - intros tb id r Hrep Hin Hid.
    destruct (reported_known tb id t d Hev Hlisted Hrep) as (r0 & Hin0 & Hid0).
    assert (r = r0) as -> by (eapply unique_id; [exact Hok'|done|by apply Hold|congruence]).
    by eapply Hfinal.
Qed.

(** *** Patched rows *)

Lemma column_status tb : exists c, In c (schema_of tb) /\ col_name c = "status" /\ col_type c = TEXT.
Proof. exists (column_named tb "status"). destruct tb; (split; [in_list|done]). Qed.

Lemma column_by_name tb c c' :
  In c (schema_of tb) -> In c' (schema_of tb) -> col_name c = col_name c' -> c = c'.
Proof.
  destruct tb; simpl; intros H H' E;
    repeat (destruct H as [<-|H]; [repeat (destruct H' as [<-|H']; [done || by discriminate E|]); done|]); done.
Qed.

Lemma patched_row tb id given d d' r' :
  db_ok d -> patched_rows tb id given d d' -> In r' (rows_of tb d') ->
  exists r, In r (rows_of tb d) /\ fget r' "id" = fget r "id" /\
    (fget r "id" <> FStr id -> r' = r) /\
    (fget r "id" = FStr id -> forall c, In c (schema_of tb) -> In (col_name c) (allowed_of tb) -> col_type c = TEXT ->
      match rec_get given (col_name c) with
      | Some (JScalar (FStr s)) => fget r' (col_name c) = FStr s
      | _ => fget r' (col_name c) = fget r (col_name c)
      end).
Proof.
  intros Hd (set & Hp & Hset & Hrows & _) Hin. rewrite Hrows in Hin.
  apply in_map_iff in Hin as (r & <- & Hin). exists r. split; [done|].
  apply (db_ok_table tb) in Hd as [Hrok _]. rewrite list.Forall_forall in Hrok.
  destruct (Hrok r) as (Hc & _ & _); [by apply list_elem_of_In|].
  destruct (has_id id r) eqn:Eid.
  - apply has_id_iff in Eid. split_and!; [apply set_columns_other; [done|by eapply patch_keeps_id]|done|].
    intros _ c Hcin Hall Htext.
    destruct (rec_get set (col_name c)) as [f|] eqn:Ef.
    + rewrite (set_columns_set tb set r c f) by done.
      pose proof (proj1 (Hset _ f Hall) Ef) as ->.
      destruct (Hp _ _ Ef) as (_ & c' & Hcin' & Hname & Hty).
      assert (c' = c) as -> by by apply (column_by_name tb).
      rewrite Htext in Hty |- *. destruct Hty as [s ->]. apply store_text.
    + rewrite (set_columns_other tb) by done.
      destruct (rec_get given (col_name c)) as [[[]| | |]|] eqn:Eg; try done.
      apply (proj2 (Hset _ _ Hall)) in Eg. by rewrite Eg in Ef.
  - split_and!; [done|done|]. intros H%has_id_iff. by rewrite H in Eid.
Qed.

Lemma patched_same_ids tb id given d d' tb' :
  db_ok d -> patched_rows tb id given d d' -> ids (rows_of tb' d') = ids (rows_of tb' d).
Proof.
  intros Hd (set & Hp & _ & Hrows & Hother). destruct (decide (tb = tb')) as [<-|Hne].
  - rewrite Hrows. apply set_columns_ids; [by apply (db_ok_table tb)|by eapply patch_keeps_id].
  - by rewrite Hother.
Qed.

(** The text columns of the row a PATCH is for. *)
Definition patched_text (given : list (string * json)) (k : string) (old : field) : field :=
  match rec_get given k with Some (JScalar (FStr s)) => FStr s | _ => old end.

Lemma patched_cell tb id given d d' r' k :
  In k ["status"; hash_column tb] ->
  db_ok d -> patched_rows tb id given d d' -> In r' (rows_of tb d') ->
  exists r, In r (rows_of tb d) /\ fget r' "id" = fget r "id" /\
    (fget r "id" <> FStr id -> r' = r) /\
    (fget r "id" = FStr id -> fget r' k = patched_text given k (fget r k)).
Proof.
  intros Hk Hd Hp Hin. destruct (patched_row tb id given d d' r' Hd Hp Hin) as (r & Hr & Hid & Hne & Heq).
  exists r. split_and!; [done|done|done|]. intros Hidr. unfold patched_text.
  assert (Hc : In (column_named tb k) (schema_of tb) /\ col_name (column_named tb k) = k /\
    In k (allowed_of tb) /\ col_type (column_named tb k) = TEXT).
  { destruct tb; destruct Hk as [<-|[<-|[]]]; cbn [hash_column]; (split; [in_list|]); (split; [done|]);
      (split; [in_list|done]). }
  destruct Hc as (Hcin & Hname & Hall & Htext).
  specialize (Heq Hidr _ Hcin). rewrite Hname in Heq. specialize (Heq Hall Htext).
  by destruct (rec_get given k) as [[[]| | |]|].
Qed.

Lemma together_patched tb id given t d d' :
  db_ok d' -> patched_rows tb id given d d' ->
  (forall s, rec_get given "status" = Some (JScalar (FStr s)) ->
     final_status s = true \/ ~ reported (item_url tb id) t) ->
  together t d -> together t d'.
Proof.
  intros Hok' Hp Hst [Hok Hclean Hlisted Hfinal Hlist].
  assert (Hids : forall tb' r', In r' (rows_of tb' d') ->
    exists r, In r (rows_of tb' d) /\ fget r "id" = fget r' "id").
  { intros tb' r' Hin. apply (in_map (fun r => fget r "id")) in Hin.
    change (map _ _) with (ids (rows_of tb' d')) in Hin.
    rewrite (patched_same_ids tb id given d d') in Hin by done.
    apply in_map_iff in Hin as (r & ? & ?). by exists r. }
  split; try done.
  - intros tb' r' id' Hin Hid. destruct (Hids tb' r' Hin) as (r & Hr & E).
    eapply Hclean; [exact Hr|congruence].
  - intros tb' row Hl. destruct (Hlisted tb' row Hl) as (r & Hr & E).
    apply (in_map (fun r => fget r "id")) in Hr. change (map _ _) with (ids (rows_of tb' d)) in Hr.
    rewrite <-(patched_same_ids tb id given d d') in Hr by done.
    apply in_map_iff in Hr as (r' & E' & ?). exists r'. split; [done|congruence].
  - intros tb' id' r' Hrep Hin Hid. destruct (decide (tb = tb')) as [<-|Hne].
    2: { destruct Hp as (set & _ & _ & _ & Hother). rewrite Hother in Hin by done. by eapply Hfinal. }
    destruct (patched_cell tb id given d d' r' "status") as (r & Hr & E & Hsame & Hcell);
      [by left|done..|]. assert (Hidr : fget r "id" = FStr id') by congruence.
    pose proof (Hfinal tb id' r Hrep Hr Hidr) as Hfr.
    destruct (decide (fget r "id" = FStr id)) as [Hi|Hi]; [|by rewrite (Hsame Hi)].
    assert (id' = id) as -> by congruence. specialize (Hcell Hi). unfold patched_text in Hcell.
    destruct Hfr as (s0 & Hs0 & Hf0).
    destruct (rec_get given "status") as [[[|z|z|s]| | |]|] eqn:Eg;
      try (exists s0; split; [congruence|done]).
    exists s. split; [done|]. by destruct (Hst s eq_refl).
Qed.

(** *** New events *)

Lemma together_event e t d :
  listing_ok e t ->
  (forall tb st rows, e = Ev (QApiGet (API_URL cfg +:+ listing_path tb) (auth cfg)) (Resp st (Some rows)) ->
     resp_ok st = true -> forall row, In row rows -> exists r, In r (rows_of tb d) /\ fget r "id" = FStr (row_id row)) ->
  (forall tb id r, settling e = Some (item_url tb id) -> accepted e = true ->
     In r (rows_of tb d) -> fget r "id" = FStr id -> is_final r) ->
  together t d -> together (e :: t) d.
Proof.
  intros Hle Hrows Hset [Hok Hclean Hlisted Hfinal Hlist]. split; try done.
  - intros tb row (st & rows & [->|Hin] & Hst & Hrow); [by eapply Hrows|].
    apply Hlisted. by exists st, rows.
  - intros tb id r [[H1 H2]|H]%reported_cons Hin Hid; [by eapply Hset|by eapply Hfinal].
Qed.

(** An event that is neither a listing nor an accepted final report. *)
Lemma together_quiet e t d :
  (forall tb st rows, e <> Ev (QApiGet (API_URL cfg +:+ listing_path tb) (auth cfg)) (Resp st (Some rows))) ->
  settling e = None \/ accepted e = false ->
  together t d -> together (e :: t) d.
Proof.
  intros Hl Hs. apply together_event.
  - intros tb st rows He. by destruct (Hl tb st rows).
  - intros tb st rows He. by destruct (Hl tb st rows).
  - intros tb id r Hset Hacc. destruct Hs; congruence.
Qed.

(** *** Calls *)

Lemma json_rows_inj rows rows' : map json_of_row rows = map json_of_row rows' -> rows = rows'.
Proof.
  revert rows'. induction rows as [|r rows IH]; intros [|r' rows']; try done.
  cbn [map]. unfold json_of_row at 1 3. intros [= Hr Hrows]. f_equal; [|by apply IH].
  clear -Hr. revert r' Hr. induction r as [|[k f] r IHr]; intros [|[k' f'] r'] Hr; try done.
  injection Hr as -> -> Hr. f_equal. by apply IHr.
Qed.

Lemma handle_grown rt rq d :
  fed_authorized rt (rq_authorization rq) = false \/ is_item_request rq = false ->
  grown rt d (snd (handle_request rt rq d)).
Proof.
  assert (Hd : forall rq', fed_authorized rt (rq_authorization rq') = false \/ is_item_request rq' = false ->
    grown rt d (snd (dispatch rt rq' d))).
  { intros rq' Hi. pose proof (route_grows rt rq' Hi d) as Hg. unfold dispatch.
    by destruct (route rt rq' d) as [[a|m] d']. }
  intros Hi. unfold handle_request. destruct (rq_method rq) eqn:Hm; try by apply Hd.
  - by apply grown_refl.
  - specialize (Hd (Request GET (rq_path rq) (rq_authorization rq) (rq_body rq))).
    destruct (dispatch _ _ _) as [a d']. apply Hd. right. unfold is_item_request. cbn [rq_path rq_method].
    by repeat (case_match; try done).
Qed.

Lemma handle_ok rt rq d : db_ok d -> db_ok (snd (handle_request rt rq d)).
Proof. apply db_step_ok, handle_request_steps. Qed.

(** No id is listed twice. *)
Lemma listed_ids_nodup tb p desc d : db_ok d -> NoDup (ids (select_where tb p desc d)).
Proof.
  intros Hok. apply (db_ok_table tb) in Hok as [_ Hnd]. unfold ids in *.
  assert (Hperm : select_where tb p desc d ≡ₚ List.filter p (rows_of tb d)) by apply order_by_perm.
  rewrite Hperm. clear -Hnd. induction (rows_of tb d) as [|r l IH]; [constructor|]. cbn [List.filter map] in *.
  apply list.NoDup_cons in Hnd as [Hn Hnd]. destruct (p r); [|by apply IH].
  cbn [map]. apply list.NoDup_cons. split; [|by apply IH].
  rewrite list_elem_of_In in Hn |- *. rewrite in_map_iff in Hn |- *.
  intros (x & Hx & [Hin _]%filter_In). apply Hn. by exists x.
Qed.

(** The listing of a table names each of its open rows once. *)
Lemma listing_answer_ok tb t d rows :
  together t d -> rows = select_where tb (is_open tb) false d ->
  NoDup (map row_id rows) /\
  forall row, In row rows -> ~ reported (item_url tb (row_id row)) t /\
    exists r, In r (rows_of tb d) /\ fget r "id" = FStr (row_id row).
Proof.
  intros [Hok Hclean Hlisted Hfinal Hlist] ->.
  assert (Hid : forall row, In row (select_where tb (is_open tb) false d) ->
    In row (rows_of tb d) /\ is_open tb row = true /\ fget row "id" = FStr (row_id row)).
  { intros row [Hin Hopen]%select_where_in. split_and!; [done|done|].
    apply (db_ok_table tb) in Hok as [Hrok _]. rewrite list.Forall_forall in Hrok.
    destruct (Hrok row) as (_ & _ & id & Hid); [by apply list_elem_of_In|].
    unfold row_id, str_field, fget_str. by rewrite Hid. }
  split.
  - apply (NoDup_fmap_1 FStr). change (FStr <$> map row_id ?l) with (map FStr (map row_id l)). rewrite map_map.
    rewrite (map_ext_in _ (fun r => fget r "id")) by (intros r Hin; by destruct (Hid r Hin) as (_ & _ & ->)).
    by apply listed_ids_nodup.
  - intros row Hin. destruct (Hid row Hin) as (Hr & Hopen & Hi). split; [|by exists row].
    intros Hrep. by eapply open_not_final, Hfinal.
Qed.

Lemma together_get rt url a rq r t d :
  trace_ok (event_ok cfg) t -> segment (rt_uuid rt) = true ->
  call_request (QApiGet url a) = Some rq ->
  seen (QApiGet url a) (fst (handle_request rt rq d)) r \/ lost (QApiGet url a) r ->
  together t d -> together (Ev (QApiGet url a) r :: t) (snd (handle_request rt rq d)).
Proof.
  intros Hev Hu Hrq Hr Ht. cbn [call_request] in Hrq.
  destruct (request_path url) as [p|] eqn:Ep; [|done]. injection Hrq as <-.
  assert (Ht' : together t (snd (handle_request rt (Request GET p (Some a) None) d))).
  { apply (together_grown rt t d); [done|done| |apply handle_ok, Ht|done].
    apply handle_grown. right. unfold is_item_request. cbn [rq_path rq_method].
    by repeat (case_match; try done). }
  assert (Hl : forall tb st rows,
    Ev (QApiGet url a) r = Ev (QApiGet (API_URL cfg +:+ listing_path tb) (auth cfg)) (Resp st (Some rows)) ->
    resp_ok st = true -> rows = select_where tb (is_open tb) false d /\
      snd (handle_request rt (Request GET p (Some a) None) d) = d).
  { intros tb st rows He Hst.
    assert (Hq : QApiGet url a = QApiGet (API_URL cfg +:+ listing_path tb) (auth cfg)) by exact (f_equal ev_query He).
    injection Hq as -> ->. rewrite listing_request_path in Ep. injection Ep as <-.
    apply ev_inj in He as ->.
    pose proof (handle_listing rt tb (Some (auth cfg)) None d) as Hh.
    destruct (handle_request _ _ _) as [ans d']. destruct Hh as [-> Hans]. split; [|done].
    cbn [fst] in Hr. destruct Hr as [Hseen|[m [=]]]. cbn [seen] in Hseen.
    destruct Hans as [(st' & b & -> & Hbad)| ->].
    - destruct Hseen as (b' & [= <- _] & _). congruence.
    - destruct Hseen as (b' & [= -> <-] & Hrows). specialize (Hrows rows eq_refl).
      injection Hrows as Hrows. by apply json_rows_inj in Hrows. }
  apply together_event; [| | |done].
  - intros tb st rows He Hst. destruct (Hl tb st rows He Hst) as [-> _].
    destruct (listing_answer_ok tb t d _ Ht eq_refl) as [Hnd Hun]. split; [done|].
    intros row Hin. by destruct (Hun row Hin).
  - intros tb st rows He Hst row Hin. destruct (Hl tb st rows He Hst) as [-> ->].
    destruct (listing_answer_ok tb t d _ Ht eq_refl) as [_ Hun]. by destruct (Hun row Hin).
  - done.
Qed.

(** A justified final report goes to a row of the table, whose id a path can carry. *)
Lemma report_target url a body r t d tb id :
  event_ok cfg (Ev (QApiPatch url a body) r) t -> together t d ->
  settling (Ev (QApiPatch url a body) r) = Some (item_url tb id) ->
  segment id = true /\ url = item_url tb id /\
  exists st, fget_str body "status" = Some st /\ final_status st = true.
Proof.
  intros He Ht Hset. apply settling_status in Hset as (a' & body' & st & [= -> <- <-] & Hst & Hf).
  destruct (status_report_fresh _ _ _ _ He Hst) as (tb' & row & Hurl & Hfr & _).
  apply item_url_inj in Hurl as [<- ->].
  destruct (tg_listed _ _ Ht tb row) as (r0 & Hr0 & Hid0); [by eapply fresh_listed|].
  split_and!; [by eapply (tg_clean _ _ Ht)|done|eauto].
Qed.

Lemma item_request_dec rq :
  is_item_request rq = true ->
  exists tb id, id <> "" /\ rq_method rq = PATCH /\ rq_path rq = "v1" :: "fed" :: item_route tb id.
Proof.
  destruct rq as [m p a b]. unfold is_item_request, is_item. cbn [rq_method rq_path].
  intros H. repeat (case_match; try done); subst;
    first [exists Deposits; eexists; split_and!; [|reflexivity..]; done
      |exists Withdrawals; eexists; split_and!; [|reflexivity..]; done].
Qed.

Lemma fget_str_given body s :
  rec_get (map (fun kv => (fst kv, JScalar (snd kv))) body) "status" = Some (JScalar (FStr s)) <->
  fget_str body "status" = Some s.
Proof.
  rewrite rec_get_map. unfold fget_str, fget. destruct (rec_get body "status") as [[]|]; cbn;
    naive_solver.
Qed.

Lemma together_patch rt url a body rq r t d :
  trace_ok (event_ok cfg) (Ev (QApiPatch url a body) r :: t) -> segment (rt_uuid rt) = true ->
  call_request (QApiPatch url a body) = Some rq ->
  seen (QApiPatch url a body) (fst (handle_request rt rq d)) r \/ lost (QApiPatch url a body) r ->
  together t d -> together (Ev (QApiPatch url a body) r :: t) (snd (handle_request rt rq d)).
Proof.
  intros [He Hev] Hu Hrq Hr Ht. cbn [call_request] in Hrq.
  destruct (request_path url) as [p|] eqn:Ep; [|done]. injection Hrq as <-.
  pose proof (handle_ok rt (Request PATCH p (Some a) (Some (json_of_row body))) d (tg_ok _ _ Ht)) as Hok'.
  set (given := map (fun kv => (fst kv, JScalar (snd kv))) body) in *.
  change (json_of_row body) with (JObj given) in *.
  destruct (is_item_request (Request PATCH p (Some a) (Some (JObj given)))) eqn:Ei.
  - apply item_request_dec in Ei as (tb & id & Hne & _ & Hp). cbn [rq_path] in Hp. subst p.
    apply item_request_url in Ep as [-> Hid].
    pose proof (handle_patch rt tb id (Some a) given d (tg_ok _ _ Ht) Hne) as Hh.
    destruct (handle_request _ _ d) as [ans d']. cbn [fst snd] in *.
    assert (Ht' : together t d').
    { destruct Hh as [[_ ->]|Hp]; [done|]. eapply together_patched; [done..| |done].
      intros s Hs%fget_str_given.
      destruct (status_report_fresh _ _ _ _ He Hs) as (tb' & row & [<- ->]%item_url_inj & Hfr & _).
      right. eapply fresh_unreported; [apply Ht|done]. }
    apply together_event; [done|done| |done].
    intros tb' id' r' Hset Hacc Hin Hidr.
    destruct (report_target _ _ _ _ _ _ _ _ He Ht Hset) as (_ & [<- <-]%item_url_inj & st & Hst & Hf).
    destruct Hh as [[(st' & b & -> & Hbad) _]|Hp].
    + destruct Hr as [(b' & ->)|[m ->]]; cbn [accepted] in Hacc; congruence.
    + destruct (patched_cell tb id given d d' r' "status") as (r0 & Hr0 & E & _ & Hcell);
        [by left|apply Ht|done..|].
      exists st. split; [|done]. rewrite Hcell by congruence. unfold patched_text.
      unfold given. by rewrite (proj2 (fget_str_given body st) Hst).
  - assert (Ht' : together t (snd (handle_request rt (Request PATCH p (Some a) (Some (JObj given))) d))).
    { apply (together_grown rt t d); [done|done| |done|done]. apply handle_grown. by right. }
    apply together_event; [done|done| |done].
    intros tb id r' Hset _ _ _.
    destruct (report_target _ _ _ _ _ _ _ _ He Ht Hset) as ([Hne Hid]%segment_inv & -> & _).
    rewrite item_request_path in Ep by done. injection Ep as <-. destruct id; [done|]. by destruct tb.
Qed.

Lemma lost_quiet q r :
  lost q r ->
  (forall tb st rows, Ev q r <> Ev (QApiGet (API_URL cfg +:+ listing_path tb) (auth cfg)) (Resp st (Some rows))) /\
  accepted (Ev q r) = false.
Proof.
  destruct q; cbn [lost]; try done; intros [m ->]; (split; [|done]); intros tb st rows He;
    try (by apply (f_equal ev_query) in He).
  assert (Hq : QApiGet path auth = QApiGet (API_URL cfg +:+ listing_path tb) (Federation.auth cfg))
    by exact (f_equal ev_query He).
  injection Hq as -> ->. by apply ev_inj in He.
Qed.

Definition clean_ids (d : db) : Prop :=
  forall tb r id, In r (rows_of tb d) -> fget r "id" = FStr id -> segment id = true.

Lemma served_together d0 t d :
  db_ok d0 -> clean_ids d0 -> served d0 t d -> trace_ok (event_ok cfg) t -> together t d.
Proof.
  intros Hok0 Hclean0 Hs.
  induction Hs as [|rt rq t d Hs IH Hu Ha|rt rq q r t d Hs IH Hu Hrq Hr|q r t d Hs IH Hl|q r t d Hs IH Hn];
    intros Hev.
  - split; try done.
    + by intros tb row (st & rows & [] & _).
    + by intros tb id r (e & [] & _).
  - apply (together_grown rt t d); [done|done| | |by apply IH].
    + apply handle_grown. by left.
    + by apply handle_ok, IH.
  - pose proof (proj2 Hev) as Hev'. specialize (IH Hev').
    destruct q; try (by cbn in Hrq); [by apply together_get|by apply together_patch|].
    apply together_quiet; [intros tb st rows He; by apply (f_equal ev_query) in He|by left|].
    cbn [call_request] in Hrq. destruct (request_path path) as [p|]; [|done]. injection Hrq as <-.
    apply (together_grown rt t d); [done|done| |apply handle_ok, IH|done].
    apply handle_grown. right. unfold is_item_request. cbn [rq_path rq_method].
    by repeat (case_match; try done).
  - destruct (lost_quiet q r Hl) as [H1 H2]. apply together_quiet; [done|by right|].
    by apply IH, (proj2 Hev).
  - destruct Hev as [He Hev]. specialize (IH Hev). apply together_event; [| | |done].
    + intros tb st rows Heq. apply (f_equal ev_query) in Heq. cbn in Heq. subst q.
      cbn [call_request] in Hn. by rewrite listing_request_path in Hn.
    + intros tb st rows Heq. apply (f_equal ev_query) in Heq. cbn in Heq. subst q.
      cbn [call_request] in Hn. by rewrite listing_request_path in Hn.
    + intros tb id r' Hset _ _ _. pose proof (settling_status _ _ _ Hset) as (a & body & st & -> & _).
      destruct (report_target _ _ _ _ _ _ _ _ He IH Hset) as ([_ Hid]%segment_inv & _ & _).
      cbn [call_request] in Hn. by rewrite item_request_path in Hn.
Qed.

(** *** Rows with a final status are earned *)

(** What the reports carry: a hash exactly with the status that needs one. *)
Definition patch_form (e : event) : Prop :=
  match ev_query e with
  | QApiPatch _ _ body =>
      match fget_str body "status" with
      | None => forall tb, fget_str body (hash_column tb) = None
      | Some st => forall tb, st = done_status tb -> exists h, fget_str body (hash_column tb) = Some h
      end
  | _ => True
  end.

Definition done_reported (tb : table_name) (url hash : string) (t : trace) : Prop :=
  match tb with
  | Deposits => mint_reported cfg url hash t
  | Withdrawals => completion_reported cfg url hash t
  end.

Lemma done_report tb url body h t :
  patch_justified cfg url body t -> fget_str body "status" = Some (done_status tb) ->
  fget_str body (hash_column tb) = Some h -> done_reported tb url h t.
Proof.
  unfold patch_justified, str_field. intros Hj Hst Hh. rewrite Hst in Hj.
  destruct tb; cbn in Hj, Hh; by rewrite Hh in Hj.
Qed.

(** The row had its final status from the start, or an earlier report gave it. *)
Definition earned (d0 : db) (t : trace) (tb : table_name) (r : record) : Prop :=
  (exists r0, In r0 (rows_of tb d0) /\ fget r0 "id" = fget r "id" /\
     fget r0 "status" = FStr (done_status tb) /\ fget r0 (hash_column tb) = fget r (hash_column tb)) \/
  exists id h after before, fget r "id" = FStr id /\ fget r (hash_column tb) = FStr h /\
    t = after ++ before /\ done_reported tb (item_url tb id) h before.

Lemma earned_cons d0 e t tb r : earned d0 t tb r -> earned d0 (e :: t) tb r.
Proof.
  intros [H|(id & h & after & before & H1 & H2 & -> & H3)]; [by left|].
  right. by exists id, h, (e :: after), before.
Qed.

Lemma earned_same d0 t tb r r' :
  fget r' "id" = fget r "id" -> fget r' (hash_column tb) = fget r (hash_column tb) ->
  earned d0 t tb r -> earned d0 t tb r'.
Proof. intros Hid Hh. unfold earned. by rewrite Hid, Hh. Qed.

Definition all_earned (d0 : db) (t : trace) (d : db) : Prop :=
  forall tb r, In r (rows_of tb d) -> fget r "status" = FStr (done_status tb) -> earned d0 t tb r.

Lemma all_earned_grown rt d0 t d d' : grown rt d d' -> all_earned d0 t d -> all_earned d0 t d'.
Proof.
  intros Hg He tb r Hin Hst. destruct (Hg tb) as (new & E & Hnew). rewrite E in Hin.
  apply in_app_iff in Hin as [Hin|Hin]; [by apply He|].
  rewrite list.Forall_forall in Hnew. apply list_elem_of_In, Hnew in Hin as [_ Hp].
  rewrite Hst in Hp. by destruct tb.
Qed.

Lemma fget_str_patched body k old :
  patched_text (map (fun kv => (fst kv, JScalar (snd kv))) body) k old =
    match fget_str body k with Some s => FStr s | None => old end.
Proof.
  unfold patched_text. rewrite rec_get_map. unfold fget_str, fget. by destruct (rec_get body k) as [[]|].
Qed.

Lemma all_earned_patch d0 tb id a body r t d d' :
  db_ok d -> event_ok cfg (Ev (QApiPatch (item_url tb id) a body) r) t ->
  patch_form (Ev (QApiPatch (item_url tb id) a body) r) ->
  patched_rows tb id (map (fun kv => (fst kv, JScalar (snd kv))) body) d d' ->
  all_earned d0 t d -> all_earned d0 (Ev (QApiPatch (item_url tb id) a body) r :: t) d'.
Proof.
  intros Hd Hev Hform Hp He tb' r' Hin Hst'. unfold patch_form in Hform. cbn [ev_query] in Hform.
  destruct (decide (tb = tb')) as [<-|Hne].
  2: { destruct Hp as (set & _ & _ & _ & Hother). rewrite Hother in Hin by done. by apply earned_cons, He. }
  set (given := map _ body) in Hp.
  destruct (patched_cell tb id given d d' r' "status") as (r0 & Hr0 & Hid0 & Hsame & Hcell); [by left|done..|].
  destruct (decide (fget r0 "id" = FStr id)) as [Hi|Hi];
    [|rewrite (Hsame Hi) in *; by apply earned_cons, He].
  specialize (Hcell Hi). unfold given in Hcell. rewrite fget_str_patched in Hcell.
  destruct (patched_cell tb id given d d' r' (hash_column tb)) as (r1 & Hr1 & Hid1 & _ & Hhash);
    [by right; left|done..|].
  assert (r1 = r0) as -> by (eapply unique_id; [exact Hd|done|done|congruence]).
  specialize (Hhash Hi). unfold given in Hhash. rewrite fget_str_patched in Hhash.
  destruct (fget_str body "status") as [st|] eqn:Est.
  - assert (Heq : st = done_status tb) by congruence. subst st.
    destruct (Hform tb eq_refl) as [h Hh]. rewrite Hh in Hhash.
    right. exists id, h, [Ev (QApiPatch (item_url tb id) a body) r], t.
    split_and!; [congruence|done|done|]. eapply done_report; [exact Hev|done|done].
  - rewrite Hform in Hhash. apply earned_cons. eapply earned_same; [exact Hid1|exact Hhash|].
    apply He; [done|congruence].
Qed.

Lemma served_earned d0 t d :
  db_ok d0 -> served d0 t d -> trace_ok (event_ok cfg) t -> Forall patch_form t ->
  db_ok d /\ all_earned d0 t d.
Proof.
  intros Hok0 Hs.
  induction Hs as [|rt rq t d Hs IH Hu Ha|rt rq q r t d Hs IH Hu Hrq Hr|q r t d Hs IH Hl|q r t d Hs IH Hn];
    intros Hev Hform.
  - split; [done|]. intros tb r Hin Hst. left. by exists r.
  - destruct (IH Hev Hform) as [Hok He]. split; [by apply handle_ok|].
    eapply all_earned_grown; [|done]. apply handle_grown. by left.
  - destruct Hev as [He1 Hev]. inversion Hform as [|? ? Hf1 Hform']; subst.
    destruct (IH Hev Hform') as [Hok He]. split; [by apply handle_ok|].
    destruct (is_item_request rq) eqn:Ei.
    2: { intros tb r' Hin Hst. apply earned_cons. eapply all_earned_grown; [|done|done|done].
         apply handle_grown. by right. }
    apply item_request_dec in Ei as (tb & id & Hne & Hm & Hp). destruct q; try done;
      cbn [call_request] in Hrq; (destruct (request_path path) as [p|] eqn:Ep; [|done]); injection Hrq as <-;
      [done| |done].
    cbn [rq_path] in Hp. subst p. apply item_request_url in Ep as [-> Hid].
    pose proof (handle_patch rt tb id (Some auth) (map (fun kv => (fst kv, JScalar (snd kv))) body) d Hok Hne) as Hh.
    change (json_of_row body) with (JObj (map (fun kv => (fst kv, JScalar (snd kv))) body)).
    destruct (handle_request _ _ d) as [ans d']. cbn [snd].
    destruct Hh as [[_ ->]|Hp]; [intros tb' r' Hin Hst; by apply earned_cons, He|].
    by eapply all_earned_patch.
  - destruct (IH (proj2 Hev) (Forall_inv_tail Hform)) as [Hok He]. split; [done|].
    intros tb r' Hin Hst. by apply earned_cons, He.
  - destruct (IH (proj2 Hev) (Forall_inv_tail Hform)) as [Hok He]. split; [done|].
    intros tb r' Hin Hst. by apply earned_cons, He.
Qed.

(** Every PATCH of the loop has one of five bodies. *)
Context `{VL : ViemLibrary} `{EN : Environment}.

Hint Resolve silent_emits getAccount_silent getWalletClient_silent getPublicClient_silent
  getWallet_silent lift_silent http_json_silent : emits.

Lemma report_form path body :
  match fget_str body "status" with
  | None => forall tb, fget_str body (hash_column tb) = None
  | Some st => forall tb, st = done_status tb -> exists h, fget_str body (hash_column tb) = Some h
  end -> emits patch_form (apiPatch cfg path body).
Proof. intros Hb. by apply apiPatch_emits. Qed.

Ltac form_step :=
  match goal with
  | |- emits _ (apiPatch _ _ _) =>
      apply report_form; cbn; (intros []; (reflexivity || (intros [=]; eexists; reflexivity) || discriminate))
  | |- emits _ (getTipHeight _) => apply getTipHeight_emits; exact (fun _ => I)
  | |- patch_form _ => exact I
  | _ => emit_step
  end.

Lemma processOneDeposit_form d : emits patch_form (processOneDeposit cfg d).
Proof.
  unfold processOneDeposit, assignDepositAddress, processDeposit, checkAddressForDeposits, mintEcx, record_mint.
  repeat form_step.
Qed.

Lemma processOneWithdrawal_form now w : emits patch_form (processOneWithdrawal cfg now w).
Proof.
  assert (Hc : forall network url ds, emits (S:=service) patch_form (collect_utxos network url ds)).
  { intros network url ds. induction ds as [|d ds IH]; cbn [collect_utxos]; [apply emits_ret|].
    apply emits_bind; [|intros; apply emits_bind; [done|intros; apply emits_ret]].
    unfold collect_deposit, fetchUtxos. repeat form_step. }
  unfold processOneWithdrawal, processWithdrawal, complete_withdrawal, verifyBurnTx, fetchFundedDeposits,
    buildSignAndBroadcastWithdrawal, broadcastTx.
  repeat (apply Hc || form_step).
Qed.

Lemma main_loop_form n : emits patch_form (main_loop cfg n).
Proof.
  induction n as [|n IH]; cbn [main_loop]; [apply emits_ret|]. apply emits_bind; [|done].
  unfold poll_once, checkIn, apiPost, processPendingDeposits, processPendingWithdrawals, apiGet.
  repeat ((apply emits_for; intros ? _) || apply processOneDeposit_form || apply processOneWithdrawal_form || form_step).
Qed.

Lemma loop_trace_form n s : Forall patch_form (loop_trace cfg n s).
Proof.
  unfold loop_trace. pose proof (main_loop_form n s []) as Hr. unfold runs in Hr.
  destruct (main_loop cfg n s []) as [[o s'] t']. destruct Hr as (new & -> & Hnew). by rewrite app_nil_r.
Qed.
End calls.
