(* ===== verification/BridgeProps.v ===== *)
(** * The bridge: what the service and the API keep together

    A concrete deployment (the API answers the service's calls, any other world
    the rest), and the theorems: no deposit is minted and no withdrawal paid
    again once its report is accepted, and what the tables say was done was. *)

From Stdlib Require Import ZArith Lia Ascii String List Bool.
From stdpp Require Import base list strings numbers.
From S2P Require Import Prelude JsNumber HdWallet Effects Withdraw Federation Minting Json Database Api ApiSpec ApiProps Bridge.
Local Open Scope Z_scope.

(** ** A world in which the API answers *)

Section deployment.
Context `{SQ : Sqlite} `{ZD : Zod} `{CH : Chanfana}.
Context (cfg : Config) (rt : runtime) (d0 : db).

Definition row_of_json (j : json) : option record :=
  match j with
  | JObj fields => mapM (fun kv => match snd kv with JScalar f => Some (fst kv, f) | _ => None end) fields
  | _ => None
  end.

Definition http_of {A} (a : answer) (body : json -> option A) : http A :=
  match a with Answer st j => Resp st (body j) | _ => NetErr "forwarded" end.

Definition api_reply (q : query) (a : answer) (other : reply q) : reply q :=
  match q return reply q -> reply q with
  | QApiGet _ _ => fun _ => http_of a (fun j => match j with JArr l => mapM row_of_json l | _ => None end)
  | QApiPatch _ _ _ => fun _ => http_of a (fun _ => Some tt)
  | QApiPost _ _ => fun _ => http_of a (fun _ => Some tt)
  | _ => fun other => other
  end other.

(** The tables after the calls of a trace, of which [drop] are lost. *)
Fixpoint tables (drop : query -> bool) (t : trace) : db :=
  match t with
  | [] => d0
  | Ev q _ :: before =>
      if drop q then tables drop before
      else match call_request cfg q with
           | Some rq => snd (handle_request rt rq (tables drop before))
           | None => tables drop before
           end
  end.

Definition no_answer (q : query) (other : reply q) : reply q :=
  match q return reply q -> reply q with
  | QApiGet _ _ => fun _ => NetErr "timeout"
  | QApiPatch _ _ _ => fun _ => NetErr "timeout"
  | QApiPost _ _ => fun _ => NetErr "timeout"
  | _ => fun other => other
  end other.

(** The API answers the calls it gets; [w] answers the others. *)
Definition deployed (drop : query -> bool) (w : Environment) : Environment := fun q t =>
  if drop q then no_answer q (w q t)
  else match call_request cfg q with
       | Some rq => api_reply q (fst (handle_request rt rq (tables drop t))) (w q t)
       | None => w q t
       end.

Definition answered (E : Environment) : trace -> Prop :=
  trace_ok (fun e before => ev_reply e = E (ev_query e) before).

Lemma rows_of_json_ok l rows : mapM row_of_json l = Some rows -> l = map json_of_row rows.
Proof.
  intros H. apply mapM_Some_1 in H. induction H as [|j r l rows Hj _ IH]; [done|].
  cbn [map]. f_equal; [|done]. destruct j as [| | |fields]; try done. unfold json_of_row. f_equal.
  apply mapM_Some_1 in Hj. induction Hj as [|[k v] [k' f] fields r Hv _ IHr]; [done|].
  cbn [map]. f_equal; [|done]. cbn in Hv. destruct v; try done. by injection Hv as -> ->.
Qed.

Lemma api_reply_seen q a other : seen q a (api_reply q a other).
Proof.
  destruct q; try done; cbn [seen api_reply]; destruct a; try done; eexists; split; try done.
  intros rows. destruct body as [| |l|]; try done. intros H. f_equal. by apply rows_of_json_ok.
Qed.

Lemma served_deployed drop w t :
  segment (rt_uuid rt) = true ->
  (forall q, drop q = true -> exists rq, call_request cfg q = Some rq) ->
  answered (deployed drop w) t -> served cfg d0 t (tables drop t).
Proof.
  intros Hu Hdrop. induction t as [|[q r] t IH]; [intros _; constructor|].
  intros [Hr Ht]. specialize (IH Ht). cbn [ev_reply ev_query] in Hr. subst r. cbn [tables].
  unfold deployed at 1. destruct (drop q) eqn:Ed.
  - destruct (Hdrop q Ed) as [rq Hrq]. apply served_dropped; [done|].
    destruct q; try done; by eexists.
  - destruct (call_request cfg q) as [rq|] eqn:Eq; [|by apply served_elsewhere].
    eapply served_call; [done|done|done|]. left. apply api_reply_seen.
Qed.
End deployment.

(** One deposit and one withdrawal asked for; the service finds both. *)
Definition bridge_start : db :=
  after_request (toy_runtime 1000 "w1") (withdraw_request "0.0005")
    (after_request (toy_runtime 1000 "d1") (create_request ("0x" +:+ user_hex) "signet") empty_db).

Definition bridge_runtime : runtime := toy_runtime 5000 "unused".

Definition bridge_world (drop : query -> bool) : Environment :=
  deployed toy_cfg bridge_runtime bridge_start drop (toy_world []).

Definition bridge_trace (drop : query -> bool) (n : nat) : trace :=
  @loop_trace toy_library toy_btc toy_viem (bridge_world drop) toy_cfg n (@boot toy_library).

#[local] Strategy expand [bridge_trace].

Definition bridge_tables (drop : query -> bool) (n : nat) : db :=
  tables toy_cfg bridge_runtime bridge_start drop (bridge_trace drop n).

Definition nothing_lost (q : query) : bool := false.

(** Reports of a mint never reach the API. *)
Definition mint_reports_lost (q : query) : bool :=
  match q with
  | QApiPatch url _ body => bool_decide (url = item_url toy_cfg Deposits "d1")
      && bool_decide (fget_str body "status" = Some "minted")
  | _ => false
  end.

Lemma bridge_start_ok : db_ok bridge_start.
Proof. apply reachable_ok. do 2 apply reach_request. apply reach_init. Qed.

Lemma bridge_start_clean : clean_ids bridge_start.
Proof. intros [] r id Hin Hid; vm_compute in Hin; destruct Hin as [<-|[]]; by injection Hid as <-. Qed.

Lemma bridge_served : served toy_cfg bridge_start (bridge_trace nothing_lost 2) (bridge_tables nothing_lost 2).
Proof.
  apply served_deployed with (w := toy_world []); [done|done|].
  vm_compute. repeat (split; [reflexivity|]). exact I.
Qed.

Lemma bridge_lossy_served :
  served toy_cfg bridge_start (bridge_trace mint_reports_lost 3) (bridge_tables mint_reports_lost 3).
Proof.
  apply served_deployed with (w := toy_world []); [done| |].
  - intros [] H; try done. unfold mint_reports_lost in H. apply andb_true_iff in H as [H _].
    apply bool_decide_eq_true in H as ->. by eexists.
  - vm_compute. repeat (split; [reflexivity|]). exact I.
Qed.

(** ** Properties *)

Section properties.
Context `{HL : HdLibrary} `{BL : BtcLibrary} `{VL : ViemLibrary} `{EN : Environment}.
Context `{SQ : Sqlite} `{ZD : Zod} `{CH : Chanfana}.

(** C8. A deposit is minted once. When the service polls the bridge API, every
    transaction it sends mints the confirmed total of a deposit no "minted"
    report of which was accepted before; so once the report of a mint arrives,
    that deposit is never minted again, whatever the other servers answer,
    whatever requests others send to the API, and whichever replies are lost. *)
Theorem minted_deposit_is_not_minted_again cfg d0 d n s after network to data r before :
  db_ok d0 -> clean_ids d0 -> served cfg d0 (loop_trace cfg n s) d ->
  loop_trace cfg n s = after ++ Ev (QSendTx network to data) r :: before ->
  exists dep hit, deposit_funded cfg dep hit before /\
    network = d_network dep /\ to = NATIVE_MINTER /\
    data = encodeMintCall (d_snowside_address dep) (hit_amount hit * 10 ^ 10) /\
    ~ reported (item_url cfg Deposits (d_id dep)) before.
Proof.
  intros Hd0 Hc0 Hs Ht. pose proof (loop_trace_ok cfg n s) as Hok.
  pose proof (tg_listings _ _ _ (served_together _ _ _ _ Hd0 Hc0 Hs Hok)) as Hl.
  rewrite Ht in Hok, Hl. pose proof (trace_ok_suffix _ _ _ Hl) as [_ Hlb].
  apply trace_ok_split in Hok as (dep & hit & Hf & -> & -> & ->). exists dep, hit.
  split_and!; try done. apply funded_fresh in Hf as (row & -> & Hf).
  by apply (fresh_unreported cfg Deposits row).
Qed.

(** C9. A withdrawal is paid once. Every Bitcoin transaction the service
    broadcasts pays a due withdrawal of which neither "completed" nor "failed"
    was accepted before. *)
Theorem settled_withdrawal_is_not_paid_again cfg d0 d n s after url rawHex r before :
  db_ok d0 -> clean_ids d0 -> served cfg d0 (loop_trace cfg n s) d ->
  loop_trace cfg n s = after ++ Ev (QBroadcast url rawHex) r :: before ->
  exists w, withdrawal_due cfg w before /\ url_of (Federation.ESPLORA_URLS cfg) (w_network w) = Some url /\
    pays_withdrawal w rawHex /\ ~ reported (item_url cfg Withdrawals (w_id w)) before.
Proof.
  intros Hd0 Hc0 Hs Ht. pose proof (loop_trace_ok cfg n s) as Hok.
  pose proof (tg_listings _ _ _ (served_together _ _ _ _ Hd0 Hc0 Hs Hok)) as Hl.
  rewrite Ht in Hok, Hl. pose proof (trace_ok_suffix _ _ _ Hl) as [_ Hlb].
  apply trace_ok_split in Hok as (w & Hdue & Hu & Hp). exists w. split_and!; try done.
  destruct Hdue as (row & burn & now & Hf & -> & _).
  by apply (fresh_unreported cfg Withdrawals row).
Qed.

(** Each record is settled once: a report of a final status is never sent
    for a record after such a report of it was accepted. *)
Theorem final_report_is_unique cfg d0 d n s after e before url :
  db_ok d0 -> clean_ids d0 -> served cfg d0 (loop_trace cfg n s) d ->
  loop_trace cfg n s = after ++ e :: before -> settling e = Some url ->
  ~ reported url before.
Proof.
  intros Hd0 Hc0 Hs Ht Hset. pose proof (loop_trace_ok cfg n s) as Hok.
  pose proof (tg_listings _ _ _ (served_together _ _ _ _ Hd0 Hc0 Hs Hok)) as Hl.
  rewrite Ht in Hok, Hl. pose proof (trace_ok_suffix _ _ _ Hl) as [_ Hlb].
  apply trace_ok_split in Hok. destruct e as [q r].
  apply settling_status in Hset as (a & body & st & -> & Hst & _).
  destruct (status_report_fresh _ _ _ _ _ Hok Hst) as (tb & row & -> & Hf & _).
  by apply (fresh_unreported cfg tb row).
Qed.

(** C10. What the API stores as minted was minted: a deposit row is "minted"
    only if it was from the start, or the service sent the mint of that
    deposit's confirmed total and got a successful receipt for the transaction
    hash the row holds. *)
Theorem minted_rows_are_backed cfg d0 d n s r :
  db_ok d0 -> served cfg d0 (loop_trace cfg n s) d ->
  In r (deposits d) -> fget r "status" = FStr "minted" ->
  (exists r0, In r0 (deposits d0) /\ fget r0 "id" = fget r "id" /\ fget r0 "status" = FStr "minted" /\
     fget r0 "mint_tx_hash" = fget r "mint_tx_hash") \/
  exists id h after before, fget r "id" = FStr id /\ fget r "mint_tx_hash" = FStr h /\
    loop_trace cfg n s = after ++ before /\ mint_reported cfg (item_url cfg Deposits id) h before.
Proof.
  intros Hd0 Hs Hin Hst.
  destruct (served_earned _ _ _ _ Hd0 Hs (loop_trace_ok cfg n s) (loop_trace_form cfg n s)) as [_ He].
  by apply (He Deposits r).
Qed.

(** C11. What the API stores as completed was paid: a withdrawal row is
    "completed" only if it was from the start, or the service broadcast, while
    the withdrawal of that id was due, a transaction built for its address and
    amount, whose reply is the hash the row holds. *)
Theorem completed_rows_are_paid cfg d0 d n s r :
  db_ok d0 -> served cfg d0 (loop_trace cfg n s) d ->
  In r (withdrawals d) -> fget r "status" = FStr "completed" ->
  (exists r0, In r0 (withdrawals d0) /\ fget r0 "id" = fget r "id" /\ fget r0 "status" = FStr "completed" /\
     fget r0 "ecash_tx_hash" = fget r "ecash_tx_hash") \/
  exists id h after before, fget r "id" = FStr id /\ fget r "ecash_tx_hash" = FStr h /\
    loop_trace cfg n s = after ++ before /\ completion_reported cfg (item_url cfg Withdrawals id) h before.
Proof.
  intros Hd0 Hs Hin Hst.
  destruct (served_earned _ _ _ _ Hd0 Hs (loop_trace_ok cfg n s) (loop_trace_form cfg n s)) as [_ He].
  by apply (He Withdrawals r).
Qed.
End properties.

(** *** Witnesses *)

Lemma minted_deposit_is_not_minted_again_witness :
  let t := bridge_trace nothing_lost 2 in
  let k := position is_send t in
  let data := encodeMintCall ("0x" +:+ user_hex) (100000 * 10 ^ 10) in
  exists dep hit, deposit_funded toy_cfg dep hit (drop (S k) t) /\ "signet" = d_network dep /\
    NATIVE_MINTER = NATIVE_MINTER /\
    data = encodeMintCall (d_snowside_address dep) (hit_amount hit * 10 ^ 10) /\
    ~ reported (item_url toy_cfg Deposits (d_id dep)) (drop (S k) t).
Proof.
  intros t k data.
  refine (@minted_deposit_is_not_minted_again toy_library toy_btc toy_viem (bridge_world nothing_lost)
    ref_sqlite ref_zod ref_chanfana toy_cfg bridge_start (bridge_tables nothing_lost 2) 2
    (@boot toy_library) (take k t) "signet" NATIVE_MINTER data (Ok "0xmint") (drop (S k) t)
    bridge_start_ok bridge_start_clean bridge_served _).
  vm_compute. reflexivity.
Defined.

Lemma settled_withdrawal_is_not_paid_again_witness :
  let t := bridge_trace nothing_lost 2 in
  let k := position is_broadcast t in
  exists w, @withdrawal_due toy_cfg w (drop (S k) t) /\
    url_of (Federation.ESPLORA_URLS toy_cfg) (w_network w) = Some "https://esplora.signet.drivechain.info" /\
    @pays_withdrawal toy_library toy_btc w "000800" /\
    ~ reported (item_url toy_cfg Withdrawals (w_id w)) (drop (S k) t).
Proof.
  intros t k.
  apply (@settled_withdrawal_is_not_paid_again toy_library toy_btc toy_viem (bridge_world nothing_lost)
    ref_sqlite ref_zod ref_chanfana toy_cfg bridge_start (bridge_tables nothing_lost 2) 2
    (@boot toy_library) (take k t) _ _ (Resp 200 (Some "l1hash")));
    [apply bridge_start_ok|apply bridge_start_clean|apply bridge_served|].
  vm_compute. reflexivity.
Defined.

Lemma final_report_is_unique_witness :
  let t := bridge_trace nothing_lost 2 in
  let k := position is_minted_report t in
  ~ reported (item_url toy_cfg Deposits "d1") (drop (S k) t).
Proof.
  intros t k.
  apply (@final_report_is_unique toy_library toy_btc toy_viem (bridge_world nothing_lost)
    ref_sqlite ref_zod ref_chanfana toy_cfg bridge_start (bridge_tables nothing_lost 2) 2
    (@boot toy_library) (take k t)
    (default (Ev QNow 0) (t !! k)) (drop (S k) t));
    [apply bridge_start_ok|apply bridge_start_clean|apply bridge_served| |]; vm_compute; reflexivity.
Defined.

Lemma minted_rows_are_backed_witness :
  exists r, In r (deposits (bridge_tables nothing_lost 2)) /\ fget r "status" = FStr "minted" /\
    ((exists r0, In r0 (deposits bridge_start) /\ fget r0 "id" = fget r "id" /\
        fget r0 "status" = FStr "minted" /\ fget r0 "mint_tx_hash" = fget r "mint_tx_hash") \/
     exists id h after before, fget r "id" = FStr id /\ fget r "mint_tx_hash" = FStr h /\
       bridge_trace nothing_lost 2 = after ++ before /\
       mint_reported toy_cfg (item_url toy_cfg Deposits id) h before).
Proof.
  exists (default [] (head (deposits (bridge_tables nothing_lost 2)))).
  assert (Hin : In (default [] (head (deposits (bridge_tables nothing_lost 2))))
    (deposits (bridge_tables nothing_lost 2))) by (vm_compute; left; reflexivity).
  split; [exact Hin|]. split; [vm_compute; reflexivity|]. unfold bridge_trace.
  apply (@minted_rows_are_backed toy_library toy_btc toy_viem (bridge_world nothing_lost)
    ref_sqlite ref_zod ref_chanfana toy_cfg bridge_start (bridge_tables nothing_lost 2) 2
    (@boot toy_library) _ bridge_start_ok bridge_served Hin). vm_compute. reflexivity.
Defined.

Lemma completed_rows_are_paid_witness :
  exists r, In r (withdrawals (bridge_tables nothing_lost 2)) /\ fget r "status" = FStr "completed" /\
    ((exists r0, In r0 (withdrawals bridge_start) /\ fget r0 "id" = fget r "id" /\
        fget r0 "status" = FStr "completed" /\ fget r0 "ecash_tx_hash" = fget r "ecash_tx_hash") \/
     exists id h after before, fget r "id" = FStr id /\ fget r "ecash_tx_hash" = FStr h /\
       bridge_trace nothing_lost 2 = after ++ before /\
       @completion_reported toy_library toy_btc toy_cfg (item_url toy_cfg Withdrawals id) h before).
Proof.
  exists (default [] (head (withdrawals (bridge_tables nothing_lost 2)))).
  assert (Hin : In (default [] (head (withdrawals (bridge_tables nothing_lost 2))))
    (withdrawals (bridge_tables nothing_lost 2))) by (vm_compute; left; reflexivity).
  split; [exact Hin|]. split; [vm_compute; reflexivity|]. unfold bridge_trace.
  apply (@completed_rows_are_paid toy_library toy_btc toy_viem (bridge_world nothing_lost)
    ref_sqlite ref_zod ref_chanfana toy_cfg bridge_start (bridge_tables nothing_lost 2) 2
    (@boot toy_library) _ bridge_start_ok bridge_served Hin). vm_compute. reflexivity.
Defined.

(** A mint whose report is lost is made again: the service keeps no record of
    its own, so with every other call answered, the same deposit is minted in
    full on each turn. *)
Theorem lost_report_mints_again :
  served toy_cfg bridge_start (bridge_trace mint_reports_lost 3) (bridge_tables mint_reports_lost 3) /\
  map ev_query (filter (fun e => is_send e = true) (bridge_trace mint_reports_lost 3)) =
    repeat (QSendTx "signet" NATIVE_MINTER (encodeMintCall ("0x" +:+ user_hex) (100000 * 10 ^ 10))) 2.
Proof. split; [apply bridge_lossy_served|vm_compute; reflexivity]. Qed.

(** The whole bridge at work: after two turns both requests are settled, and
    later turns leave them so. *)
Example bridge_settles_both :
  map (fun r => fget r "status") (deposits (bridge_tables nothing_lost 2)) = [FStr "minted"] /\
  map (fun r => fget r "status") (withdrawals (bridge_tables nothing_lost 2)) = [FStr "completed"] /\
  length (filter (fun e => is_send e = true) (bridge_trace nothing_lost 4)) = 1%nat.
Proof. vm_compute. auto. Qed.

(** Two withdrawals that name the same transaction as their burn, on servers
    whose Esplora shows another output once one is spent. *)
Definition twice_start : db :=
  after_request (toy_runtime 1500 "w2") (withdraw_request "0.0005") bridge_start.

Definition spending_world : Environment := fun q t =>
  match q return reply q with
  | QUtxo _ _ =>
      let txid := if existsb is_broadcast t then "cd" else "ab" in
      Resp 200 (Some (inr [EsploraUtxo (Some txid) (Some 0) (Some 100000) (Some true)
                             (Some 100) None None]))
  | q => toy_world [] q t
  end.

Definition twice_trace (n : nat) : trace :=
  @loop_trace toy_library toy_btc toy_viem
    (deployed toy_cfg bridge_runtime twice_start nothing_lost spending_world) toy_cfg n (@boot toy_library).

#[local] Strategy expand [twice_trace].

(** One burn pays twice. The service asks the L2 node only whether the named
    transaction exists, and the API takes any number of withdrawals that name
    it: both are paid in full, each by a broadcast of its own, and completed. *)
Theorem one_burn_pays_twice :
  let d := tables toy_cfg bridge_runtime twice_start nothing_lost (twice_trace 2) in
  served toy_cfg twice_start (twice_trace 2) d /\
  map (fun r => fget r "burn_tx_hash") (withdrawals twice_start) = [FStr "0xburn"; FStr "0xburn"] /\
  map (fun r => fget r "status") (withdrawals d) = [FStr "completed"; FStr "completed"] /\
  length (filter (fun e => is_broadcast e = true) (twice_trace 2)) = 2%nat.
Proof.
  split; [|vm_compute; by repeat split].
  apply served_deployed with (w := spending_world); [done|done|].
  vm_compute. repeat (split; [reflexivity|]). exact I.
Qed.
