(* ===== verification/BridgeTurn.v ===== *)
(** * The bridge: one row in one turn of the service

    The service polls the API of a deployment ([BridgeProps.deployed]) whose
    calls about one row get through ([reached]). The lemmas follow that row
    through the calls of a pass over a listing, whatever becomes of the other
    rows; [BridgeLive] and [BridgePays] say what the service makes of it. *)

From Stdlib Require Import ZArith Lia Ascii String List Bool.
From stdpp Require Import base list strings numbers.
From S2P Require Import Prelude JsNumber HdWallet Effects Withdraw Federation Minting Json Database Api ApiSpec ApiProps Bridge BridgeProps.
Local Open Scope Z_scope.
Local Open Scope eff_scope.

(** ** Which rows a computation may PATCH *)

Definition patch_to (P : string -> Prop) (e : event) : Prop :=
  forall url a body, ev_query e = QApiPatch url a body -> P url.

Section patches.
Context `{HL : HdLibrary} `{BL : BtcLibrary} `{VL : ViemLibrary} `{EN : Environment}.
Context (cfg : Config) (P : string -> Prop).

Hint Resolve silent_emits getAccount_silent getWalletClient_silent getPublicClient_silent
  getWallet_silent lift_silent http_json_silent : emits.

Ltac patch_step :=
  match goal with
  | |- emits _ (apiPatch _ _ _) => apply apiPatch_emits; by intros ? ? ? ? [= <- _ _]
  | |- emits _ (getTipHeight _) => apply getTipHeight_emits; by intros ? ? ? ?
  | |- patch_to _ _ => by intros ? ? ?
  | _ => emit_step
  end.

Lemma processOneDeposit_patches d :
  P (item_url cfg Deposits (d_id d)) -> emits (patch_to P) (processOneDeposit cfg d).
Proof.
  intros HP.
  unfold processOneDeposit, assignDepositAddress, processDeposit, checkAddressForDeposits, mintEcx, record_mint.
  repeat patch_step.
Qed.

Lemma processOneWithdrawal_patches now w :
  P (item_url cfg Withdrawals (w_id w)) -> emits (patch_to P) (processOneWithdrawal cfg now w).
Proof.
  intros HP. assert (Hc : forall network url ds, emits (S:=service) (patch_to P) (collect_utxos network url ds)).
  { intros network url ds. induction ds as [|d ds IH]; cbn [collect_utxos]; [apply emits_ret|].
    apply emits_bind; [|intros; apply emits_bind; [done|intros; apply emits_ret]].
    unfold collect_deposit, fetchUtxos. repeat patch_step. }
  unfold processOneWithdrawal, processWithdrawal, complete_withdrawal, verifyBurnTx, fetchFundedDeposits,
    buildSignAndBroadcastWithdrawal, broadcastTx.
  repeat (apply Hc || patch_step).
Qed.

Lemma processPendingDeposits_patches :
  (forall id, P (item_url cfg Deposits id)) -> emits (patch_to P) (processPendingDeposits cfg).
Proof.
  intros HP. unfold processPendingDeposits, apiGet.
  repeat ((apply emits_for; intros ? _) || (apply processOneDeposit_patches; apply HP) || patch_step).
Qed.

Lemma processPendingWithdrawals_patches :
  (forall id, P (item_url cfg Withdrawals id)) -> emits (patch_to P) (processPendingWithdrawals cfg).
Proof.
  intros HP. unfold processPendingWithdrawals, apiGet.
  repeat ((apply emits_for; intros ? _) || (apply processOneWithdrawal_patches; apply HP) || patch_step).
Qed.

Lemma checkIn_patches : emits (patch_to P) (checkIn cfg).
Proof. unfold checkIn, apiPost. repeat patch_step. Qed.
End patches.

(** ** A deployment that reaches one row *)

Section live.
Context `{HL : HdLibrary} `{BL : BtcLibrary} `{VL : ViemLibrary}.
Context `{SQ : Sqlite} `{ZD : Zod} `{CH : Chanfana}.
Context (cfg : Config) (rt : runtime) (d0 : db) (drop : query -> bool) (w : Environment).

#[local] Instance here : Environment := deployed cfg rt d0 drop w.
Local Abbreviation tabs := (tables cfg rt d0 drop).

(** What a call leaves of the tables. *)
Definition after_call (q : query) (d : db) : db :=
  if drop q then d
  else match call_request cfg q with
       | Some rq => snd (handle_request rt rq d)
       | None => d
       end.

Lemma tables_calls t' qs t : map ev_query t' = qs ++ map ev_query t -> tabs t' = foldr after_call (tabs t) qs.
Proof.
  assert (H : forall t, tabs t = foldr after_call d0 (map ev_query t)).
  { induction t0 as [|[q r] t0 IH]; [done|]. cbn [tables map foldr ev_query]. rewrite <-IH.
    unfold after_call. by destruct (drop q). }
  intros E. by rewrite (H t'), E, foldr_app, <-H.
Qed.

Lemma after_call_ok q d : db_ok d -> db_ok (after_call q d).
Proof.
  intros Hd. unfold after_call. destruct (drop q); [done|]. destruct (call_request cfg q); [|done].
  by apply handle_ok.
Qed.

Lemma tables_ok t : db_ok d0 -> db_ok (tabs t).
Proof.
  intros Hd. rewrite (tables_calls t (map ev_query t) []) by by rewrite app_nil_r. cbn [tables].
  induction (map ev_query t) as [|q qs IH]; [done|]. by apply after_call_ok.
Qed.

(** A row stays as it is when no call is a PATCH of it. *)
Definition other_row (tb : table_name) (id url : string) : Prop := url <> item_url cfg tb id.

Lemma after_call_spares tb id q d r :
  db_ok d -> (forall url a body, q = QApiPatch url a body -> other_row tb id url) ->
  In r (rows_of tb d) -> fget r "id" = FStr id -> In r (rows_of tb (after_call q d)).
Proof.
  intros Hd Hq Hin Hid. unfold after_call. destruct (drop q); [done|].
  destruct (call_request cfg q) as [rq|] eqn:Erq; [|done].
  destruct (is_item_request rq) eqn:Ei.
  - apply item_request_dec in Ei as (tb' & id' & Hne' & Hm & Hp).
    destruct q as [| | | |url a|url a body|url a| | |]; try done; cbn [call_request] in Erq;
      destruct (request_path cfg url) as [p|] eqn:Ep; try done; injection Erq as <-; try done.
    cbn [rq_path] in Hp. subst p. apply item_request_url in Ep as [-> _].
    pose proof (handle_patch rt tb' id' (Some a) (map (fun kv => (fst kv, JScalar (snd kv))) body) d Hd Hne') as Hh.
    change (JObj (map _ body)) with (json_of_row body) in Hh.
    destruct (handle_request _ _ d) as [ans d']. cbn [snd].
    destruct Hh as [[_ ->]|(set & _ & _ & Hrows & Hother)]; [done|].
    destruct (decide (tb' = tb)) as [->|Hne]; [|by rewrite Hother]. rewrite Hrows.
    apply in_map_iff. exists r. split; [|done]. destruct (has_id id' r) eqn:E; [|done].
    apply has_id_iff in E. rewrite Hid in E. injection E as <-. by destruct (Hq _ _ _ eq_refl).
  - destruct (handle_grown rt rq d (or_intror Ei) tb) as (new & -> & _). apply in_app_iff. by left.
Qed.

(** What every call of a kind keeps is kept by all of them. *)
Lemma tables_keep (E : event -> Prop) (P : db -> Prop) t t' :
  db_ok d0 -> (forall q r d, E (Ev q r) -> db_ok d -> P d -> P (after_call q d)) ->
  added E t t' -> P (tabs t) -> P (tabs t').
Proof.
  intros Hd Hcall (new & -> & Hnew) Hp.
  rewrite (tables_calls (new ++ t) (map ev_query new) t) by by rewrite map_app.
  assert (Hok : db_ok (foldr after_call (tabs t) (map ev_query new)) /\
    P (foldr after_call (tabs t) (map ev_query new))); [|by destruct Hok].
  induction Hnew as [|[q r] new He _ [IHd IH]]; [split; [by apply tables_ok|done]|]. cbn [map foldr ev_query].
  split; [by apply after_call_ok|by apply (Hcall q r)].
Qed.

Lemma spared tb id r t t' :
  db_ok d0 -> added (patch_to (other_row tb id)) t t' ->
  In r (rows_of tb (tabs t)) -> fget r "id" = FStr id -> In r (rows_of tb (tabs t')).
Proof.
  intros Hd Hadd Hin Hid. apply (tables_keep (patch_to (other_row tb id)) (fun d => In r (rows_of tb d)) t); try done.
  intros q rp d He Hdb Hr. by apply (after_call_spares tb id).
Qed.

Lemma other_call q d : call_request cfg q = None -> after_call q d = d.
Proof. unfold after_call. intros ->. by destruct (drop q). Qed.

(** The API is up and takes the service's token, and the listing and the
    PATCHes of the row [id] arrive; other calls may be lost. *)
Record reached (tb : table_name) (id : string) : Prop := {
  rc_start : db_ok d0;
  rc_up : rt_db_up rt = true;
  rc_token : fed_authorized rt (Some (auth cfg)) = true;
  rc_id : segment id = true;
  rc_list : drop (QApiGet (API_URL cfg +:+ listing_path tb) (auth cfg)) = false;
  rc_item : forall body, drop (QApiPatch (item_url cfg tb id) (auth cfg) body) = false
}.

Lemma row_of_json_row r : row_of_json (json_of_row r) = Some r.
Proof.
  unfold json_of_row. cbn [row_of_json]. induction r as [|[k f] r IH]; [done|]. cbn. by rewrite IH.
Qed.

Lemma rows_of_json_rows rows : mapM row_of_json (map json_of_row rows) = Some rows.
Proof. induction rows as [|r rows IH]; [done|]. cbn [map mapM]. by rewrite row_of_json_row, IH. Qed.

(** A GET whose answer is the rows of a SELECT. *)
Lemma get_replies path segs tb p t :
  drop (QApiGet (API_URL cfg +:+ path) (auth cfg)) = false ->
  request_path cfg (API_URL cfg +:+ path) = Some ("v1" :: "fed" :: segs) ->
  fed_authorized rt (Some (auth cfg)) = true ->
  fed_route rt GET segs None (tabs t) = (Ok (rows_answer (select_where tb p false (tabs t))), tabs t) ->
  respond (QApiGet (API_URL cfg +:+ path) (auth cfg)) t = Resp 200 (Some (select_where tb p false (tabs t))).
Proof.
  intros Hdrop Hp Ha Hr. unfold respond, here, deployed. rewrite Hdrop. cbn [call_request].
  rewrite Hp. cbn [fmap option_fmap option_map].
  unfold handle_request, dispatch, route. cbn [rq_method rq_path rq_authorization rq_body].
  rewrite Ha, Hr. cbn [aret fst api_reply http_of rows_answer]. by rewrite rows_of_json_rows.
Qed.

Lemma listing_answered tb t :
  rt_db_up rt = true -> fed_authorized rt (Some (auth cfg)) = true ->
  drop (QApiGet (API_URL cfg +:+ listing_path tb) (auth cfg)) = false ->
  respond (QApiGet (API_URL cfg +:+ listing_path tb) (auth cfg)) t =
    Resp 200 (Some (select_where tb (is_open tb) false (tabs t))).
Proof.
  intros Hup Ha Hdrop. apply (get_replies _ (listing_route tb)); [done|apply listing_request_path|done|].
  destruct tb; cbn [listing_route fed_route]; unfold fed_pending_deposits, fed_pending_withdrawals, abind, d1_read;
    by rewrite Hup.
Qed.

Lemma listing_replies tb id t :
  reached tb id ->
  respond (QApiGet (API_URL cfg +:+ listing_path tb) (auth cfg)) t =
    Resp 200 (Some (select_where tb (is_open tb) false (tabs t))).
Proof. intros R. apply listing_answered; apply R. Qed.

(** A conforming PATCH of the row is answered, and done. *)
Definition given_of (body : record) : list (string * json) := map (fun kv => (fst kv, JScalar (snd kv))) body.

Lemma patch_handled tb id body d :
  rt_db_up rt = true -> db_ok d ->
  conforms (ZObject (shape_of tb)) (JObj (given_of body)) = true ->
  some_allowed (allowed_of tb) (given_of body) = true ->
  exists d', patch_handler rt tb id (Some (JObj (given_of body))) d = (Ok (ok_json [("status", JStr "ok")]), d') /\
    patch_effect tb (allowed_of tb) (stamps_of rt tb (given_of body)) (given_of body) id (rows_of tb d) (rows_of tb d').
Proof.
  intros Hup Hd Hc Hs. destruct tb.
  - destruct (patch_deposit_row rt id (given_of body) d Hup Hd Hc Hs) as (d' & Hv & He & _). by exists d'.
  - destruct (patch_withdrawal_row rt id (given_of body) d Hup Hd Hc Hs) as (d' & Hv & He & _). by exists d'.
Qed.

Lemma patch_replies tb id body t :
  reached tb id ->
  conforms (ZObject (shape_of tb)) (JObj (given_of body)) = true ->
  some_allowed (allowed_of tb) (given_of body) = true ->
  let q := QApiPatch (item_url cfg tb id) (auth cfg) body in
  respond q t = Resp 200 (Some tt) /\
  forall d, db_ok d ->
    patch_effect tb (allowed_of tb) (stamps_of rt tb (given_of body)) (given_of body) id
      (rows_of tb d) (rows_of tb (after_call q d)).
Proof.
  intros R Hc Hs q. assert (Hdrop : drop q = false) by apply (rc_item _ _ R).
  assert (Hrq : call_request cfg q =
    Some (Request PATCH ("v1" :: "fed" :: item_route tb id) (Some (auth cfg)) (Some (JObj (given_of body))))).
  { unfold q. cbn [call_request]. by rewrite (item_request_path cfg tb id (proj2 (segment_inv _ (rc_id _ _ R)))). }
  split.
  - unfold respond, here, deployed. rewrite Hdrop, Hrq, handle_item, (rc_token _ _ R) by apply (segment_inv _ (rc_id _ _ R)).
    by destruct (patch_handled tb id body (tabs t) (rc_up _ _ R) (tables_ok t (rc_start _ _ R)) Hc Hs) as (d' & -> & _).
  - intros d Hd. unfold after_call. rewrite Hdrop, Hrq, handle_item, (rc_token _ _ R) by apply (segment_inv _ (rc_id _ _ R)).
    by destruct (patch_handled tb id body d (rc_up _ _ R) Hd Hc Hs) as (d' & -> & He).
Qed.

(** What becomes of the row. *)
Lemma patched_to tb id body d r :
  reached tb id ->
  conforms (ZObject (shape_of tb)) (JObj (given_of body)) = true ->
  some_allowed (allowed_of tb) (given_of body) = true ->
  db_ok d -> In r (rows_of tb d) -> fget r "id" = FStr id ->
  exists r', In r' (rows_of tb (after_call (QApiPatch (item_url cfg tb id) (auth cfg) body) d)) /\
    forall c, In c (schema_of tb) ->
      fget r' (col_name c) =
        patched tb (allowed_of tb) (stamps_of rt tb (given_of body)) (given_of body) c (fget r (col_name c)).
Proof.
  intros R Hc Hs Hd Hin Hid. destruct (patch_replies tb id body [] R Hc Hs) as [_ He].
  specialize (He d Hd). unfold patch_effect in He.
  apply list_elem_of_In, list_elem_of_lookup in Hin as [i Hi].
  destruct (Forall2_lookup_l _ _ _ _ _ He Hi) as (r' & Hi' & Hr).
  rewrite (proj2 (has_id_iff id r) Hid) in Hr. exists r'. split; [|exact Hr].
  apply list_elem_of_In, list_elem_of_lookup. by exists i.
Qed.

(** *** A pass over a listing *)

Lemma quiet_run {A} (E : event -> Prop) (c : M service A) s t :
  emits E c -> never_throws c -> exists a s' t', c s t = (Ok a, s', t') /\ added E t t'.
Proof.
  intros He Hn. specialize (He s t). specialize (Hn s t). unfold runs in He.
  destruct (c s t) as [[[a|m] s'] t']; [|done]. by exists a, s', t'.
Qed.

Lemma listed_has_id tb p t r :
  db_ok d0 -> In r (select_where tb p false (tabs t)) -> exists x, fget r "id" = FStr x.
Proof.
  intros Hd [Hin _]%select_where_in. pose proof (db_ok_table tb _ (tables_ok t Hd)) as [Hrows _].
  rewrite list.Forall_forall in Hrows. apply list_elem_of_In, Hrows in Hin. apply Hin.
Qed.

(** [work] is done for each row, PATCHes that row only, and never throws. *)
Section pass.
Context (tb : table_name) (work : record -> M service unit).
Hypothesis Hown : forall x i, fget x "id" = FStr i -> emits (patch_to (eq (item_url cfg tb i))) (work x).
Hypothesis Hnever : forall x, never_throws (work x).

(** The turns of other rows. *)
Lemma others_pass id rows s t :
  Forall (fun r => fget r "id" <> FStr id /\ exists x, fget r "id" = FStr x) rows ->
  exists s' t', mfor rows work s t = (Ok tt, s', t') /\ added (patch_to (other_row tb id)) t t'.
Proof using Hown Hnever.
  intros Hall. destruct (quiet_run (patch_to (other_row tb id)) (mfor rows work) s t) as ([] & H); [| |exact H].
  - apply emits_for. intros r Hr%list_elem_of_In. rewrite list.Forall_forall in Hall.
    destruct (Hall r Hr) as (Hne & x & Hx). eapply emits_mono; [|by apply Hown].
    intros e He url a body E. rewrite <-(He url a body E). intros [_ ->]%item_url_inj. congruence.
  - by apply never_throws_for.
Qed.

(** The pass brings about of a listed row [r] what its own turn does, when the
    calls about other rows leave that alone. [W] is what is kept of the
    service's variables, [K] what is known of the tables meanwhile. *)
Context (id : string) (r : record) (W : service -> Prop) (K G : trace -> Prop).
Hypothesis Hd : db_ok d0.
Hypothesis Hid : fget r "id" = FStr id.
Hypothesis Hothers : forall t t', added (patch_to (other_row tb id)) t t' -> G t -> G t'.
Hypothesis Hkept : forall x, preserves W (work x).
Hypothesis Hknown : forall x s t, K t -> W s -> K (snd (work x s t)).
Hypothesis Hturn : forall s t, W s -> K t -> In r (rows_of tb (tabs t)) ->
  exists s' t', work r s t = (Ok tt, s', t') /\ G t'.

Lemma kept_for rows s t :
  W s -> K t -> W (snd (fst (mfor rows work s t))) /\ K (snd (mfor rows work s t)).
Proof using Hkept Hknown.
  revert s t. induction rows as [|x rows IH]; intros s t Hs Ht; [done|]. cbn [mfor]. unfold mbind.
  pose proof (Hkept x s t Hs) as Hw. pose proof (Hknown x s t Ht Hs) as Hk. unfold runs in Hw.
  destruct (work x s t) as [[[u|m] s'] t']; [by apply IH|done].
Qed.

Lemma pass_one rows s t :
  NoDup (ids rows) -> (forall x, In x rows -> exists i, fget x "id" = FStr i) -> In r rows ->
  W s -> K t -> In r (rows_of tb (tabs t)) ->
  exists s' t', mfor rows work s t = (Ok tt, s', t') /\ G t'.
Proof using Hown Hnever Hd Hid Hothers Hkept Hknown Hturn.
  intros Hnd Hx Hr HW HK Hin. apply in_split in Hr as (l & k & ->).
  unfold ids in Hnd. rewrite map_app in Hnd. cbn [map] in Hnd.
  apply list.NoDup_app in Hnd as (_ & Hl & [Hk _]%list.NoDup_cons).
  assert (Hother : forall x, In x l \/ In x k -> fget x "id" <> FStr id).
  { intros x [H|H] Hxid; [apply (Hl (FStr id))|apply Hk; rewrite Hid]; rewrite ?list_elem_of_In.
    - rewrite <-Hxid. by apply (in_map (fun r => fget r "id")).
    - rewrite Hid. by left.
    - rewrite <-Hxid. by apply (in_map (fun r => fget r "id")). }
  rewrite mfor_app. unfold mbind at 1. destruct (kept_for l s t HW HK) as [HW2 HK2].
  destruct (others_pass id l s t) as (s2 & t2 & E2 & Ht2).
  { apply list.Forall_forall. intros x Hin'%list_elem_of_In. split; [by apply Hother; left|].
    apply Hx, in_app_iff. by left. }
  rewrite E2 in *. cbn [fst snd] in HW2, HK2. cbn [mfor]. unfold mbind at 1.
  destruct (Hturn s2 t2 HW2 HK2) as (s3 & t3 & -> & Hs3); [by apply (spared tb id r t)|].
  destruct (others_pass id k s3 t3) as (s4 & t4 & -> & Ht4).
  { apply list.Forall_forall. intros x Hin'%list_elem_of_In. split; [by apply Hother; right|].
    apply Hx, in_app_iff. by right; right. }
  exists s4, t4. split; [done|]. by apply (Hothers t3).
Qed.
End pass.
End live.

Lemma mfor_map {S A B} `{Environment} (f : A -> B) (l : list A) (body : B -> M S unit) s t :
  mfor (map f l) body s t = mfor l (fun x => body (f x)) s t.
Proof.
  revert s t. induction l as [|x l IH]; intros s t; [done|]. cbn [map mfor]. unfold mbind.
  destruct (body (f x) s t) as [[[u|m] s'] t']; [apply IH|done].
Qed.
