(* ===== verification/BridgeLive.v ===== *)
(** * The bridge: deposits get minted

    What the service makes of one deposit's row in a deployment that reaches
    it ([BridgeTurn]): an address in the first turn, the mint in the turn that
    sees it paid, and the row's final state. *)

From Stdlib Require Import ZArith Lia Ascii String List Bool.
From stdpp Require Import base list strings numbers.
From S2P Require Import Prelude JsNumber HdWallet Effects Withdraw Federation Minting Json Database Api ApiSpec ApiProps Bridge BridgeProps BridgeTurn.
Local Open Scope Z_scope.
Local Open Scope eff_scope.

(** ** Numbers *)

Lemma Number_of_BigInt_finite z : 0 <= z < 2 ^ 1023 -> exists v, Number_of_BigInt z = Fin v.
Proof.
  intros [H0 H1]. destruct (Z.eq_dec z 0) as [->|Hz]; [by exists 0|].
  unfold Number_of_BigInt, overflows. rewrite Z.abs_eq by done.
  destruct (dbl_ratio (fl z 1)) as [a b] eqn:E.
  destruct (fl_error z 1 a b) as (Ha & Hb & He); [lia..|done|].
  destruct (Z.leb_spec (b * 2 ^ 1024) a) as [Hle|_]; [|by eexists]. exfalso.
  assert (Hd : a - z * b <= z * b).
  { assert (1 <= 2 ^ 53) by done. pose proof (Z.abs_spec (a * 1 - z * b)). nia. }
  change (2 ^ 1024) with (2 * 2 ^ 1023) in Hle. nia.
Qed.

(** What the pass does with a row. *)
Definition deposit_work `{HL : HdLibrary} `{BL : BtcLibrary} `{VL : ViemLibrary} `{EN : Environment}
    (cfg : Config) (x : record) : M service unit :=
  processOneDeposit cfg (Deposit_of x).

Section live.
Context `{HL : HdLibrary} `{BL : BtcLibrary} `{VL : ViemLibrary}.
Context `{SQ : Sqlite} `{ZD : Zod} `{CH : Chanfana}.
Context (cfg : Config) (rt : runtime) (d0 : db) (drop : query -> bool) (w : Environment).

#[local] Hint Extern 0 Environment => exact (here cfg rt d0 drop w) : typeclass_instances.
Local Abbreviation tabs := (tables cfg rt d0 drop).
Local Abbreviation reached := (reached cfg rt d0 drop Deposits).
Local Abbreviation other_row := (other_row cfg Deposits).
Local Abbreviation after_call := (after_call cfg rt drop).

Local Abbreviation deposit_work := (deposit_work cfg).

Lemma deposit_work_own x i :
  fget x "id" = FStr i -> emits (patch_to (eq (item_url cfg Deposits i))) (deposit_work x).
Proof.
  intros Hx. apply processOneDeposit_patches. cbn [d_id Deposit_of]. unfold str_field.
  by rewrite (fget_str_eq _ _ _ Hx).
Qed.

Lemma deposit_work_never_throws x : never_throws (deposit_work x).
Proof. apply processOneDeposit_never_throws. Qed.

(** *** One deposit *)

(** No deposit is of more than 21 million coins. *)
Definition MAX_SATS : Z := 21 * 10 ^ 14.

Lemma minted_amount_finite amount :
  0 <= amount <= MAX_SATS -> exists v, field_of_num (Number_of_BigInt (amount * 10 ^ 10)) = FInt v.
Proof.
  intros H. destruct (Number_of_BigInt_finite (amount * 10 ^ 10)) as [v ->]; [|by exists v].
  assert (MAX_SATS * 10 ^ 10 < 2 ^ 1023) by (by vm_compute). nia.
Qed.

(** What the tables say of a deposit that was minted. *)
Definition minted_in (id address : string) (sats : field) (hit : deposit_hit) (hash : string) (d : db) : Prop :=
  exists r, In r (deposits d) /\ fget r "id" = FStr id /\ fget r "status" = FStr "minted" /\
    fget r "ecash_address" = FStr address /\
    fget r "mint_tx_hash" = FStr hash /\ fget r "amount_sats" = sats /\
    fget r "amount_ecx" = field_of_num (Number_of_BigInt (hit_amount hit * 10 ^ 10)).

(** The amount a row shows: the total that was confirmed first. *)
Definition shown_sats (r : record) (hit : deposit_hit) : field :=
  if has_text "status" "pending" r then FInt (hit_amount hit) else fget r "amount_sats".

(** What the API holds and the outside shows of a funded deposit. *)
Record funded (id address : string) (hit : deposit_hit) (r : record) : Prop := {
  fd_id : fget r "id" = FStr id;
  fd_open : is_pending_deposit r = true;
  fd_address : fget r "ecash_address" = FStr address;
  fd_truthy : str_truthy address = true;
  fd_amount : 0 <= hit_amount hit <= MAX_SATS;
  fd_hit : exists tip utxos esplora,
    calm_world (E := w) cfg (d_network (Deposit_of r)) address tip utxos esplora /\
    confirmed_hit tip (default (Fin 1) (rec_get (MIN_CONFIRMATIONS cfg) (d_network (Deposit_of r)))) utxos = Some hit
}.

Lemma calm_here network address tip utxos esplora :
  calm_world (E := w) cfg network address tip utxos esplora -> calm_world cfg network address tip utxos esplora.
Proof.
  intros []. split; try done; intros; unfold respond, here, deployed; destruct (drop _); cbn [no_answer call_request]; auto.
Qed.

(** A column of a patched row. *)
Ltac cell Hc k := refine (eq_trans (Hc (column_named Deposits k) _) _); [in_list|].

Lemma confirm_row id hit d r :
  reached id -> db_ok d -> In r (deposits d) -> fget r "id" = FStr id ->
  exists r', In r' (deposits (after_call (confirm_call cfg (Deposit_of r) hit) d)) /\
    fget r' "id" = FStr id /\ fget r' "amount_sats" = FInt (hit_amount hit) /\
    fget r' "ecash_address" = fget r "ecash_address".
Proof.
  intros R Hd Hin Hid. unfold confirm_call, deposit_path. cbn [d_id Deposit_of].
  unfold str_field. rewrite (fget_str_eq _ _ _ Hid). cbn [default].
  destruct (patched_to cfg rt d0 drop w Deposits id [("status", FStr "confirmed"); ("amount_sats", FInt (hit_amount hit));
    ("ecash_tx_hash", FStr (hit_txHash hit))] d r R) as (r' & Hin' & Hc); try done.
  exists r'. split; [exact Hin'|]. split_and!.
  - cell Hc "id". exact Hid.
  - cell Hc "amount_sats". apply store_integer.
  - by cell Hc "ecash_address".
Qed.

Lemma mint_row id address sats hit h d r dep :
  reached id -> db_ok d -> In r (deposits d) -> fget r "id" = FStr id -> d_id dep = id ->
  fget r "ecash_address" = FStr address -> fget r "amount_sats" = sats -> 0 <= hit_amount hit <= MAX_SATS ->
  minted_in id address sats hit h (after_call (minted_call cfg dep hit h) d).
Proof.
  intros R Hd Hin Hid Hdep Haddr Hs Ha. destruct (minted_amount_finite _ Ha) as [v Hv].
  unfold minted_call, deposit_path, satsToEcxMultiplier, SATS_TO_ECX. rewrite Hdep.
  destruct (patched_to cfg rt d0 drop w Deposits id [("status", FStr "minted");
     ("amount_ecx", field_of_num (Number_of_BigInt (hit_amount hit * 10 ^ 10)));
     ("mint_tx_hash", FStr h)] d r R) as (r' & Hin' & Hc); try done; [by rewrite Hv|].
  exists r'. split; [exact Hin'|]. split_and!.
  - cell Hc "id". exact Hid.
  - cell Hc "status". apply store_text.
  - cell Hc "ecash_address". exact Haddr.
  - cell Hc "mint_tx_hash". apply store_text.
  - cell Hc "amount_sats". exact Hs.
  - cell Hc "amount_ecx". rewrite Hv. apply store_integer.
Qed.

Lemma open_status r : is_pending_deposit r = true -> d_status (Deposit_of r) <> "minted" /\
  String.eqb (d_status (Deposit_of r)) "pending" = has_text "status" "pending" r.
Proof.
  unfold is_pending_deposit, has_text. cbn [d_status Deposit_of]. unfold str_field, fget_str.
  intros [H|H]%orb_true_iff; apply bool_decide_eq_true in H; rewrite H; split; done.
Qed.

(** The calls that end in an accepted status of the row. *)
Lemma deposit_calls_answered id hit r :
  reached id -> fget r "id" = FStr id -> 0 <= hit_amount hit <= MAX_SATS ->
  (forall t, respond (confirm_call cfg (Deposit_of r) hit) t = Resp 200 (Some tt)) /\
  (forall h t, respond (minted_call cfg (Deposit_of r) hit h) t = Resp 200 (Some tt)).
Proof.
  intros R Hid Ha. destruct (minted_amount_finite _ Ha) as [v Hv].
  assert (E : deposit_path cfg (Deposit_of r) = item_url cfg Deposits id).
  { unfold deposit_path. cbn [d_id Deposit_of]. unfold str_field. by rewrite (fget_str_eq _ _ _ Hid). }
  split.
  - intros t. unfold confirm_call. rewrite E.
    exact (proj1 (patch_replies cfg rt d0 drop w Deposits id [("status", FStr "confirmed"); ("amount_sats", FInt (hit_amount hit));
      ("ecash_tx_hash", FStr (hit_txHash hit))] t R eq_refl eq_refl)).
  - intros h t. unfold minted_call, satsToEcxMultiplier, SATS_TO_ECX. rewrite E, Hv.
    exact (proj1 (patch_replies cfg rt d0 drop w Deposits id [("status", FStr "minted"); ("amount_ecx", FInt v);
      ("mint_tx_hash", FStr h)] t R eq_refl eq_refl)).
Qed.

(** [sent]: the call that mints the deposit is on record. *)
Definition mint_of (r : record) (hit : deposit_hit) : query :=
  QSendTx (d_network (Deposit_of r)) NATIVE_MINTER
    (encodeMintCall (d_snowside_address (Deposit_of r)) (hit_amount hit * 10 ^ 10)).

Definition settled (id address : string) (hit : deposit_hit) (r : record) (t : trace) : Prop :=
  exists hash, minted_in id address (shown_sats r hit) hit hash (tabs t) /\ In (mint_of r hit) (map ev_query t).

Lemma processOneDeposit_mints id address hit r s t :
  reached id -> funded id address hit r -> In r (deposits (tabs t)) ->
  exists s' t', processOneDeposit cfg (Deposit_of r) s t = (Ok tt, s', t') /\ settled id address hit r t'.
Proof.
  intros R F Hin. pose proof (fd_id _ _ _ _ F) as Hid. pose proof (fd_amount _ _ _ _ F) as Ha.
  destruct (fd_hit _ _ _ _ F) as (tip & utxos & esplora & C%calm_here & Hhit).
  destruct (open_status r (fd_open _ _ _ _ F)) as [Hst Hpend].
  destruct (deposit_calls_answered id hit r R Hid Ha) as [Hconf Hmint].
  assert (Haddr : d_ecash_address (Deposit_of r) = Some address).
  { cbn [d_ecash_address Deposit_of]. apply fget_str_eq, F. }
  destruct (processDeposit_calm cfg (Deposit_of r) address tip utxos esplora hit s t) as (h & s' & t' & _ & E & Hq);
    try done; [apply F|].
  exists s', t'. unfold processOneDeposit. rewrite Haddr. cbn [opt_truthy]. rewrite (fd_truthy _ _ _ _ F).
  cbn [negb]. unfold mtry. rewrite E. split; [done|]. exists h. split.
  - rewrite (tables_calls cfg rt d0 drop t' _ t Hq). unfold turn_calls. rewrite Hpend. rewrite !foldr_app. cbn [foldr].
    rewrite (other_call cfg rt drop (QTip _)), (other_call cfg rt drop (QUtxo _ _)), (other_call cfg rt drop (QReceipt _ _)),
      (other_call cfg rt drop (send_call _ _)) by done.
    assert (Hd : d_id (Deposit_of r) = id).
    { cbn [d_id Deposit_of]. unfold str_field. by rewrite (fget_str_eq _ _ _ Hid). }
    assert (Hok : db_ok (tabs t)) by by apply tables_ok, R.
    unfold shown_sats. destruct (has_text "status" "pending" r); cbn [foldr].
    + destruct (confirm_row id hit _ r R Hok Hin Hid) as (r1 & Hin1 & Hid1 & Hs1 & Ha1).
      apply (mint_row id _ _ hit h _ r1); try done; [by apply after_call_ok|]. rewrite Ha1. apply F.
    + apply (mint_row id _ _ hit h _ r); try done. apply F.
  - rewrite Hq. apply in_app_iff. left. unfold turn_calls, send_call. right. right. by left.
Qed.

(** *** One turn *)

Lemma settled_spared id address hit r t t' :
  db_ok d0 -> added (patch_to (other_row id)) t t' -> settled id address hit r t -> settled id address hit r t'.
Proof.
  intros Hd Hadd (h & (x & Hin & Hid & Hx) & Hsent). exists h. split.
  - exists x. split; [by apply (spared cfg rt d0 drop Deposits id x t t')|done].
  - destruct Hadd as (new & -> & _). rewrite map_app. apply in_app_iff. by right.
Qed.

(** The pass starts with the listing of the tables as they are. *)
Lemma pass_listing id s t :
  reached id ->
  exists t1, added (patch_to (other_row id)) t t1 /\
    processPendingDeposits cfg s t =
      mtry (mfor (select_where Deposits is_pending_deposit false (tabs t)) deposit_work) (fun _ => mret tt) s t1.
Proof.
  intros R. pose proof (listing_replies cfg rt d0 drop w Deposits id t R) as Hl.
  cbn [listing_path] in Hl. change (is_open Deposits) with is_pending_deposit in Hl.
  exists (Ev (QApiGet (API_URL cfg +:+ deposit_listing) (auth cfg))
    (respond (QApiGet (API_URL cfg +:+ deposit_listing) (auth cfg)) t) :: t).
  split; [by apply added_cons; intros ? ? ?|].
  unfold processPendingDeposits, apiGet, mtry, mbind, ask.
  change "/fed/deposits/pending" with deposit_listing. rewrite Hl. cbn. by rewrite mfor_map.
Qed.

Lemma pass_over id (W : service -> Prop) (G : trace -> Prop) r s t :
  reached id -> fget r "id" = FStr id -> is_pending_deposit r = true ->
  (forall t1 t2, added (patch_to (other_row id)) t1 t2 -> G t1 -> G t2) ->
  (forall x, preserves W (deposit_work x)) ->
  (forall s1 t1, W s1 -> In r (deposits (tabs t1)) ->
     exists s2 t2, deposit_work r s1 t1 = (Ok tt, s2, t2) /\ G t2) ->
  W s -> In r (deposits (tabs t)) ->
  exists s' t', processPendingDeposits cfg s t = (Ok tt, s', t') /\ G t'.
Proof.
  intros R Hid Hopen Hothers HW Hturn Hs Hin. pose proof (rc_start _ _ _ _ _ _ R) as Hd.
  destruct (pass_listing id s t R) as (t1 & Ht1 & ->).
  destruct (pass_one cfg rt d0 drop w Deposits deposit_work deposit_work_own deposit_work_never_throws id r W
    (fun _ => True) G) with (rows := select_where Deposits is_pending_deposit false (tabs t)) (s := s) (t := t1)
    as (s2 & t2 & E & Ht2); try done.
  - intros s1 t2 H _. by apply Hturn.
  - by apply listed_ids_nodup, tables_ok.
  - intros x. by apply (listed_has_id cfg rt d0 drop Deposits is_pending_deposit t).
  - by apply select_where_in.
  - by apply (spared cfg rt d0 drop Deposits id r t).
  - exists s2, t2. unfold mtry. by rewrite E.
Qed.

Lemma pass_mints id address hit r s t :
  reached id -> funded id address hit r -> In r (deposits (tabs t)) ->
  exists s' t', processPendingDeposits cfg s t = (Ok tt, s', t') /\ settled id address hit r t'.
Proof.
  intros R F Hin. apply (pass_over id (fun _ => True) _ r); try done; [apply F|apply F| | |].
  - intros t1 t2. by apply settled_spared, R.
  - intros x s1 t1 _. unfold runs. by destruct (deposit_work x s1 t1) as [[??]?].
  - intros s1 t1 _. by apply processOneDeposit_mints.
Qed.

(** A minted row is not listed. *)
Lemma pass_leaves id address hit r s t :
  reached id -> settled id address hit r t ->
  exists s' t', processPendingDeposits cfg s t = (Ok tt, s', t') /\ settled id address hit r t'.
Proof.
  intros R Hs. destruct (pass_listing id s t R) as (t1 & Ht1 & ->). pose proof (rc_start _ _ _ _ _ _ R) as Hd.
  pose proof Hs as (h & (x & Hin & Hid & Hst & _) & _).
  destruct (others_pass cfg Deposits deposit_work deposit_work_own deposit_work_never_throws id (select_where Deposits is_pending_deposit false (tabs t)) s t1) as (s' & t' & E & Ht').
  { apply list.Forall_forall. intros y Hy%list_elem_of_In. split; [|by apply (listed_has_id cfg rt d0 drop Deposits is_pending_deposit t)].
    apply select_where_in in Hy as [Hy Hopen]. intros Hyid.
    assert (y = x) as -> by (apply (unique_id Deposits (tabs t)); [by apply tables_ok|done|done|congruence]).
    unfold is_pending_deposit, has_text in Hopen. by rewrite Hst in Hopen. }
  exists s', t'. unfold mtry. rewrite E. split; [done|].
  apply (settled_spared id address hit r t1); [done..|]. by apply (settled_spared id address hit r t).
Qed.

Lemma checkIn_preserves (W : service -> Prop) : preserves W (checkIn cfg).
Proof. unfold checkIn, apiPost, http_json. repeat preserve_step. Qed.

(** A turn brings about what its pass over the deposits does. *)
Lemma turn_brings id (W : service -> Prop) (G : trace -> Prop) s t :
  W s -> (forall t1 t2, added (patch_to (other_row id)) t1 t2 -> G t1 -> G t2) ->
  (forall s1 t1, W s1 -> added (patch_to (other_row id)) t t1 ->
     exists s2 t2, processPendingDeposits cfg s1 t1 = (Ok tt, s2, t2) /\ G t2) ->
  exists s' t', Federation.poll_once cfg s t = (Ok tt, s', t') /\ G t'.
Proof.
  intros Hs Hothers Hpass. unfold Federation.poll_once, mtry at 1, mbind at 1.
  destruct (quiet_run (patch_to (other_row id)) (checkIn cfg) s t) as ([] & s1 & t1 & E & Ht1).
  { apply checkIn_patches. }
  { apply never_throws_try. by intros m s1 t1. }
  pose proof (checkIn_preserves W s t Hs) as Hs1. unfold runs in Hs1. rewrite E in *.
  unfold mbind at 1. destruct (Hpass s1 t1 Hs1 Ht1) as (s2 & t2 & -> & Hs2).
  destruct (quiet_run (patch_to (other_row id)) (processPendingWithdrawals cfg) s2 t2) as ([] & s3 & t3 & -> & Ht3).
  { apply processPendingWithdrawals_patches. intros x [? _]%item_url_inj. done. }
  { apply never_throws_try. by intros m s3 t3. }
  exists s3, t3. split; [done|]. by apply (Hothers t2).
Qed.

Lemma loop_leaves id address hit r n s t :
  reached id -> settled id address hit r t -> settled id address hit r (snd (main_loop cfg n s t)).
Proof.
  intros R. revert s t. induction n as [|n IH]; intros s t Hs; [done|]. cbn [main_loop]. unfold mbind.
  destruct (turn_brings id (fun _ => True) (settled id address hit r) s t) as (s' & t' & -> & Hs');
    [done|intros t1 t2; by apply settled_spared, R| |by apply IH].
  intros s1 t1 _ Ht1. apply pass_leaves; [done|]. by apply (settled_spared id address hit r t); [apply R|..].
Qed.

Lemma loop_mints id address hit r n s t :
  reached id -> funded id address hit r -> In r (deposits (tabs t)) -> (0 < n)%nat ->
  settled id address hit r (snd (main_loop cfg n s t)).
Proof.
  intros R F Hin Hn. destruct n as [|n]; [lia|]. cbn [main_loop]. unfold mbind.
  destruct (turn_brings id (fun _ => True) (settled id address hit r) s t) as (s' & t' & -> & Hs');
    [done|intros t1 t2; by apply settled_spared, R| |by apply loop_leaves].
  intros s1 t1 _ Ht1. apply (pass_mints id address); [done..|].
  apply (spared cfg rt d0 drop Deposits id r t); [apply R|done|done|apply F].
Qed.

(** *** A deposit without an address *)

Definition wallet_is (w0 : HDWallet) (s : service) : Prop := s_wallet s = None \/ s_wallet s = Some w0.

Section wallet_kept.
Context (w0 : HDWallet) (Hw0 : new_HDWallet (HD_MNEMONIC cfg) = Ok w0).

Lemma getWallet_preserves : preserves (wallet_is w0) (getWallet cfg).
Proof using Hw0.
  unfold getWallet. apply preserves_get. intros st _.
  destruct (s_wallet st); [apply preserves_ret|]. destruct (negb _); [apply preserves_throw|].
  intros s t _. unfold runs, mbind, mlift. rewrite Hw0. by right.
Qed.

Lemma getAccount_preserves : preserves (wallet_is w0) (getAccount cfg).
Proof. unfold getAccount. by repeat preserve_step. Qed.

Lemma processOneDeposit_preserves d : preserves (wallet_is w0) (processOneDeposit cfg d).
Proof using Hw0.
  unfold processOneDeposit, assignDepositAddress, processDeposit, checkAddressForDeposits, getTipHeight, mintEcx,
    getWalletClient, getPublicClient, record_mint, apiPatch, http_json.
  repeat first [apply getWallet_preserves|apply getAccount_preserves|preserve_step]; done.
Qed.
End wallet_kept.

(** A row that waits for its address, and the wallet it will come from. *)
Record unassigned (id : string) (w0 : HDWallet) (r : record) : Prop := {
  un_id : fget r "id" = FStr id;
  un_open : is_pending_deposit r = true;
  un_address : opt_truthy (d_ecash_address (Deposit_of r)) = false;
  un_mnemonic : str_truthy (HD_MNEMONIC cfg) = true;
  un_wallet : new_HDWallet (HD_MNEMONIC cfg) = Ok w0;
  un_derived : forall i, 0 <= i < 1000000 ->
    exists a, deriveDepositAddress w0 (d_network (Deposit_of r)) i = Ok a;
  un_clock : forall t, 0 <= w QNow t
}.

(** The row with an address of the wallet; the rest is as it was. *)
Definition assigned (id : string) (w0 : HDWallet) (r : record) (t : trace) : Prop :=
  exists r' i a, In r' (deposits (tabs t)) /\ 0 <= i < 1000000 /\
    deriveDepositAddress w0 (d_network (Deposit_of r)) i = Ok a /\
    fget r' "ecash_address" = FStr a /\ fget r' "derivation_index" = FInt i /\
    forall k, In k ["id"; "status"; "network"; "snowside_address"; "amount_sats"] -> fget r' k = fget r k.

Lemma getWallet_gives w0 s t :
  str_truthy (HD_MNEMONIC cfg) = true -> new_HDWallet (HD_MNEMONIC cfg) = Ok w0 -> wallet_is w0 s ->
  exists s', getWallet cfg s t = (Ok w0, s', t).
Proof.
  intros Hm Hw. unfold getWallet, mbind, mget. intros [-> | ->]; [|by eexists]. rewrite Hm. cbn [negb].
  unfold mlift. rewrite Hw. by eexists.
Qed.

Lemma assign_row id i a d r :
  reached id -> db_ok d -> In r (deposits d) -> fget r "id" = FStr id ->
  exists r', In r' (deposits (after_call (assign_call cfg (Deposit_of r) a i) d)) /\
    fget r' "ecash_address" = FStr a /\ fget r' "derivation_index" = FInt i /\
    forall k, In k ["id"; "status"; "network"; "snowside_address"; "amount_sats"] -> fget r' k = fget r k.
Proof.
  intros R Hd Hin Hid. unfold assign_call. cbn [d_id Deposit_of].
  unfold str_field. rewrite (fget_str_eq _ _ _ Hid).
  destruct (patched_to cfg rt d0 drop w Deposits id [("ecash_address", FStr a); ("derivation_index", FInt i)] d r R)
    as (r' & Hin' & Hc); try done.
  exists r'. split; [exact Hin'|]. split_and!.
  - cell Hc "ecash_address". apply store_text.
  - cell Hc "derivation_index". apply store_integer.
  - intros k Hk. cbn [In] in Hk. destruct Hk as [<-|[<-|[<-|[<-|[<-|[]]]]]];
      [by cell Hc "id"|by cell Hc "status"|by cell Hc "network"|by cell Hc "snowside_address"
      |by cell Hc "amount_sats"].
Qed.

Lemma processOneDeposit_assigns id w0 r s t :
  reached id -> unassigned id w0 r -> wallet_is w0 s -> In r (deposits (tabs t)) ->
  exists s' t', processOneDeposit cfg (Deposit_of r) s t = (Ok tt, s', t') /\ assigned id w0 r t'.
Proof.
  intros R U Hs Hin. pose proof (un_id _ _ _ U) as Hid.
  assert (Hnow : respond QNow t = w QNow t) by (unfold respond, here, deployed; by destruct (drop _)).
  pose proof (time_index_range _ (un_clock _ _ _ U t)) as Hi. set (i := time_index (w QNow t)) in *.
  destruct (un_derived _ _ _ U i Hi) as [a Ha].
  unfold processOneDeposit, assignDepositAddress. rewrite (un_address _ _ _ U). cbn [negb].
  unfold mtry. unfold mbind at 1, ask at 1. rewrite Hnow. fold i. unfold mbind at 1.
  destruct (getWallet_gives w0 s (Ev QNow (w QNow t) :: t) (un_mnemonic _ _ _ U) (un_wallet _ _ _ U) Hs)
    as (s1 & ->). unfold mbind at 1, mlift at 1. rewrite Ha.
  assert (Hd : d_id (Deposit_of r) = id).
  { cbn [d_id Deposit_of]. unfold str_field. by rewrite (fget_str_eq _ _ _ Hid). }
  pose proof (proj1 (patch_replies cfg rt d0 drop w Deposits id [("ecash_address", FStr a); ("derivation_index", FInt i)]
    (Ev QNow (w QNow t) :: t) R eq_refl eq_refl)) as Hp.
  destruct (apiPatch_answered cfg ("/fed/deposit/" +:+ id)
    [("ecash_address", FStr a); ("derivation_index", FInt i)] s1 _ Hp) as (t2 & Ep & Hq).
  rewrite Hd, Ep.
  exists s1, t2. split; [done|].
  assert (Hok : db_ok (tabs t)) by by apply tables_ok, R.
  destruct (assign_row id i a (tabs t) r R Hok Hin Hid) as (r' & Hin' & H1 & H2 & H3).
  exists r', i, a. split_and!; try done; [|apply Hi..].
  assert (Hq' : map ev_query t2 = [assign_call cfg (Deposit_of r) a i; QNow] ++ map ev_query t)
    by (unfold assign_call; by rewrite Hd, Hq).
  rewrite (tables_calls cfg rt d0 drop t2 _ t Hq'). cbn [foldr].
  by rewrite (other_call cfg rt drop QNow).
Qed.

Lemma assigned_spared id w0 r t t' :
  db_ok d0 -> fget r "id" = FStr id -> added (patch_to (other_row id)) t t' -> assigned id w0 r t -> assigned id w0 r t'.
Proof.
  intros Hd Hid Hadd (r' & i & a & Hin & H1 & H2 & H3 & H4 & Hsame). exists r', i, a. split_and!; try done; try apply H1.
  apply (spared cfg rt d0 drop Deposits id r' t); try done. rewrite (Hsame "id"); [done|by left].
Qed.

Lemma turn_assigns id w0 r s t :
  reached id -> unassigned id w0 r -> wallet_is w0 s -> In r (deposits (tabs t)) ->
  exists s' t', Federation.poll_once cfg s t = (Ok tt, s', t') /\ assigned id w0 r t'.
Proof.
  intros R U Hs Hin. pose proof (rc_start _ _ _ _ _ _ R) as Hd. pose proof (un_id _ _ _ U) as Hid.
  apply (turn_brings id (wallet_is w0)); [done|intros t1 t2; by apply assigned_spared|].
  intros s1 t1 Hs1 Ht1. apply (pass_over id (wallet_is w0) _ r); try done; [apply U| | | |].
  - intros t2 t3. by apply assigned_spared.
  - intros x. apply processOneDeposit_preserves, U.
  - intros s2 t2. by apply processOneDeposit_assigns.
  - by apply (spared cfg rt d0 drop Deposits id r t).
Qed.

(** Whatever address the wallet gives the row, it is paid. *)
Definition paid_anywhere (w0 : HDWallet) (hit : deposit_hit) (r : record) : Prop :=
  forall i a, deriveDepositAddress w0 (d_network (Deposit_of r)) i = Ok a ->
    str_truthy a = true /\
    exists tip utxos esplora,
      calm_world (E := w) cfg (d_network (Deposit_of r)) a tip utxos esplora /\
      confirmed_hit tip (default (Fin 1) (rec_get (MIN_CONFIRMATIONS cfg) (d_network (Deposit_of r)))) utxos = Some hit.

Lemma loop_assigns_and_mints id w0 hit r n s :
  reached id -> unassigned id w0 r -> wallet_is w0 s -> paid_anywhere w0 hit r -> 0 <= hit_amount hit <= MAX_SATS ->
  In r (deposits d0) -> (1 < n)%nat ->
  exists i address, deriveDepositAddress w0 (d_network (Deposit_of r)) i = Ok address /\
    settled id address hit r (snd (main_loop cfg n s [])).
Proof.
  intros R U Hs Hpaid Ha Hin Hn. destruct n as [|n]; [lia|]. cbn [main_loop]. unfold mbind.
  destruct (turn_assigns id w0 r s [] R U Hs Hin) as (s1 & t1 & -> & r' & i & a & Hin' & _ & Hd & Haddr & _ & Hsame).
  destruct (Hpaid i a Hd) as [Htr Hw]. exists i, a. split; [done|].
  assert (Hk : fget r' "id" = fget r "id" /\ fget r' "status" = fget r "status" /\
    fget r' "network" = fget r "network" /\ fget r' "snowside_address" = fget r "snowside_address" /\
    fget r' "amount_sats" = fget r "amount_sats") by (split_and!; apply Hsame; in_list).
  destruct Hk as (Kid & Kst & Knet & Ksnow & Ksats).
  assert (Enet : d_network (Deposit_of r') = d_network (Deposit_of r)).
  { cbn [d_network Deposit_of]. unfold str_field, fget_str. by rewrite Knet. }
  assert (F : funded id a hit r').
  { split; try done.
    - rewrite Kid. apply U.
    - unfold is_pending_deposit, has_text. rewrite Kst. apply U.
    - rewrite Enet. done. }
  pose proof (loop_mints id a hit r' n s1 t1 R F Hin' ltac:(lia)) as (h & Hm & Hsent). exists h.
  assert (Es : shown_sats r' hit = shown_sats r hit) by (unfold shown_sats, has_text; by rewrite Kst, Ksats).
  assert (Em : mint_of r' hit = mint_of r hit).
  { unfold mint_of. rewrite Enet. cbn [d_snowside_address Deposit_of]. unfold str_field, fget_str. by rewrite Ksnow. }
  by rewrite <-Es, <-Em.
Qed.
End live.

(** ** Properties *)

(** C4. The bridge mints what is paid to it. A deposit whose row is open and
    has an address, at which Esplora shows confirmed outputs, is minted by the
    first turn of the loop, and the API's tables say so from then on: the row
    is "minted" with the transaction's hash and 10^10 wei per confirmed
    satoshi. It is enough that the API is up and that the calls about this
    deposit are answered: other calls may be lost, and other deposits and
    withdrawals fail in any way. *)
Theorem funded_deposit_reaches_the_user `{HL : HdLibrary} `{BL : BtcLibrary} `{VL : ViemLibrary}
    `{SQ : Sqlite} `{ZD : Zod} `{CH : Chanfana} cfg rt d0 drop (w : Environment) id address hit r n s :
  reached cfg rt d0 drop Deposits id -> funded cfg w id address hit r -> In r (deposits d0) -> (0 < n)%nat ->
  let t := @loop_trace HL BL VL (deployed cfg rt d0 drop w) cfg n s in
  exists hash,
    minted_in id address (shown_sats r hit) hit hash (tables cfg rt d0 drop t) /\
    In (mint_of r hit) (map ev_query t).
Proof.
  intros R F Hin Hn.
  exact (loop_mints cfg rt d0 drop w id address hit r n s [] R F Hin Hn).
Qed.

(** The tables once the service gave the deposit its address, and a world in
    which no check-in arrives. *)
Definition waiting_tables : db := bridge_tables nothing_lost 1.
Definition check_ins_lost (q : query) : bool := match q with QApiPost _ _ => true | _ => false end.
Definition waiting_row : record := default [] (head (deposits waiting_tables)).

Lemma waiting_ok : db_ok waiting_tables.
Proof. apply tables_ok, bridge_start_ok. Qed.

Lemma funded_deposit_reaches_the_user_witness :
  fget waiting_row "status" = FStr "pending" /\
  exists hash, minted_in "d1" (default "" (fget_str waiting_row "ecash_address")) (FInt 100000) {| hit_amount := 100000; hit_txHash := "ab" |} hash
    (tables toy_cfg bridge_runtime waiting_tables check_ins_lost
      (@loop_trace toy_library toy_btc toy_viem
        (deployed toy_cfg bridge_runtime waiting_tables check_ins_lost (toy_world [])) toy_cfg 3 (@boot toy_library))).
Proof.
  split; [vm_compute; reflexivity|].
  destruct (@funded_deposit_reaches_the_user toy_library toy_btc toy_viem ref_sqlite ref_zod ref_chanfana
    toy_cfg bridge_runtime waiting_tables check_ins_lost (toy_world []) "d1"
    (default "" (fget_str waiting_row "ecash_address")) {| hit_amount := 100000; hit_txHash := "ab" |}
    waiting_row 3 (@boot toy_library)) as (hash & Hm & _).
  - split; try (vm_compute; reflexivity). apply waiting_ok.
  - split; try (vm_compute; reflexivity); [vm_compute; split; discriminate|].
    exists 120, [EsploraUtxo (Some "ab") (Some 0) (Some 100000) (Some true) (Some 100) None None],
      "https://esplora.signet.drivechain.info". split; [|vm_compute; reflexivity].
    split; intros; try (vm_compute; reflexivity); try discriminate; eexists; try split; vm_compute; reflexivity.
  - vm_compute. left. reflexivity.
  - lia.
  - exists hash. exact Hm.
Defined.

(** C3. A new deposit is brought to its end. A deposit whose row has no address
    yet, from a service that has not opened another wallet: the first turn
    gives the row an address of the wallet, and when what the user pays there
    is confirmed, the second turn mints it and the row stays "minted", with the
    address the wallet holds the key of, whatever other calls are lost and
    whatever becomes of other deposits and withdrawals. *)
Theorem new_deposit_reaches_the_user `{HL : HdLibrary} `{BL : BtcLibrary} `{VL : ViemLibrary}
    `{SQ : Sqlite} `{ZD : Zod} `{CH : Chanfana} cfg rt d0 drop (w : Environment) id w0 hit r n s :
  reached cfg rt d0 drop Deposits id -> unassigned cfg w id w0 r -> wallet_is w0 s ->
  paid_anywhere cfg w w0 hit r -> 0 <= hit_amount hit <= MAX_SATS ->
  In r (deposits d0) -> (1 < n)%nat ->
  let t := @loop_trace HL BL VL (deployed cfg rt d0 drop w) cfg n s in
  exists index address hash,
    deriveDepositAddress w0 (d_network (Deposit_of r)) index = Ok address /\
    minted_in id address (shown_sats r hit) hit hash (tables cfg rt d0 drop t) /\
    In (mint_of r hit) (map ev_query t).
Proof.
  intros R U Hs Hp Ha Hin Hn.
  destruct (loop_assigns_and_mints cfg rt d0 drop w id w0 hit r n s R U Hs Hp Ha Hin Hn)
    as (i & a & Hd & h & Hm & Hsent). by exists i, a, h.
Qed.

Definition new_row_d1 : record := default [] (head (deposits bridge_start)).
Definition toy_wallet : option (@HDWallet toy_library) :=
  match @new_HDWallet toy_library (HD_MNEMONIC toy_cfg) with Ok w0 => Some w0 | Throw _ => None end.

Lemma toy_address w0 i :
  exists a, @deriveDepositAddress toy_library w0 "signet" i = Ok a /\ str_truthy a = true.
Proof.
  eexists. split; [reflexivity|].
  assert (H : forall l s, str_truthy s = true -> str_truthy (foldl (fun s d => s +:+ "," +:+ dec_str d) s l) = true).
  { induction l as [|d l IH]; intros s Hs; [done|]. apply IH. by destruct s. }
  by apply H.
Qed.

Lemma new_deposit_reaches_the_user_witness :
  opt_truthy (d_ecash_address (Deposit_of new_row_d1)) = false /\
  exists address hash, minted_in "d1" address (FInt 100000) {| hit_amount := 100000; hit_txHash := "ab" |} hash
    (tables toy_cfg bridge_runtime bridge_start check_ins_lost
      (@loop_trace toy_library toy_btc toy_viem
        (deployed toy_cfg bridge_runtime bridge_start check_ins_lost (toy_world [])) toy_cfg 3 (@boot toy_library))).
Proof.
  split; [vm_compute; reflexivity|].
  destruct toy_wallet as [w0|] eqn:Ew; [|vm_compute in Ew; discriminate].
  assert (Hw : @new_HDWallet toy_library (HD_MNEMONIC toy_cfg) = Ok w0).
  { revert Ew. unfold toy_wallet. destruct (new_HDWallet _); [by intros [= ->]|discriminate]. }
  assert (Hn : d_network (Deposit_of new_row_d1) = "signet") by (vm_compute; reflexivity).
  destruct (@new_deposit_reaches_the_user toy_library toy_btc toy_viem ref_sqlite ref_zod ref_chanfana
    toy_cfg bridge_runtime bridge_start check_ins_lost (toy_world []) "d1" w0
    {| hit_amount := 100000; hit_txHash := "ab" |} new_row_d1 3 (@boot toy_library)) as (i & a & hash & _ & Hm & _).
  - split; try (vm_compute; reflexivity). apply bridge_start_ok.
  - split; [vm_compute; reflexivity..|exact Hw| |intros t; discriminate].
    intros i _. rewrite Hn. destruct (toy_address w0 i) as (a & Ha & _). by exists a.
  - left. reflexivity.
  - intros i a. rewrite Hn. intros Ha. destruct (toy_address w0 i) as (a' & Ha' & Htr).
    assert (a' = a) as -> by congruence. split; [exact Htr|].
    exists 120, [EsploraUtxo (Some "ab") (Some 0) (Some 100000) (Some true) (Some 100) None None],
      "https://esplora.signet.drivechain.info". split; [|vm_compute; reflexivity].
    split; intros; try reflexivity; try discriminate; eexists; try split; reflexivity.
  - vm_compute. split; discriminate.
  - vm_compute. left. reflexivity.
  - lia.
  - exists a, hash. exact Hm.
Defined.
