(* ===== verification/BridgePays.v ===== *)
(** * The bridge: withdrawals get paid

    What the service makes of one withdrawal's row in a deployment that reaches
    it ([BridgeTurn]): the burn is looked up, the coins of the deposits are
    collected, a transaction is built, signed and broadcast, and the row is
    completed. One deposit's coins that suffice are followed through the turn. *)

From Stdlib Require Import ZArith Lia Ascii String List Bool.
From stdpp Require Import base list strings numbers.
From S2P Require Import Prelude JsNumber HdWallet Effects Withdraw Federation Minting Json Database Api ApiSpec ApiProps Bridge BridgeProps BridgeTurn BridgeLive.
Local Open Scope Z_scope.
Local Open Scope eff_scope.

(** ** Coins *)

Definition utxo_value (u : esplora_utxo) : Z := default 0 (eu_value u).

Definition Utxo_of (u : esplora_utxo) : Utxo := {|
  txid := default "" (eu_txid u);
  vout := default 0 (eu_vout u);
  value := utxo_value u;
  scriptPubKey := str_or (default "" (eu_scriptPubKey u)) (default "" (eu_scriptpubkey u))
|}.

Section coins.
Context `{HL : HdLibrary} `{BL : BtcLibrary} `{EN : Environment}.
Context (cfg : Config) (network esplora : string).

(** An output that Esplora shows. *)
Definition shown (u : esplora_utxo) : Prop :=
  exists a t st us, respond (QUtxo esplora a) t = Resp st (Some (inr us)) /\ In u us.

Definition elsewhere (e : event) : Prop := call_request cfg (ev_query e) = None.

(** What the inputs of a transaction are chosen from. *)
Definition coin (i : item) : Prop :=
  (exists u, shown u /\ fst i = Utxo_of u) /\ fd_network (snd i) = network /\
  exists k, fd_derivation_index (snd i) = Some k.

(** Whenever it is asked, Esplora shows outputs of at least [T] satoshis at the
    address. *)
Definition holds_at_least (T : Z) (address : string) : Prop :=
  forall t, exists us, respond (QUtxo esplora (cleanAddress address)) t = Resp 200 (Some (inr us)) /\
    T <= sumZ (map utxo_value us).

Hypothesis Hvalue : forall u, shown u -> 0 <= utxo_value u.

Lemma fetchUtxos_coins a (s : service) t :
  exists us t', fetchUtxos esplora a s t = (Ok (map Utxo_of us), s, t') /\ added elsewhere t t' /\
    Forall shown us /\
    forall us', respond (QUtxo esplora (cleanAddress a)) t = Resp 200 (Some (inr us')) -> us = us'.
Proof.
  unfold fetchUtxos, mtry, mbind, ask. set (q := QUtxo esplora (cleanAddress a)).
  assert (Hadd : added elsewhere t (Ev q (respond q t) :: t)) by by apply added_cons.
  destruct (respond q t) as [m|st body] eqn:E.
  { exists [], (Ev q (NetErr m) :: t). split_and!; try done. }
  destruct (resp_ok st) eqn:Eok; cbn [negb].
  2: { exists [], (Ev q (Resp st body) :: t). split_and!; try done. intros us' [= -> _]. done. }
  destruct body as [[[]|us]|].
  - exists [], (Ev q (Resp st (Some (inl tt))) :: t). split_and!; done.
  - exists us, (Ev q (Resp st (Some (inr us))) :: t). split_and!; try done.
    + apply list.Forall_forall. intros u Hu%list_elem_of_In. by exists (cleanAddress a), t, st, us.
    + intros us' [= _ ->]. done.
  - exists [], (Ev q (Resp st None) :: t). split_and!; done.
Qed.

Lemma sum_coins (us : list esplora_utxo) (d : FundedDeposit) :
  sum_items (map (fun u => (u, d)) (map Utxo_of us)) = sumZ (map utxo_value us).
Proof. unfold sum_items. by rewrite !map_map. Qed.

Lemma coins_nonneg l : Forall coin l -> 0 <= sum_items l.
Proof using Hvalue.
  intros Hl. apply sumZ_nonneg. apply list.Forall_forall. intros z (i & <- & Hi)%list_elem_of_In%in_map_iff.
  rewrite list.Forall_forall in Hl. apply list_elem_of_In, Hl in Hi as [(u & Hu & E) _].
  unfold item_value. rewrite E. by apply Hvalue.
Qed.

(** The coins of a list of deposits, those of one of them among them. *)
Lemma collect_coins fds (s : service) t :
  exists items t', collect_utxos network esplora fds s t = (Ok items, s, t') /\ added elsewhere t t' /\
    Forall coin items /\
    forall f T, In f fds -> fd_network f = network -> fd_derivation_index f <> None ->
      holds_at_least T (fd_ecash_address f) -> T <= sum_items items.
Proof using Hvalue.
  revert s t. induction fds as [|d fds IH]; intros s t.
  { exists [], t. split_and!; done. }
  cbn [collect_utxos]. unfold mbind at 1.
  assert (Hd : exists here t1, collect_deposit network esplora d s t = (Ok here, s, t1) /\ added elsewhere t t1 /\
    Forall coin here /\
    forall T, fd_network d = network -> fd_derivation_index d <> None ->
      holds_at_least T (fd_ecash_address d) -> T <= sum_items here).
  { unfold collect_deposit. destruct (String.eqb_spec (fd_network d) network) as [Hn|Hn]; cbn [negb].
    2: { exists [], t. split_and!; done. }
    destruct (fd_derivation_index d) as [k|] eqn:Ek.
    2: { exists [], t. split_and!; done. }
    unfold mbind. destruct (fetchUtxos_coins (fd_ecash_address d) s t) as (us & t1 & -> & Hadd & Hus & Heq).
    exists (map (fun u => (u, d)) (map Utxo_of us)), t1. split_and!; try done.
    - rewrite map_map. apply list.Forall_forall. intros i (u & <- & Hu)%list_elem_of_In%in_map_iff.
      rewrite list.Forall_forall in Hus. apply list_elem_of_In, Hus in Hu.
      split; [by exists u|]. split; [done|by exists k].
    - intros T _ _ H. destruct (H t) as (us' & Hus' & HT). by rewrite sum_coins, (Heq us' Hus'). }
  destruct Hd as (here & t1 & -> & Ha1 & Hc1 & Hs1). unfold mbind at 1.
  destruct (IH s t1) as (rest & t2 & -> & Ha2 & Hc2 & Hs2).
  exists (here ++ rest), t2. split_and!; [done|by transitivity t1|by apply Forall_app_2|].
  intros f T Hin Hn Hk HT. unfold sum_items. rewrite map_app, sumZ_app.
  fold (sum_items here) (sum_items rest). pose proof (coins_nonneg here Hc1). pose proof (coins_nonneg rest Hc2).
  destruct Hin as [->|Hin]; [specialize (Hs1 T Hn Hk HT)|specialize (Hs2 f T Hin Hn Hk HT)]; lia.
Qed.

(** *** The transaction *)

(** Every choice of coins that covers [T] and the fee can be built. *)
Definition buildable (ecash_address : string) (T : Z) (w0 : HDWallet) (changeAddress : string) : Prop :=
  forall selected change, selected <> [] -> Forall coin selected -> 0 <= change ->
    exists tx raw, build_tx network ecash_address (Fin T) (Fin change) selected w0 changeAddress = Ok (Some tx) /\
      tx_extract tx = Ok raw.

(** It is enough that the library takes each step: the keys of the coins, their
    transaction ids, and outputs to the two addresses. *)
Lemma accepted_steps_build ecash_address T w0 changeAddress :
  (forall tx c, (forall a v n, c = TxAddOutputAddress a v n ->
     a = cleanAddress ecash_address \/ a = cleanAddress changeAddress) -> tx_check tx c = Ok tt) ->
  (forall i, coin i -> exists kp script txid_bytes, item_keypair w0 network i = Ok (Some kp) /\
     p2wpkh_script (kp_public kp) = Ok script /\ hex_decode (txid (fst i)) = Ok txid_bytes) ->
  (forall tx, exists raw, tx_extract tx = Ok raw) ->
  buildable ecash_address T w0 changeAddress.
Proof using.
  intros Hstep Hkeys Hraw selected change _ Hcoins _.
  assert (Hdo : forall tx c, (forall a v n, c = TxAddOutputAddress a v n ->
    a = cleanAddress ecash_address \/ a = cleanAddress changeAddress) -> tx_do tx c = Ok (tx ++ [c])).
  { intros tx c Hc. unfold tx_do. by rewrite Hstep. }
  assert (Hin : forall tx, exists tx', add_inputs w0 network selected tx = Ok (Some tx')).
  { induction Hcoins as [|i sel Hi _ IH]; intros tx; [by eexists|]. cbn [add_inputs].
    destruct (Hkeys i Hi) as (kp & script & idb & -> & Hs & Hh). cbn [obind]. rewrite Hs, Hh. cbn [obind].
    rewrite Hdo by done. cbn [obind]. apply IH. }
  assert (Hsign : forall tx, exists tx', sign_inputs w0 network selected tx = Ok tx').
  { clear Hin. induction Hcoins as [|i sel Hi _ IH]; intros tx; [by eexists|]. cbn [sign_inputs].
    destruct (Hkeys i Hi) as (kp & script & idb & -> & _). cbn [obind]. rewrite Hdo by done. apply IH. }
  unfold build_tx. rewrite Hdo by done. cbn [obind]. destruct (Hin ([] ++ [TxNew (default 0 (rec_get REPLAY_LOCKTIME network))])) as [tx1 ->].
  cbn [obind BigInt_of_num]. rewrite Hdo by (intros ? ? ? [= <- _ _]; by left). cbn [obind].
  assert (Hch : forall tx, exists tx', add_change network changeAddress (Fin change) tx = Ok tx').
  { intros tx. unfold add_change. destruct (num_lt _ _); [|by eexists]. cbn [BigInt_of_num obind].
    rewrite Hdo by (intros ? ? ? [= <- _ _]; by right). by eexists. }
  destruct (Hch (tx1 ++ [TxAddOutputAddress (cleanAddress ecash_address) T (getBtcNetwork network)])) as [tx2 ->].
  cbn [obind]. destruct (Hsign tx2) as [tx3 ->]. cbn [obind]. rewrite Hdo by done. cbn [obind].
  destruct (Hraw (tx3 ++ [TxFinalize])) as [raw Hr]. by exists (tx3 ++ [TxFinalize]), raw.
Qed.

(** Coins that suffice are selected from. *)
Lemma selectUtxos_covers items T :
  T + 1000 <= sum_items items ->
  exists sel, selectUtxos items (Fin T) 1000 = sel /\ (forall i, i ∈ sel -> i ∈ items) /\ T + 1000 <= sum_items sel.
Proof using.
  intros Hs. eexists. split; [done|].
  destruct (selectUtxos_cases items T 1000) as (k & _ & _ & [[Hle ->]|(Hlt & Ek & _)]).
  - split; [|done]. intros i Hi. by apply elem_of_take in Hi as (j & Hj%list_elem_of_lookup_2 & _);
      rewrite js_sort_perm in Hj.
  - exfalso. rewrite Ek in Hlt. rewrite firstn_all2 in Hlt by by rewrite (Permutation_length (js_sort_perm _ _)).
    unfold sum_items in Hlt, Hs. rewrite (sumZ_perm _ _ (Permutation_map item_value (js_sort_perm _ items))) in Hlt.
    lia.
Qed.

Lemma build_broadcasts wd fds w0 changeAddress T f (s : service) t :
  w_network wd = network ->
  sats_or (w_amount_sats wd) (ecxToSats (w_amount_ecx wd) network) = Fin T -> DUST_LIMIT <= T ->
  In f fds -> fd_network f = network -> fd_derivation_index f <> None ->
  holds_at_least (T + feeSats) (fd_ecash_address f) ->
  buildable (w_ecash_address wd) T w0 changeAddress ->
  (forall raw t, exists h, respond (QBroadcast esplora raw) t = Resp 200 (Some h) /\ str_truthy (trim h) = true) ->
  exists h t' raw,
    buildSignAndBroadcastWithdrawal network (request_of wd) fds esplora w0 changeAddress s t = (Ok (Some (trim h)), s, t') /\
    str_truthy (trim h) = true /\ added elsewhere t t' /\
    In (Ev (QBroadcast esplora raw) (Resp 200 (Some h))) t' /\ pays_withdrawal wd raw.
Proof using Hvalue.
  intros Hw HT Hdust Hf Hn Hk Hus Hbuild Hcast. unfold buildSignAndBroadcastWithdrawal, pays_withdrawal.
  cbn [wr_amount_sats wr_amount_ecx wr_network wr_ecash_address request_of]. rewrite Hw, HT.
  unfold DUST_LIMIT, feeSats in *. unfold num_le. cbn [num_lt].
  destruct (Z.ltb_spec 0 T); [|lia]. cbn [negb]. unfold DUST_LIMIT. destruct (Z.ltb_spec T 546); [lia|].
  unfold mbind at 1. destruct (collect_coins fds s t) as (items & t1 & -> & Ha & Hc & Hs).
  specialize (Hs f _ Hf Hn Hk Hus). unfold feeSats.
  destruct (selectUtxos_covers items T) as (sel & Es & Hsel & Hle); [done|].
  assert (Hcoin : Forall coin sel).
  { apply list.Forall_forall. intros i Hi. rewrite list.Forall_forall in Hc. by apply Hc, Hsel. }
  assert (Hne : sel <> []) by (intros ->; unfold sum_items in Hle; cbn in Hle; lia).
  assert (Hitems : items <> []) by (intros ->; unfold sum_items in Hs; cbn in Hs; lia).
  destruct items as [|i items]; [done|]. rewrite Es. destruct sel as [|x sel]; [done|].
  cbn [num_sub num_neg num_add]. set (chosen := x :: sel) in *.
  destruct (Hbuild chosen (sum_items chosen + - T + - (1000)) Hne Hcoin ltac:(lia)) as (tx & raw & Hb & Hx).
  unfold mtry, mbind, mlift. rewrite Hb, Hx.
  unfold broadcastTx, mtry, mbind, ask. destruct (Hcast (hex_encode raw) t1) as (h & -> & Hh).
  change (resp_ok 200) with true. cbn [negb]. unfold mret. rewrite Hh.
  exists h, (Ev (QBroadcast esplora (hex_encode raw)) (Resp 200 (Some h)) :: t1), (hex_encode raw).
  split_and!; [done|done|transitivity t1; [done|by apply added_cons]|by left|].
  exists (Fin T), (i :: items), w0, changeAddress, tx, raw. rewrite Es.
  split_and!; try done. cbn [num_lt]. destruct (Z.ltb_spec T 546); [lia|done].
Qed.
End coins.

(** ** The coins of one deposit during a turn *)

Section pays.
Context `{HL : HdLibrary} `{BL : BtcLibrary} `{VL : ViemLibrary}.
Context `{SQ : Sqlite} `{ZD : Zod} `{CH : Chanfana}.
Context (cfg : Config) (rt : runtime) (d0 : db) (drop : query -> bool) (w : Environment).

#[local] Hint Extern 0 Environment => exact (here cfg rt d0 drop w) : typeclass_instances.
Local Abbreviation tabs := (tables cfg rt d0 drop).
Local Abbreviation reached := (reached cfg rt d0 drop).
Local Abbreviation other_row := (other_row cfg).
Local Abbreviation after_call := (after_call cfg rt drop).

(** A funded deposit of the network with this address. *)
Definition backing (id0 network address : string) (d : db) : Prop :=
  exists f, In f (deposits d) /\ fget f "id" = FStr id0 /\ is_funded f = true /\
    fget f "network" = FStr network /\ fget f "ecash_address" = FStr address /\
    exists k, fget f "derivation_index" = FInt k.

(** No PATCH takes the coins from a deposit. *)
Definition keeps_coin (e : event) : Prop :=
  forall url a body, ev_query e = QApiPatch url a body ->
    rec_get body "ecash_address" = None /\ rec_get body "derivation_index" = None /\
    (rec_get body "amount_sats" = None \/ exists z, rec_get body "amount_sats" = Some (FInt z)).

Lemma set_keeps_cell tb set r k :
  row_ok tb r -> patch_ok tb set -> ~ In k (mutable tb) -> fget (set_columns (schema_of tb) set r) k = fget r k.
Proof.
  intros (Hc & _) Hp Hk. apply set_columns_other; [done|].
  destruct (rec_get set k) as [f|] eqn:E; [|done]. by destruct (Hp _ _ E).
Qed.

Lemma set_keeps_backing set f id0 network address k :
  row_ok Deposits f -> patch_ok Deposits set ->
  rec_get set "ecash_address" = None -> rec_get set "derivation_index" = None ->
  (rec_get set "amount_sats" = None \/ exists z, rec_get set "amount_sats" = Some (FInt z)) ->
  fget f "id" = FStr id0 -> is_funded f = true -> fget f "network" = FStr network ->
  fget f "ecash_address" = FStr address -> fget f "derivation_index" = FInt k ->
  let f' := set_columns (schema_of Deposits) set f in
  fget f' "id" = FStr id0 /\ is_funded f' = true /\ fget f' "network" = FStr network /\
  fget f' "ecash_address" = FStr address /\ fget f' "derivation_index" = FInt k.
Proof.
  intros Hok Hp Ha Hi Hs Hid Hfund Hn Haddr Hk f'. pose proof (proj1 Hok) as Hc.
  assert (Eid : fget f' "id" = fget f "id") by (apply set_keeps_cell; try done; simpl; intuition discriminate).
  assert (En : fget f' "network" = fget f "network")
    by (apply set_keeps_cell; try done; simpl; intuition discriminate).
  assert (Ea : fget f' "ecash_address" = fget f "ecash_address") by by apply set_columns_other.
  assert (Ei : fget f' "derivation_index" = fget f "derivation_index") by by apply set_columns_other.
  split_and!; try congruence. unfold is_funded in *. rewrite Ea, Ei.
  apply andb_true_iff in Hfund as [[Hsats ?]%andb_true_iff ?]. rewrite !andb_true_iff. split_and!; try done.
  apply bool_decide_eq_true. apply bool_decide_eq_true in Hsats. destruct Hs as [Hs|[z Hs]].
  - unfold f'. by rewrite (set_columns_other Deposits).
  - unfold f'. assert (Hin : In (column_named Deposits "amount_sats") (schema_of Deposits)) by in_list.
    pose proof (set_columns_set Deposits set f _ (FInt z) Hin Hs) as E. change (col_name _) with "amount_sats" in E.
    rewrite E. change (col_type _) with INTEGER. by rewrite store_integer.
Qed.

(** What a call leaves of a row: the row, or what a PATCH of it made. *)
Lemma after_call_row tb q d f :
  db_ok d -> In f (rows_of tb d) ->
  In f (rows_of tb (after_call q d)) \/
  exists id a body set, q = QApiPatch (item_url cfg tb id) a body /\ has_id id f = true /\ patch_ok tb set /\
    (forall k v, In k (allowed_of tb) -> rec_get set k = Some v <-> rec_get body k = Some v) /\
    In (set_columns (schema_of tb) set f) (rows_of tb (after_call q d)).
Proof.
  intros Hd Hin. unfold BridgeTurn.after_call.
  destruct (drop q); [by left|]. destruct (call_request cfg q) as [rq|] eqn:Erq; [|by left].
  destruct (is_item_request rq) eqn:Ei.
  2: { left. destruct (handle_grown rt rq d (or_intror Ei) tb) as (new & -> & _). apply in_app_iff. by left. }
  apply item_request_dec in Ei as (tb' & id' & Hne' & Hm & Hp).
  destruct q as [| | | |url a|url a body|url a| | |]; try done; cbn [call_request] in Erq;
    destruct (request_path cfg url) as [p|] eqn:Ep; try done; injection Erq as <-; try done.
  cbn [rq_path] in Hp. subst p. apply item_request_url in Ep as [-> _].
  pose proof (handle_patch rt tb' id' (Some a) (given_of body) d Hd Hne') as Hh.
  change (JObj (given_of body)) with (json_of_row body) in Hh.
  destruct (handle_request _ _ d) as [ans d']. cbn [snd].
  destruct Hh as [[_ ->]|(set & Hset & Hgiven & Hrows & Hother)]; [by left|].
  destruct (decide (tb' = tb)) as [->|Hne]; [|left; by rewrite Hother].
  assert (Hin' : In (if has_id id' f then set_columns (schema_of tb) set f else f) (rows_of tb d')).
  { rewrite Hrows. apply in_map_iff. by exists f. }
  destruct (has_id id' f) eqn:Eid; [right|by left]. exists id', a, body, set. split_and!; try done.
  intros k v Hk. rewrite Hgiven by done. unfold given_of. rewrite rec_get_map.
  destruct (rec_get body k); cbn; naive_solver.
Qed.

Lemma after_call_backing q d id0 network address :
  db_ok d -> (forall r, keeps_coin (Ev q r)) ->
  backing id0 network address d -> backing id0 network address (after_call q d).
Proof.
  intros Hd Hq (f & Hin & Hid & Hfund & Hn & Ha & k & Hk).
  destruct (after_call_row Deposits q d f Hd Hin) as [Hin'|(id & a & body & set & -> & _ & Hp & Hset & Hin')].
  { exists f. split_and!; try done. by exists k. }
  destruct (Hq (Resp 200 None) _ _ _ eq_refl) as (Hka & Hki & Hks).
  assert (Hnone : forall c, In c (allowed_of Deposits) -> rec_get body c = None -> rec_get set c = None).
  { intros c Hc Hb. destruct (rec_get set c) as [g|] eqn:E; [|done]. apply Hset in E; congruence. }
  assert (Hok : row_ok Deposits f).
  { apply (db_ok_table Deposits) in Hd as [Hrok _]. rewrite list.Forall_forall in Hrok.
    apply Hrok. by apply list_elem_of_In. }
  destruct (set_keeps_backing set f id0 network address k) as (E1 & E2 & E3 & E4 & E5); try done.
  1, 2: by apply Hnone; [in_list|].
  - destruct Hks as [Hks|[z Hks]]; [left; by apply Hnone; [in_list|]|right; exists z].
    by apply Hset; [in_list|].
  - exists (set_columns (schema_of Deposits) set f). split_and!; try done. by exists k.
Qed.

Definition coin_event (id0 : string) (e : event) : Prop := patch_to (other_row Deposits id0) e \/ keeps_coin e.

Lemma backing_kept id0 network address t t' :
  db_ok d0 -> added (coin_event id0) t t' ->
  backing id0 network address (tabs t) -> backing id0 network address (tabs t').
Proof.
  intros Hd Hadd. apply (tables_keep cfg rt d0 drop (coin_event id0)); [done| |done].
  intros q r d [He|He] Hdb Hb.
  - destruct Hb as (f & Hin & Hid & Hf). exists f. split; [|done].
    by apply (after_call_spares cfg rt drop Deposits id0).
  - apply after_call_backing; [done| |done]. intros r' url a body E. by apply (He url a body).
Qed.

(** A deposit that has its address is never given another. *)
Lemma processDeposit_keeps_coin d : emits keeps_coin (processDeposit cfg d).
Proof.
  unfold processDeposit, checkAddressForDeposits, mintEcx, record_mint.
  repeat match goal with
  | |- emits _ (apiPatch _ _ _) =>
      apply apiPatch_emits; intros ? ? ? ? [= _ _ <-]; split_and!; [reflexivity|reflexivity|];
      first [by left | right; eexists; reflexivity]
  | |- emits _ (getTipHeight _) => apply getTipHeight_emits; by intros ? ? ? ?
  | |- emits _ (getWalletClient _ _) => apply silent_emits, getWalletClient_silent
  | |- emits _ (getPublicClient _ _) => apply silent_emits, getPublicClient_silent
  | |- emits _ (getAccount _) => apply silent_emits, getAccount_silent
  | |- emits _ (mlift _) => apply emits_lift
  | |- keeps_coin _ => by intros ? ? ?
  | _ => emit_step
  end.
Qed.

Lemma deposits_keep_backing id0 network address s t :
  db_ok d0 -> rt_db_up rt = true -> fed_authorized rt (Some (auth cfg)) = true ->
  str_truthy address = true -> backing id0 network address (tabs t) ->
  exists s' t', processPendingDeposits cfg s t = (Ok tt, s', t') /\ added (coin_event id0) t t'.
Proof.
  intros Hd Hup Hauth Htr (f & Hin & Hid & _ & _ & Ha & _). unfold processPendingDeposits, apiGet, mtry, mbind, ask.
  set (q := QApiGet (API_URL cfg +:+ "/fed/deposits/pending") (auth cfg)).
  assert (Ht1 : forall r, added (coin_event id0) t (Ev q r :: t)).
  { intros r. apply added_cons. left. by intros ? ? ?. }
  destruct (drop q) eqn:Eq.
  { assert (respond q t = NetErr "timeout") as -> by (unfold respond, here, deployed; by rewrite Eq).
    cbn. eexists s, _. split; [done|apply Ht1]. }
  pose proof (listing_answered cfg rt d0 drop w Deposits t Hup Hauth Eq) as Hl.
  change (is_open Deposits) with is_pending_deposit in Hl. change (QApiGet _ _) with q in Hl. rewrite Hl. cbn.
  rewrite mfor_map.
  set (t1 := Ev q _ :: t).
  destruct (quiet_run (coin_event id0)
    (mfor (select_where Deposits is_pending_deposit false (tabs t)) (deposit_work cfg)) s t1)
    as ([] & s2 & t2 & E & Ht2).
  - apply emits_for. intros x Hx. destruct (listed_has_id cfg rt d0 drop Deposits _ t x Hd Hx) as [i Hi].
    apply select_where_in in Hx as [Hx _]. destruct (decide (i = id0)) as [->|Hne].
    + assert (x = f) as -> by (apply (unique_id Deposits (tabs t)); [by apply tables_ok|done|done|congruence]).
      unfold deposit_work, processOneDeposit. apply emits_try; [|intros; apply emits_ret].
      cbn [d_ecash_address Deposit_of]. rewrite (fget_str_eq _ _ _ Ha). cbn [opt_truthy]. rewrite Htr. cbn [negb].
      eapply emits_mono; [|apply processDeposit_keeps_coin]. by right.
    + eapply emits_mono; [|by apply deposit_work_own]. intros e He. left. intros url a body Eq'.
      rewrite <-(He url a body Eq'). intros [_ ?]%item_url_inj. done.
  - apply never_throws_for, deposit_work_never_throws.
  - exists s2, t2. unfold deposit_work in E. rewrite E. split; [done|]. transitivity t1; [apply Ht1|done].
Qed.

(** *** The service's variables *)

Section wallet_kept.
Context (w0 : HDWallet) (Hw0 : new_HDWallet (HD_MNEMONIC cfg) = Ok w0).

Ltac keep_wallet :=
  repeat first [by apply getWallet_preserves|apply getAccount_preserves|preserve_step]; try done.

Lemma collect_preserves network url fds : preserves (wallet_is w0) (collect_utxos network url fds).
Proof.
  induction fds as [|d fds IH]; cbn [collect_utxos]; [apply preserves_ret|].
  apply preserves_bind; [unfold collect_deposit, fetchUtxos; keep_wallet|intros here'].
  apply preserves_bind; [done|intros rest; apply preserves_ret].
Qed.

Lemma processOneWithdrawal_preserves now x : preserves (wallet_is w0) (processOneWithdrawal cfg now x).
Proof using Hw0.
  unfold processOneWithdrawal, processWithdrawal, complete_withdrawal, verifyBurnTx, getPublicClient,
    fetchFundedDeposits, buildSignAndBroadcastWithdrawal, broadcastTx, apiPatch, http_json.
  repeat first [by apply getWallet_preserves|apply collect_preserves|preserve_step]; done.
Qed.

Lemma processPendingDeposits_preserves : preserves (wallet_is w0) (processPendingDeposits cfg).
Proof using Hw0.
  unfold processPendingDeposits, apiGet, http_json.
  repeat first [by apply processOneDeposit_preserves|preserve_step]; done.
Qed.
End wallet_kept.

(** ** One withdrawal *)

(** What the API holds of a withdrawal and the outside shows: the burn is
    known, the time is not over, and the deposits' wallet builds and sends. *)
Record due (id address url : string) (w0 : HDWallet) (T : Z) (r : record) : Prop := {
  wd_id : fget r "id" = FStr id;
  wd_open : has_text "status" "pending" r = true;
  wd_burn : exists burn, w_burn_tx_hash (Withdrawal_of r) = Some burn /\ str_truthy burn = true /\
    forall t, respond (QGetTx (w_network (Withdrawal_of r)) burn) t = Ok true;
  wd_rpc : exists u, url_of (RPC_URLS cfg) (w_network (Withdrawal_of r)) = Some u;
  wd_key : str_truthy (MINTER_PRIVATE_KEY cfg) = true;
  wd_timely : forall t, timed_out (respond QNow t) (Withdrawal_of r) = false;
  wd_amount : sats_or (w_amount_sats (Withdrawal_of r))
    (ecxToSats (w_amount_ecx (Withdrawal_of r)) (w_network (Withdrawal_of r))) = Fin T;
  wd_dust : DUST_LIMIT <= T;
  wd_esplora : url_of (Federation.ESPLORA_URLS cfg) (w_network (Withdrawal_of r)) = Some url;
  wd_mnemonic : str_truthy (HD_MNEMONIC cfg) = true;
  wd_wallet : new_HDWallet (HD_MNEMONIC cfg) = Ok w0;
  wd_built : forall t, exists change,
    deriveDepositAddress w0 (w_network (Withdrawal_of r)) (time_index (respond QNow t)) = Ok change /\
    buildable (w_network (Withdrawal_of r)) url (w_ecash_address (Withdrawal_of r)) T w0 change;
  wd_sent : forall raw t, exists h, respond (QBroadcast url raw) t = Resp 200 (Some h) /\ str_truthy (trim h) = true;
  wd_values : forall u, shown url u -> 0 <= utxo_value u;
  wd_truthy : str_truthy address = true;
  wd_holds : holds_at_least url (T + feeSats) address;
  wd_funded : drop (QApiGet (API_URL cfg +:+ "/fed/deposits/funded") (auth cfg)) = false
}.

Local Abbreviation backed id0 address r := (backing id0 (w_network (Withdrawal_of r)) address).

(** What the tables say of a withdrawal that was paid. *)
Definition paid_in (id : string) (T : Z) (hash : string) (d : db) : Prop :=
  exists r, In r (withdrawals d) /\ fget r "id" = FStr id /\ fget r "status" = FStr "completed" /\
    fget r "ecash_tx_hash" = FStr hash /\ fget r "amount_sats" = FInt T.

Definition paid (id url : string) (T : Z) (r : record) (t : trace) : Prop :=
  exists h raw, paid_in id T (trim h) (tabs t) /\ pays_withdrawal (Withdrawal_of r) raw /\
    In (Ev (QBroadcast url raw) (Resp 200 (Some h))) t.

Lemma paid_spared id url T r t t' :
  db_ok d0 -> added (patch_to (other_row Withdrawals id)) t t' -> paid id url T r t -> paid id url T r t'.
Proof.
  intros Hd Hadd (h & raw & (x & Hin & Hid & Hx) & Hp & Hsent). exists h, raw. split_and!; [|done|].
  - exists x. split; [by apply (spared cfg rt d0 drop Withdrawals id x t t')|done].
  - destruct Hadd as (new & -> & _). apply in_app_iff. by right.
Qed.

(** The burn check leaves the wallet as it is. *)
Lemma verifyBurnTx_known network burn u s t :
  str_truthy burn = true -> url_of (RPC_URLS cfg) network = Some u ->
  respond (QGetTx network burn) t = Ok true ->
  exists s', verifyBurnTx cfg network burn s t = (Ok true, s', Ev (QGetTx network burn) (Ok true) :: t) /\
    s_wallet s' = s_wallet s.
Proof.
  intros Hb Hu Hr. unfold verifyBurnTx. rewrite Hb. cbn [negb]. unfold mtry, getPublicClient, mbind, mget.
  destruct (existsb _ _); [|rewrite Hu]; unfold ask, mlift, mput, mret; rewrite Hr; by eexists.
Qed.

(** The deposits the service collects from. *)
Lemma fetchFundedDeposits_gives s t :
  rt_db_up rt = true -> fed_authorized rt (Some (auth cfg)) = true ->
  drop (QApiGet (API_URL cfg +:+ "/fed/deposits/funded") (auth cfg)) = false ->
  exists r, fetchFundedDeposits cfg s t =
    (Ok (map FundedDeposit_of (select_where Deposits is_funded false (tabs t))), s,
     Ev (QApiGet (API_URL cfg +:+ "/fed/deposits/funded") (auth cfg)) r :: t).
Proof.
  intros Hup Ha Hdrop. eexists. unfold fetchFundedDeposits, mtry, mbind, ask.
  rewrite (get_replies cfg rt d0 drop w "/fed/deposits/funded" ["deposits"; "funded"] Deposits is_funded t); try done.
  - by rewrite request_path_app.
  - cbn [fed_route]. unfold fed_funded_deposits, abind, d1_read. by rewrite Hup.
Qed.

Lemma backing_collected id0 network address d :
  backing id0 network address d ->
  exists f, In f (map FundedDeposit_of (select_where Deposits is_funded false d)) /\
    fd_network f = network /\ fd_derivation_index f <> None /\ fd_ecash_address f = address.
Proof.
  intros (f & Hin & _ & Hfund & Hn & Ha & k & Hk). exists (FundedDeposit_of f). split_and!.
  - apply in_map. by apply select_where_in.
  - cbn [fd_network FundedDeposit_of]. unfold str_field. by rewrite (fget_str_eq _ _ _ Hn).
  - cbn [fd_derivation_index FundedDeposit_of]. unfold fget_int. by rewrite Hk.
  - cbn [fd_ecash_address FundedDeposit_of]. unfold str_field. by rewrite (fget_str_eq _ _ _ Ha).
Qed.

Lemma elsewhere_other tb id t t' :
  reached tb id -> added (elsewhere cfg) t t' -> added (patch_to (other_row tb id)) t t'.
Proof.
  intros R. apply added_mono. intros e He url a body Eq Hurl. unfold elsewhere in He. rewrite Eq, Hurl in He.
  cbn [call_request] in He. by rewrite (item_request_path cfg tb id (proj2 (segment_inv _ (rc_id _ _ _ _ _ _ R)))) in He.
Qed.

(** The row after the report. *)
Lemma complete_row id T h now d r :
  reached Withdrawals id -> db_ok d -> In r (withdrawals d) -> fget r "id" = FStr id ->
  paid_in id T h (after_call (QApiPatch (item_url cfg Withdrawals id) (auth cfg)
    [("status", FStr "completed"); ("ecash_tx_hash", FStr h); ("amount_sats", FInt T); ("completed_at", FInt now)]) d).
Proof.
  intros R Hd Hin Hid.
  destruct (patched_to cfg rt d0 drop w Withdrawals id [("status", FStr "completed"); ("ecash_tx_hash", FStr h);
    ("amount_sats", FInt T); ("completed_at", FInt now)] d r R) as (r' & Hin' & Hc); try done.
  exists r'. split; [exact Hin'|].
  split_and!; [refine (eq_trans (Hc (column_named Withdrawals "id") _) _); [in_list|exact Hid]
    |refine (eq_trans (Hc (column_named Withdrawals "status") _) _); [in_list|apply store_text]
    |refine (eq_trans (Hc (column_named Withdrawals "ecash_tx_hash") _) _); [in_list|apply store_text]
    |refine (eq_trans (Hc (column_named Withdrawals "amount_sats") _) _); [in_list|apply store_integer]].
Qed.

Lemma complete_withdrawal_done id T h r s t :
  reached Withdrawals id -> fget r "id" = FStr id -> In r (withdrawals (tabs t)) ->
  sats_or (w_amount_sats (Withdrawal_of r))
    (ecxToSats (w_amount_ecx (Withdrawal_of r)) (w_network (Withdrawal_of r))) = Fin T ->
  exists t', complete_withdrawal cfg (Withdrawal_of r) h s t = (Ok tt, s, t') /\
    paid_in id T h (tabs t') /\ (forall e, In e t -> In e t').
Proof.
  intros R Hid Hin HT. unfold complete_withdrawal. rewrite HT. unfold mbind at 1, ask at 1.
  set (now := respond QNow t). set (t1 := Ev QNow now :: t).
  assert (Hw : w_id (Withdrawal_of r) = id).
  { cbn [w_id Withdrawal_of]. unfold str_field. by rewrite (fget_str_eq _ _ _ Hid). }
  rewrite Hw. set (body := [("status", FStr "completed"); _; _; _]).
  pose proof (proj1 (patch_replies cfg rt d0 drop w Withdrawals id body t1 R eq_refl eq_refl)) as Hp.
  unfold apiPatch, mbind, ask, http_json. change (API_URL cfg +:+ _) with (item_url cfg Withdrawals id). rewrite Hp.
  eexists. split; [reflexivity|]. split; [|intros e He; by do 2 right].
  rewrite (tables_calls cfg rt d0 drop (_ :: t1) [QApiPatch (item_url cfg Withdrawals id) (auth cfg) body; QNow] t) by done.
  cbn [foldr]. rewrite (other_call cfg rt drop QNow) by done.
  apply (complete_row id T h now (tabs t) r); try done. by apply tables_ok, R.
Qed.

(** The turn of a due withdrawal whose coins are there. *)
Lemma processOneWithdrawal_pays id id0 address url w0 T now r s t :
  reached Withdrawals id -> due id address url w0 T r -> wallet_is w0 s ->
  timed_out now (Withdrawal_of r) = false -> backed id0 address r (tabs t) -> In r (withdrawals (tabs t)) ->
  exists s' t', processOneWithdrawal cfg now (Withdrawal_of r) s t = (Ok tt, s', t') /\ paid id url T r t'.
Proof.
  intros R D Hs Hto Hb Hin. pose proof (wd_id _ _ _ _ _ _ D) as Hid.
  destruct (wd_burn _ _ _ _ _ _ D) as (burn & Eburn & Hburn & Hknown).
  destruct (wd_rpc _ _ _ _ _ _ D) as (u & Hu).
  assert (Hst : w_status (Withdrawal_of r) = "pending").
  { cbn [w_status Withdrawal_of]. unfold str_field.
    pose proof (wd_open _ _ _ _ _ _ D) as Ho. unfold has_text in Ho. apply bool_decide_eq_true in Ho.
    unfold fget_str. by rewrite Ho. }
  unfold processOneWithdrawal. rewrite Hto. unfold processWithdrawal. rewrite Hst, Eburn.
  change (negb (String.eqb "pending" "pending")) with false. change (default "" (Some burn)) with burn.
  rewrite Hburn, (wd_key _ _ _ _ _ _ D). cbn [negb]. unfold mtry. unfold mbind at 1.
  destruct (verifyBurnTx_known _ burn u s t Hburn Hu (Hknown t)) as (s1 & -> & Hs1). cbn [negb].
  set (t1 := Ev (QGetTx _ burn) _ :: t).
  assert (Hs1' : wallet_is w0 s1) by (unfold wallet_is in *; by rewrite Hs1).
  assert (E1 : tabs t1 = tabs t).
  { rewrite (tables_calls cfg rt d0 drop t1 [QGetTx (w_network (Withdrawal_of r)) burn] t) by done. by apply other_call. }
  unfold mbind at 1. destruct (fetchFundedDeposits_gives s1 t1) as (rp & ->); [apply R|apply R|apply D|]. rewrite E1.
  destruct (backing_collected _ _ _ _ Hb) as (f & Hf & Hfn & Hfi & Hfa).
  set (fds := map FundedDeposit_of _) in *. destruct fds as [|f0 fds]; [done|].
  set (t2 := Ev (QApiGet _ _) rp :: t1). unfold mbind at 1, ask at 1.
  set (now2 := respond QNow t2). set (t3 := Ev QNow now2 :: t2).
  unfold mbind at 1. destruct (getWallet_gives cfg w0 s1 t3) as (s2 & E2); [apply D|apply D|done|].
  rewrite E2.
  destruct (wd_built _ _ _ _ _ _ D t2) as (change & Hch & Hbuild).
  pose proof (getWallet_preserves cfg rt d0 drop w w0 (wd_wallet _ _ _ _ _ _ D) s1 t3 Hs1') as Hs2.
  unfold runs in Hs2.
  rewrite E2 in Hs2. cbn [fst snd] in Hs2.
  unfold mbind at 1, mlift at 1. fold now2 in Hch. rewrite Hch, (wd_esplora _ _ _ _ _ _ D).
  unfold mbind at 1. destruct (getWallet_gives cfg w0 s2 t3) as (s3 & ->); [apply D|apply D|done|].
  destruct (build_broadcasts cfg (w_network (Withdrawal_of r)) url (wd_values _ _ _ _ _ _ D) (Withdrawal_of r)
    (f0 :: fds) w0 change T f s3 t3) as (h & t4 & raw & Eb & Htrim & Hadd & Hsent & Hpays); try done; try apply D.
  { rewrite Hfa. apply D. }
  unfold mbind at 1. rewrite Eb, Htrim.
  assert (Hpre : added (patch_to (other_row Withdrawals id)) t t3).
  { exists [Ev QNow now2; Ev (QApiGet (API_URL cfg +:+ "/fed/deposits/funded") (auth cfg)) rp;
      Ev (QGetTx (w_network (Withdrawal_of r)) burn) (Ok true)].
    split; [done|]. by repeat constructor; intros ? ? ?. }
  assert (Hin4 : In r (withdrawals (tabs t4))).
  { apply (spared cfg rt d0 drop Withdrawals id r t t4); [apply R| |done|done].
    transitivity t3; [done|]. by apply elsewhere_other. }
  destruct (complete_withdrawal_done id T (trim h) r s3 t4 R Hid Hin4 (wd_amount _ _ _ _ _ _ D))
    as (t5 & -> & Hpaid & Hmore).
  exists s3, t5. split; [done|]. exists h, raw. split_and!; [done..|]. by apply Hmore.
Qed.

(** ** One turn *)

Definition withdrawal_work (now : Z) (x : record) : M service unit := processOneWithdrawal cfg now (Withdrawal_of x).

Lemma withdrawal_work_own now x i :
  fget x "id" = FStr i -> emits (patch_to (eq (item_url cfg Withdrawals i))) (withdrawal_work now x).
Proof.
  intros Hx. apply processOneWithdrawal_patches. cbn [w_id Withdrawal_of]. unfold str_field.
  by rewrite (fget_str_eq _ _ _ Hx).
Qed.

Lemma withdrawal_work_never_throws now x : never_throws (withdrawal_work now x).
Proof. apply never_throws_try. by intros m s t. Qed.

(** Work on withdrawals leaves the coins. *)
Lemma withdrawal_work_backing id0 network address now x s t :
  db_ok d0 -> backing id0 network address (tabs t) ->
  backing id0 network address (tabs (snd (withdrawal_work now x s t))).
Proof.
  intros Hd Hb.
  assert (He : emits (coin_event id0) (withdrawal_work now x)).
  { eapply emits_mono; [|apply (processOneWithdrawal_patches cfg (other_row Deposits id0))]; [by left|].
    by intros [? _]%item_url_inj. }
  specialize (He s t). unfold runs in He. destruct (withdrawal_work now x s t) as [[o s'] t'].
  by apply (backing_kept id0 network address t).
Qed.

(** The pass starts with the listing and a look at the clock. *)
Lemma withdrawals_listing id s t :
  reached Withdrawals id ->
  exists t0 t1, (forall P, added (patch_to P) t t1) /\
    processPendingWithdrawals cfg s t =
      mtry (mfor (select_where Withdrawals (is_open Withdrawals) false (tabs t)) (withdrawal_work (respond QNow t0)))
        (fun _ => mret tt) s t1.
Proof.
  intros R. pose proof (listing_replies cfg rt d0 drop w Withdrawals id t R) as Hl.
  set (q := QApiGet _ _) in Hl. set (rows := select_where _ _ _ _) in *.
  set (t0 := Ev q (Resp 200 (Some rows)) :: t). exists t0, (Ev QNow (respond QNow t0) :: t0). split.
  - intros P. transitivity t0; apply added_cons; by intros ? ? ?.
  - unfold processPendingWithdrawals, apiGet, mtry, mbind, ask.
    change (QApiGet (API_URL cfg +:+ "/fed/withdrawals/pending") (auth cfg)) with q. rewrite Hl. cbn. by rewrite mfor_map.
Qed.

Lemma pass_pays id id0 address url w0 T r s t :
  reached Withdrawals id -> due id address url w0 T r -> wallet_is w0 s ->
  backed id0 address r (tabs t) -> In r (withdrawals (tabs t)) ->
  exists s' t', processPendingWithdrawals cfg s t = (Ok tt, s', t') /\ paid id url T r t'.
Proof.
  intros R D Hs Hb Hin. pose proof (rc_start _ _ _ _ _ _ R) as Hd. pose proof (wd_id _ _ _ _ _ _ D) as Hid.
  destruct (withdrawals_listing id s t R) as (t0 & t1 & Ht1 & ->). set (now := respond QNow t0).
  assert (Hb1 : backed id0 address r (tabs t1)).
  { apply (backing_kept id0 _ _ t); [done| |done]. eapply added_mono; [|exact (Ht1 (other_row Deposits id0))]. by left. }
  destruct (pass_one cfg rt d0 drop w Withdrawals (withdrawal_work now) (withdrawal_work_own now)
    (withdrawal_work_never_throws now) id r (wallet_is w0)
    (fun t => backed id0 address r (tabs t)) (paid id url T r))
    with (rows := select_where Withdrawals (is_open Withdrawals) false (tabs t)) (s := s) (t := t1)
    as (s2 & t2 & E & Ht2); try done.
  - intros t2 t3. by apply paid_spared.
  - intros x. apply processOneWithdrawal_preserves, D.
  - intros x s2 t2 Hk _. by apply withdrawal_work_backing.
  - intros s2 t2 Hs2 Hk Hin2. apply (processOneWithdrawal_pays id id0 address url w0 T); try done. apply D.
  - by apply listed_ids_nodup, tables_ok.
  - intros x. by apply (listed_has_id cfg rt d0 drop Withdrawals (is_open Withdrawals) t).
  - apply select_where_in. split; [done|apply D].
  - apply (spared cfg rt d0 drop Withdrawals id r t t1); try done.
  - exists s2, t2. unfold mtry. by rewrite E.
Qed.

(** A completed row is not listed. *)
Lemma withdrawals_pass_leaves id url T r s t :
  reached Withdrawals id -> paid id url T r t ->
  exists s' t', processPendingWithdrawals cfg s t = (Ok tt, s', t') /\ paid id url T r t'.
Proof.
  intros R Hp. pose proof (rc_start _ _ _ _ _ _ R) as Hd.
  destruct (withdrawals_listing id s t R) as (t0 & t1 & Ht1 & ->). set (now := respond QNow t0).
  pose proof Hp as (h & raw & (x & Hin & Hid & Hst & _) & _).
  destruct (others_pass cfg Withdrawals (withdrawal_work now) (withdrawal_work_own now)
    (withdrawal_work_never_throws now) id (select_where Withdrawals (is_open Withdrawals) false (tabs t)) s t1)
    as (s' & t' & E & Ht').
  { apply list.Forall_forall. intros y Hy%list_elem_of_In.
    split; [|by apply (listed_has_id cfg rt d0 drop Withdrawals (is_open Withdrawals) t)].
    apply select_where_in in Hy as [Hy Hopen]. intros Hyid.
    assert (y = x) as -> by (apply (unique_id Withdrawals (tabs t)); [by apply tables_ok|done|done|congruence]).
    unfold is_open, has_text in Hopen. by rewrite Hst in Hopen. }
  exists s', t'. unfold mtry. rewrite E. split; [done|].
  apply (paid_spared id url T r t1); [done..|]. by apply (paid_spared id url T r t).
Qed.

(** What comes before the withdrawals in a turn: the row and its coins are
    left alone, and the service still has the one wallet. *)
Lemma before_withdrawals id id0 network address w0 s t :
  reached Withdrawals id -> new_HDWallet (HD_MNEMONIC cfg) = Ok w0 -> wallet_is w0 s ->
  str_truthy address = true -> backing id0 network address (tabs t) ->
  exists s1 t1 s2 t2, checkIn cfg s t = (Ok tt, s1, t1) /\ processPendingDeposits cfg s1 t1 = (Ok tt, s2, t2) /\
    added (patch_to (other_row Withdrawals id)) t t2 /\ wallet_is w0 s2 /\ backing id0 network address (tabs t2).
Proof.
  intros R Hw Hs Htr Hb. pose proof (rc_start _ _ _ _ _ _ R) as Hd.
  destruct (quiet_run (patch_to (fun url => other_row Withdrawals id url /\ other_row Deposits id0 url)) (checkIn cfg) s t)
    as ([] & s1 & t1 & E1 & Ht1); [apply checkIn_patches|apply never_throws_try; by intros m s1 t1|].
  assert (Hb1 : backing id0 network address (tabs t1)).
  { apply (backing_kept id0 _ _ t); [done| |done]. eapply added_mono; [|exact Ht1]. intros e He. left.
    intros u a b Eq. by apply (He u a b). }
  destruct (deposits_keep_backing id0 network address s1 t1) as (s2 & t2 & E2 & Ht2); try done; [apply R..|].
  exists s1, t1, s2, t2. split_and!; [done|done| | |].
  - transitivity t1; [eapply added_mono; [|exact Ht1]; intros e He u a b Eq; by apply (He u a b)|].
    assert (He : emits (patch_to (other_row Withdrawals id)) (processPendingDeposits cfg)).
    { apply processPendingDeposits_patches. by intros i [? _]%item_url_inj. }
    specialize (He s1 t1). unfold runs in He. by rewrite E2 in He.
  - pose proof (checkIn_preserves cfg rt d0 drop w (wallet_is w0) s t Hs) as H1. unfold runs in H1. rewrite E1 in H1.
    pose proof (processPendingDeposits_preserves w0 Hw s1 t1 H1) as H2. unfold runs in H2. by rewrite E2 in H2.
  - by apply (backing_kept id0 network address t1).
Qed.

Lemma turn_pays id id0 address url w0 T r s t :
  reached Withdrawals id -> due id address url w0 T r -> wallet_is w0 s ->
  backed id0 address r (tabs t) -> In r (withdrawals (tabs t)) ->
  exists s' t', Federation.poll_once cfg s t = (Ok tt, s', t') /\ paid id url T r t'.
Proof.
  intros R D Hs Hb Hin.
  destruct (before_withdrawals id id0 _ address w0 s t R (wd_wallet _ _ _ _ _ _ D) Hs (wd_truthy _ _ _ _ _ _ D) Hb)
    as (s1 & t1 & s2 & t2 & E1 & E2 & Ht & Hs2 & Hb2).
  destruct (pass_pays id id0 address url w0 T r s2 t2 R D Hs2 Hb2) as (s3 & t3 & E3 & Hp).
  { apply (spared cfg rt d0 drop Withdrawals id r t); [apply R|done|done|apply D]. }
  exists s3, t3. unfold Federation.poll_once, mtry at 1, mbind. by rewrite E1, E2, E3.
Qed.

Lemma turn_leaves_paid id url T r s t :
  reached Withdrawals id -> paid id url T r t ->
  exists s' t', Federation.poll_once cfg s t = (Ok tt, s', t') /\ paid id url T r t'.
Proof.
  intros R Hp. pose proof (rc_start _ _ _ _ _ _ R) as Hd.
  destruct (quiet_run (patch_to (other_row Withdrawals id)) (checkIn cfg) s t) as ([] & s1 & t1 & E1 & Ht1);
    [apply checkIn_patches|apply never_throws_try; by intros m s1 t1|].
  destruct (quiet_run (patch_to (other_row Withdrawals id)) (processPendingDeposits cfg) s1 t1)
    as ([] & s2 & t2 & E2 & Ht2).
  { apply processPendingDeposits_patches. by intros i [? _]%item_url_inj. }
  { apply never_throws_try; by intros m s2 t2. }
  destruct (withdrawals_pass_leaves id url T r s2 t2 R) as (s3 & t3 & E3 & Hp3).
  { apply (paid_spared id url T r t); [done| |done]. by transitivity t1. }
  exists s3, t3. unfold Federation.poll_once, mtry at 1, mbind. by rewrite E1, E2, E3.
Qed.

Lemma loop_leaves_paid id url T r n s t :
  reached Withdrawals id -> paid id url T r t -> paid id url T r (snd (main_loop cfg n s t)).
Proof.
  intros R. revert s t. induction n as [|n IH]; intros s t Hp; [done|]. cbn [main_loop]. unfold mbind.
  destruct (turn_leaves_paid id url T r s t R Hp) as (s' & t' & -> & Hp'). by apply IH.
Qed.

Lemma loop_pays id id0 address url w0 T r n s t :
  reached Withdrawals id -> due id address url w0 T r -> wallet_is w0 s ->
  backed id0 address r (tabs t) -> In r (withdrawals (tabs t)) -> (0 < n)%nat ->
  paid id url T r (snd (main_loop cfg n s t)).
Proof.
  intros R D Hs Hb Hin Hn. destruct n as [|n]; [lia|]. cbn [main_loop]. unfold mbind.
  destruct (turn_pays id id0 address url w0 T r s t R D Hs Hb Hin) as (s' & t' & -> & Hp). by apply loop_leaves_paid.
Qed.
End pays.

(** ** Property *)

(** C5. A withdrawal reaches its owner. A due withdrawal whose burn the L2 node
    knows is paid by the first turn of the loop when one deposit of its network
    holds the amount and the fee: a transaction for exactly the amount is
    broadcast, and the API's tables say "completed" with its hash from then on.
    It is enough that the API is up and that the calls about this withdrawal
    and the listing of funded deposits are answered: other calls may be lost,
    and other deposits and withdrawals fail in any way. *)
Theorem due_withdrawal_is_paid `{HL : HdLibrary} `{BL : BtcLibrary} `{VL : ViemLibrary}
    `{SQ : Sqlite} `{ZD : Zod} `{CH : Chanfana} cfg rt d0 drop (w : Environment) id id0 address url w0 T r n s :
  reached cfg rt d0 drop Withdrawals id -> due cfg rt d0 drop w id address url w0 T r -> wallet_is w0 s ->
  backing id0 (w_network (Withdrawal_of r)) address d0 -> In r (withdrawals d0) -> (0 < n)%nat ->
  let t := @loop_trace HL BL VL (deployed cfg rt d0 drop w) cfg n s in
  exists hash raw,
    paid_in id T (trim hash) (tables cfg rt d0 drop t) /\ pays_withdrawal (Withdrawal_of r) raw /\
    In (Ev (QBroadcast url raw) (Resp 200 (Some hash))) t.
Proof.
  intros R D Hs Hb Hin Hn.
  exact (loop_pays cfg rt d0 drop w id id0 address url w0 T r n s [] R D Hs Hb Hin Hn).
Qed.

(** The tables once the deposit is minted, from a service that could not list
    the funded deposits. *)
Definition funded_listing_lost (q : query) : bool :=
  match q with QApiGet url _ => bool_decide (url = API_URL toy_cfg +:+ "/fed/deposits/funded") | _ => false end.
Definition unpaid_tables : db := bridge_tables funded_listing_lost 2.
Definition unpaid_row : record := default [] (head (withdrawals unpaid_tables)).
Definition coin_row : record := default [] (head (deposits unpaid_tables)).

Lemma unpaid_ok : db_ok unpaid_tables.
Proof. apply tables_ok, bridge_start_ok. Qed.

Definition toy_w0 : @HDWallet toy_library :=
  match @new_HDWallet toy_library (HD_MNEMONIC toy_cfg) with Ok w0 => w0 | Throw _ => @Build_HDWallet toy_library [] end.

(** In a world that shows the toy's outputs, the toy library builds. *)
Lemma toy_coins_build (EN : Environment) url ecash T change :
  (forall a t, respond (QUtxo url a) t = toy_world [] (QUtxo url a) t) ->
  str_truthy (cleanAddress ecash) = true -> str_truthy (cleanAddress change) = true ->
  @buildable toy_library toy_btc EN "signet" url ecash T toy_w0 change.
Proof.
  intros Hw He Hc. apply accepted_steps_build.
  - intros tx [] H; try reflexivity. cbn. destruct (H _ _ _ eq_refl) as [-> | ->]; [by rewrite He|by rewrite Hc].
  - intros [u d] [(x & (a & t & st & us & E & Hx) & Hu) (_ & k & Hk)]. cbn [fst snd] in *.
    rewrite Hw in E. injection E as <- <-. destruct Hx as [<-|[]]. subst u.
    unfold item_keypair, deriveKeyPair. cbn [snd]. rewrite Hk. do 3 eexists. split_and!; reflexivity.
  - intros tx. by eexists.
Qed.

Lemma due_withdrawal_is_paid_witness :
  fget unpaid_row "status" = FStr "pending" /\
  exists hash, paid_in "w1" 50000 (trim hash)
    (tables toy_cfg bridge_runtime unpaid_tables check_ins_lost
      (@loop_trace toy_library toy_btc toy_viem
        (deployed toy_cfg bridge_runtime unpaid_tables check_ins_lost (toy_world [])) toy_cfg 3 (@boot toy_library))).
Proof.
  split; [vm_compute; reflexivity|].
  destruct (@due_withdrawal_is_paid toy_library toy_btc toy_viem ref_sqlite ref_zod ref_chanfana
    toy_cfg bridge_runtime unpaid_tables check_ins_lost (toy_world []) "w1" "d1"
    (default "" (fget_str coin_row "ecash_address")) "https://esplora.signet.drivechain.info" toy_w0 50000 unpaid_row 3
    (@boot toy_library)) as (hash & raw & Hp & _).
  - split; try (vm_compute; reflexivity). apply unpaid_ok.
  - split; try (vm_compute; reflexivity).
    + exists "0xburn". split_and!; [vm_compute; reflexivity..|]. intros t. vm_compute. reflexivity.
    + eexists. vm_compute. reflexivity.
    + vm_compute. discriminate.
    + intros t. eexists. split; [vm_compute; reflexivity|].
      by apply toy_coins_build; [intros a t'; vm_compute|vm_compute|vm_compute].
    + intros raw t. exists "l1hash". split; vm_compute; reflexivity.
    + intros u (a & t & st & us & E & Hu). injection E as <- <-. destruct Hu as [<-|[]]. vm_compute. discriminate.
    + intros t. eexists. split; [vm_compute; reflexivity|]. vm_compute. discriminate.
  - left. reflexivity.
  - exists coin_row. split_and!; try (vm_compute; reflexivity); [vm_compute; left; reflexivity|].
    eexists. vm_compute. reflexivity.
  - vm_compute. left. reflexivity.
  - lia.
  - exists hash. exact Hp.
Defined.
