(* ===== verification/Browser.v ===== *)
(** * Pages that run a script

    What the sites' pages share: the document a script reads and changes, its
    intervals, and its handlers. A handler runs without interruption until it
    awaits something; its rest then waits for the answer, and other handlers
    run in between. A handler is a tree of synchronous changes to the page and
    of waits; which answer comes when is up to the world. [safe] and [first]
    are what is proved of handlers, one rule per construct, and [run_safe] is
    what it gives for runs. *)

From Stdlib Require Import ZArith Lia Ascii String List Bool.
From stdpp Require Import base list strings numbers gmap.
From S2P Require Import Prelude JsNumber Effects Json.
Local Open Scope Z_scope.

(** What is thrown: [err.code] and [err.message]. *)
Record thrown := Thrown { code : option Z; message : option string }.
Definition Error (m : string) : thrown := Thrown None (Some m).
Definition TypeError : thrown := Error "TypeError".
Definition SyntaxError : thrown := Error "SyntaxError".
Definition message_text (e : thrown) : string := default "undefined" (message e).

(** What a handler may wait for: a [fetch], several under [Promise.all], the
    wallet, the camera being released, and the clipboard. *)
Definition fetch_init : Type := option (string * json).
Inductive query :=
| Fetch (url : string) (init : fetch_init)
| FetchAll (calls : list (string * fetch_init))
| Ethereum (method : string) (params : list json)
| StopCamera
| WriteText (text : string).

(** A reply to a [fetch]: its status, and its body when that is JSON. *)
Definition reply : Type := Z * option json.

Inductive answer :=
| Got (j : json)
| Replied (r : reply)
| AllReplied (rs : list reply)
| Failed (e : thrown).

(** Any wait may fail; otherwise the answer is of the query's kind. *)
Definition fits (q : query) (a : answer) : bool :=
  match q, a with
  | _, Failed _ => true
  | Fetch _ _, Replied _ => true
  | FetchAll calls, AllReplied rs => Nat.eqb (length rs) (length calls)
  | Ethereum _ _, Got _ | StopCamera, Got _ | WriteText _, Got _ => true
  | _, _ => false
  end.

(** [j === s] *)
Definition is_string (j : option json) (s : string) : bool :=
  match j with Some (JScalar (FStr t)) => String.eqb t s | _ => false end.

(** The wallet's account as a script holds it: [null], [undefined], or a
    string. *)
Inductive address := Null | Undefined | Addr (a : string).

Definition connected (a : address) : bool := match a with Addr s => str_truthy s | _ => false end.
Definition address_text (a : address) : string :=
  match a with Null => "null" | Undefined => "undefined" | Addr s => s end.

Definition json_of_address (a : address) : json :=
  match a with Addr s => JStr s | _ => JNull end.

Section browser.
(** The script's variables, and what an interval runs. *)
Context {V T : Type}.

(** ** The page *)

(** The variables, the elements by id, the intervals, and the alerts shown. *)
Record page := Page {
  vars : V;
  inputs : gmap string string;
  texts : gmap string string;
  hidden : gset string;
  disabled : gset string;
  timers : list (Z * T);
  next_timer : Z;
  alerts : list string
}.

Definition with_vars f p := Page (f (vars p)) (inputs p) (texts p) (hidden p) (disabled p) (timers p)
  (next_timer p) (alerts p).
Definition with_inputs f p := Page (vars p) (f (inputs p)) (texts p) (hidden p) (disabled p) (timers p)
  (next_timer p) (alerts p).
Definition with_texts f p := Page (vars p) (inputs p) (f (texts p)) (hidden p) (disabled p) (timers p)
  (next_timer p) (alerts p).
Definition with_hidden f p := Page (vars p) (inputs p) (texts p) (f (hidden p)) (disabled p) (timers p)
  (next_timer p) (alerts p).
Definition with_disabled f p := Page (vars p) (inputs p) (texts p) (hidden p) (f (disabled p)) (timers p)
  (next_timer p) (alerts p).
Definition with_timers ts next p := Page (vars p) (inputs p) (texts p) (hidden p) (disabled p) ts next (alerts p).
Definition with_alert m p := Page (vars p) (inputs p) (texts p) (hidden p) (disabled p) (timers p)
  (next_timer p) (m :: alerts p).

(** [document.getElementById(id).value] and [.textContent] *)
Definition value (id : string) (p : page) : string := default EmptyString (inputs p !! id).
Definition text (id : string) (p : page) : string := default EmptyString (texts p !! id).

(** [clearInterval(i)], and [setInterval], whose result is the number of the
    new interval. *)
Definition clear_interval (i : option Z) (p : page) : page :=
  with_timers (List.filter (fun t => negb (bool_decide (Some (fst t) = i))) (timers p)) (next_timer p) p.
Definition set_interval (t : T) (p : page) : page :=
  with_timers (timers p ++ [(next_timer p, t)]) (next_timer p + 1) p.

(** ** Handlers *)

Inductive prog :=
| End
| Touch (f : page -> page) (k : page -> prog)
| Await (q : query) (k : answer -> prog)
| Spawn (c k : prog).

(** An asynchronous function, in terms of what follows its return and what
    follows its exception. *)
Definition js (A : Type) : Type := (A -> prog) -> (thrown -> prog) -> prog.

Definition jret {A} (a : A) : js A := fun ok _ => ok a.
Definition jthrow {A} (e : thrown) : js A := fun _ err => err e.
Definition jbind {A B} (c : js A) (f : A -> js B) : js B := fun ok err => c (fun a => f a ok err) err.
Definition jtry {A} (c : js A) (h : thrown -> js A) : js A := fun ok err => c ok (fun e => h e ok err).
Definition jlift {A} (o : outcome A) : js A := match o with Ok a => jret a | Throw m => jthrow (Error m) end.

Definition reads {A} (g : page -> A) : js A := fun ok _ => Touch id (fun p => ok (g p)).
Definition touch (f : page -> page) : js unit := fun ok _ => Touch f (fun _ => ok tt).

Definition await (q : query) : js answer := fun ok err =>
  Await q (fun a => match a with Failed e => err e | _ => ok a end).

(** A handler's promise is dropped, whether it is kept or broken. *)
Definition handler (c : js unit) : prog := c (fun _ => End) (fun _ => End).

(** [c()] without [await]. *)
Definition spawn (c : js unit) : js unit := fun ok _ => Spawn (handler c) (ok tt).

(** [await fetch(url, init)], with [resp.json()] after it, for several at once,
    and [await window.ethereum.request]. *)
Definition fetch (url : string) (init : fetch_init) : js reply :=
  jbind (await (Fetch url init)) (fun a => match a with Replied r => jret r | _ => jthrow TypeError end).
Definition body_of (r : reply) : js json :=
  match snd r with Some j => jret j | None => jthrow SyntaxError end.
Definition fetch_json (url : string) (init : fetch_init) : js json := jbind (fetch url init) body_of.
Definition fetch_all (calls : list (string * fetch_init)) : js (list reply) :=
  jbind (await (FetchAll calls)) (fun a => match a with AllReplied rs => jret rs | _ => jthrow TypeError end).
Definition wallet (method : string) (params : list json) : js json :=
  jbind (await (Ethereum method params)) (fun a => match a with Got j => jret j | _ => jthrow TypeError end).

(** [resp.ok] *)
Definition reply_ok (r : reply) : bool := (200 <=? fst r) && (fst r <? 300).

Definition set_value (id v : string) : js unit := touch (with_inputs (fun m => <[id := v]> m)).
Definition set_text (id v : string) : js unit := touch (with_texts (fun m => <[id := v]> m)).
Definition show (id : string) : js unit := touch (with_hidden (fun h => h ∖ {[id]})).
Definition hide (id : string) : js unit := touch (with_hidden (fun h => h ∪ {[id]})).
Definition enable (id : string) : js unit := touch (with_disabled (fun h => h ∖ {[id]})).
Definition disable (id : string) : js unit := touch (with_disabled (fun h => h ∪ {[id]})).
Definition alert (m : string) : js unit := touch (with_alert m).

(** [j.k] *)
Definition get (j : json) (k : string) : js (option json) := jlift (json_get j k).

(** [for (const x of list)] over an answer, an array or an object. *)
Definition elements (j : json) : js (list json) :=
  match j with JArr l => jret l | _ => jthrow TypeError end.

Fixpoint for_each {A} (l : list A) (body : A -> js unit) : js unit :=
  match l with [] => jret tt | x :: l' => jbind (body x) (fun _ => for_each l' body) end.

(** [accounts[0]] *)
Definition first_account (accounts : json) : js address :=
  match accounts with
  | JArr (JScalar (FStr a) :: _) => jret (Addr a)
  | JArr [] => jret Undefined
  | JScalar FNull => jthrow TypeError
  | _ => jret Undefined
  end.

(** ** Runs *)

(** The rest of a handler, waiting for the answer to a query. *)
Record wait := Wait { w_query : query; w_rest : answer -> prog }.

(** The page, what is waited for, oldest first, and all that was asked. *)
Record world := World { page_of : page; waits : list wait; asked : list query }.

Fixpoint run (c : prog) (w : world) : world :=
  match c with
  | End => w
  | Touch f k => let p := f (page_of w) in run (k p) (World p (waits w) (asked w))
  | Await q k => World (page_of w) (waits w ++ [Wait q k]) (q :: asked w)
  | Spawn c k => run k (run c w)
  end.

Definition start (c : js unit) (w : world) : world := run (handler c) w.

(** The [n]th wait is answered. *)
Definition answered (n : nat) (a : answer) (w : world) : world :=
  match waits w !! n with
  | Some wt =>
      if fits (w_query wt) a
      then run (w_rest wt a) (World (page_of w) (delete n (waits w)) (asked w)) else w
  | None => w
  end.

(** An interval fires. *)
Definition fires (body : T -> js unit) (i : Z) (w : world) : world :=
  match List.find (fun t => fst t =? i) (timers (page_of w)) with
  | Some (_, t) => start (body t) w
  | None => w
  end.

(** ** What the rest of a handler may do *)

Section safety.
Context (I : page -> Prop) (Q : query -> Prop).

(** However it goes on, [c] changes the page only in ways that keep [I], and
    asks only for what [Q] allows. *)
Fixpoint safe (c : prog) : Prop :=
  match c with
  | End => True
  | Touch f k => (forall p, I p -> I (f p)) /\ forall p, safe (k p)
  | Await q k => Q q /\ forall a, safe (k a)
  | Spawn c k => safe c /\ safe k
  end.

Definition safe_js {A} (c : js A) : Prop :=
  forall ok err, (forall a, safe (ok a)) -> (forall e, safe (err e)) -> safe (c ok err).

Lemma safe_ret {A} (a : A) : safe_js (jret a).
Proof. intros ok err Hok _. apply Hok. Qed.

Lemma safe_throw {A} e : safe_js (jthrow (A := A) e).
Proof. intros ok err _ Herr. apply Herr. Qed.

Lemma safe_bind {A B} (c : js A) (f : A -> js B) :
  safe_js c -> (forall a, safe_js (f a)) -> safe_js (jbind c f).
Proof. intros Hc Hf ok err Hok Herr. apply Hc; [|done]. intros a. by apply Hf. Qed.

Lemma safe_try {A} (c : js A) h : safe_js c -> (forall e, safe_js (h e)) -> safe_js (jtry c h).
Proof. intros Hc Hh ok err Hok Herr. apply Hc; [done|]. intros e. by apply Hh. Qed.

Lemma safe_lift {A} (o : outcome A) : safe_js (jlift o).
Proof. destruct o; [apply safe_ret|apply safe_throw]. Qed.

Lemma safe_reads {A} (g : page -> A) : safe_js (reads g).
Proof. intros ok err Hok _. split; [done|]. intros p. apply Hok. Qed.

Lemma safe_touch f : (forall p, I p -> I (f p)) -> safe_js (touch f).
Proof. intros Hf ok err Hok _. split; [done|]. intros _. apply Hok. Qed.

Lemma safe_await q : Q q -> safe_js (await q).
Proof. intros Hq ok err Hok Herr. split; [done|]. by intros [j|r|rs|e]. Qed.

Lemma safe_fetch url init : Q (Fetch url init) -> safe_js (fetch url init).
Proof.
  intros Hq. apply safe_bind; [by apply safe_await|]. intros []; auto using safe_ret, safe_throw.
Qed.

Lemma safe_body_of r : safe_js (body_of r).
Proof. unfold body_of. destruct (snd r); auto using safe_ret, safe_throw. Qed.

Lemma safe_fetch_json url init : Q (Fetch url init) -> safe_js (fetch_json url init).
Proof. intros Hq. apply safe_bind; [by apply safe_fetch|apply safe_body_of]. Qed.

Lemma safe_fetch_all calls : Q (FetchAll calls) -> safe_js (fetch_all calls).
Proof.
  intros Hq. apply safe_bind; [by apply safe_await|]. intros []; auto using safe_ret, safe_throw.
Qed.

Lemma safe_wallet m ps : Q (Ethereum m ps) -> safe_js (wallet m ps).
Proof.
  intros Hq. apply safe_bind; [by apply safe_await|]. intros []; auto using safe_ret, safe_throw.
Qed.

Lemma safe_elements j : safe_js (elements j).
Proof. unfold elements. destruct j; auto using safe_ret, safe_throw. Qed.

Lemma safe_for_each {A} (l : list A) body : (forall x, safe_js (body x)) -> safe_js (for_each l body).
Proof. intros H. induction l; [apply safe_ret|]. by apply safe_bind. Qed.

Lemma safe_first_account j : safe_js (first_account j).
Proof.
  unfold first_account. destruct j as [[]| |[|[[]| | |]]|]; auto using safe_ret, safe_throw.
Qed.

Lemma safe_handler c : safe_js c -> safe (handler c).
Proof. intros Hc. by apply Hc. Qed.

Lemma safe_spawn c : safe_js c -> safe_js (spawn c).
Proof. intros Hc ok err Hok _. split; [by apply safe_handler|apply Hok]. Qed.

(** What holds of a world whose waiting handlers are all safe. *)
Definition sound (w : world) : Prop :=
  I (page_of w) /\ Forall (fun wt => forall a, safe (w_rest wt a)) (waits w).

(** What a step with only such handlers does. *)
Definition quiet_step (w w' : world) : Prop :=
  sound w' /\ exists new, asked w' = new ++ asked w /\ Forall Q new.

(** Running a safe program asks only for what [Q] allows. *)
Lemma run_safe c w : safe c -> sound w -> quiet_step w (run c w).
Proof.
  unfold quiet_step. revert w. induction c as [|f k IH|q k IH|c IHc k IHk]; intros w Hs [Hp Hw]; cbn.
  - split; [done|]. by exists [].
  - destruct Hs as [Hf Hk]. apply (IH (f (page_of w)) (World (f (page_of w)) (waits w) (asked w)));
      [apply Hk|]. by split; [apply Hf|].
  - destruct Hs as [Hq Hk]. split.
    + split; [done|]. cbn. apply Forall_app; split; [done|]. by repeat constructor.
    + exists [q]. by repeat constructor.
  - destruct Hs as [Hc Hk]. destruct (IHc w Hc (conj Hp Hw)) as (Hs1 & n1 & E1 & Hn1).
    destruct (IHk _ Hk Hs1) as (Hs2 & n2 & E2 & Hn2). split; [done|].
    exists (n2 ++ n1). rewrite E2, E1, app_assoc. split; [done|]. by apply Forall_app.
Qed.

Lemma start_quiet c w : safe_js c -> sound w -> quiet_step w (start c w).
Proof. intros Hc Hw. apply run_safe; [|done]. by apply safe_handler. Qed.

Lemma quiet_refl w : sound w -> quiet_step w w.
Proof. intros Hw. split; [done|]. by exists []. Qed.

Lemma quiet_trans w w' w'' : quiet_step w w' -> (sound w' -> quiet_step w' w'') -> quiet_step w w''.
Proof.
  intros [Hs (n & E & Hn)] H. destruct (H Hs) as [Hs' (n' & E' & Hn')]. split; [done|].
  exists (n' ++ n). rewrite E', E, app_assoc. split; [done|]. by apply Forall_app.
Qed.

Lemma answered_quiet n a w : sound w -> quiet_step w (answered n a w).
Proof.
  intros Hw. unfold answered. destruct (waits w !! n) as [wt|] eqn:En; [|by apply quiet_refl].
  destruct (fits _ _); [|by apply quiet_refl]. destruct Hw as [Hp Hws].
  pose proof (proj1 (Forall_lookup _ _) Hws n wt En) as Hwt.
  apply (run_safe _ (World (page_of w) (delete n (waits w)) (asked w))); [apply Hwt|].
  split; [done|]. by apply Forall_delete.
Qed.

Lemma fires_quiet body i w : (forall t, safe_js (body t)) -> sound w -> quiet_step w (fires body i w).
Proof.
  intros Hb Hw. unfold fires. destruct (List.find _ _) as [[j t]|]; [|by apply quiet_refl].
  by apply start_quiet.
Qed.

(** ** The first wait of a handler *)

(** Like [safe], but the wait that the handler runs into first may be for
    anything. *)
Fixpoint first (c : prog) : Prop :=
  match c with
  | End => True
  | Touch f k => (forall p, I p -> I (f p)) /\ forall p, first (k p)
  | Await q k => forall a, safe (k a)
  | Spawn c k => first c /\ first k
  end.

Definition first_js {A} (c : js A) : Prop :=
  forall ok err, (forall a, safe (ok a)) -> (forall e, safe (err e)) -> first (c ok err).

Lemma first_safe c : safe c -> first c.
Proof. induction c; cbn; intuition eauto. Qed.

Lemma first_of_safe {A} (c : js A) : safe_js c -> first_js c.
Proof. intros Hc ok err Hok Herr. by apply first_safe, Hc. Qed.

Lemma first_reads_bind {A B} (g : page -> A) (f : A -> js B) :
  (forall a, first_js (f a)) -> first_js (jbind (reads g) f).
Proof. intros Hf ok err Hok Herr. split; [done|]. intros p. by apply Hf. Qed.

Lemma first_touch_bind {B} f (c : js B) :
  (forall p, I p -> I (f p)) -> first_js c -> first_js (jbind (touch f) (fun _ => c)).
Proof. intros Hf Hc ok err Hok Herr. split; [done|]. intros _. by apply Hc. Qed.

Lemma first_lift_bind {A B} (o : outcome A) (f : A -> js B) :
  (forall a, first_js (f a)) -> first_js (jbind (jlift o) f).
Proof.
  intros Hf. destruct o; [apply Hf|]. intros ok err _ Herr. by apply first_safe, Herr.
Qed.

Lemma first_bind {A B} (c : js A) (f : A -> js B) :
  first_js c -> (forall a, safe_js (f a)) -> first_js (jbind c f).
Proof. intros Hc Hf ok err Hok Herr. apply Hc; [|done]. intros a. by apply Hf. Qed.

Lemma first_try {A} (c : js A) h :
  first_js c -> (forall e, safe_js (h e)) -> first_js (jtry c h).
Proof. intros Hc Hh ok err Hok Herr. apply Hc; [done|]. intros e. by apply Hh. Qed.

Lemma first_await q : first_js (await q).
Proof. intros ok err Hok Herr. by intros [j|r|rs|e]. Qed.

Lemma first_fetch url init : first_js (fetch url init).
Proof. apply first_bind; [apply first_await|]. intros []; auto using safe_ret, safe_throw. Qed.

Lemma first_fetch_json url init : first_js (fetch_json url init).
Proof. apply first_bind; [apply first_fetch|apply safe_body_of]. Qed.

Lemma first_wallet m ps : first_js (wallet m ps).
Proof. apply first_bind; [apply first_await|]. intros []; auto using safe_ret, safe_throw. Qed.

Lemma run_first c w : first c -> sound w -> sound (run c w).
Proof.
  revert w. induction c as [|f k IH|q k IH|c IHc k IHk]; intros w Hs [Hp Hw]; cbn.
  - done.
  - destruct Hs as [Hf Hk]. apply IH; [apply Hk|]. by split; [apply Hf|].
  - split; [done|]. cbn. apply Forall_app; split; [done|]. by repeat constructor.
  - destruct Hs as [Hc Hk]. apply IHk; [done|]. by apply IHc.
Qed.
End safety.

(** ** Runs, symbolically *)

Lemma run_touch f k p ws qs : run (Touch f k) (World p ws qs) = run (k (f p)) (World (f p) ws qs).
Proof. done. Qed.

(** The newest wait is answered. *)
Lemma answered_last p ws qs q k a w' :
  fits q a = true -> run (k a) (World p ws qs) = w' ->
  answered (length ws) a (World p (ws ++ [Wait q k]) qs) = w'.
Proof.
  intros Hf <-. unfold answered. cbn [waits]. rewrite lookup_app_r, Nat.sub_diag by done.
  cbn [lookup list_lookup w_query w_rest page_of asked]. by rewrite Hf, delete_middle, app_nil_r.
Qed.
End browser.

Arguments page : clear implicits.
Arguments prog : clear implicits.
Arguments js : clear implicits.
Arguments wait : clear implicits.
Arguments world : clear implicits.

Declare Scope js_scope.
Delimit Scope js_scope with js.
Notation "x <- c ;; k" := (jbind c (fun x => k))
  (at level 100, c at next level, right associativity) : js_scope.
Notation "c ;; k" := (jbind c (fun _ => k))
  (at level 100, right associativity) : js_scope.

(** ** Automation *)

Create HintDb browser.
#[export] Hint Resolve safe_elements safe_body_of safe_for_each safe_first_account : browser.

Ltac keeps := intros ? H; first [exact H | solve [auto with browser]].

(** Applies the rules down to the single changes and queries. *)
Ltac safely_step :=
  match goal with
  | |- forall _, _ => intros ?
  | |- safe_js _ _ (jbind _ _) => apply safe_bind
  | |- safe_js _ _ (jtry _ _) => apply safe_try
  | |- safe_js _ _ (spawn _) => apply safe_spawn
  | |- safe_js _ _ (jret _) => apply safe_ret
  | |- safe_js _ _ (jthrow _) => apply safe_throw
  | |- safe_js _ _ (jlift _) => apply safe_lift
  | |- safe_js _ _ (get _ _) => apply safe_lift
  | |- safe_js _ _ (reads _) => apply safe_reads
  | |- safe_js _ _ (touch _) => apply safe_touch; [keeps]
  | |- safe_js _ _ (await _) => apply safe_await; [done]
  | |- safe_js _ _ (fetch _ _) => apply safe_fetch; [done]
  | |- safe_js _ _ (fetch_json _ _) => apply safe_fetch_json; [done]
  | |- safe_js _ _ (fetch_all _) => apply safe_fetch_all; [done]
  | |- safe_js _ _ (wallet _ _) => apply safe_wallet; [done]
  | |- safe_js _ _ (for_each _ _) => apply safe_for_each
  | |- safe_js _ _ (if ?b then _ else _) => destruct b
  | |- safe_js _ _ (let _ := _ in _) => cbn zeta
  | |- safe_js _ _ (set_value _ _) => apply safe_touch; [keeps]
  | |- safe_js _ _ (set_text _ _) => apply safe_touch; [keeps]
  | |- safe_js _ _ (show _) => apply safe_touch; [keeps]
  | |- safe_js _ _ (hide _) => apply safe_touch; [keeps]
  | |- safe_js _ _ (enable _) => apply safe_touch; [keeps]
  | |- safe_js _ _ (disable _) => apply safe_touch; [keeps]
  | |- safe_js _ _ (alert _) => apply safe_touch; [keeps]
  | |- _ => solve [auto with browser]
  end.
Ltac safely := repeat safely_step.

(** Like [safely], up to the first wait. *)
Ltac firstly :=
  repeat match goal with
  | |- forall _, _ => intros ?
  | |- first_js _ _ (jbind (reads _) _) => apply first_reads_bind
  | |- first_js _ _ (jbind (jlift _) _) => apply first_lift_bind
  | |- first_js _ _ (jbind (show _) _) => apply first_touch_bind; [keeps|]
  | |- first_js _ _ (jbind (hide _) _) => apply first_touch_bind; [keeps|]
  | |- first_js _ _ (jbind (disable _) _) => apply first_touch_bind; [keeps|]
  | |- first_js _ _ (jbind (set_text _ _) _) => apply first_touch_bind; [keeps|]
  | |- first_js _ _ (jbind _ _) => apply first_bind
  | |- first_js _ _ (jtry _ _) => apply first_try
  | |- first_js _ _ (await _) => apply first_await
  | |- first_js _ _ (fetch _ _) => apply first_fetch
  | |- first_js _ _ (fetch_json _ _) => apply first_fetch_json
  | |- first_js _ _ (wallet _ _) => apply first_wallet
  | |- first_js _ _ (alert _) => apply first_of_safe; safely_step
  | |- first_js _ _ (jthrow _) => apply first_of_safe; safely_step
  | |- first_js _ _ (if ?b then _ else _) => destruct b
  | |- first_js _ _ (let _ := _ in _) => cbn zeta
  | |- safe_js _ _ _ => safely_step
  | |- _ => solve [auto with browser]
  end.

(** Runs a handler up to its first wait. *)
Ltac run_js :=
  repeat progress (
    unfold start, handler, jbind, jtry, jlift, jthrow, jret, reads, touch, wallet, fetch_json, fetch, fetch_all,
      await, show, hide, set_text, set_value, enable, disable, alert, spawn, value;
    cbn [run page_of asked waits vars inputs with_hidden with_texts with_disabled with_alert
         id negb orb andb fst snd app]).
