(* ===== verification/BridgeWidget.v ===== *)
(** * The bridge page: packages/bridge/src/components/BridgeWidget.astro

    The page's script, as handlers of [Browser]; [step] is what an event of
    the browser does to the page, and the order of events is arbitrary. Class
    names other than [hidden] are left out, as are the timers that only change
    a color. *)

From Stdlib Require Import ZArith Lia Ascii String List Bool.
From stdpp Require Import base list strings numbers gmap.
From S2P Require Import Prelude JsNumber Effects Withdraw Json Browser.
Local Open Scope Z_scope.
Local Open Scope js_scope.

(** ** The page *)

(** What an interval runs. *)
Inductive timer := CheckFedStatus | PollDeposit (depositId : string).

(** The script's variables. *)
Record variables := Variables {
  network_var : string;
  poll_var : option Z;
  wallet_var : address;
  chain_var : string
}.

Local Abbreviation page := (page variables timer).
Local Abbreviation prog := (prog variables timer).
Local Abbreviation js := (js variables timer).
Local Abbreviation wait := (wait variables timer).
Local Abbreviation world := (world variables timer).

Definition currentNetwork (p : page) : string := network_var (vars p).
Definition depositPollId (p : page) : option Z := poll_var (vars p).
Definition walletAddress (p : page) : address := wallet_var (vars p).
Definition walletChainId (p : page) : string := chain_var (vars p).

Definition with_network (n : string) : page -> page :=
  with_vars (fun v => Variables n (poll_var v) (wallet_var v) (chain_var v)).
Definition with_poll (i : option Z) : page -> page :=
  with_vars (fun v => Variables (network_var v) i (wallet_var v) (chain_var v)).
Definition with_wallet (a : address) : page -> page :=
  with_vars (fun v => Variables (network_var v) (poll_var v) a (chain_var v)).
Definition with_chain (c : string) : page -> page :=
  with_vars (fun v => Variables (network_var v) (poll_var v) (wallet_var v) c).

(** What the platform formats: [(Number(wei) / 1e18).toFixed(4)],
    [(x / 100).toFixed(2)] and [encodeURIComponent]. *)
Class Platform := {
  toFixed4 : Z -> string;
  hundredths : option json -> string;
  encodeURIComponent : string -> string
}.

(** ** The script *)

(** NETWORK_CONFIG: chain id, RPC node, explorer. *)
Definition NETWORK_CONFIG : list (string * (string * string * string)) :=
  [("mainnet", ("0x8088", "https://rpc.snowside.network/mainnet", "https://explorer.snowside.network"));
   ("testnet", ("0x8188", "https://rpc.snowside.network/testnet", "https://explorer.snowside.network"));
   ("signet", ("0x8288", "https://rpc.snowside.network/signet", "https://explorer.snowside.network"))].

Section script.
Context `{PL : Platform}.
Context (ethereum : bool). (** [window.ethereum] is there *)

Definition updateWalletUI : js unit :=
  a <- reads walletAddress ;;
  if connected a then
    hide "connect-wallet" ;;
    show "wallet-info" ;;
    let s := address_text a in
    set_text "wallet-address" (take_str 6 s +:+ "..." +:+ drop_str (String.length s - 4) s)
  else
    show "connect-wallet" ;;
    hide "wallet-info".

Definition autoFillAddresses : js unit :=
  a <- reads walletAddress ;;
  if connected a then
    set_value "deposit-dest" (address_text a) ;;
    set_value "withdraw-snowside" (address_text a) ;;
    set_value "history-address" (address_text a)
  else jret tt.

Definition disconnectWallet : js unit :=
  touch (with_wallet Null) ;;
  touch (with_chain "null") ;;
  show "connect-wallet" ;;
  hide "wallet-info" ;;
  set_value "deposit-dest" "" ;;
  set_value "withdraw-snowside" "" ;;
  set_value "history-address" "" ;;
  set_text "history-list" "".

Definition switchNetwork (network : string) : js unit :=
  match rec_get NETWORK_CONFIG network with
  | None => jret tt
  | Some (chainId, rpc, explorer) =>
      if negb ethereum then jret tt
      else
        jtry
          (wallet "wallet_switchEthereumChain" [JObj [("chainId", JStr chainId)]] ;;
           touch (with_chain chainId))
          (fun switchError =>
             if bool_decide (code switchError = Some 4902) then
               jtry
                 (wallet "wallet_addEthereumChain"
                    [JObj [("chainId", JStr chainId); ("chainName", JStr ("Snowside " +:+ network));
                           ("nativeCurrency", JObj [("name", JStr "ECX"); ("symbol", JStr "ECX");
                                                    ("decimals", JInt 18)]);
                           ("rpcUrls", JArr [JStr rpc]); ("blockExplorerUrls", JArr [JStr explorer])]] ;;
                  touch (with_chain chainId))
                 (fun _ => jret tt)
             else jret tt)
  end.

Definition updateBalance : js unit :=
  a <- reads walletAddress ;;
  if negb (connected a) || negb ethereum then jret tt
  else
    jtry
      (balance <- wallet "eth_getBalance" [json_of_address a; JStr "latest"] ;;
       balanceWei <- jlift (BigInt_of_string (json_text (Some balance))) ;;
       set_text "wallet-balance" (toFixed4 balanceWei +:+ " ECX"))
      (fun _ => set_text "wallet-balance" "Balance: N/A").

Definition API_BASE : string := "https://snowside.network/v1".

Definition api (path : string) (init : fetch_init) : js json :=
  fetch_json (API_BASE +:+ path) init.

(** [Promise.all([api(path), api(path')])] *)
Definition api_both (path path' : string) : js (json * json) :=
  rs <- fetch_all [(API_BASE +:+ path, None); (API_BASE +:+ path', None)] ;;
  match rs with
  | [r; r'] => j <- body_of r ;; j' <- body_of r' ;; jret (j, j')
  | _ => jthrow TypeError
  end.

(** *** Transaction history *)

(** The row's element, as it is added to the list: its markup is the API's
    data between tags. *)
Definition history_row (label amount : string) (done : bool) (status : option json) : string :=
  backquoted "<div class=`rounded-lg bg-surface-2 px-3 py-2 text-xs flex justify-between items-center`><span class=`text-snow-400`>"
  +:+ label +:+ " " +:+ amount
  +:+ backquoted "</span><span class=`font-mono " +:+ (if done then "text-green-400" else "text-snow-400")
  +:+ backquoted "`>" +:+ json_text status +:+ "</span></div>".

Definition append_row (row : string) : js unit :=
  touch (with_texts (fun m => <["history-list" := default EmptyString (m !! "history-list") +:+ row]> m)).

Definition deposit_row (d : json) : js unit :=
  amount_sats <- get d "amount_sats" ;;
  status <- get d "status" ;;
  append_row (history_row "Deposit"
    (if json_truthy amount_sats then hundredths amount_sats +:+ " ECX" else "—")
    (is_string status "minted") status).

Definition withdrawal_row (w : json) : js unit :=
  amount_ecx <- get w "amount_ecx" ;;
  status <- get w "status" ;;
  append_row (history_row "Withdraw"
    (if json_truthy amount_ecx then json_text amount_ecx +:+ " ECX" else "—")
    (is_string status "completed") status).

Definition history_input : js unit :=
  v <- reads (value "history-address") ;;
  let addr := trim v in
  if (String.length addr <? 10)%nat then jret tt
  else
    set_text "history-list" (backquoted "<p class=`text-xs text-snow-400`>Loading...</p>") ;;
    jtry
      (both <- api_both ("/bridge/deposits/" +:+ addr) ("/bridge/withdrawals/" +:+ addr) ;;
       set_text "history-list" "" ;;
       deposits <- elements (fst both) ;;
       withdrawals <- elements (snd both) ;;
       match deposits, withdrawals with
       | [], [] => set_text "history-list" (backquoted "<p class=`text-xs text-snow-500`>No transactions found</p>")
       | _, _ => for_each deposits deposit_row ;; for_each withdrawals withdrawal_row
       end)
      (fun _ => set_text "history-list" (backquoted "<p class=`text-xs text-red-400`>Error loading history</p>")).

Definition loadHistory (addr : address) : js unit :=
  set_value "history-address" (match addr with Null => EmptyString | a => address_text a end) ;;
  spawn history_input.

(** *** The wallet's events *)

Definition connectWallet : js unit :=
  if negb ethereum then alert "No wallet found. Please install Rabby wallet from rabby.io"
  else
    jtry
      (accounts <- wallet "eth_requestAccounts" [] ;;
       a <- first_account accounts ;;
       touch (with_wallet a) ;;
       chain <- wallet "eth_chainId" [] ;;
       touch (with_chain (json_text (Some chain))) ;;
       updateWalletUI ;;
       autoFillAddresses ;;
       network <- reads currentNetwork ;;
       switchNetwork network ;;
       updateBalance ;;
       a <- reads walletAddress ;;
       loadHistory a)
      (fun err => alert ("Failed to connect wallet: " +:+ message_text err)).

Definition accountsChanged (accounts : list string) : js unit :=
  match accounts with
  | [] => disconnectWallet
  | a :: _ =>
      touch (with_wallet (Addr a)) ;;
      updateWalletUI ;;
      autoFillAddresses ;;
      spawn updateBalance
  end.

Definition chainChanged : js unit := spawn updateBalance.

Definition network_change (v : string) : js unit :=
  touch (with_network v) ;;
  a <- reads walletAddress ;;
  if connected a then spawn (switchNetwork v ;; updateBalance) else jret tt.

(** *** Federation status, tabs *)

Definition checkFedStatus : js unit :=
  jtry
    (data <- api "/bridge/status" None ;;
     online <- get data "federation_online" ;;
     set_text "fed-text" (if json_truthy online then "Federation: Online" else "Federation: Offline"))
    (fun _ => set_text "fed-text" "Federation: Unable to check").

Definition setActiveTab (activeForm inactiveForm : string) : js unit :=
  show activeForm ;; hide inactiveForm.

(** *** Deposits *)

Definition upper_char (c : ascii) : ascii :=
  if ascii_in "a" "z" c then ascii_of_N (N_of_ascii c - 32) else c.

(** [setStatusBadge(el, status)] for the deposit's badge; [toUpperCase] is a
    method of strings alone. *)
Definition setStatusBadge (status : option json) : js unit :=
  match status with
  | Some (JScalar (FStr s)) =>
      set_text "deposit-status" ("Status: " +:+ map_str upper_char s) ;;
      show "deposit-status"
  | _ => jthrow TypeError
  end.

(** [clearInterval(depositPollId)] *)
Definition clear_poll (p : page) : page := clear_interval (depositPollId p) p.

(** [depositPollId = setInterval(...)] *)
Definition start_poll (depositId : string) (p : page) : page :=
  with_poll (Some (next_timer p)) (set_interval (PollDeposit depositId) p).

(** [if (depositPollId) clearInterval(depositPollId)], then the new interval. *)
Definition pollDeposit (depositId : string) : js unit :=
  touch (fun p => start_poll depositId (clear_poll p)).

Definition poll_once (depositId : string) : js unit :=
  jtry
    (data <- api ("/bridge/deposit/" +:+ depositId) None ;;
     ecash_address <- get data "ecash_address" ;;
     (if json_truthy ecash_address then
        hide "deposit-loading" ;;
        show "deposit-qr-wrap" ;;
        set_text "deposit-addr" (json_text ecash_address) ;;
        set_text "deposit-qr" ("https://api.qrserver.com/v1/create-qr-code/?size=200x200&data="
                               +:+ encodeURIComponent (json_text ecash_address))
      else jret tt) ;;
     status <- get data "status" ;;
     if json_truthy status && negb (is_string status "pending") then
       setStatusBadge status ;;
       ecash_tx_hash <- get data "ecash_tx_hash" ;;
       (if json_truthy ecash_tx_hash then
          set_text "deposit-tx-info" ("eCash TX: " +:+ json_text ecash_tx_hash) ;;
          show "deposit-tx-info"
        else jret tt) ;;
       mint_tx_hash <- get data "mint_tx_hash" ;;
       (if json_truthy mint_tx_hash then
          info <- reads (text "deposit-tx-info") ;;
          set_text "deposit-tx-info" (info +:+ String "010" ("Mint TX: " +:+ json_text mint_tx_hash))
        else jret tt) ;;
       if is_string status "minted" then touch clear_poll else jret tt
     else jret tt)
    (fun _ => jret tt).

Definition generate_deposit : js unit :=
  v <- reads (value "deposit-dest") ;;
  let dest := trim v in
  if negb (str_truthy dest) then alert "Enter a Snowside address"
  else
    show "deposit-result" ;;
    show "deposit-loading" ;;
    set_text "deposit-loading" "Generating deposit address..." ;;
    hide "deposit-qr-wrap" ;;
    jtry
      (network <- reads currentNetwork ;;
       data <- api "/bridge/deposit"
         (Some ("POST", JObj [("snowsideAddress", JStr dest); ("network", JStr network)])) ;;
       id <- get data "id" ;;
       if json_truthy id then
         set_text "deposit-loading" "Waiting for federation to assign address..." ;;
         pollDeposit (json_text id)
       else jret tt)
      (fun err => set_text "deposit-loading" ("Error: " +:+ message_text err)).

(** *** Withdrawals *)

Definition BURN_ADDRESS : string := "0x0000000000000000000000000000000000000000".

(** [z.toString(16)] *)
Definition hex_text (z : Z) : string := if z <? 0 then "-" +:+ toString16 (- z) else toString16 z.

(** [amountXec * 1e18], rounded down, as a BigInt. *)
Definition amount_wei (amountXec : string) : outcome Z :=
  BigInt_of_num (floor_scaled (Number_parse amountXec) (10 ^ 18)).

Definition burnECX (amountXec : string) : js string :=
  a <- reads walletAddress ;;
  if negb (connected a) || negb ethereum then jthrow (Error "No wallet connected")
  else
    show "withdraw-result" ;;
    set_text "withdraw-result" "Burning ECX..." ;;
    jtry
      (amountWei <- jlift (amount_wei amountXec) ;;
       a <- reads walletAddress ;;
       tx <- wallet "eth_sendTransaction"
         [JObj [("from", json_of_address a); ("to", JStr BURN_ADDRESS);
                ("value", JStr (hex_text amountWei)); ("gas", JStr "0x5208")]] ;;
       let txHash := json_text (Some tx) in
       set_text "withdraw-result" "Burned ECX ✓" ;;
       set_value "withdraw-burn-tx" txHash ;;
       jret txHash)
      (fun err => jthrow (Error (str_or (default EmptyString (message err)) "Failed to burn ECX"))).

(** [amount && isFinite(amount) && amount > 0] for the text of an input: its
    value is a number between half the least double and the greatest. *)
Definition positive_amount (amount : string) : bool :=
  str_truthy amount &&
  match Number_parse amount with
  | Some (PFrac false n d) => negb (overflows (fl n d)) && (d <? n * 2 ^ 1075)
  | _ => false
  end.

Definition burn_click : js unit :=
  a <- reads walletAddress ;;
  if negb (connected a) || negb ethereum then alert "Connect wallet first to burn ECX"
  else
    amount <- reads (value "withdraw-amount") ;;
    if negb (positive_amount amount) then alert "Enter a valid ECX amount"
    else
      show "withdraw-result" ;;
      set_text "withdraw-result" "Sending transaction..." ;;
      jtry (burnECX amount ;; jret tt)
        (fun err => set_text "withdraw-result" ("Failed: " +:+ message_text err)).

(** The body of a withdrawal; an empty hash is left out. *)
Definition withdraw_body (snowsideAddr ecashAddr amount network burnTx : string) : json :=
  JObj ([("snowsideAddress", JStr snowsideAddr); ("ecashAddress", JStr ecashAddr);
         ("amountEcx", JStr amount); ("network", JStr network)]
        ++ (if str_truthy burnTx then [("burnTxHash", JStr burnTx)] else [])).

Definition submit_withdrawal (snowsideAddr ecashAddr amount burnTx : string) : js unit :=
  show "withdraw-result" ;;
  set_text "withdraw-result" "Submitting..." ;;
  jtry
    (network <- reads currentNetwork ;;
     data <- api "/bridge/withdraw"
       (Some ("POST", withdraw_body snowsideAddr ecashAddr amount network burnTx)) ;;
     id <- get data "id" ;;
     if json_truthy id then
       status <- get data "status" ;;
       set_text "withdraw-result" ("Withdrawal submitted! ID: " +:+ json_text id +:+ ". Status: "
         +:+ json_text status +:+ ". The federation will process your withdrawal after verification.")
     else jret tt)
    (fun err => set_text "withdraw-result" ("Error: " +:+ message_text err)).

Definition initiate_withdraw : js unit :=
  v1 <- reads (value "withdraw-snowside") ;;
  v2 <- reads (value "withdraw-dest") ;;
  amount <- reads (value "withdraw-amount") ;;
  v3 <- reads (value "withdraw-burn-tx") ;;
  let snowsideAddr := trim v1 in
  let ecashAddr := trim v2 in
  let burnTx := trim v3 in
  if negb (str_truthy snowsideAddr) || negb (str_truthy ecashAddr) || negb (str_truthy amount)
  then alert "Fill in all required fields"
  else
    a <- reads walletAddress ;;
    if negb (str_truthy burnTx) && connected a then
      show "withdraw-result" ;;
      set_text "withdraw-result" "Burning ECX..." ;;
      disable "burn-ecx" ;;
      set_text "burn-ecx" "Burning..." ;;
      burned <- jtry (burnECX amount ;; jret true)
        (fun err =>
           enable "burn-ecx" ;;
           set_text "burn-ecx" "Burn ECX" ;;
           set_text "withdraw-result" ("Burn failed: " +:+ message_text err) ;;
           jret false) ;;
      if (burned : bool) then
        set_text "withdraw-result" "Withdrawal submitted!" ;;
        enable "burn-ecx" ;;
        set_text "burn-ecx" "Burn ECX"
      else jret tt
    else submit_withdrawal snowsideAddr ecashAddr amount burnTx.

(** *** The QR scanner *)

Definition startScanner : js unit := show "qr-reader-modal".

Definition stopScanner : js unit :=
  jtry (await StopCamera ;; hide "qr-reader-modal") (fun _ => jret tt).

Definition decoded (targetInputId decodedText : string) : js unit :=
  set_value targetInputId decodedText ;; spawn stopScanner.

(** ** Events *)

Inductive event :=
| Click (id : string)
| SelectNetwork (v : string)
| Input (id v : string)
| AccountsChanged (accounts : list string)
| ChainChanged
| Fires (timer_id : Z)
| Answers (n : nat) (a : answer)
| Decoded (target text : string).

Definition click (id : string) : js unit :=
  if String.eqb id "connect-wallet" then connectWallet
  else if String.eqb id "disconnect-wallet" then disconnectWallet
  else if String.eqb id "tab-deposit" then setActiveTab "form-deposit" "form-withdraw"
  else if String.eqb id "tab-withdraw" then setActiveTab "form-withdraw" "form-deposit"
  else if String.eqb id "generate-deposit" then generate_deposit
  else if String.eqb id "burn-ecx" then burn_click
  else if String.eqb id "initiate-withdraw" then initiate_withdraw
  else if String.eqb id "scanner-btn" then startScanner
  else if String.eqb id "close-scanner" then stopScanner
  else jret tt.

Definition timer_body (t : timer) : js unit :=
  match t with CheckFedStatus => checkFedStatus | PollDeposit id => poll_once id end.

Definition step (e : event) (w : world) : world :=
  match e with
  | Click id => if bool_decide (id ∈ disabled (page_of w)) then w else start (click id) w
  | SelectNetwork v => start (network_change v) w
  | Input id v =>
      let w' := start (set_value id v) w in
      if String.eqb id "history-address" then start history_input w' else w'
  | AccountsChanged accounts => if ethereum then start (accountsChanged accounts) w else w
  | ChainChanged => if ethereum then start chainChanged w else w
  | Fires i => fires timer_body i w
  | Answers n a => answered n a w
  | Decoded target t => start (decoded target t) w
  end.

(** The page as it loads, with the network of its address. *)
Definition blank (network : string) : page := {|
  vars := Variables (str_or network "mainnet") None Null "null";
  inputs := ∅;
  texts := <["fed-text" := "Checking federation status..."]> (<["burn-ecx" := "Burn ECX"]> ∅);
  hidden := {["wallet-info"; "deposit-result"; "deposit-qr-wrap"; "deposit-status"; "deposit-tx-info";
              "form-withdraw"; "withdraw-result"; "qr-reader-modal"]};
  disabled := ∅;
  timers := [(1, CheckFedStatus)];
  next_timer := 2;
  alerts := []
|}.

Definition load (network : string) : world := start checkFedStatus (World (blank network) [] []).

Definition steps (es : list event) (w : world) : world := fold_left (fun w e => step e w) es w.

(** Everything a browser can bring the page to. *)
Inductive reachable : world -> Prop :=
| reach_load network : reachable (load network)
| reach_step e w : reachable w -> reachable (step e w).
End script.
