(* ===== verification/BridgeWidgetProps.v ===== *)
(** * Properties of the bridge page

    What any sequence of events can make the page ask for: value leaves only
    on a click, with what the fields hold at that click; one deposit is polled
    at a time. What a withdrawal without a burn hash does, what the history
    shows, and two runs in which answers overtake each other. *)

From Stdlib Require Import ZArith Lia Ascii String List Bool.
From stdpp Require Import base list strings numbers gmap.
From S2P Require Import Prelude JsNumber Effects Withdraw Json Database Api ApiSpec ApiProps Browser BridgeWidget.
Local Open Scope Z_scope.
Local Open Scope js_scope.

Local Abbreviation page := (page variables timer).
Local Abbreviation js := (js variables timer).
Local Abbreviation world := (world variables timer).

(** ** The handlers *)

(** Neither a transaction of the wallet nor a withdrawal. *)
Definition harmless (q : query) : Prop :=
  match q with
  | Ethereum m _ => m <> "eth_sendTransaction"
  | Fetch path (Some _) => path <> API_BASE +:+ "/bridge/withdraw"
  | _ => True
  end.

Definition is_poll (t : Z * timer) : bool := match snd t with PollDeposit _ => true | CheckFedStatus => false end.
Definition polls (p : page) : list (Z * timer) := List.filter is_poll (timers p).

(** At most one deposit is polled, by the interval the script knows; the
    federation's status is always polled. *)
Definition one_poll (p : page) : Prop :=
  2 <= next_timer p /\ (forall i, depositPollId p = Some i -> 2 <= i) /\
  In (1, CheckFedStatus) (timers p) /\
  (polls p = [] \/ exists i id, polls p = [(i, PollDeposit id)] /\ depositPollId p = Some i).

Lemma filter_filter {A} (f g : A -> bool) l :
  List.filter f (List.filter g l) = List.filter (fun x => g x && f x) l.
Proof.
  induction l as [|x l IH]; [done|]. cbn. destruct (g x); cbn; [|done]. destruct (f x); by rewrite IH.
Qed.

Lemma clear_poll_polls p : one_poll p -> polls (clear_poll p) = [].
Proof.
  intros (_ & _ & _ & H). unfold polls, clear_poll, clear_interval. cbn [timers with_timers].
  assert (E : forall f g : Z * timer -> bool, List.filter f (List.filter g (timers p)) =
    List.filter g (List.filter f (timers p))).
  { intros f g. rewrite !filter_filter. apply filter_ext. intros t. apply andb_comm. }
  rewrite E. fold (polls p). destruct H as [->|(i & id & -> & Hi)]; [done|].
  cbn. by rewrite bool_decide_true by (by rewrite Hi).
Qed.

Lemma clear_poll_ok p : one_poll p -> one_poll (clear_poll p).
Proof.
  intros H. pose proof (clear_poll_polls p H) as Hc. destruct H as (Hn & Hi & Hin & _).
  repeat split; [done|done| |by left].
  apply filter_In. split; [done|]. apply negb_true_iff, bool_decide_eq_false_2. cbn.
  intros E. symmetry in E. specialize (Hi _ E). lia.
Qed.

Lemma restart_poll_ok id p : one_poll p -> one_poll (start_poll id (clear_poll p)).
Proof.
  intros H. pose proof (clear_poll_polls p H) as Hc. pose proof (clear_poll_ok p H) as (Hn & Hi & Hin & _).
  repeat split; unfold start_poll, depositPollId, set_interval, with_poll in *;
    cbn [next_timer vars poll_var timers with_timers with_vars] in *.
  - cbn in Hn. unfold clear_poll in *. cbn in *. lia.
  - intros i [= <-]. done.
  - apply in_app_iff. by left.
  - right. exists (next_timer (clear_poll p)), id. split; [|done].
    unfold polls in *. cbn [timers with_timers with_vars]. by rewrite List.filter_app, Hc.
Qed.

#[local] Hint Resolve clear_poll_ok restart_poll_ok : browser.
#[local] Hint Extern 1 (safe_js _ _ (api _ _)) => apply safe_fetch_json; done : browser.
#[local] Hint Extern 1 (first_js _ _ (api _ _)) => apply first_fetch_json : browser.

Section handlers.
Context `{PL : Platform}.
Context (ethereum : bool).
Local Abbreviation safe_js := (safe_js one_poll harmless).

Lemma safe_updateWalletUI : safe_js updateWalletUI.
Proof. unfold updateWalletUI. safely. Qed.

Lemma safe_autoFillAddresses : safe_js autoFillAddresses.
Proof. unfold autoFillAddresses. safely. Qed.

Lemma safe_disconnectWallet : safe_js disconnectWallet.
Proof. unfold disconnectWallet. safely. Qed.

Lemma safe_switchNetwork network : safe_js (switchNetwork ethereum network).
Proof.
  unfold switchNetwork. destruct (rec_get _ _) as [[[c r] e]|]; safely.
Qed.

Lemma safe_updateBalance : safe_js (updateBalance ethereum).
Proof. unfold updateBalance. safely. Qed.

Lemma safe_api_both path path' : safe_js (api_both path path').
Proof. unfold api_both. safely. destruct a as [|r [|r' []]]; safely. Qed.

Lemma safe_append_row row : safe_js (append_row row).
Proof. apply safe_touch. keeps. Qed.
#[local] Hint Resolve safe_api_both safe_append_row : browser.

Lemma safe_deposit_row d : safe_js (deposit_row d).
Proof. unfold deposit_row. safely. Qed.

Lemma safe_withdrawal_row d : safe_js (withdrawal_row d).
Proof. unfold withdrawal_row. safely. Qed.
#[local] Hint Resolve safe_updateWalletUI safe_autoFillAddresses safe_disconnectWallet safe_switchNetwork
  safe_updateBalance safe_deposit_row safe_withdrawal_row : browser.

Lemma safe_history_input : safe_js history_input.
Proof.
  unfold history_input. safely.
Qed.
#[local] Hint Resolve safe_history_input : browser.

Lemma safe_loadHistory a : safe_js (loadHistory a).
Proof. unfold loadHistory. safely. Qed.

#[local] Hint Resolve safe_loadHistory : browser.

Lemma safe_connectWallet : safe_js (connectWallet ethereum).
Proof. unfold connectWallet. safely. Qed.

Lemma safe_accountsChanged l : safe_js (accountsChanged ethereum l).
Proof. unfold accountsChanged. destruct l; safely. Qed.

Lemma safe_chainChanged : safe_js (chainChanged ethereum).
Proof. unfold chainChanged. safely. Qed.

Lemma safe_network_change v : safe_js (network_change ethereum v).
Proof. unfold network_change. safely. Qed.

Lemma safe_checkFedStatus : safe_js checkFedStatus.
Proof. unfold checkFedStatus. safely. Qed.

Lemma safe_setStatusBadge s : safe_js (setStatusBadge s).
Proof. unfold setStatusBadge. destruct s as [[[]| | |]|]; safely. Qed.
#[local] Hint Resolve safe_setStatusBadge : browser.

Lemma safe_poll_once id : safe_js (poll_once id).
Proof. unfold poll_once. safely. Qed.

Lemma safe_pollDeposit id : safe_js (pollDeposit id).
Proof. unfold pollDeposit. safely. Qed.
#[local] Hint Resolve safe_pollDeposit : browser.

Lemma safe_generate_deposit : safe_js generate_deposit.
Proof. unfold generate_deposit. safely. Qed.

Lemma safe_stopScanner : safe_js stopScanner.
Proof. unfold stopScanner. safely. Qed.
#[local] Hint Resolve safe_stopScanner : browser.

Lemma safe_decoded target t : safe_js (decoded target t).
Proof. unfold decoded. safely. Qed.

(** *** The two buttons that move value *)

Local Abbreviation first_js := (first_js one_poll harmless).

Lemma first_burnECX amount : first_js (burnECX ethereum amount).
Proof. unfold burnECX. firstly. Qed.
#[local] Hint Resolve first_burnECX : browser.

Lemma first_burn_click : first_js (burn_click ethereum).
Proof. unfold burn_click. firstly; auto with browser. Qed.

Lemma first_submit_withdrawal a b c d : first_js (submit_withdrawal a b c d).
Proof. unfold submit_withdrawal. firstly. Qed.
#[local] Hint Resolve first_submit_withdrawal : browser.

Lemma first_initiate_withdraw : first_js (initiate_withdraw ethereum).
Proof. unfold initiate_withdraw. firstly; auto with browser. Qed.

Definition burn_query (a : address) (wei : Z) : query :=
  Ethereum "eth_sendTransaction"
    [JObj [("from", json_of_address a); ("to", JStr BURN_ADDRESS);
           ("value", JStr (hex_text wei)); ("gas", JStr "0x5208")]].

Definition withdrawal_query (p : page) : query :=
  Fetch (API_BASE +:+ "/bridge/withdraw")
    (Some ("POST", withdraw_body (trim (value "withdraw-snowside" p)) (trim (value "withdraw-dest" p))
      (value "withdraw-amount" p) (currentNetwork p) (trim (value "withdraw-burn-tx" p)))).

Ltac run_page := repeat progress (
  unfold api, walletAddress, currentNetwork; run_js; cbn [vars with_vars];
  repeat match goal with
  | |- context [wallet_var (vars ?p)] => change (wallet_var (vars p)) with (walletAddress p)
  | |- context [network_var (vars ?p)] => change (network_var (vars p)) with (currentNetwork p)
  end).

(** What a burn asks for. *)
Lemma burn_asks w ok err amount :
  (forall e w', asked (run (err e) w') = asked w') ->
  let w' := run (burnECX ethereum amount ok err) w in
  asked w' = asked w \/
  exists wei, ethereum = true /\ connected (walletAddress (page_of w)) = true /\
    amount_wei amount = Ok wei /\ asked w' = burn_query (walletAddress (page_of w)) wei :: asked w.
Proof.
  intros Herr. cbn zeta. unfold burnECX. run_page.
  destruct (connected (walletAddress (page_of w))) eqn:Ec; [|left; etransitivity; [apply Herr|done]].
  destruct ethereum; [|left; etransitivity; [apply Herr|done]]. run_page.
  destruct (amount_wei amount) as [wei|m] eqn:Ew; run_page; [|left; etransitivity; [apply Herr|done]].
  right. exists wei. by repeat split.
Qed.

Lemma burn_click_asks w :
  let p := page_of w in let w' := start (burn_click ethereum) w in
  asked w' = asked w \/
  exists wei, ethereum = true /\ connected (walletAddress p) = true /\
    positive_amount (value "withdraw-amount" p) = true /\
    amount_wei (value "withdraw-amount" p) = Ok wei /\ asked w' = burn_query (walletAddress p) wei :: asked w.
Proof.
  cbn zeta. unfold burn_click. run_page.
  destruct (connected (walletAddress (page_of w))) eqn:Ec; [|by left].
  destruct ethereum eqn:Ee; [|by left]. run_page.
  destruct (positive_amount _) eqn:Ep; [|by left]. run_page.
  match goal with |- asked (run (burnECX _ ?m ?ok ?err) ?w0) = _ \/ _ =>
    destruct (burn_asks w0 ok err m) as [H|(wei & _ & Hc & Hm & H)] end; rewrite ?Ee in *.
  - done.
  - by left.
  - right. exists wei. by repeat split.
Qed.

Lemma initiate_asks w :
  let p := page_of w in let w' := start (initiate_withdraw ethereum) w in
  asked w' = asked w \/
  (exists wei, ethereum = true /\ connected (walletAddress p) = true /\
    str_truthy (trim (value "withdraw-burn-tx" p)) = false /\
    amount_wei (value "withdraw-amount" p) = Ok wei /\ asked w' = burn_query (walletAddress p) wei :: asked w) \/
  ((str_truthy (trim (value "withdraw-burn-tx" p)) = true \/ connected (walletAddress p) = false) /\
   str_truthy (trim (value "withdraw-snowside" p)) = true /\
   str_truthy (trim (value "withdraw-dest" p)) = true /\
   str_truthy (value "withdraw-amount" p) = true /\
   asked w' = withdrawal_query p :: asked w).
Proof.
  cbn zeta. unfold initiate_withdraw. run_page.
  destruct (str_truthy (trim (default _ (inputs (page_of w) !! "withdraw-snowside")))) eqn:E1; [|by left].
  destruct (str_truthy (trim (default _ (inputs (page_of w) !! "withdraw-dest")))) eqn:E2; [|by left].
  destruct (str_truthy (default _ (inputs (page_of w) !! "withdraw-amount"))) eqn:E3; [|by left]. run_page.
  destruct (str_truthy (trim (default _ (inputs (page_of w) !! "withdraw-burn-tx")))) eqn:E4;
    [right; right; unfold submit_withdrawal; run_page; unfold withdrawal_query, value; by intuition|].
  destruct (connected (walletAddress (page_of w))) eqn:Ec;
    [|right; right; unfold submit_withdrawal; run_page; unfold withdrawal_query, value; by intuition].
  run_page.
  match goal with |- asked (run (burnECX _ ?m ?ok ?err) ?w0) = _ \/ _ =>
    destruct (burn_asks w0 ok err m) as [H|(wei & He & Hc & Hm & H)] end.
  - done.
  - by left.
  - right. left. exists wei. by repeat split.
Qed.

(** *** Every event *)

Local Abbreviation sound := (sound one_poll harmless).

Definition moves_value (id : string) : bool := String.eqb id "burn-ecx" || String.eqb id "initiate-withdraw".

Lemma safe_click id : moves_value id = false -> safe_js (click ethereum id).
Proof.
  unfold moves_value, click. intros [E1 E2]%orb_false_iff. rewrite E1, E2.
  repeat match goal with |- safe_js (if ?b then _ else _) => destruct b end;
    first [apply safe_connectWallet | apply safe_disconnectWallet | apply safe_generate_deposit
          | apply safe_stopScanner | unfold setActiveTab, startScanner; by safely].
Qed.

Lemma safe_timer t : safe_js (timer_body t).
Proof. destruct t; [apply safe_checkFedStatus|apply safe_poll_once]. Qed.

Local Abbreviation quiet_step := (quiet_step one_poll harmless).

Lemma step_quiet ev w :
  (forall id, ev = Click id -> moves_value id = false) -> sound w -> quiet_step w (step ethereum ev w).
Proof.
  intros Hev Hw. destruct ev as [id|v|id v|l| |i|n a|target t]; cbn [step].
  - case_bool_decide; [by apply quiet_refl|]. apply start_quiet; [|done]. by apply safe_click, Hev.
  - apply start_quiet; [apply safe_network_change|done].
  - assert (H : quiet_step w (start (set_value id v) w)) by (apply start_quiet; [by safely|done]).
    destruct (String.eqb id "history-address"); [|done]. eapply quiet_trans; [exact H|].
    intros Hs. by apply start_quiet; [apply safe_history_input|].
  - pose proof (start_quiet _ _ _ w (safe_accountsChanged l) Hw). by destruct ethereum; [|apply quiet_refl].
  - pose proof (start_quiet _ _ _ w safe_chainChanged Hw). by destruct ethereum; [|apply quiet_refl].
  - apply fires_quiet; [apply safe_timer|done].
  - by apply answered_quiet.
  - apply start_quiet; [apply safe_decoded|done].
Qed.

Lemma step_sound ev w : sound w -> sound (step ethereum ev w).
Proof.
  intros Hw. destruct ev as [id| | | | | | |]; try (apply step_quiet; [intros ?; discriminate|done]).
  destruct (moves_value id) eqn:Em; [|apply step_quiet; [by intros ? H'; injection H' as <- |done]].
  cbn [step]. case_bool_decide; [done|]. apply orb_true_iff in Em as [->%String.eqb_eq| ->%String.eqb_eq].
  - apply run_first; [|done]. apply first_burn_click; done.
  - apply run_first; [|done]. apply first_initiate_withdraw; done.
Qed.

Lemma reachable_sound w : reachable ethereum w -> sound w.
Proof.
  induction 1 as [n|ev w _ IH]; [|by apply step_sound].
  apply (start_quiet _ _ checkFedStatus (World (blank n) [] [])); [apply safe_checkFedStatus|].
  split; [|constructor]. repeat split; cbn; [done|done|by left|by left].
Qed.

(** C29. Value moves on a click. Whatever happened before, in whatever order, an
    event makes the page ask the wallet for a transaction or the API for a
    withdrawal only when it is a click on one of two buttons, and then once:
    the transaction burns, from the connected wallet, the amount in the amount
    field at that click, and the withdrawal is what the form holds. *)
Theorem value_moves_on_clicks w ev :
  reachable ethereum w ->
  let p := page_of w in
  exists new, asked (step ethereum ev w) = new ++ asked w /\
    (Forall harmless new \/
     (exists wei, new = [burn_query (walletAddress p) wei] /\
        (ev = Click "burn-ecx" \/ ev = Click "initiate-withdraw") /\
        connected (walletAddress p) = true /\ amount_wei (value "withdraw-amount" p) = Ok wei) \/
     (new = [withdrawal_query p] /\ ev = Click "initiate-withdraw" /\
        str_truthy (trim (value "withdraw-snowside" p)) = true /\
        str_truthy (trim (value "withdraw-dest" p)) = true /\
        str_truthy (value "withdraw-amount" p) = true)).
Proof.
  intros Hr%reachable_sound. cbn zeta.
  assert (Hq : (forall id, ev = Click id -> moves_value id = false) ->
    exists new, asked (step ethereum ev w) = new ++ asked w /\ Forall harmless new).
  { intros H. exact (proj2 (step_quiet ev w H Hr)). }
  assert (Hnone : forall w' : world, asked w' = asked w ->
    exists new, asked w' = new ++ asked w /\ Forall harmless new) by (intros w' E; by exists []).
  destruct ev as [id| | | | | | |];
    try (destruct Hq as (new & E & H); [intros ?; discriminate|exists new; split; [done|by left]]).
  destruct (moves_value id) eqn:Em;
    [|destruct Hq as (new & E & H); [by intros ? H'; injection H' as <- |exists new; split; [done|by left]]].
  clear Hq. cbn [step]. case_bool_decide; [by exists []; split; [done|left]|].
  apply orb_true_iff in Em as [->%String.eqb_eq| ->%String.eqb_eq].
  - destruct (burn_click_asks w) as [E|(wei & _ & Hc & _ & Hm & E)].
    + destruct (Hnone _ E) as (new & ? & ?). exists new. split; [done|by left].
    + exists [burn_query (walletAddress (page_of w)) wei]. split; [done|]. right. left. exists wei. tauto.
  - destruct (initiate_asks w) as [E|[(wei & _ & Hc & _ & Hm & E)|(_ & H1 & H2 & H3 & E)]].
    + destruct (Hnone _ E) as (new & ? & ?). exists new. split; [done|by left].
    + exists [burn_query (walletAddress (page_of w)) wei]. split; [done|]. right. left. exists wei. tauto.
    + exists [withdrawal_query (page_of w)]. split; [done|]. right. right. tauto.
Qed.

(** One deposit is polled. Whatever happened, at most one interval asks for
    a deposit, the one the script can stop; and the federation's status is
    still asked for. *)
Theorem one_deposit_is_polled w :
  reachable ethereum w ->
  In (1, CheckFedStatus) (timers (page_of w)) /\
  (polls (page_of w) = [] \/
   exists i id, polls (page_of w) = [(i, PollDeposit id)] /\ depositPollId (page_of w) = Some i).
Proof. intros Hr%reachable_sound. destruct Hr as [(_ & _ & ? & ?) _]. done. Qed.

(** *** A withdrawal without a burn hash *)

(** The first click: the burn is asked for, and what follows the wallet's
    answer. *)
Lemma initiate_burns p ws qs wei :
  ethereum = true -> connected (walletAddress p) = true ->
  str_truthy (trim (value "withdraw-snowside" p)) = true ->
  str_truthy (trim (value "withdraw-dest" p)) = true ->
  str_truthy (value "withdraw-amount" p) = true ->
  str_truthy (trim (value "withdraw-burn-tx" p)) = false ->
  amount_wei (value "withdraw-amount" p) = Ok wei ->
  let q := burn_query (walletAddress p) wei in
  exists p1 k, start (initiate_withdraw ethereum) (World p ws qs) = World p1 (ws ++ [Wait q k]) (q :: qs) /\
    forall h ws' qs', exists p2, run (k (Got (JStr h))) (World p1 ws' qs') = World p2 ws' qs' /\
      text "withdraw-result" p2 = "Withdrawal submitted!" /\
      inputs p2 = <["withdraw-burn-tx" := h]> (inputs p) /\
      currentNetwork p2 = currentNetwork p /\ ("initiate-withdraw" ∉ disabled p -> "initiate-withdraw" ∉ disabled p2).
Proof.
  unfold value. intros He Hc H1 H2 H3 H4 Hm. cbn zeta.
  unfold initiate_withdraw. run_page. rewrite H1, H2, H3, H4. run_page. rewrite Hc. run_page.
  unfold burnECX. run_page. rewrite Hc, He. run_page. rewrite Hm. run_page.
  eexists _, _. split; [reflexivity|]. intros h ws' qs'. cbv beta iota.
  repeat (rewrite run_touch; cbv beta). cbn [run].
  eexists. split; [reflexivity|].
  unfold text.
  cbn [texts inputs vars disabled with_texts with_disabled with_inputs with_hidden].
  split_and!; [|done|done|].
  - rewrite lookup_insert_ne by done. by rewrite lookup_insert_eq.
  - intros Hd. apply not_elem_of_difference. left. apply not_elem_of_union.
    by split; [|apply not_elem_of_singleton].
Qed.

(** A click with a burn hash in a complete form posts the withdrawal. *)
Lemma initiate_submits w :
  let p := page_of w in
  str_truthy (trim (value "withdraw-snowside" p)) = true ->
  str_truthy (trim (value "withdraw-dest" p)) = true ->
  str_truthy (value "withdraw-amount" p) = true ->
  str_truthy (trim (value "withdraw-burn-tx" p)) = true ->
  asked (start (initiate_withdraw ethereum) w) = withdrawal_query p :: asked w.
Proof.
  cbn zeta. unfold value. intros H1 H2 H3 H4.
  unfold initiate_withdraw. run_page. rewrite H1, H2, H3, H4. run_page. by unfold submit_withdrawal; run_page.
Qed.

Lemma step_click id w :
  id ∉ disabled (page_of w) -> step ethereum (Click id) w = start (click ethereum id) w.
Proof. intros H. cbn [step]. by rewrite (bool_decide_false _ H). Qed.

(** C30. "Withdrawal submitted!" is not. With a connected wallet, a complete form
    and no burn hash, the button burns and, once the wallet has answered, says
    that the withdrawal is submitted; but the page has asked the API for
    nothing. Only a second click, which finds the hash in the form, does. *)
Theorem burn_is_not_submitted w wei h :
  let p := page_of w in
  ethereum = true -> connected (walletAddress p) = true ->
  str_truthy (trim (value "withdraw-snowside" p)) = true ->
  str_truthy (trim (value "withdraw-dest" p)) = true ->
  str_truthy (value "withdraw-amount" p) = true ->
  str_truthy (trim (value "withdraw-burn-tx" p)) = false ->
  "initiate-withdraw" ∉ disabled p ->
  amount_wei (value "withdraw-amount" p) = Ok wei -> str_truthy (trim h) = true ->
  let w2 := step ethereum (Answers (length (waits w)) (Got (JStr h))) (step ethereum (Click "initiate-withdraw") w) in
  text "withdraw-result" (page_of w2) = "Withdrawal submitted!" /\
  asked w2 = burn_query (walletAddress p) wei :: asked w /\
  asked (step ethereum (Click "initiate-withdraw") w2) =
    Fetch (API_BASE +:+ "/bridge/withdraw")
      (Some ("POST", withdraw_body (trim (value "withdraw-snowside" p)) (trim (value "withdraw-dest" p))
        (value "withdraw-amount" p) (currentNetwork p) (trim h))) :: asked w2.
Proof.
  cbn zeta. intros He Hc H1 H2 H3 H4 Hd Hm Hh. destruct w as [p ws qs]. cbn [page_of waits asked] in *.
  rewrite step_click by done. change (click ethereum "initiate-withdraw") with (initiate_withdraw ethereum).
  destruct (initiate_burns p ws qs wei He Hc H1 H2 H3 H4 Hm) as (p1 & k & -> & Hk).
  destruct (Hk h ws (burn_query (walletAddress p) wei :: qs)) as (p2 & E2 & Ht & Hi & Hn & Hd2).
  change (step ethereum (Answers (length ws) (Got (JStr h)))) with
    (answered (V := variables) (T := timer) (length ws) (Got (JStr h))).
  rewrite (answered_last _ _ _ (burn_query (walletAddress p) wei) _ (Got (JStr h)) _ eq_refl E2). cbn [page_of asked].
  split; [done|]. split; [done|]. rewrite step_click by auto.
  change (click ethereum "initiate-withdraw") with (initiate_withdraw ethereum).
  assert (Hv : forall id, id <> "withdraw-burn-tx" -> value id p2 = value id p).
  { intros id Hid. unfold value. by rewrite Hi, lookup_insert_ne. }
  assert (Hb : value "withdraw-burn-tx" p2 = h) by (unfold value; by rewrite Hi, lookup_insert_eq).
  rewrite initiate_submits; cbn [page_of]; rewrite ?Hv, ?Hb by done; try done.
  unfold withdrawal_query. by rewrite !Hv, Hb, Hn by done.
Qed.
End handlers.

Lemma reachable_steps `{PL : Platform} ethereum es w :
  reachable ethereum w -> reachable ethereum (steps ethereum es w).
Proof. revert w. induction es as [|ev es IH]; intros w Hw; [done|]. apply IH. by constructor. Qed.

(** ** Runs *)

#[local] Instance toy_platform : Platform := {|
  toFixed4 := dec_str; hundredths := json_text; encodeURIComponent s := s
|}.

Definition user_wallet : string := "0xfd89b56d37642d155af094bf00a2b4e9014abafc".

(** The wallet is connected, but its owner refuses to change its chain; then
    the withdrawal form is filled in. *)
Definition form_filled : list event :=
  [Click "connect-wallet";
   Answers 1 (Got (JArr [JStr user_wallet]));
   Answers 1 (Got (JStr "0x1"));
   Answers 1 (Failed (Thrown (Some 4001) (Some "User rejected the request.")));
   Answers 1 (Got (JStr "0xde0b6b3a7640000"));
   Input "withdraw-dest" "tb1quser"; Input "withdraw-amount" "0.5"].

Definition filled : world := steps true form_filled (load "signet").

Lemma filled_reachable : reachable true filled.
Proof. apply reachable_steps, reach_load. Qed.

Lemma value_moves_on_clicks_witness :
  reachable true filled /\
  exists new, asked (step true (Click "burn-ecx") filled) = new ++ asked filled /\
    (Forall harmless new \/
     (exists wei, new = [burn_query (walletAddress (page_of filled)) wei] /\
        (Click "burn-ecx" = Click "burn-ecx" \/ Click "burn-ecx" = Click "initiate-withdraw") /\
        connected (walletAddress (page_of filled)) = true /\
        amount_wei (value "withdraw-amount" (page_of filled)) = Ok wei) \/
     (new = [withdrawal_query (page_of filled)] /\ Click "burn-ecx" = Click "initiate-withdraw" /\
        str_truthy (trim (value "withdraw-snowside" (page_of filled))) = true /\
        str_truthy (trim (value "withdraw-dest" (page_of filled))) = true /\
        str_truthy (value "withdraw-amount" (page_of filled)) = true)).
Proof. split; [apply filled_reachable|]. exact (value_moves_on_clicks true filled (Click "burn-ecx") filled_reachable). Defined.

Lemma one_deposit_is_polled_witness :
  reachable true filled /\ In (1, CheckFedStatus) (timers (page_of filled)) /\
  (polls (page_of filled) = [] \/
   exists i id, polls (page_of filled) = [(i, PollDeposit id)] /\ depositPollId (page_of filled) = Some i).
Proof. split; [apply filled_reachable|]. exact (one_deposit_is_polled true filled filled_reachable). Defined.

Lemma burn_is_not_submitted_witness :
  let w2 := step true (Answers 2 (Got (JStr "0xhash"))) (step true (Click "initiate-withdraw") filled) in
  length (waits filled) = 2%nat /\
  text "withdraw-result" (page_of w2) = "Withdrawal submitted!" /\
  asked w2 = burn_query (Addr user_wallet) (5 * 10 ^ 17) :: asked filled.
Proof.
  split; [vm_compute; reflexivity|].
  refine (match burn_is_not_submitted true filled (5 * 10 ^ 17) "0xhash" _ _ _ _ _ _ _ _ _ with
          | conj A (conj B _) => conj A B end); try (vm_compute; reflexivity).
  apply (bool_decide_unpack _). vm_compute. exact I.
Defined.

(** The chain is not checked: the burn of the filled form goes to the chain the
    wallet is on, while the withdrawal names the network of the page. *)
Example burn_on_another_chain :
  walletChainId (page_of filled) = "0x1" /\ currentNetwork (page_of filled) = "signet" /\
  head (asked (step true (Click "initiate-withdraw") filled)) =
    Some (burn_query (Addr user_wallet) (5 * 10 ^ 17)).
Proof. vm_compute. auto. Qed.

(** Two deposits, asked for one after the other; the answer about the first
    comes last. *)
Definition replied (fields : list (string * json)) : answer := Replied (200, Some (JObj fields)).

Definition overtaken : list event :=
  [Input "deposit-dest" "0xfirst"; Click "generate-deposit"; Answers 1 (replied [("id", JStr "a")]);
   Fires 2;
   Input "deposit-dest" "0xsecond"; Click "generate-deposit"; Answers 2 (replied [("id", JStr "b")]);
   Fires 3;
   Answers 2 (replied [("ecash_address", JStr "tb1second"); ("status", JStr "pending")]);
   Answers 1 (replied [("ecash_address", JStr "tb1first"); ("status", JStr "minted")])].

(** The page then shows the address of the first deposit to the user who asked
    for the second, and no longer asks for the second. *)
Example late_answer_shows_the_wrong_address :
  let p := page_of (steps false overtaken (load "signet")) in
  text "deposit-addr" p = "tb1first" /\ timers p = [(1, CheckFedStatus)].
Proof. vm_compute. auto. Qed.

(** The value of the burn is given without the 0x of a hexadecimal quantity. *)
Example burn_value_has_no_prefix : hex_text (5 * 10 ^ 17) = "6f05b59d3b20000".
Proof. vm_compute. reflexivity. Qed.

(** ** What the history shows *)

Definition victim : string := "0xvictim01".

Lemma split_word x : all_str word_char x = true -> split_slash x = [x].
Proof. intros H. by apply split_plain, word_no_slash. Qed.

Section history.
Context `{PL : Platform}.

(** The markup of a row of the API's tables. *)
Definition cell (r : record) (k : string) : option json := rec_get (map (fun kv => (fst kv, JScalar (snd kv))) r) k.

Definition deposit_markup (r : record) : string :=
  history_row "Deposit"
    (if json_truthy (cell r "amount_sats") then hundredths (cell r "amount_sats") +:+ " ECX" else "—")
    (is_string (cell r "status") "minted") (cell r "status").

Definition withdrawal_markup (r : record) : string :=
  history_row "Withdraw"
    (if json_truthy (cell r "amount_ecx") then json_text (cell r "amount_ecx") +:+ " ECX" else "—")
    (is_string (cell r "status") "completed") (cell r "status").

Definition all_markup (f : record -> string) (l : list record) : string :=
  foldr (fun r s => f r +:+ s) EmptyString l.

Lemma all_markup_app f l l' : all_markup f (l ++ l') = all_markup f l +:+ all_markup f l'.
Proof. induction l as [|r l IH]; [done|]. cbn [app all_markup foldr]. rewrite app_assoc_str. by f_equal. Qed.

(** A row after another is added to what the list holds. *)
Lemma rows_added (body : json -> js unit) (f : record -> string) l p ws qs ok err :
  (forall r ok err, body (json_of_row r) ok err = append_row (f r) ok err) ->
  exists p', run (for_each (map json_of_row l) body ok err) (World p ws qs) = run (ok tt) (World p' ws qs) /\
    text "history-list" p' = text "history-list" p +:+ all_markup f l.
Proof.
  intros Hbody. revert p. induction l as [|r l IH]; intros p.
  - exists p. split; [done|]. by rewrite app_nil_r_str.
  - cbn [map for_each]. unfold jbind at 1. rewrite Hbody. unfold append_row, touch at 1. rewrite run_touch.
    destruct (IH (with_texts (fun m => <["history-list" := default EmptyString (m !! "history-list") +:+ f r]> m) p))
      as (p' & E & Ht). exists p'. split; [exact E|]. rewrite Ht. unfold text. cbn [texts with_texts all_markup foldr].
    rewrite lookup_insert_eq. apply app_assoc_str.
Qed.

Definition history_query (addr : string) : query :=
  FetchAll [(API_BASE +:+ "/bridge/deposits/" +:+ addr, None); (API_BASE +:+ "/bridge/withdrawals/" +:+ addr, None)].

Definition listings (ds ws : list record) : answer :=
  AllReplied [(200, Some (JArr (map json_of_row ds))); (200, Some (JArr (map json_of_row ws)))].

(** The history of an address, when both listings arrive. *)
Lemma history_shown ethereum v w ds ws :
  (10 <= String.length (trim v))%nat -> ws <> [] ->
  let w1 := step ethereum (Input "history-address" v) w in
  asked w1 = history_query (trim v) :: asked w /\
  text "history-list" (page_of (step ethereum (Answers (length (waits w)) (listings ds ws)) w1)) =
    all_markup deposit_markup ds +:+ all_markup withdrawal_markup ws.
Proof.
  intros Hlen Hws. destruct w as [p waiting qs]. cbn zeta. cbn [asked waits]. unfold step. cbv beta iota.
  change (String.eqb "history-address" "history-address") with true. cbv iota.
  unfold history_input, api_both. run_js. cbn [inputs with_inputs]. rewrite lookup_insert_eq.
  change (default EmptyString (Some v)) with v. rewrite (proj2 (Nat.ltb_ge _ 10) Hlen). run_js.
  split; [reflexivity|].
  match goal with |- text _ (page_of (answered _ _ (World ?p1 (_ ++ [Wait ?q ?k]) ?qs1))) = _ =>
    rewrite (answered_last p1 waiting qs1 q k (listings ds ws) _ eq_refl eq_refl) end.
  cbv beta iota. unfold listings. cbv beta iota. unfold body_of. cbn [snd fst elements]. run_js.
  unfold elements. run_js.
  match goal with |- text _ (page_of (run (?m _ _) ?w)) = _ => set (w0 := w);
    assert (E : m = (fun ok err => for_each (map json_of_row ds) deposit_row
      (fun _ => for_each (map json_of_row ws) withdrawal_row ok err) err)) by (destruct ds, ws; done); rewrite E end.
  cbv beta. clear E. subst w0.
  match goal with |- text _ (page_of (run (for_each _ _ ?ok ?err) (World ?p1 ?ws1 ?qs1))) = _ =>
    destruct (rows_added deposit_row deposit_markup ds p1 ws1 qs1 ok err (fun _ _ _ => eq_refl)) as (p2 & -> & Hd) end.
  cbv beta.
  match goal with |- text _ (page_of (run (for_each _ _ ?ok ?err) (World ?p1 ?ws1 ?qs1))) = _ =>
    destruct (rows_added withdrawal_row withdrawal_markup ws p1 ws1 qs1 ok err (fun _ _ _ => eq_refl)) as (p3 & -> & Hw) end.
  cbn [run page_of]. rewrite Hw, Hd. unfold text. cbn [texts with_texts]. by rewrite lookup_insert_eq.
Qed.

(** The listings of an address are open to all. *)
Lemma listing_answer `{SQ : Sqlite} `{ZD : Zod} `{CH : Chanfana} rt t addr d :
  rt_db_up rt = true -> addr <> EmptyString ->
  fst (handle_request rt (Request GET ["v1"; "bridge";
      match t with Deposits => "deposits" | Withdrawals => "withdrawals" end; addr] None None) d) =
    rows_answer (select_where t (has_text "snowside_address" addr) true d).
Proof.
  intros Hup Ha. destruct addr as [|c addr]; [done|].
  unfold handle_request, dispatch, route. cbn [rq_method rq_path].
  destruct t; unfold list_deposits, list_withdrawals, abind, d1_read; by rewrite Hup.
Qed.

(** The request a page's GET of a URL makes. *)
Definition page_request (url : string) : option request :=
  match url_parts url with Some (_, segs) => Some (Request GET segs None None) | None => None end.

Lemma listing_url path addr :
  no_slash path = true -> all_str word_char addr = true ->
  page_request (API_BASE +:+ "/bridge/" +:+ path +:+ "/" +:+ addr) =
    Some (Request GET ["v1"; "bridge"; path; addr] None None).
Proof.
  intros Hp Ha. unfold page_request.
  assert (E : url_parts (API_BASE +:+ "/bridge/" +:+ path +:+ "/" +:+ addr) =
    Some ("snowside.network", ["v1"; "bridge"; path; addr])); [|by rewrite E].
  unfold url_parts. change (API_BASE +:+ "/bridge/" +:+ path +:+ "/" +:+ addr)
    with ("https:" +:+ String "/" ("" +:+ String "/" ("snowside.network" +:+ String "/" ("v1" +:+ String "/"
      ("bridge" +:+ String "/" (path +:+ String "/" addr)))))).
  rewrite !split_cons by done. by rewrite split_word.
Qed.
End history.

(** C31. Stored text becomes markup. The API accepts as the amount of a
    withdrawal any text, in anybody's name and without a token. When SQLite
    keeps it as text, as it does with whatever is no numeral, the page that is
    asked for the history of that address, whatever was done with it before,
    gets the text back in the listing and makes it part of its HTML as it
    stands. *)
Theorem stored_amount_becomes_markup `{SQ : Sqlite} `{ZD : Zod} `{CH : Chanfana} `{PL : Platform}
    rt rt' victim ecash s network hash d ethereum v w :
  store INTEGER (FStr s) = FStr s -> str_truthy s = true ->
  takes rt d -> str_truthy ecash = true -> is_network network = true -> rt_db_up rt' = true ->
  all_str word_char victim = true -> trim v = victim -> (10 <= String.length victim)%nat ->
  let d' := after_request rt (withdrawal_request victim ecash s network hash) d in
  let w1 := step ethereum (Input "history-address" v) w in
  exists deposits withdrawals rq rq' before after,
    page_request (API_BASE +:+ "/bridge/deposits/" +:+ victim) = Some rq /\
    page_request (API_BASE +:+ "/bridge/withdrawals/" +:+ victim) = Some rq' /\
    fst (handle_request rt' rq d') = Answer 200 (JArr deposits) /\
    fst (handle_request rt' rq' d') = Answer 200 (JArr withdrawals) /\
    asked w1 = FetchAll [(API_BASE +:+ "/bridge/deposits/" +:+ victim, None);
                         (API_BASE +:+ "/bridge/withdrawals/" +:+ victim, None)] :: asked w /\
    text "history-list" (page_of (step ethereum (Answers (length (waits w))
      (AllReplied [(200, Some (JArr deposits)); (200, Some (JArr withdrawals))])) w1)) = before +:+ s +:+ after.
Proof.
  intros Hkept Hs Htk He Hn Hup Hword <- Hlen d' w1.
  assert (Hv : str_truthy (trim v) = true) by (destruct (trim v); [simpl in Hlen; lia|done]).
  destruct (withdrawal_created rt (trim v) ecash s network hash d Htk Hv He Hs Hn) as (d1 & Hc & _ & Hrows & _).
  assert (d1 = d') as -> by (unfold d', after_request; by rewrite Hc).
  set (r := stored_row rt (trim v) ecash s network hash) in *.
  set (ws := select_where Withdrawals (has_text "snowside_address" (trim v)) true d').
  set (ds := select_where Deposits (has_text "snowside_address" (trim v)) true d').
  assert (Hin : In r ws).
  { apply select_where_in. split; [cbn [rows_of]; rewrite Hrows; apply in_app_iff; right; by left|].
    unfold has_text. apply bool_decide_eq_true. apply stored_row_address. }
  assert (Hne : ws <> []) by (by intros E; rewrite E in Hin).
  destruct (history_shown ethereum v w ds ws Hlen Hne) as [Hasked Htext].
  exists (map json_of_row ds), (map json_of_row ws). eexists _, _.
  destruct (in_split _ _ Hin) as (l1 & l2 & Hws).
  assert (Hm : exists b a, withdrawal_markup r = b +:+ s +:+ a).
  { unfold withdrawal_markup. assert (cell r "amount_ecx" = Some (JStr s)) as ->.
    { unfold cell. rewrite rec_get_map. pose proof (stored_row_amount rt (trim v) ecash s network hash) as Ha.
      fold r in Ha. unfold fget in Ha. rewrite Hkept in Ha. destruct (rec_get r "amount_ecx"); simpl in Ha |- *; [by rewrite Ha|done]. }
    cbn [json_truthy JStr]. rewrite Hs. unfold history_row.
    match goal with |- exists b a, ?x +:+ ?l +:+ ?sp +:+ ((?t +:+ ?e) +:+ ?y) = _ =>
      exists (x +:+ l +:+ sp), (e +:+ y) end. by rewrite !app_assoc_str. }
  destruct Hm as (b & a & Hm).
  exists (all_markup deposit_markup ds +:+ all_markup withdrawal_markup l1 +:+ b), (a +:+ all_markup withdrawal_markup l2).
  split_and!; [by apply (listing_url "deposits")|by apply (listing_url "withdrawals")|..|exact Hasked|].
  - apply (listing_answer rt' Deposits); [done|by destruct (trim v)].
  - apply (listing_answer rt' Withdrawals); [done|by destruct (trim v)].
  - refine (eq_trans Htext _). rewrite Hws. rewrite all_markup_app. cbn [all_markup foldr]. rewrite Hm. by rewrite !app_assoc_str.
Qed.

Lemma stored_amount_becomes_markup_witness :
  let s := "<img src=x onerror=alert(1)>" in
  let d := @after_request affinity_sqlite ref_zod ref_chanfana (toy_runtime 1000 "w1")
    (withdrawal_request victim "tb1q" s "signet" EmptyString) empty_db in
  exists deposits withdrawals before after,
    fst (@handle_request affinity_sqlite ref_zod ref_chanfana (toy_runtime 2000 "unused")
      (Request GET ["v1"; "bridge"; "deposits"; victim] None None) d) = Answer 200 (JArr deposits) /\
    fst (@handle_request affinity_sqlite ref_zod ref_chanfana (toy_runtime 2000 "unused")
      (Request GET ["v1"; "bridge"; "withdrawals"; victim] None None) d) = Answer 200 (JArr withdrawals) /\
    text "history-list" (page_of (step true (Answers 1
      (AllReplied [(200, Some (JArr deposits)); (200, Some (JArr withdrawals))]))
        (step true (Input "history-address" victim) (load "signet")))) = before +:+ s +:+ after.
Proof.
  cbv zeta.
  destruct (@stored_amount_becomes_markup affinity_sqlite ref_zod ref_chanfana toy_platform (toy_runtime 1000 "w1")
    (toy_runtime 2000 "unused") victim "tb1q" "<img src=x onerror=alert(1)>" "signet" EmptyString empty_db true victim
    (load "signet")) as (ds & ws & rq & rq' & b & a & Hrq & Hrq' & Hd & Hw & _ & Ht);
    try (vm_compute; reflexivity).
  - split; [reflexivity|apply reachable_ok, reach_init|reflexivity].
  - exists ds, ws, b, a. vm_compute in Hrq, Hrq'. injection Hrq as <-. injection Hrq' as <-. split; [exact Hd|]. split; [exact Hw|exact Ht].
Defined.
