(* ===== verification/SignetPage.v ===== *)
(** * The signet bridge page: packages/bridge/src/pages/signet.astro

    The page that the bridge serves for signet has a script of its own, as
    handlers of [Browser]: the wallet is connected, a deposit is created, and
    an interval asks for it until it is minted. A button can be clicked while
    the panel it is in is shown. The QR library and number formatting are
    parameters; console output is left out. *)

From Stdlib Require Import ZArith Lia Ascii String List Bool.
From stdpp Require Import base list strings numbers gmap.
From S2P Require Import Prelude JsNumber Effects Json Browser.
Local Open Scope Z_scope.
Local Open Scope js_scope.

(** ** Settings *)

Definition network : string := "signet".
Definition chainId : string := "0x8248".
Definition chainName : string := "Snowside Signet".
Definition rpcUrl : string := "https://rpc.snowside.network/signet".
Definition explorerUrl : string := "https://snowside.network".
Definition currency : json :=
  JObj [("name", JStr "ECX"); ("symbol", JStr "ECX"); ("decimals", JInt 18)].
Definition currency_symbol : string := "ECX".
Definition apiBase : string := "https://snowside.network/v1".

(** ** The page *)

Inductive timer := PollDeposit.

(** The script's variables, and how often it listens for [accountsChanged].
    [currentDepositId] is [None] when it is undefined. *)
Record variables := Variables {
  deposit_var : option json;
  timer_var : option Z;
  addr_var : address;
  listeners : nat
}.

Local Abbreviation page := (page variables timer).
Local Abbreviation js := (js variables timer).
Local Abbreviation world := (world variables timer).

Definition currentDepositId (p : page) : option json := deposit_var (vars p).
Definition pollTimer (p : page) : option Z := timer_var (vars p).
Definition snowsideAddr (p : page) : address := addr_var (vars p).

Definition with_deposit (d : option json) : page -> page :=
  with_vars (fun v => Variables d (timer_var v) (addr_var v) (listeners v)).
Definition with_timer (i : option Z) : page -> page :=
  with_vars (fun v => Variables (deposit_var v) i (addr_var v) (listeners v)).
Definition with_addr (a : address) : page -> page :=
  with_vars (fun v => Variables (deposit_var v) (timer_var v) a (listeners v)).
Definition with_listener : page -> page :=
  with_vars (fun v => Variables (deposit_var v) (timer_var v) (addr_var v) (S (listeners v))).

(** [(Number(n) / 1000).toFixed(3)], and what [new QRCode] draws for a text, or
    throws. *)
Class Platform := {
  thousandths : Z -> string;
  QRCode : string -> outcome string
}.

Section script.
Context `{PL : Platform}.
Context (ethereum : bool). (** [window.ethereum] is there *)

(** ** The script *)

(** [a.slice(0, 6)] and [a.slice(-4)]; undefined and null have no [slice]. *)
Definition short_address (a : address) : js string :=
  match a with
  | Addr s => jret (take_str 6 s +:+ "..." +:+ drop_str (String.length s - 4) s)
  | _ => jthrow TypeError
  end.

(** [textContent = a] *)
Definition shown_address (a : address) : string :=
  match a with Null => EmptyString | _ => address_text a end.

Definition switch_chain : js unit :=
  jtry
    (wallet "wallet_switchEthereumChain" [JObj [("chainId", JStr chainId)]] ;; jret tt)
    (fun switchErr =>
       if bool_decide (code switchErr = Some 4902) then
         wallet "wallet_addEthereumChain"
           [JObj [("chainId", JStr chainId); ("chainName", JStr chainName);
                  ("nativeCurrency", currency); ("rpcUrls", JArr [JStr rpcUrl]);
                  ("blockExplorerUrls", JArr [JStr explorerUrl])]] ;; jret tt
       else jret tt).

Definition connectWallet : js unit :=
  if negb ethereum then alert "No EIP-1193 wallet found. Please install Rabby."
  else
    jtry
      (accounts <- wallet "eth_requestAccounts" [] ;;
       a <- first_account accounts ;;
       touch (with_addr a) ;;
       switch_chain ;;
       a <- reads snowsideAddr ;;
       balance <- wallet "eth_getBalance" [json_of_address a; JStr "latest"] ;;
       wei <- jlift (BigInt_of_string (json_text (Some balance))) ;;
       let balFormatted := thousandths (Z.quot wei (10 ^ 15)) in
       a <- reads snowsideAddr ;;
       label <- short_address a ;;
       set_text "connect-btn" label ;;
       show "wallet-info" ;;
       set_text "snowside-addr" (shown_address a) ;;
       set_text "wallet-balance" ("Balance: " +:+ balFormatted +:+ " " +:+ currency_symbol) ;;
       hide "no-wallet" ;;
       show "create-deposit" ;;
       touch with_listener)
      (fun err => alert ("Wallet connection failed: " +:+ message_text err)).

Definition showError (msg : option string) : js unit :=
  hide "deposit-loading" ;;
  hide "deposit-pending" ;;
  show "deposit-error" ;;
  set_text "error-msg" (default EmptyString msg).

(** The address, once there is one. *)
Definition show_deposit_address (ecash_address : option json) : js unit :=
  if json_truthy ecash_address then
    shown <- reads (text "deposit-addr") ;;
    if is_string ecash_address shown then jret tt
    else
      set_text "deposit-addr" (json_text ecash_address) ;;
      set_text "qr-container" "" ;;
      drawn <- jlift (QRCode (json_text ecash_address)) ;;
      set_text "qr-container" drawn
  else jret tt.

(** [clearInterval(pollTimer); pollTimer = null] *)
Definition stop_poll (p : page) : page := with_timer None (clear_interval (pollTimer p) p).

Definition show_deposit_status (deposit : json) : js unit :=
  status <- get deposit "status" ;;
  if is_string status "confirmed" then
    hide "deposit-pending" ;;
    show "deposit-confirmed" ;;
    amount_xec <- get deposit "amount_xec" ;;
    set_text "confirmed-amount" ("Received: " +:+ json_text amount_xec +:+ " sats") ;;
    ecash_tx_hash <- get deposit "ecash_tx_hash" ;;
    set_text "confirmed-tx" ("tx: " +:+ json_text ecash_tx_hash)
  else if is_string status "minted" then
    touch stop_poll ;;
    hide "deposit-pending" ;;
    hide "deposit-confirmed" ;;
    show "deposit-minted" ;;
    amount_ecx <- get deposit "amount_ecx" ;;
    set_text "minted-amount" ("Minted: " +:+ json_text amount_ecx +:+ " ECX") ;;
    mint_tx_hash <- get deposit "mint_tx_hash" ;;
    set_text "minted-tx" ("Mint tx: " +:+ json_text mint_tx_hash)
  else jret tt.

Definition deposit_url (id : option json) : string := apiBase +:+ "/bridge/deposit/" +:+ json_text id.

Definition pollDeposit : js unit :=
  id <- reads currentDepositId ;;
  if negb (json_truthy id) then jret tt
  else
    jtry
      (resp <- fetch (deposit_url id) None ;;
       if negb (reply_ok resp) then jret tt
       else
         deposit <- body_of resp ;;
         ecash_address <- get deposit "ecash_address" ;;
         show_deposit_address ecash_address ;;
         show_deposit_status deposit)
      (fun _ => jret tt).

(** The request's body; an undefined address is left out. *)
Definition deposit_body (a : address) : json :=
  JObj ((match a with Undefined => [] | _ => [("snowsideAddress", json_of_address a)] end)
        ++ [("network", JStr network)]).

(** [pollTimer = setInterval(pollDeposit, 3000)] *)
Definition start_poll (p : page) : page :=
  with_timer (Some (next_timer p)) (set_interval PollDeposit p).

Definition createDeposit : js unit :=
  hide "create-deposit" ;;
  show "deposit-loading" ;;
  jtry
    (a <- reads snowsideAddr ;;
     resp <- fetch (apiBase +:+ "/bridge/deposit") (Some ("POST", deposit_body a)) ;;
     if negb (reply_ok resp) then jthrow (Error ("API returned " +:+ dec_str (fst resp)))
     else
       data <- body_of resp ;;
       id <- get data "id" ;;
       touch (with_deposit id) ;;
       hide "deposit-loading" ;;
       show "deposit-pending" ;;
       touch start_poll ;;
       spawn pollDeposit)
    (fun err => showError (message err)).

Definition copyAddress : js unit :=
  addr <- reads (text "deposit-addr") ;;
  await (WriteText addr) ;;
  alert ("Address copied: " +:+ addr).

(** [if (pollTimer) { clearInterval(pollTimer); pollTimer = null }]; the
    browser numbers its intervals from one. *)
Definition resetDeposit : js unit :=
  touch stop_poll ;;
  touch (with_deposit (Some JNull)) ;;
  hide "deposit-error" ;;
  hide "deposit-minted" ;;
  hide "deposit-pending" ;;
  hide "deposit-confirmed" ;;
  show "create-deposit".

(** ** Events *)

(** The buttons, each with the panel it is in. *)
Inductive button := ConnectButton | ConnectHere | CreateButton | CopyButton | NewDeposit | TryAgain.

Definition panel (b : button) : option string :=
  match b with
  | ConnectButton => None
  | ConnectHere => Some "no-wallet"
  | CreateButton => Some "create-deposit"
  | CopyButton => Some "deposit-pending"
  | NewDeposit => Some "deposit-minted"
  | TryAgain => Some "deposit-error"
  end.

Definition click (b : button) : js unit :=
  match b with
  | ConnectButton | ConnectHere => connectWallet
  | CreateButton => createDeposit
  | CopyButton => copyAddress
  | NewDeposit | TryAgain => resetDeposit
  end.

Definition visible (id : string) (p : page) : bool := bool_decide (id ∉ hidden p).
Definition clickable (b : button) (p : page) : bool :=
  match panel b with Some id => visible id p | None => true end.

Inductive event :=
| Click (b : button)
| AccountsChanged (accounts : list string)
| Fires (timer_id : Z)
| Answers (n : nat) (a : answer).

#[export] Instance button_eq_dec : EqDecision button.
Proof. solve_decision. Defined.

#[export] Instance creates_dec (e : event) : Decision (e = Click CreateButton).
Proof.
  destruct e as [b| | |]; [|by right..]. destruct (decide (b = CreateButton)) as [->|Hne]; [by left|].
  right. intros [= E]. done.
Defined.

(** The page as it loads. *)
Definition blank : page := {|
  vars := Variables (Some JNull) None Null 0;
  inputs := ∅;
  texts := <["connect-btn" := "Connect Wallet"]> ∅;
  hidden := {["wallet-info"; "create-deposit"; "deposit-loading"; "deposit-pending"; "deposit-confirmed";
              "deposit-minted"; "deposit-error"]};
  disabled := ∅;
  timers := [];
  next_timer := 1;
  alerts := []
|}.

Definition load : world := World blank [] [].

(** Once the page listens, a change of the wallet's accounts to other ones
    loads it anew. *)
Definition accountsChanged (accounts : list string) (w : world) : world :=
  match accounts, listeners (vars (page_of w)) with
  | _ :: _, S _ => World blank [] (asked w)
  | _, _ => w
  end.

Definition step (e : event) (w : world) : world :=
  match e with
  | Click b => if clickable b (page_of w) then start (click b) w else w
  | AccountsChanged accounts => accountsChanged accounts w
  | Fires i => fires (fun _ => pollDeposit) i w
  | Answers n a => answered n a w
  end.

Definition steps (es : list event) (w : world) : world := fold_left (fun w e => step e w) es w.

(** Everything a browser can bring the page to. *)
Inductive reachable : world -> Prop :=
| reach_load : reachable load
| reach_step e w : reachable w -> reachable (step e w).
End script.
