(* ===== verification/SignetProps.v ===== *)
(** * Properties of the signet bridge page

    What any run of the page can ask for; what it shows of a deposit that the
    API answers about, and which address it shows for the next one; an
    interval that nothing stops any more; and the chain it asks the wallet
    for. *)

From Stdlib Require Import ZArith Lia Ascii String List Bool.
From stdpp Require Import base list strings numbers gmap.
From S2P Require Import Prelude JsNumber Effects Json Database Api ApiSpec ApiProps HdWallet Withdraw Federation Browser SignetPage.
Local Open Scope Z_scope.
Local Open Scope js_scope.

Local Abbreviation page := (page variables timer).
Local Abbreviation js := (js variables timer).
Local Abbreviation world := (world variables timer).

(** ** What the page asks for *)

Definition harmless_methods : list string :=
  ["eth_requestAccounts"; "wallet_switchEthereumChain"; "wallet_addEthereumChain"; "eth_getBalance"].

(** Neither a signature nor a request that changes anything. *)
Definition harmless (q : query) : Prop :=
  match q with
  | Ethereum m _ => In m harmless_methods
  | Fetch _ init => init = None
  | WriteText _ => True
  | _ => False
  end.

(** What the handlers keep, whatever [I] says of the variables and the
    intervals, if stopping and starting a poll keeps it. *)
Section handlers.
Context `{PL : Platform}.
Context (ethereum : bool) (I : page -> Prop).
Hypothesis Hdom : forall p p' : page, vars p' = vars p -> timers p' = timers p ->
  next_timer p' = next_timer p -> I p -> I p'.
Hypothesis Hvars : forall f (p : page), timer_var (f (vars p)) = timer_var (vars p) -> I p -> I (with_vars f p).
Hypothesis Hstop : forall p, I p -> I (stop_poll p).
Hypothesis Hstart : forall p, I p -> I (start_poll p).

Local Abbreviation safe_js := (safe_js I harmless).
Local Abbreviation first_js := (first_js I harmless).
Local Abbreviation sound := (sound I harmless).
Local Abbreviation quiet_step := (quiet_step I harmless).

#[local] Hint Resolve Hstop Hstart : browser.
#[local] Hint Extern 1 (safe_js (wallet _ _)) => apply safe_wallet; cbn; tauto : browser.
#[local] Hint Extern 2 (I (with_vars _ _)) => apply Hvars; [reflexivity|assumption] : browser.
#[local] Hint Extern 1 (I (with_addr _ _)) => apply Hvars; [reflexivity|assumption] : browser.
#[local] Hint Extern 1 (I (with_deposit _ _)) => apply Hvars; [reflexivity|assumption] : browser.
#[local] Hint Extern 1 (I (with_listener _)) => apply Hvars; [reflexivity|assumption] : browser.
#[local] Hint Extern 3 (I ?p') => match goal with H : I ?p |- _ =>
  apply (Hdom p); [reflexivity..|exact H] end : browser.

Lemma safe_short_address a : safe_js (short_address a).
Proof. unfold short_address. destruct a; safely. Qed.

Lemma safe_switch_chain : safe_js switch_chain.
Proof. unfold switch_chain. safely. Qed.
#[local] Hint Resolve safe_short_address safe_switch_chain : browser.

Lemma signet_safe_connectWallet : safe_js (connectWallet ethereum).
Proof. unfold connectWallet. safely. Qed.

Lemma safe_showError m : safe_js (showError m).
Proof. unfold showError. safely. Qed.

Lemma safe_show_deposit_address j : safe_js (show_deposit_address j).
Proof. unfold show_deposit_address. safely. Qed.

Lemma safe_show_deposit_status j : safe_js (show_deposit_status j).
Proof. unfold show_deposit_status. safely. Qed.
#[local] Hint Resolve safe_showError safe_show_deposit_address safe_show_deposit_status : browser.

Lemma signet_safe_pollDeposit : safe_js pollDeposit.
Proof. unfold pollDeposit. safely. Qed.
#[local] Hint Resolve signet_safe_pollDeposit : browser.

Lemma safe_copyAddress : safe_js copyAddress.
Proof. unfold copyAddress. safely. Qed.

Lemma safe_resetDeposit : safe_js resetDeposit.
Proof. unfold resetDeposit. safely. Qed.

Lemma first_createDeposit : first_js createDeposit.
Proof. unfold createDeposit. firstly. Qed.

(** Every event but a click on the button that creates a deposit. *)
Lemma signet_step_quiet ev w :
  ev <> Click CreateButton -> I blank -> sound w -> quiet_step w (step ethereum ev w).
Proof.
  intros Hev Hb Hw. destruct ev as [b|l|i|n a]; cbn [step].
  - destruct (clickable b (page_of w)); [|by apply quiet_refl]. apply start_quiet; [|done].
    destruct b; try done; cbn [click];
      auto using signet_safe_connectWallet, safe_copyAddress, safe_resetDeposit.
  - destruct l as [|x l]; cbn [accountsChanged]; [by apply quiet_refl|].
    destruct (listeners (vars (page_of w))); [by apply quiet_refl|].
    split; [split; [done|constructor]|by exists []].
  - apply fires_quiet; [intros _; apply signet_safe_pollDeposit|done].
  - by apply answered_quiet.
Qed.

Lemma signet_step_sound ev w : I blank -> sound w -> sound (step ethereum ev w).
Proof.
  intros Hb Hw. destruct (decide (ev = Click CreateButton)) as [->|Hne];
    [|by apply signet_step_quiet]. cbn [step]. destruct (clickable _ _); [|done].
  apply run_first; [|done]. by apply first_createDeposit.
Qed.
End handlers.

(** ** Deposits are created on clicks *)

Definition anything (p : page) : Prop := True.
Local Abbreviation sound := (sound anything harmless).

Definition deposit_query (p : page) : query :=
  Fetch (apiBase +:+ "/bridge/deposit") (Some ("POST", deposit_body (snowsideAddr p))).

Section requests.
Context `{PL : Platform}.
Context (ethereum : bool).

Lemma signet_reachable_sound w : reachable ethereum w -> sound w.
Proof.
  induction 1 as [|ev w _ IH]; [by repeat constructor|]. by apply signet_step_sound.
Qed.

(** C34. A deposit is asked for by a click. In any run of the page, an event makes it
    ask the API for a new deposit only when it is a click on the visible
    button, and then once, for the address the page holds; everything else it
    asks for reads, or has the wallet connect or change its chain. The wallet
    is never asked for a transaction or a signature. *)
Theorem deposits_on_clicks w ev :
  reachable ethereum w ->
  let p := page_of w in
  exists new, asked (step ethereum ev w) = new ++ asked w /\
    (Forall harmless new \/
     ev = Click CreateButton /\ visible "create-deposit" p = true /\ new = [deposit_query p]).
Proof.
  intros Hr%signet_reachable_sound. cbn zeta. destruct (decide (ev = Click CreateButton)) as [->|Hne].
  - cbn [step]. destruct (clickable _ _) eqn:Ec; [|exists []; by repeat constructor].
    exists [deposit_query (page_of w)]. split; [|right; by repeat split].
    unfold click, createDeposit, snowsideAddr. run_js. done.
  - destruct (signet_step_quiet ethereum anything) with (ev := ev) (w := w) as (_ & new & E & Hn); try done.
    exists new. split; [done|by left].
Qed.

(** ** What the page shows of a deposit *)

(** The rest of the poll, on a deposit. *)
Definition shows (row : json) : prog variables timer :=
  jtry (jbind (get row "ecash_address") (fun x =>
          jbind (show_deposit_address x) (fun _ => show_deposit_status row)))
       (fun _ => jret tt) (fun _ => End) (fun _ => End).

Lemma fires_poll i w id :
  In (i, PollDeposit) (timers (page_of w)) -> currentDepositId (page_of w) = id -> json_truthy id = true ->
  exists k, step ethereum (Fires i) w =
      World (page_of w) (waits w ++ [Wait (Fetch (deposit_url id) None) k]) (Fetch (deposit_url id) None :: asked w) /\
    forall row p ws qs, run (k (Replied (200, Some row))) (World p ws qs) = run (shows row) (World p ws qs).
Proof.
  intros Hin Hid Ht. cbn [step]. unfold fires.
  destruct (List.find _ _) as [[j t]|] eqn:Ef.
  - unfold pollDeposit. run_js. rewrite Hid, Ht. run_js. eexists. split; [reflexivity|].
    intros row p ws qs. reflexivity.
  - apply (find_none _ _ Ef) in Hin. cbn in Hin. lia.
Qed.

(** Showing the address changes nothing else, and succeeds. *)
Lemma address_is_shown a drawn p ws qs ok err :
  str_truthy a = true -> QRCode a = Ok drawn ->
  exists p', run (show_deposit_address (Some (JStr a)) ok err) (World p ws qs) = run (ok tt) (World p' ws qs) /\
    text "deposit-addr" p' = a /\ hidden p' = hidden p /\ vars p' = vars p.
Proof.
  intros Ht Hq. unfold show_deposit_address. cbn [json_truthy JStr]. rewrite Ht. run_js.
  cbn [is_string JStr json_text]. unfold text.
  destruct (String.eqb_spec a (default "" (texts p !! "deposit-addr"))) as [E|_].
  - exists p. by split_and!.
  - rewrite Hq. run_js. eexists. split; [reflexivity|].
    cbn [texts hidden vars with_texts]. split_and!; [|done..].
    by rewrite !lookup_insert_ne, lookup_insert_eq by done.
Qed.

Lemma minted_is_shown fields a drawn p ws qs :
  rec_get fields "ecash_address" = Some (JStr a) -> rec_get fields "status" = Some (JStr "minted") ->
  str_truthy a = true -> QRCode a = Ok drawn ->
  exists p', run (shows (JObj fields)) (World p ws qs) = World p' ws qs /\
    text "deposit-addr" p' = a /\ ("deposit-minted" ∉ hidden p') /\
    text "minted-amount" p' = "Minted: " +:+ json_text (rec_get fields "amount_ecx") +:+ " ECX".
Proof.
  intros Ha Hs Ht Hq. unfold shows, get, json_get. rewrite Ha. run_js.
  match goal with |- context [show_deposit_address _ ?ok ?err] =>
    destruct (address_is_shown a drawn p ws qs ok err Ht Hq) as (p1 & -> & Hp1 & _) end.
  unfold show_deposit_status, get, json_get. rewrite Hs. run_js. cbn [is_string JStr String.eqb].
  run_js. repeat (rewrite run_touch; cbv beta). cbn [run].
  eexists. split; [reflexivity|]. unfold text in *.
  cbn [page_of texts hidden vars with_texts with_hidden stop_poll with_timer with_vars clear_interval with_timers].
  split_and!.
  - by rewrite !lookup_insert_ne.
  - set_solver.
  - by rewrite lookup_insert_ne, lookup_insert_eq.
Qed.

(** A click on a visible button. *)
Lemma signet_step_click b w :
  clickable b (page_of w) = true -> step ethereum (Click b) w = start (click ethereum b) w.
Proof. intros H. cbn [step]. by rewrite H. Qed.

Lemma visible_iff id (p : page) : visible id p = true <-> id ∉ hidden p.
Proof. apply bool_decide_eq_true. Qed.

(** "New Deposit": the panels change, nothing else that is shown does. *)
Lemma new_deposit p ws qs :
  visible "deposit-minted" p = true ->
  exists p', step ethereum (Click NewDeposit) (World p ws qs) = World p' ws qs /\
    texts p' = texts p /\ visible "create-deposit" p' = true.
Proof.
  intros Hv. rewrite signet_step_click by done. cbn [click]. unfold resetDeposit. run_js.
  eexists. split; [reflexivity|]. split; [done|]. apply visible_iff.
  cbn [hidden with_hidden with_deposit with_vars]. set_solver.
Qed.

(** A deposit of the API, as its answer's body. *)
Definition deposit_reply (fields : list (string * json)) : answer := Replied (200, Some (JObj fields)).

(** "Create Deposit Request", and the API's answer. *)
Lemma create_deposit_answered p ws qs fields id :
  visible "create-deposit" p = true -> rec_get fields "id" = Some (JStr id) -> str_truthy id = true ->
  exists p' k, step ethereum (Answers (length ws) (deposit_reply fields))
      (step ethereum (Click CreateButton) (World p ws qs)) =
    World p' (ws ++ [Wait (Fetch (deposit_url (Some (JStr id))) None) k])
      (Fetch (deposit_url (Some (JStr id))) None :: deposit_query p :: qs) /\
    texts p' = texts p /\ visible "deposit-pending" p' = true /\
    currentDepositId p' = Some (JStr id).
Proof.
  intros Hv Hid Ht. rewrite signet_step_click by done. cbn [click]. unfold createDeposit, snowsideAddr. run_js.
  cbn [step]. match goal with |- context [answered _ _ (World ?p1 (ws ++ [Wait ?q ?k]) ?qs')] =>
    erewrite (answered_last p1 ws qs' q k); [|reflexivity|] end; cycle 1.
  { cbv beta iota. unfold body_of, deposit_reply, reply_ok, get, json_get. cbn [fst snd].
    change ((200 <=? 200) && (200 <? 300)) with true. run_js. rewrite Hid. run_js.
    unfold pollDeposit. run_js. unfold currentDepositId, start_poll, with_timer, with_deposit. run_js.
    cbn [vars deposit_var with_vars set_interval with_timers with_hidden json_truthy JStr]. rewrite Ht.
    run_js. reflexivity. }
  eexists _, _. split; [reflexivity|].
  cbn [texts hidden with_vars set_interval with_timers with_hidden].
  split_and!; [done| |done]. apply visible_iff. cbn [hidden with_vars set_interval with_timers with_hidden].
  set_solver.
Qed.

(** C33. The old address for the new deposit. A deposit is minted, the user asks for
    another one, and the API answers with its id: the page then shows, as the
    address to send to for the new deposit, the address of the minted one,
    until the federation has assigned another. *)
Theorem new_deposit_shows_the_old_address w i id fields a drawn fields' id' :
  In (i, PollDeposit) (timers (page_of w)) -> currentDepositId (page_of w) = id -> json_truthy id = true ->
  rec_get fields "status" = Some (JStr "minted") -> rec_get fields "ecash_address" = Some (JStr a) ->
  str_truthy a = true -> QRCode a = Ok drawn ->
  rec_get fields' "id" = Some (JStr id') -> str_truthy id' = true ->
  let n := length (waits w) in
  let w' := steps ethereum
    [Fires i; Answers n (deposit_reply fields); Click NewDeposit; Click CreateButton;
     Answers n (deposit_reply fields')] w in
  visible "deposit-pending" (page_of w') = true /\ text "deposit-addr" (page_of w') = a /\
  currentDepositId (page_of w') = Some (JStr id').
Proof.
  intros Hin Hid Ht Hs Ha Hta Hq Hf' Ht'. cbn zeta. unfold steps. cbn [fold_left].
  destruct w as [p ws qs]. cbn [page_of waits] in *.
  destruct (fires_poll i (World p ws qs) id Hin Hid Ht) as (k & -> & Hk). cbn [page_of waits asked].
  destruct (minted_is_shown fields a drawn p ws (Fetch (deposit_url id) None :: qs) Ha Hs Hta Hq)
    as (p1 & E1 & Htext & Hm & _).
  change (step ethereum (Answers (length ws) (deposit_reply fields))) with
    (answered (V := variables) (T := timer) (length ws) (deposit_reply fields)).
  rewrite (answered_last _ _ _ (Fetch (deposit_url id) None) _ _ (World p1 ws (Fetch (deposit_url id) None :: qs)));
    [|done|unfold deposit_reply; by rewrite Hk].
  destruct (new_deposit p1 ws (Fetch (deposit_url id) None :: qs)) as (p2 & -> & Hp2 & Hv2);
    [by apply visible_iff|].
  destruct (create_deposit_answered p2 ws (Fetch (deposit_url id) None :: qs) fields' id' Hv2 Hf' Ht')
    as (p3 & k3 & -> & Hp3 & Hv3 & Hid3).
  cbn [page_of]. split_and!; [done| |done]. unfold text in *. by rewrite Hp3, Hp2.
Qed.
(** ** What the page makes of the API's rows *)

Lemma confirmed_is_shown fields a drawn p ws qs :
  rec_get fields "ecash_address" = Some (JStr a) -> rec_get fields "status" = Some (JStr "confirmed") ->
  str_truthy a = true -> QRCode a = Ok drawn ->
  exists p', run (shows (JObj fields)) (World p ws qs) = World p' ws qs /\
    text "deposit-addr" p' = a /\
    text "confirmed-amount" p' = "Received: " +:+ json_text (rec_get fields "amount_xec") +:+ " sats".
Proof.
  intros Ha Hs Ht Hq. unfold shows, get, json_get. rewrite Ha. run_js.
  match goal with |- context [show_deposit_address _ ?ok ?err] =>
    destruct (address_is_shown a drawn p ws qs ok err Ht Hq) as (p1 & -> & Hp1 & _) end.
  unfold show_deposit_status, get, json_get. rewrite Hs. run_js. cbn [is_string JStr String.eqb].
  run_js. eexists. split; [reflexivity|]. unfold text in *.
  cbn [page_of texts hidden with_texts with_hidden].
  split; [by rewrite !lookup_insert_ne|]. by rewrite lookup_insert_ne, lookup_insert_eq.
Qed.

(** A deposit as the API answers it. *)
Definition deposit_request (id : string) : request :=
  Request GET ["v1"; "bridge"; "deposit"; id] None None.

Lemma deposit_answer `{SQ : Sqlite} `{ZD : Zod} `{CH : Chanfana} rt id d row :
  fst (handle_request rt (deposit_request id) d) = Answer 200 row ->
  exists r, In r (deposits d) /\ row = json_of_row r.
Proof.
  unfold handle_request, dispatch, deposit_request, route. cbn [rq_method rq_path].
  destruct id as [|c s]; [done|]. set (id := String c s). unfold get_deposit, abind, d1_read.
  destruct (rt_db_up rt); [|done]. pose proof (select_by_id_spec Deposits id d) as H.
  destruct (select_by_id Deposits id d) as [r|]; [|done]. intros [= <-].
  destruct H as [Hin _]. by exists r.
Qed.

(** C32. "Received: undefined sats". The page reads the amount of a confirmed deposit
    from a field that no row of the API has: whatever deposit of whatever
    reachable database it is told of, it says that undefined was received. *)
Theorem received_amount_is_undefined `{SQ : Sqlite} `{ZD : Zod} `{CH : Chanfana}
    rt d row w i id a drawn :
  ApiSpec.reachable d -> fst (handle_request rt (deposit_request id) d) = Answer 200 row ->
  json_get row "status" = Ok (Some (JStr "confirmed")) ->
  json_get row "ecash_address" = Ok (Some (JStr a)) ->
  str_truthy a = true -> QRCode a = Ok drawn ->
  In (i, PollDeposit) (timers (page_of w)) -> currentDepositId (page_of w) = Some (JStr id) ->
  str_truthy id = true ->
  let w' := steps ethereum [Fires i; Answers (length (waits w)) (Replied (200, Some row))] w in
  text "confirmed-amount" (page_of w') = "Received: undefined sats" /\ text "deposit-addr" (page_of w') = a.
Proof.
  intros Hr (r & Hin & ->)%deposit_answer. cbn [json_get json_of_row]. intros [= Hs] [= Ha] Hta Hq Hi Hid Ht.
  cbn zeta. unfold steps. cbn [fold_left]. destruct w as [p ws qs]. cbn [page_of waits] in *.
  destruct (fires_poll i (World p ws qs) _ Hi Hid Ht) as (k & -> & Hk). cbn [page_of waits asked].
  set (q := Fetch (deposit_url (Some (JStr id))) None) in *.
  destruct (confirmed_is_shown _ a drawn p ws (q :: qs) Ha Hs Hta Hq) as (p1 & E1 & Htext & Hm).
  match goal with |- context [step ethereum (Answers ?n ?x)] =>
    change (step ethereum (Answers n x)) with (answered (V := variables) (T := timer) n x) end.
  rewrite (answered_last _ _ _ q _ _ (World p1 ws (q :: qs))); [|done|by rewrite Hk].
  cbn [page_of]. split; [|done]. rewrite Hm.
  rewrite (proj2 (rec_get_none _ "amount_xec")); [done|]. rewrite map_map. cbn [fst].
  destruct (proj1 (reachable_ok d Hr)) as [Hrows _]. rewrite Forall_forall in Hrows.
  destruct (Hrows r (proj2 (list_elem_of_In _ _) Hin)) as (Hcols & _ & _).
  change (map (fun x => fst x) r) with (map fst r). rewrite Hcols. cbn. intuition discriminate.
Qed.
End requests.

(** ** Runs *)

#[local] Instance toy_platform : Platform := {| thousandths := dec_str; QRCode s := Ok s |}.

Definition user_wallet : string := "0xfd89b56d37642d155af094bf00a2b4e9014abafc".

(** The wallet connects and has the chain. *)
Definition connects (n : nat) : list event :=
  [Click ConnectButton; Answers n (Got (JArr [JStr user_wallet])); Answers n (Got JNull);
   Answers n (Got (JStr "0xde0b6b3a7640000"))].

Definition creates (n : nat) (id : string) : list event :=
  [Click CreateButton; Answers n (deposit_reply [("id", JStr id); ("status", JStr "pending")])].

Definition deposit_fields (address status : string) (amount_ecx : json) : list (string * json) :=
  [("id", JStr "a"); ("status", JStr status); ("ecash_address", JStr address); ("amount_ecx", amount_ecx);
   ("mint_tx_hash", JStr "0xmint")].

(** A deposit is created and its first poll answered. *)
Definition waiting : world :=
  steps true (connects 0 ++ creates 0 "a" ++
    [Answers 0 (deposit_reply (deposit_fields "tb1qfirst" "pending" JNull))]) load.

Lemma signet_reachable_steps `{PL : Platform} ethereum es w :
  reachable ethereum w -> reachable ethereum (steps ethereum es w).
Proof. revert w. induction es as [|ev es IH]; intros w Hw; [done|]. apply IH. by constructor. Qed.

Lemma deposits_on_clicks_witness :
  let w := steps true (connects 0) load in
  asked (step true (Click CreateButton) w) = deposit_query (page_of w) :: asked w /\
  exists new, asked (step true (Click CreateButton) w) = new ++ asked w /\
    (Forall harmless new \/
     Click CreateButton = Click CreateButton /\ visible "create-deposit" (page_of w) = true /\
       new = [deposit_query (page_of w)]).
Proof.
  split; [vm_compute; reflexivity|].
  apply (deposits_on_clicks true _ (Click CreateButton)). apply signet_reachable_steps, reach_load.
Defined.

Lemma new_deposit_shows_the_old_address_witness :
  let w' := steps true
    [Fires 1; Answers 0 (deposit_reply (deposit_fields "tb1qfirst" "minted" (JInt (10 ^ 15))));
     Click NewDeposit; Click CreateButton; Answers 0 (deposit_reply [("id", JStr "b")])] waiting in
  visible "deposit-pending" (page_of w') = true /\ text "deposit-addr" (page_of w') = "tb1qfirst" /\
  currentDepositId (page_of w') = Some (JStr "b").
Proof.
  assert (Hn : length (waits waiting) = 0%nat) by (vm_compute; reflexivity).
  pose proof (new_deposit_shows_the_old_address true waiting 1 (Some (JStr "a"))
    (deposit_fields "tb1qfirst" "minted" (JInt (10 ^ 15))) "tb1qfirst" "tb1qfirst" [("id", JStr "b")] "b") as H.
  cbn zeta in H. rewrite Hn in H. apply H; try (vm_compute; reflexivity). vm_compute. by left.
Defined.

(** A deposit of the API that the federation has confirmed. *)
Definition confirmed_db : db :=
  after_request (toy_runtime 2000 "")
    (fed_request (toy_runtime 2000 "") PATCH ["deposit"; "d1"]
       (Some (JObj [("ecash_address", JStr "tb1qd1"); ("amount_sats", JInt 50000); ("status", JStr "confirmed")])))
    toy_db.

Definition confirmed_row : json :=
  match fst (handle_request (toy_runtime 3000 "") (deposit_request "d1") confirmed_db) with
  | Answer _ j => j | _ => JNull end.

Definition polling_d1 : world := steps true (connects 0 ++ creates 0 "d1") load.

Lemma received_amount_is_undefined_witness :
  rec_get (match confirmed_row with JObj f => f | _ => [] end) "amount_sats" = Some (JInt 50000) /\
  let w' := steps true [Fires 1; Answers 1 (Replied (200, Some confirmed_row))] polling_d1 in
  text "confirmed-amount" (page_of w') = "Received: undefined sats" /\ text "deposit-addr" (page_of w') = "tb1qd1".
Proof.
  split; [vm_compute; reflexivity|].
  assert (Hn : length (waits polling_d1) = 1%nat) by (vm_compute; reflexivity).
  pose proof (received_amount_is_undefined true (toy_runtime 3000 "") confirmed_db confirmed_row polling_d1 1 "d1"
    "tb1qd1" "tb1qd1") as H.
  cbn zeta in H. rewrite Hn in H. apply H; try (vm_compute; reflexivity).
  - apply reach_request, toy_db_reachable.
  - vm_compute. by left.
Defined.

(** A second connection while a deposit is pending offers to create another
    one; the first interval is then out of the script's reach. When the second
    deposit is minted and the user has returned to the start, it still runs. *)
Example second_deposit_leaks_an_interval :
  let w := steps true (connects 0 ++ creates 0 "a" ++ connects 1 ++ creates 1 "b" ++
    [Answers 1 (deposit_reply (deposit_fields "tb1qb" "minted" (JInt (10 ^ 15)))); Click NewDeposit]) load in
  timers (page_of w) = [(1, PollDeposit)] /\ pollTimer (page_of w) = None.
Proof. vm_compute. auto. Qed.

(** A late answer about the first of two deposits: the page says that the
    deposit is complete while the second is the current one. *)
Example late_answer_completes_another_deposit :
  let w := steps true (connects 0 ++ creates 0 "a" ++ connects 1 ++ creates 1 "b" ++
    [Answers 0 (deposit_reply (deposit_fields "tb1qa" "minted" (JInt (10 ^ 15))))]) load in
  visible "deposit-minted" (page_of w) = true /\ currentDepositId (page_of w) = Some (JStr "b") /\
  pollTimer (page_of w) = None.
Proof. vm_compute. auto. Qed.

(** The amount the federation reports for a minted deposit is in wei; the page
    calls it ECX: 50000 satoshis, 0.0005 ECX, are shown as 5*10^14 ECX. *)
Example minted_amount_is_shown_in_wei :
  let reported := JScalar (field_of_num (Number_of_BigInt (50000 * satsToEcxMultiplier "signet"))) in
  text "minted-amount" (page_of (steps true
    [Fires 1; Answers 0 (deposit_reply (deposit_fields "tb1qfirst" "minted" reported))] waiting)) =
  "Minted: 500000000000000 ECX".
Proof. vm_compute. reflexivity. Qed.

(** The chain the page has the wallet switch to is not the one the federation
    mints on for signet. *)
Example wallet_is_switched_to_another_chain :
  parseInt (Some 16) chainId = Fin 33352 /\ rec_get CHAIN_IDS "signet" = Some 33416.
Proof. vm_compute. auto. Qed.
