(* ===== verification/Proxy.v ===== *)
(** * API proxies: packages/api/src/index.ts

    The JSON-RPC proxy of each network and the Esplora catch-all: the target
    each request is sent to, the headers of the reply, and the failures.
    Upstream servers are a parameter. *)

From Stdlib Require Import ZArith Lia Ascii String List Bool.
From stdpp Require Import base list strings numbers.
From S2P Require Import Prelude Effects Json Database Api.
Local Open Scope Z_scope.

Definition headers : Type := list (string * string).

(** [headers.set(name, value)]; names are given in lower case. *)
Definition headers_set (name value : string) (h : headers) : headers :=
  (name, value) :: List.filter (fun kv => negb (String.eqb (fst kv) name)) h.

Record up_request := UpRequest {
  up_method : string;
  up_headers : headers;
  up_body : option string;
  up_redirect : string
}.

Record web_response := WebResponse { ws_status : Z; ws_headers : headers; ws_body : string }.

(** [fetch(target, init)]: [None] when it throws. *)
Class Upstream := fetch_up : string -> up_request -> option web_response.

(** What a proxy handler reads of the incoming request. *)
Record web_request := WebRequest {
  wq_method : string;
  wq_pathname : string;
  wq_search : string;
  wq_headers : headers;
  wq_body : option string
}.

Definition cors_headers (h : headers) : headers :=
  headers_set "access-control-allow-headers" "Content-Type"
    (headers_set "access-control-allow-methods" "GET, POST, OPTIONS"
       (headers_set "access-control-allow-origin" "*" h)).

Definition quoted (s : string) : string := String "034" s +:+ String "034" "".

(** A JSON error answer of the proxies. *)
Definition bad_gateway (msg : string) : web_response :=
  WebResponse 502 [("content-type", "application/json")]
    ("{" +:+ quoted "error" +:+ ":" +:+ quoted msg +:+ "}").

(** [fetch] the target with the request's method, headers and body, following
    no redirect; the reply keeps status and body and gets the CORS headers. *)
Definition forward `{Upstream} (target failure : string) (q : web_request) : web_response :=
  match fetch_up target (UpRequest (wq_method q) (wq_headers q) (wq_body q) "manual") with
  | Some resp => WebResponse (ws_status resp) (cors_headers (ws_headers resp)) (ws_body resp)
  | None => bad_gateway failure
  end.

(** ** JSON-RPC *)

Definition RPC_UPSTREAMS : list (string * string) :=
  [("mainnet", "https://rpc.snowside.network/mainnet");
   ("testnet", "https://rpc.snowside.network/testnet");
   ("signet", "https://rpc.snowside.network/signet")].

Definition rpcProxy `{Upstream} (upstream : string) (q : web_request) : web_response :=
  forward upstream "RPC upstream fetch failed" q.

(** The two routes of a network, exact and with a rest, registered in a loop. *)
Definition rpc_route `{Upstream} (network : string) (q : web_request) : option web_response :=
  option_map (fun upstream => rpcProxy upstream q) (rec_get RPC_UPSTREAMS network).

(** ** Esplora *)

Definition is_word (c : ascii) : bool :=
  is_digit c || ascii_in "a" "z" c || ascii_in "A" "Z" c || Ascii.eqb c "_".

Fixpoint span_word (s : string) : string * string :=
  match s with
  | String c s' => if is_word c then let (w, r) := span_word s' in (String c w, r) else ("", s)
  | EmptyString => ("", "")
  end.

(** The match of the Esplora pattern, anchored at both ends: "/esplora/", a
    group of word characters, then optionally a group that starts with a
    slash. The path of a parsed URL holds no line terminator. *)
Definition esplora_match (path : string) : option (string * option string) :=
  if starts_with "/esplora/" path then
    let (w, rest) := span_word (drop_str 9 path) in
    if negb (str_truthy w) then None
    else if negb (str_truthy rest) then Some (w, None)
    else if starts_with "/" rest then Some (w, Some rest)
    else None
  else None.

(** What an object literal inherits from [Object.prototype]: the property
    names, and the text each value converts to. *)
Definition inherited : list (string * string) :=
  [("constructor", "function Object() { [native code] }");
   ("hasOwnProperty", "function hasOwnProperty() { [native code] }");
   ("isPrototypeOf", "function isPrototypeOf() { [native code] }");
   ("propertyIsEnumerable", "function propertyIsEnumerable() { [native code] }");
   ("toLocaleString", "function toLocaleString() { [native code] }");
   ("toString", "function toString() { [native code] }");
   ("valueOf", "function valueOf() { [native code] }");
   ("__defineGetter__", "function __defineGetter__() { [native code] }");
   ("__defineSetter__", "function __defineSetter__() { [native code] }");
   ("__lookupGetter__", "function __lookupGetter__() { [native code] }");
   ("__lookupSetter__", "function __lookupSetter__() { [native code] }");
   ("__proto__", "[object Object]")].

(** [`${RECORD[key] || d}`]: own properties first, then inherited ones. *)
Definition lookup_or (r : list (string * string)) (key d : string) : string :=
  match rec_get r key with
  | Some v => str_or v d
  | None => default d (rec_get inherited key)
  end.

(** The scheme test of [new URL(s)], with no base: a letter, then letters,
    digits, "+", "-", "." up to a colon. *)
Definition is_letter (c : ascii) : bool := ascii_in "a" "z" c || ascii_in "A" "Z" c.

Fixpoint scheme_rest (s : string) : bool :=
  match s with
  | EmptyString => false
  | String c s' =>
      if Ascii.eqb c ":" then true
      else (is_letter c || is_digit c || Ascii.eqb c "+" || Ascii.eqb c "-" || Ascii.eqb c ".")
           && scheme_rest s'
  end.

Definition has_scheme (s : string) : bool :=
  match s with EmptyString => false | String c s' => is_letter c && scheme_rest s' end.

(** [new URL(s)] throws when [s] has no scheme. *)
Definition new_URL (s : string) : outcome string :=
  if has_scheme s then Ok s else Throw "Invalid URL".

Definition esplora_target (pathname search : string) : outcome string :=
  let path := replace_first "/v1" "" pathname in
  let '(base, path') :=
    match esplora_match path with
    | Some (network, rest) => (lookup_or ESPLORA_URLS network testnet_esplora, default "/" rest)
    | None => (testnet_esplora, path)
    end in
  new_URL (base +:+ path' +:+ search).

(** The catch-all: an invalid target throws outside the [try], so it is the
    framework that answers. *)
Definition esplora_proxy `{Upstream} (q : web_request) : outcome web_response :=
  obind (esplora_target (wq_pathname q) (wq_search q))
    (fun target => Ok (forward target "Esplora fetch failed" q)).

(** ** Lemmas *)

Lemma headers_get_set name value h k :
  rec_get (headers_set name value h) k = if String.eqb name k then Some value else rec_get h k.
Proof.
  unfold headers_set. cbn [rec_get]. destruct (String.eqb_spec name k) as [->|Hn]; [done|].
  induction h as [|[y v] h IH]; [done|]. cbn [List.filter fst].
  destruct (String.eqb_spec y name) as [->|]; cbn [negb rec_get].
  - destruct (String.eqb_spec name k); [done|exact IH].
  - destruct (String.eqb y k); [done|exact IH].
Qed.

Lemma span_word_all w rest :
  all_str is_word w = true ->
  match rest with EmptyString => true | String c _ => negb (is_word c) end = true ->
  span_word (w +:+ rest) = (w, rest).
Proof.
  intros Hw Hr. induction w as [|c w IH]; simpl in *.
  - destruct rest as [|c r]; [done|]. simpl. by destruct (is_word c).
  - apply andb_prop in Hw as [-> Hw]. by rewrite IH.
Qed.

Lemma esplora_match_hit w rest :
  all_str is_word w = true -> str_truthy w = true ->
  (rest = "" \/ starts_with "/" rest = true) ->
  esplora_match ("/esplora/" +:+ w +:+ rest) = Some (w, if str_truthy rest then Some rest else None).
Proof.
  intros Hw Hne Hr. unfold esplora_match. rewrite starts_with_app.
  change 9%nat with (String.length "/esplora/"). rewrite drop_str_app, span_word_all; [|done|].
  - rewrite Hne. cbn [negb]. destruct Hr as [->|Hr]; [done|].
    destruct rest as [|c r]; [done|]. cbn [str_truthy String.eqb negb]. by rewrite Hr.
  - destruct Hr as [->|Hr]; [done|]. destruct rest as [|c r]; [done|].
    cbn [starts_with] in Hr. rewrite andb_true_r in Hr. by apply Ascii.eqb_eq in Hr as <-.
Qed.

Lemma esplora_match_inv path w rest :
  esplora_match path = Some (w, rest) ->
  match rest with None => True | Some r => starts_with "/" r = true end.
Proof.
  unfold esplora_match. destruct (starts_with "/esplora/" path); [|done].
  destruct (span_word _) as [w' r']. destruct (negb (str_truthy w')); [done|].
  destruct (negb (str_truthy r')); [by intros [= <- <-]|].
  destruct (starts_with "/" r') eqn:E; [|done]. by intros [= <- <-].
Qed.

Lemma has_scheme_https s : has_scheme ("https://" +:+ s) = true.
Proof. done. Qed.

Lemma esplora_bases_https base :
  In base (map snd ESPLORA_URLS) -> exists host, base = "https://" +:+ host.
Proof.
  intros Hin. repeat (destruct Hin as [<-|Hin]; [by eexists|]). destruct Hin.
Qed.

Lemma new_URL_base base s : In base (map snd ESPLORA_URLS) -> new_URL (base +:+ s) = Ok (base +:+ s).
Proof.
  intros [host ->]%esplora_bases_https. unfold new_URL. by rewrite app_assoc_str, has_scheme_https.
Qed.

Lemma inherited_no_scheme key text s :
  rec_get inherited key = Some text -> has_scheme (text +:+ s) = false.
Proof.
  intros H. apply rec_get_in in H.
  repeat (destruct H as [[= <- <-]|H]; [reflexivity|]). destruct H.
Qed.

(** ** Properties *)

Definition api_pathname (p : string) : Prop := p = "/v1" \/ starts_with "/v1/" p = true.

(** C28. The Esplora proxy never leaves its servers: for every path under /v1
    and every query, a target is one of the three configured Esplora bases
    followed by a path that is empty or starts with a slash, then the query;
    the catch-all throws only for a property of [Object.prototype]. *)
Theorem esplora_target_confined pathname search :
  api_pathname pathname ->
  match esplora_target pathname search with
  | Ok target => exists base path, In base (map snd ESPLORA_URLS) /\
      (path = "" \/ starts_with "/" path = true) /\ target = base +:+ path +:+ search
  | Throw _ => exists network rest, esplora_match (replace_first "/v1" "" pathname) = Some (network, rest) /\
      In network (map fst inherited)
  end.
Proof.
  intros Hp. unfold esplora_target. set (path := replace_first "/v1" "" pathname).
  assert (Hpath : path = "" \/ starts_with "/" path = true).
  { destruct Hp as [->|Hp]; [by left|]. right. unfold path.
    apply starts_with_split in Hp as ->. set (rest := drop_str _ _).
    change ("/v1/" +:+ rest) with ("/v1" +:+ ("/" +:+ rest)). by rewrite replace_first_hit. }
  destruct (esplora_match path) as [[network rest]|] eqn:Em.
  - apply esplora_match_inv in Em as Hrest. unfold lookup_or.
    assert (Hr : default "/" rest = "" \/ starts_with "/" (default "/" rest) = true) by (right; by destruct rest).
    destruct (rec_get ESPLORA_URLS network) as [base|] eqn:Eb.
    + apply rec_get_in, (in_map snd) in Eb. cbn [snd] in Eb.
      assert (str_or base testnet_esplora = base) as ->.
      { destruct (esplora_bases_https _ Eb) as [h ->]. done. }
      rewrite new_URL_base by done. by exists base, (default "/" rest).
    + destruct (rec_get inherited network) as [text|] eqn:Ei; cbn [default from_option].
      * unfold id, new_URL. rewrite (inherited_no_scheme _ _ _ Ei). exists network, rest.
        split; [done|]. by apply rec_get_key in Ei.
      * rewrite new_URL_base by (simpl; tauto). exists testnet_esplora, (default "/" rest).
        split_and!; [simpl; tauto|done|done].
  - rewrite new_URL_base by (simpl; tauto). exists testnet_esplora, path.
    split_and!; [simpl; tauto|done|done].
Qed.

Lemma esplora_target_confined_witness :
  exists base path, In base (map snd ESPLORA_URLS) /\
    (path = "" \/ starts_with "/" path = true) /\
    "https://esplora.drynet4.drivechain.dev//evil.example/x?y" = base +:+ path +:+ "?y".
Proof. apply (esplora_target_confined "/v1//evil.example/x" "?y"). right. reflexivity. Defined.

(** Routing by network: /v1/esplora/{network}/rest goes to that network's
    server with path /rest (or /), any other network word to testnet's, except
    that a word naming a property of [Object.prototype] makes the handler
    throw before its [try], so the client gets a 500 and not a 502. *)
Theorem esplora_network_routing `{Upstream} network rest q :
  all_str is_word network = true -> str_truthy network = true ->
  (rest = "" \/ starts_with "/" rest = true) ->
  wq_pathname q = "/v1/esplora/" +:+ network +:+ rest ->
  esplora_proxy q =
    match rec_get ESPLORA_URLS network, rec_get inherited network with
    | None, Some _ => Throw "Invalid URL"
    | base, _ =>
        Ok (forward (default testnet_esplora base +:+ str_or rest "/" +:+ wq_search q)
              "Esplora fetch failed" q)
    end.
Proof.
  intros Hw Hne Hr Hq. unfold esplora_proxy, esplora_target. rewrite Hq.
  change ("/v1/esplora/" +:+ network +:+ rest) with ("/v1" +:+ ("/esplora/" +:+ network +:+ rest)).
  rewrite replace_first_hit.
  change ("" +:+ ("/esplora/" +:+ network +:+ rest)) with ("/esplora/" +:+ network +:+ rest).
  rewrite esplora_match_hit by done.
  assert (Hd : default "/" (if str_truthy rest then Some rest else None) = str_or rest "/").
  { unfold str_or. by destruct (str_truthy rest). }
  rewrite Hd. unfold lookup_or. destruct (rec_get ESPLORA_URLS network) as [base|] eqn:Eb.
  - apply rec_get_in, (in_map snd) in Eb. cbn [snd] in Eb.
    assert (str_or base testnet_esplora = base) as ->.
    { destruct (esplora_bases_https _ Eb) as [h ->]. done. }
    by rewrite new_URL_base.
  - destruct (rec_get inherited network) as [text|] eqn:Ei.
    + unfold new_URL. cbn [default from_option]. unfold id. by rewrite (inherited_no_scheme _ _ _ Ei).
    + cbn [default from_option]. rewrite new_URL_base by (simpl; tauto). done.
Qed.

Definition toy_upstream : Upstream := fun target q =>
  if starts_with "https://esplora" target
  then Some (WebResponse 200 [("access-control-allow-origin", "evil"); ("x", "1")] target) else None.

Definition get_web (pathname : string) : web_request := WebRequest "GET" pathname "" [] None.

Lemma esplora_network_routing_witness :
  @esplora_proxy toy_upstream (get_web "/v1/esplora/constructor/tx") = Throw "Invalid URL" /\
  ws_body <$> (match @esplora_proxy toy_upstream (get_web "/v1/esplora/signet/tx") with Ok r => Some r | _ => None end)
    = Some "https://esplora.signet.drivechain.info/tx".
Proof.
  split.
  - by rewrite (@esplora_network_routing toy_upstream "constructor" "/tx") by (done || by right).
  - by rewrite (@esplora_network_routing toy_upstream "signet" "/tx") by (done || by right).
Defined.

(** A proxied reply is the upstream's: same status and body, the three
    CORS headers with the Worker's values, every other header untouched; an
    upstream that cannot be reached is a 502. The request goes upstream with
    its method, headers and body. *)
Theorem proxied_reply_is_faithful `{Upstream} target failure q :
  let sent := UpRequest (wq_method q) (wq_headers q) (wq_body q) "manual" in
  match fetch_up target sent with
  | None => ws_status (forward target failure q) = 502
  | Some resp =>
      let r := forward target failure q in
      ws_status r = ws_status resp /\ ws_body r = ws_body resp /\
      forall k, rec_get (ws_headers r) k =
        match rec_get [("access-control-allow-origin", "*");
                       ("access-control-allow-methods", "GET, POST, OPTIONS");
                       ("access-control-allow-headers", "Content-Type")] k with
        | Some v => Some v
        | None => rec_get (ws_headers resp) k
        end
  end.
Proof.
  cbv zeta. unfold forward. destruct (fetch_up target _) as [resp|]; [|done].
  cbn [ws_status ws_body ws_headers]. split_and!; [done|done|]. intros k. unfold cors_headers.
  rewrite !headers_get_set. cbn [rec_get].
  destruct (String.eqb_spec "access-control-allow-headers" k) as [<-|]; [done|].
  destruct (String.eqb_spec "access-control-allow-methods" k) as [<-|]; [done|].
  by destruct (String.eqb_spec "access-control-allow-origin" k) as [<-|].
Qed.
