(* ===== verification/Desktop.v ===== *)
(** * Desktop client library: packages/desktop/src/lib

    Networks, settings, the log, the JSON-RPC and bridge clients, the wallet,
    number formatting and the poller hook. The application state holds the
    module variables and the local storage; the outside world (servers, clock,
    key generator) answers each call as a function of the calls made so far. *)

From Stdlib Require Import ZArith Lia Ascii String List Bool.
From stdpp Require Import base list strings numbers.
From S2P Require Import Prelude JsNumber Effects Json.
Local Open Scope Z_scope.

(** ** networks.ts *)

Inductive NetworkId := mainnet | testnet | signet.

#[export] Instance NetworkId_eq_dec : EqDecision NetworkId.
Proof. solve_decision. Defined.

Definition network_key (n : NetworkId) : string :=
  match n with mainnet => "mainnet" | testnet => "testnet" | signet => "signet" end.

Record NetworkDef := {
  nd_id : NetworkId;
  nd_label : string;
  nd_chainIdHint : Z;
  nd_rpcUrl : string;
  nd_apiUrl : string;
  nd_explorerUrl : string;
  nd_esploraLabel : string
}.

Definition NETWORKS (n : NetworkId) : NetworkDef :=
  match n with
  | mainnet => {|
      nd_id := mainnet; nd_label := "Mainnet"; nd_chainIdHint := 32904;
      nd_rpcUrl := "https://snowside.network/mainnet";
      nd_apiUrl := "https://snowside.network/v1";
      nd_explorerUrl := "https://explorer.snowside.network";
      nd_esploraLabel := "eCash mainnet" |}
  | testnet => {|
      nd_id := testnet; nd_label := "Testnet"; nd_chainIdHint := 33160;
      nd_rpcUrl := "https://snowside.network/testnet";
      nd_apiUrl := "https://snowside.network/v1";
      nd_explorerUrl := "https://explorer-testnet.snowside.network";
      nd_esploraLabel := "eCash drynet4" |}
  | signet => {|
      nd_id := signet; nd_label := "Signet"; nd_chainIdHint := 33416;
      nd_rpcUrl := "https://snowside.network/signet";
      nd_apiUrl := "https://snowside.network/v1";
      nd_explorerUrl := "https://explorer-signet.snowside.network";
      nd_esploraLabel := "Bitcoin signet" |}
  end.

Definition NETWORK_ORDER : list NetworkId := [mainnet; testnet; signet].
Definition TOKEN_SYMBOL : string := "ECX".
Definition TOKEN_DECIMALS : Z := 18.

(** ** store.ts *)

Inductive Theme := dark | light.

(** [rpcUrls] keeps whatever the stored object held, with its JSON values. *)
Record Settings := {
  theme : Theme;
  activeNetwork : NetworkId;
  rpcUrls : list (string * json);
  apiUrl : string
}.

Definition defaults : Settings := {|
  theme := dark;
  activeNetwork := mainnet;
  rpcUrls := map (fun n => (network_key n, JStr (nd_rpcUrl (NETWORKS n)))) NETWORK_ORDER;
  apiUrl := nd_apiUrl (NETWORKS mainnet)
|}.

(** [{ ...a, ...b }] *)
Definition spread {A} (a b : list (string * A)) : list (string * A) :=
  map (fun kv => (fst kv, default (snd kv) (rec_get b (fst kv)))) a
  ++ List.filter (fun kv => negb (existsb (String.eqb (fst kv)) (map fst a))) b.

Definition theme_of (j : option json) : Theme :=
  match j with
  | Some (JScalar (FStr s)) => if String.eqb s "light" then light else dark
  | _ => dark
  end.

Definition network_of (j : option json) : NetworkId :=
  match j with
  | Some (JScalar (FStr s)) =>
      if String.eqb s "testnet" then testnet else if String.eqb s "signet" then signet else mainnet
  | _ => mainnet
  end.

(** The own enumerable properties [...(parsed.rpcUrls ?? {})] adds; a stored
    string or array would add index keys, which nothing reads. *)
Definition spread_source (j : option json) : list (string * json) :=
  match j with Some (JObj fields) => fields | _ => [] end.

Definition settings_of (parsed : json) : outcome Settings :=
  obind (json_get parsed "theme") (fun t =>
  obind (json_get parsed "activeNetwork") (fun n =>
  obind (json_get parsed "rpcUrls") (fun r =>
  obind (json_get parsed "apiUrl") (fun a =>
  Ok {|
    theme := theme_of t;
    activeNetwork := network_of n;
    rpcUrls := spread (rpcUrls defaults) (spread_source r);
    apiUrl := match a with
              | Some (JScalar (FStr s)) => str_or s (apiUrl defaults)
              | _ => apiUrl defaults
              end
  |})))).

(** Local storage. A settings text is kept as what [JSON.parse] makes of it:
    [None] when it is not JSON. Storage that is unavailable throws. *)
Record storage := Storage {
  ls_available : bool;
  ls_settings : option (option json);
  ls_wallet_pk : option string
}.

Definition load (ls : storage) : Settings :=
  if negb (ls_available ls) then defaults
  else match ls_settings ls with
       | None => defaults
       | Some None => defaults
       | Some (Some parsed) =>
           match settings_of parsed with Ok s => s | Throw _ => defaults end
       end.

(** [JSON.stringify(settings)] *)
Definition settings_json (s : Settings) : json :=
  JObj [("theme", JStr (match theme s with dark => "dark" | light => "light" end));
        ("activeNetwork", JStr (network_key (activeNetwork s)));
        ("rpcUrls", JObj (rpcUrls s));
        ("apiUrl", JStr (apiUrl s))].

(** ** log.ts *)

Inductive LogLevel := debug | info | error.

Record LogEntry := { ts : Z; level : LogLevel; source : string; message : string }.

Definition MAX_ENTRIES : nat := 500.

(** [entries.slice(-n)] *)
Definition last_n {A} (n : nat) (l : list A) : list A := drop (length l - n) l.

Definition add_entry (entries : list LogEntry) (e : LogEntry) : list LogEntry :=
  last_n (MAX_ENTRIES - 1) entries ++ [e].

(** ** Calls to the outside *)

(** Inside the desktop shell requests go through its HTTP plugin. *)
Record http_call := { hc_tauri : bool; hc_url : string; hc_method : string; hc_body : option json }.

(** A response body is [None] when [resp.json()] throws. *)
Record http_reply := { hp_ok : bool; hp_status : Z; hp_statusText : string; hp_json : option json }.

Inductive call :=
| CNow
| CFetch (c : http_call)
| CGenerateKey.

Definition result_of (c : call) : Type :=
  match c with
  | CNow => Z
  | CFetch _ => outcome http_reply
  | CGenerateKey => string
  end.

Class Outside := answers : forall c : call, list call -> result_of c.

(** ** viem *)

Record Chain := {
  ch_id : Z;
  ch_name : string;
  ch_currency : string * string * Z;
  ch_rpcUrls : list string
}.

(** An action of a viem client: requests through the client's transport, one
    after the other, then a result. *)
Inductive action (A : Type) :=
| Done (r : outcome A)
| Requests (method : string) (params : option (list json)) (k : outcome (option json) -> action A).
Arguments Done {A} r.
Arguments Requests {A} method params k.

Definition sends_transaction (method : string) : bool :=
  existsb (String.eqb method) ["eth_sendRawTransaction"; "eth_sendTransaction"].

Fixpoint reads_only {A} (c : action A) : Prop :=
  match c with
  | Done _ => True
  | Requests method _ k => sends_transaction method = false /\ forall r, reads_only (k r)
  end.

(** What the client uses of viem; waiting for a receipt sends nothing. *)
Class ViemUnits := {
  isAddress : string -> bool;
  parseEther : string -> outcome Z;
  formatEther : Z -> string;
  account_address : string -> outcome string;
  getChainId : action Z;
  getGasPrice : action Z;
  estimateGas : string -> string -> Z -> action Z;
  sendTransaction : string -> Chain -> string -> Z -> Z -> Z -> action string;
  waitForTransactionReceipt : string -> Z -> action unit;
  receipt_reads hash timeout : reads_only (waitForTransactionReceipt hash timeout)
}.

(** Texts the platform formats: [(n / d).toLocaleString()], a time, a date,
    and [(Number(wei) / 1e9).toFixed(digits)]. *)
Class Locale := {
  locale_ratio : Z -> Z -> string;
  locale_time : Z -> string;
  locale_date : Z -> string;
  gwei_fixed : Z -> Z -> string
}.

(** Module variables, local storage, the functions that listen to the settings
    and to the log, those called so far, and the calls made so far, newest
    first. *)
Record app := App {
  a_isTauri : bool;
  a_settings : Settings;
  a_storage : storage;
  a_entries : list LogEntry;
  a_nextId : Z;
  a_listeners : list nat;
  a_logListeners : list nat;
  a_notified : list nat;
  a_calls : list call
}.

Definition with_settings st ls s := App (a_isTauri s) st ls (a_entries s) (a_nextId s) (a_listeners s)
  (a_logListeners s) (a_notified s) (a_calls s).
Definition with_entries l s := App (a_isTauri s) (a_settings s) (a_storage s) l (a_nextId s) (a_listeners s)
  (a_logListeners s) (a_notified s) (a_calls s).
Definition with_nextId i s := App (a_isTauri s) (a_settings s) (a_storage s) (a_entries s) i (a_listeners s)
  (a_logListeners s) (a_notified s) (a_calls s).
Definition with_listeners l k s := App (a_isTauri s) (a_settings s) (a_storage s) (a_entries s) (a_nextId s) l k
  (a_notified s) (a_calls s).
Definition with_notified l s := App (a_isTauri s) (a_settings s) (a_storage s) (a_entries s) (a_nextId s)
  (a_listeners s) (a_logListeners s) l (a_calls s).
Definition with_call c s := App (a_isTauri s) (a_settings s) (a_storage s) (a_entries s) (a_nextId s)
  (a_listeners s) (a_logListeners s) (a_notified s) (c :: a_calls s).

Definition D (A : Type) : Type := app -> outcome A * app.

Definition dret {A} (a : A) : D A := fun s => (Ok a, s).
Definition dthrow {A} (m : string) : D A := fun s => (Throw m, s).
Definition dbind {A B} (c : D A) (f : A -> D B) : D B := fun s =>
  match c s with (Ok a, s') => f a s' | (Throw m, s') => (Throw m, s') end.
Definition dtry {A} (c : D A) (h : string -> D A) : D A := fun s =>
  match c s with (Ok a, s') => (Ok a, s') | (Throw m, s') => h m s' end.
(** [Promise.all([a, b])]: both run; the first failure is the result. *)
Definition dall {A B} (a : D A) (b : D B) : D (A * B) := fun s =>
  let (ra, s1) := a s in
  let (rb, s2) := b s1 in
  match ra, rb with
  | Ok x, Ok y => (Ok (x, y), s2)
  | Throw m, _ => (Throw m, s2)
  | _, Throw m => (Throw m, s2)
  end.
Definition dget : D app := fun s => (Ok s, s).
Definition dput (s' : app) : D unit := fun _ => (Ok tt, s').
Definition dlift {A} (o : outcome A) : D A := fun s => (o, s).

Declare Scope desk_scope.
Delimit Scope desk_scope with desk.
Notation "x <- c ;; k" := (dbind c (fun x => k))
  (at level 100, c at next level, right associativity) : desk_scope.
Notation "c ;; k" := (dbind c (fun _ => k))
  (at level 100, right associativity) : desk_scope.
Local Open Scope desk_scope.

Section client.
Context `{OUT : Outside} `{VU : ViemUnits}.

Definition call_out (c : call) : D (result_of c) := fun s =>
  (Ok (answers c (a_calls s)), with_call c s).

(** [listeners.forEach((l) => l())], in the order they were added. *)
Definition notify (listeners : app -> list nat) : D unit := fun s =>
  (Ok tt, with_notified (rev (listeners s) ++ a_notified s) s).

(** [Set.add] and [Set.delete] *)
Definition set_add (l : nat) (ls : list nat) : list nat := if existsb (Nat.eqb l) ls then ls else ls ++ [l].
Definition set_delete (l : nat) (ls : list nat) : list nat := List.filter (fun x => negb (Nat.eqb l x)) ls.

(** *** The log: log.ts *)

Definition emit : D unit := notify a_logListeners.

Definition log (l : LogLevel) (src msg : string) : D unit :=
  now <- call_out CNow ;;
  s <- dget ;;
  dput (with_entries
          (add_entry (a_entries s) {| ts := now; level := l; source := src; message := msg |}) s) ;;
  emit.

Definition getLogs : D (list LogEntry) := s <- dget ;; dret (a_entries s).

Definition clearLogs : D unit :=
  s <- dget ;;
  dput (with_entries [] s) ;;
  emit.

(** A subscription, and what the function it returns does. *)
Definition subscribeLogs (listener : nat) : D unit :=
  s <- dget ;; dput (with_listeners (a_listeners s) (set_add listener (a_logListeners s)) s).
Definition unsubscribeLogs (listener : nat) : D unit :=
  s <- dget ;; dput (with_listeners (a_listeners s) (set_delete listener (a_logListeners s)) s).

(** *** Settings *)

(** [persist]: write what can be written, then tell the listeners. *)
Definition persist (st : Settings) : D unit :=
  s <- dget ;;
  let ls := a_storage s in
  let ls' := if ls_available ls
             then Storage true (Some (Some (settings_json st))) (ls_wallet_pk ls) else ls in
  dput (with_settings st ls' s) ;;
  notify a_listeners.

Definition getSettings : D Settings := s <- dget ;; dret (a_settings s).

Definition subscribeSettings (listener : nat) : D unit :=
  s <- dget ;; dput (with_listeners (set_add listener (a_listeners s)) (a_logListeners s) s).
Definition unsubscribeSettings (listener : nat) : D unit :=
  s <- dget ;; dput (with_listeners (set_delete listener (a_listeners s)) (a_logListeners s) s).

Record settings_patch := {
  p_theme : option Theme;
  p_activeNetwork : option NetworkId;
  p_apiUrl : option string
}.

Definition updateSettings (p : settings_patch) : D unit :=
  st <- getSettings ;;
  persist {|
    theme := default (theme st) (p_theme p);
    activeNetwork := default (activeNetwork st) (p_activeNetwork p);
    rpcUrls := rpcUrls st;
    apiUrl := default (apiUrl st) (p_apiUrl p)
  |}.

Definition setRpcUrl (network : NetworkId) (url : string) : D unit :=
  st <- getSettings ;;
  persist {|
    theme := theme st;
    activeNetwork := activeNetwork st;
    rpcUrls := spread (rpcUrls st) [(network_key network, JStr url)];
    apiUrl := apiUrl st
  |}.

(** *** Wallet key *)

Definition getWalletKey : D (option string) :=
  s <- dget ;;
  dret (if ls_available (a_storage s) then ls_wallet_pk (a_storage s) else None).

Definition write_wallet_key (pk : option string) : D unit :=
  s <- dget ;;
  let ls := a_storage s in
  let ls' := if ls_available ls then Storage true (ls_settings ls) pk else ls in
  dput (with_settings (a_settings s) ls' s) ;;
  notify a_listeners.

Definition setWalletKey (pk : string) : D unit := write_wallet_key (Some pk).
Definition clearWalletKey : D unit := write_wallet_key None.

(** *** JSON-RPC: rpc.ts *)

Definition rpc_body (id : Z) (method : string) (params : list json) : json :=
  JObj [("jsonrpc", JStr "2.0"); ("id", JInt id); ("method", JStr method); ("params", JArr params)].

Definition rpc_result (json : json) : outcome (option Json.json) :=
  obind (json_get json "error") (fun err =>
    if json_truthy err then
      match err with
      | Some e =>
          obind (json_get e "code") (fun code =>
          obind (json_get e "message") (fun msg =>
            Throw ("RPC " +:+ json_text code +:+ ": " +:+ json_text msg)))
      | None => Throw ""
      end
    else json_get json "result").

Definition httpFetch (url method : string) (body : option json) : D (outcome http_reply) :=
  s <- dget ;;
  call_out (CFetch {| hc_tauri := a_isTauri s; hc_url := url; hc_method := method; hc_body := body |}).

Definition rpcCall (url method : string) (params : list json) : D (option json) :=
  started <- call_out CNow ;;
  log debug "rpc" (method +:+ " -> " +:+ url) ;;
  dtry
    (s <- dget ;;
     let id := a_nextId s in
     dput (with_nextId (id + 1) s) ;;
     got <- httpFetch url "POST" (Some (rpc_body id method params)) ;;
     resp <- dlift got ;;
     if negb (hp_ok resp)
     then dthrow ("HTTP " +:+ dec_str (hp_status resp) +:+ " " +:+ hp_statusText resp)
     else match hp_json resp with
          | None => dthrow "invalid JSON"
          | Some json =>
              result <- dlift (rpc_result json) ;;
              now <- call_out CNow ;;
              log debug "rpc" (method +:+ " ok (" +:+ dec_str (now - started) +:+ "ms)") ;;
              dret result
          end)
    (fun msg =>
       log error "rpc" (method +:+ " failed: " +:+ msg) ;;
       dthrow msg).

Definition hexToNumber (hex : string) : jsnum := parseInt (Some 16) hex.

Definition hexToBigInt (hex : string) : outcome Z := BigInt_of_string hex.

(** The TypeScript cast of an RPC result to a string; what is not one makes
    [BigInt] or [parseInt] convert it. *)
Definition as_hex (r : option json) : string := json_text r.

Record ChainStats := { chainId : jsnum; blockNumber : jsnum; gasPriceWei : Z }.

(** The three calls run in this order; the first failure wins. *)
Definition getChainStats (url : string) : D ChainStats :=
  all <- dall (rpcCall url "eth_chainId" [])
           (dall (rpcCall url "eth_blockNumber" []) (rpcCall url "eth_gasPrice" [])) ;;
  let '(chainIdHex, (blockHex, gasHex)) := all in
  gas <- dlift (hexToBigInt (as_hex gasHex)) ;;
  dret {| chainId := hexToNumber (as_hex chainIdHex);
          blockNumber := hexToNumber (as_hex blockHex);
          gasPriceWei := gas |}.

Definition getBalance (url address : string) : D Z :=
  hex <- rpcCall url "eth_getBalance" [JStr address; JStr "latest"] ;;
  dlift (hexToBigInt (as_hex hex)).

(** *** Bridge client: bridge.ts *)

(** [s.replace(/\/+$/, "")]: the slashes at the end. *)
Fixpoint strip_slashes (s : string) : string :=
  match s with
  | EmptyString => EmptyString
  | String c s' =>
      if all_str (Ascii.eqb "/") s then EmptyString else String c (strip_slashes s')
  end.

Definition baseUrl : D string := st <- getSettings ;; dret (strip_slashes (apiUrl st)).

(** [if (body.error) detail = body.error] *)
Definition error_detail (status : Z) (body : option json) : string :=
  let http := "HTTP " +:+ dec_str status in
  match body with
  | Some j =>
      match json_get j "error" with
      | Ok err => if json_truthy err then json_text err else http
      | Throw _ => http
      end
  | None => http
  end.

Definition api (path method : string) (body : option json) : D json :=
  base <- baseUrl ;;
  let url := base +:+ path in
  log debug "bridge" (method +:+ " " +:+ path) ;;
  got <- httpFetch url method body ;;
  resp <- dlift got ;;
  if negb (hp_ok resp) then
    let detail := error_detail (hp_status resp) (hp_json resp) in
    log error "bridge" (path +:+ " failed: " +:+ detail) ;;
    dthrow detail
  else match hp_json resp with Some j => dret j | None => dthrow "invalid JSON" end.

Definition bridge_status : D json := api "/v1/bridge/status" "GET" None.

Definition createDeposit (snowsideAddress : string) (network : NetworkId) : D json :=
  api "/v1/bridge/deposit" "POST"
    (Some (JObj [("snowsideAddress", JStr snowsideAddress); ("network", JStr (network_key network))])).

Definition getDeposit (id : string) : D json := api ("/v1/bridge/deposit/" +:+ id) "GET" None.

Definition listDeposits (address : string) : D json :=
  api ("/v1/bridge/deposits/" +:+ address) "GET" None.

(** [JSON.stringify] leaves an undefined property out. *)
Definition createWithdrawal (snowsideAddress ecashAddress amountEcx : string) (network : NetworkId)
    (burnTxHash : option string) : D json :=
  api "/v1/bridge/withdraw" "POST"
    (Some (JObj ([("snowsideAddress", JStr snowsideAddress); ("ecashAddress", JStr ecashAddress);
                  ("amountEcx", JStr amountEcx); ("network", JStr (network_key network))]
                 ++ match burnTxHash with Some h => [("burnTxHash", JStr h)] | None => [] end))).

Definition listWithdrawals (address : string) : D json :=
  api ("/v1/bridge/withdrawals/" +:+ address) "GET" None.

(** *** Wallet: wallet.ts *)

Definition normalizePk (pk : string) : string :=
  let trimmed := trim pk in
  if starts_with "0x" trimmed then trimmed else "0x" +:+ trimmed.

Definition hasWallet : D bool :=
  pk <- getWalletKey ;; dret (match pk with Some _ => true | None => false end).

Definition walletAddress : D (option string) :=
  pk <- getWalletKey ;;
  match pk with
  | None => dret None
  | Some k =>
      if negb (str_truthy k) then dret None
      else match account_address (normalizePk k) with Ok a => dret (Some a) | Throw _ => dret None end
  end.

Definition createWallet : D string :=
  pk <- call_out CGenerateKey ;;
  setWalletKey pk ;;
  log info "wallet" "New wallet created" ;;
  dlift (account_address pk).

Definition importWallet (pk : string) : D string :=
  let normalized := normalizePk pk in
  account <- dlift (account_address normalized) ;;
  setWalletKey normalized ;;
  log info "wallet" "Wallet imported" ;;
  dret account.

Definition deleteWallet : D unit :=
  clearWalletKey ;; log info "wallet" "Wallet removed from this device".

Definition revealKey : D (option string) := getWalletKey.

(** [settings.rpcUrls[net.id] || net.rpcUrl]; a stored URL that is not a
    string is used as its text. *)
Definition rpc_url (st : Settings) (n : NetworkId) : string :=
  let u := rec_get (rpcUrls st) (network_key n) in
  if json_truthy u then json_text u else nd_rpcUrl (NETWORKS n).

Definition chainDef (chainId : Z) (rpcUrl name : string) : Chain := {|
  ch_id := chainId; ch_name := name; ch_currency := (TOKEN_SYMBOL, TOKEN_SYMBOL, TOKEN_DECIMALS);
  ch_rpcUrls := [rpcUrl]
|}.

(** The transport of a client: its requests are calls of [rpcCall]. *)
Definition transportFor (rpcUrl method : string) (params : option (list json)) : D (option json) :=
  rpcCall rpcUrl method (default [] params).

(** An action of a client with this transport; a request that fails is for
    viem to handle. *)
Fixpoint act {A} (rpcUrl : string) (c : action A) : D A :=
  match c with
  | Done r => dlift r
  | Requests method params k => fun s =>
      let (r, s') := transportFor rpcUrl method params s in act rpcUrl (k r) s'
  end.

(** The chain id used for signing is the one the endpoint reports. *)
Definition sendEcx (to amountEcx : string) : D string :=
  pk <- getWalletKey ;;
  match pk with
  | None => dthrow "No wallet — create or import one first"
  | Some k =>
      if negb (str_truthy k) then dthrow "No wallet — create or import one first"
      else if negb (isAddress to) then dthrow ("Invalid recipient address: " +:+ to)
      else
        settings <- getSettings ;;
        let net := activeNetwork settings in
        let rpcUrl := rpc_url settings net in
        account <- dlift (account_address (normalizePk k)) ;;
        chainId <- act rpcUrl getChainId ;;
        let chain := chainDef chainId rpcUrl (nd_label (NETWORKS net)) in
        value <- dlift (parseEther amountEcx) ;;
        prices <- dall (act rpcUrl getGasPrice) (act rpcUrl (estimateGas account to value)) ;;
        let (gasPrice, gas) := prices : Z * Z in
        hash <- act rpcUrl (sendTransaction account chain to value gas gasPrice) ;;
        log info "wallet" ("Sent " +:+ amountEcx +:+ " " +:+ TOKEN_SYMBOL +:+ " -> " +:+ to
                           +:+ " (tx " +:+ hash +:+ ")") ;;
        dret hash
  end.

Definition waitForReceipt (hash : string) : D unit :=
  settings <- getSettings ;;
  act (rpc_url settings (activeNetwork settings)) (waitForTransactionReceipt hash 60000).

(** *** Formatting: format.ts *)

Fixpoint index_of_char (c : ascii) (s : string) : option nat :=
  match s with
  | EmptyString => None
  | String d s' => if Ascii.eqb c d then Some O else option_map S (index_of_char c s')
  end.

(** [s.replace(/\.?0+$/, "")]: trailing zeros with the dot before them. *)
Fixpoint strip_zero_tail (s : string) : string :=
  match s with
  | EmptyString => EmptyString
  | String c s' =>
      let zeros t := str_truthy t && all_str (Ascii.eqb "0") t in
      if zeros s || (Ascii.eqb c "." && zeros s') then EmptyString
      else String c (strip_zero_tail s')
  end.

Definition fmtEcx (wei : Z) (maxDecimals : nat) : string :=
  let s := formatEther wei in
  match index_of_char "." s with
  | None => s
  | Some dot =>
      let trimmed := strip_zero_tail (take_str (dot + maxDecimals + 1) s) in
      if String.eqb trimmed "" then "0" else trimmed
  end.

(** [gwei < 10] is 10^10 wei; [toFixed] and [toLocaleString] are the
    platform's. *)
Definition fmtGwei `{Locale} (wei : Z) : string := gwei_fixed wei (if wei <? 10 ^ 10 then 2 else 0).

Definition fmtTime `{Locale} (ts : option Z) : string :=
  match ts with Some t => if t =? 0 then "—" else locale_date t | None => "—" end.

Definition shortAddr (addr : string) (chars : nat) : string :=
  if (String.length addr <=? chars * 2 + 2)%nat then addr
  else take_str (chars + 2) addr +:+ "…" +:+ drop_str (String.length addr - chars) addr.

(** [fmtAgo] at the time [now]; an integer number of milliseconds. *)
Definition fmtAgo (now : Z) (at_ : option Z) : string :=
  match at_ with
  | None => "never"
  | Some t =>
      if t =? 0 then "never"
      else
        let s := Z.max 0 ((now - t) / 1000) in
        if s <? 60 then dec_str s +:+ "s ago"
        else if s <? 3600 then dec_str (s / 60) +:+ "m ago"
        else if s <? 86400 then dec_str (s / 3600) +:+ "h ago"
        else dec_str (s / 86400) +:+ "d ago"
  end.
End client.

(** ** hooks.ts: the poller *)

(** One mounted hook: the shared [running] flag, the generation of the
    current effect (a change of [deps] starts a new one), whether it was
    unmounted, and the runs of [fn] started, each with its generation. *)
Record poller := Poller {
  po_running : bool;
  po_generation : nat;
  po_stopped : bool;
  po_started : list nat;
  po_active : list nat
}.

(** [tick] of generation [g], up to the [await]. *)
Definition tick (g : nat) (p : poller) : poller :=
  if po_running p || po_stopped p || negb (Nat.eqb g (po_generation p)) then p
  else Poller true (po_generation p) (po_stopped p) (g :: po_started p) (g :: po_active p).

(** The [finally] of a run. *)
Definition finish (g : nat) (p : poller) : poller :=
  Poller false (po_generation p) (po_stopped p) (po_started p) (List.remove Nat.eq_dec g (po_active p)).

(** New [deps]: the old effect is stopped, the new one ticks at once. *)
Definition change_deps (p : poller) : poller :=
  let g := S (po_generation p) in
  tick g (Poller (po_running p) g (po_stopped p) (po_started p) (po_active p)).

Definition unmount (p : poller) : poller :=
  Poller (po_running p) (po_generation p) true (po_started p) (po_active p).

Inductive poller_step : poller -> poller -> Prop :=
| poll_interval p : poller_step p (tick (po_generation p) p)
| poll_done p g : In g (po_active p) -> poller_step p (finish g p)
| poll_deps p : po_stopped p = false -> poller_step p (change_deps p)
| poll_unmount p : poller_step p (unmount p).

(** Mounting runs [fn] at once. *)
Definition mount : poller := tick 0 (Poller false 0 false [] []).

Inductive poller_reachable : poller -> Prop :=
| poller_mounted : poller_reachable mount
| poller_stepped p p' : poller_reachable p -> poller_step p p' -> poller_reachable p'.
