(* ===== verification/DesktopUi.v ===== *)
(** * Desktop screens: packages/desktop/src/tabs, components, App.tsx

    Each screen is its React state as a record, its handlers as effects that
    end in a new state, and its view: what the screen shows and which buttons
    are enabled. Class names and layout are left out; [toLocaleString] and
    the clock texts are a parameter. *)

From Stdlib Require Import ZArith Lia Ascii String List Bool.
From stdpp Require Import base list strings numbers.
From S2P Require Import Prelude JsNumber Effects Json Withdraw Desktop.
Local Open Scope Z_scope.
Local Open Scope desk_scope.

(** ** components/ui.tsx *)

Inductive BtnVariant := primary | ghost | danger | cta.

Inductive widget :=
| Text (s : string)
| Card (title : option string) (children : list widget)
| Stat (label value : string)
| Field (label : string) (child : list widget)
| Input (value placeholder : string) (readOnly : bool)
| Button (label : string) (variant : BtnVariant) (disabled : bool)
| Link (href text : string)
| QRCodeSVG (value : string) (size : Z)
| Row (k v : string)
| Titled (title s : string)
| CopyButton (text : string)
| StatusDot (color : string)
| SubTabs (tabs : list (string * string)) (active : string)
| Screen (name : string).

(** components/Qr.tsx: the code of a value, 160 pixels wide when no size is
    given. *)
Definition Qr (value : string) (size : option Z) : widget := QRCodeSVG value (default 160 size).

(** [const color = ok ? "bg-ok" : warn ? "bg-warn" : "bg-err"] *)
Definition dot (ok warn : bool) : widget :=
  StatusDot (if ok then "bg-ok" else if warn then "bg-warn" else "bg-err").

(** [{cond && element}] *)
Definition when (b : bool) (w : widget) : list widget := if b then [w] else [].

(** [CopyButton]: the text of the button after a click that succeeded. *)
Definition copy_label (copied : bool) : string := if copied then "Copied" else "Copy".

(** ** Amount fields *)

(** The digits-and-optional-fraction test of an amount field: the digits and
    the number of them after the dot. *)
Definition amount_digits (s : string) : option (list Z * nat) :=
  match span_digits s with
  | ([], _) => None
  | (ip, EmptyString) => Some (ip, O)
  | (ip, String c r) =>
      if Ascii.eqb c "." then
        match span_digits r with
        | ([], _) => None
        | (fp, EmptyString) => Some ((ip ++ fp)%list, length fp)
        | _ => None
        end
      else None
  end.

(** ... and [Number(amount) > 0]: more than half the least positive double. *)
Definition amountValid (amount : string) : bool :=
  match amount_digits amount with
  | Some (ds, k) => 10 ^ Z.of_nat k <? be_val 10 ds * 2 ^ 1075
  | None => false
  end.

(** ** JSON rows as the screens read them *)

Definition row_field (r : json) (k : string) : option json :=
  match json_get r k with Ok v => v | Throw _ => None end.

Definition row_text (r : json) (k : string) : string :=
  match row_field r k with Some (JScalar (FStr s)) => s | _ => "" end.

Definition row_number (r : json) (k : string) : option Z :=
  match row_field r k with Some (JScalar (FInt z)) => Some z | _ => None end.

(** [x !== null] of a row's field. *)
Definition not_null (j : option json) : bool :=
  match j with Some (JScalar FNull) => false | _ => true end.

(** [destructuring { id }] of an API reply. *)
Definition reply_id (j : json) : outcome string :=
  obind (json_get j "id") (fun v =>
    match v with Some (JScalar (FStr s)) => Ok s | _ => Ok (json_text v) end).

(** ** tabs/BridgeTab.tsx *)

Definition BURN_ADDRESS : string := "0x0000000000000000000000000000000000000000".

Definition statusColor (status : string) : string :=
  if existsb (String.eqb status) ["minted"; "completed"] then "ok"
  else if existsb (String.eqb status) ["pending"; "confirmed"; "processing"] then "warn"
  else "err".

Definition status_dot (status : string) : widget :=
  dot (String.eqb (statusColor status) "ok") (String.eqb (statusColor status) "warn").

Definition error_box (e : option string) : list widget :=
  match e with Some m => when (str_truthy m) (Text m) | None => [] end.

Record DepositState := {
  dp_snowsideAddr : string;
  dp_network : NetworkId;
  dp_deposit : option json;
  dp_busy : bool;
  dp_error : option string
}.

Record WithdrawState := {
  wd_snowsideAddr : string;
  wd_ecashAddr : string;
  wd_amount : string;
  wd_burnTx : string;
  wd_busy : option string;
  wd_error : option string;
  wd_done : option string
}.

Record HistoryState := {
  hs_deposits : list json;
  hs_withdrawals : list json;
  hs_error : option string
}.

Section bridge_tab.
Context `{OUT : Outside} `{VU : ViemUnits} `{LOC : Locale}.

(** *** Deposit *)

Definition deposit_init (address : option string) (settings : Settings) : DepositState := {|
  dp_snowsideAddr := default "" address;
  dp_network := activeNetwork settings;
  dp_deposit := None;
  dp_busy := false;
  dp_error := None
|}.

Definition set_deposit (st : DepositState) (d : json) : DepositState := {|
  dp_snowsideAddr := dp_snowsideAddr st; dp_network := dp_network st; dp_deposit := Some d;
  dp_busy := dp_busy st; dp_error := dp_error st |}.

(** The interval that polls a deposit until it is minted. *)
Definition deposit_poll (st : DepositState) : D DepositState :=
  match dp_deposit st with
  | None => dret st
  | Some deposit =>
      if String.eqb (row_text deposit "status") "minted" then dret st
      else dtry (d <- getDeposit (row_text deposit "id") ;; dret (set_deposit st d))
                (fun _ => dret st)
  end.

(** The state after the button's handler; while it runs [busy] is set. *)
Definition deposit_click (st : DepositState) : D DepositState :=
  let ended deposit err := {|
    dp_snowsideAddr := dp_snowsideAddr st; dp_network := dp_network st;
    dp_deposit := deposit; dp_busy := false; dp_error := err |} in
  dtry
    (reply <- createDeposit (dp_snowsideAddr st) (dp_network st) ;;
     id <- dlift (reply_id reply) ;;
     d <- getDeposit id ;;
     dret (ended (Some d) None))
    (fun msg => dret (ended (dp_deposit st) (Some msg))).

(** [(deposit.amount_sats / 100).toLocaleString()] *)
Definition amount_seen (d : json) : string :=
  if not_null (row_field d "amount_sats")
  then locale_ratio (default 0 (row_number d "amount_sats")) 100 +:+ " ECX seen"
  else "no funds detected yet".

Definition deposit_card (d : json) : widget :=
  let ecash := row_text d "ecash_address" in
  let mint := row_text d "mint_tx_hash" in
  Card (Some ("Deposit " +:+ shortAddr (row_text d "id") 4))
    ((if negb (str_truthy ecash)
      then [dot false true; Text "Waiting for the federation to assign a deposit address…"]
      else [Qr ecash None; Text ecash; CopyButton ecash])
     ++ [status_dot (row_text d "status"); Text (row_text d "status"); Text (amount_seen d)]
     ++ when (str_truthy mint) (Text ("Mint tx: " +:+ mint))).

Definition DepositPane (st : DepositState) : list widget :=
  let addrValid := isAddress (dp_snowsideAddr st) in
  Card (Some "Deposit ECX from the mainchain")
    ([Field "Your Snowside Address (receives minted ECX)" [Input (dp_snowsideAddr st) "0x…" false]]
     ++ when (str_truthy (dp_snowsideAddr st) && negb addrValid) (Text "Invalid address")
     ++ [Field "Mainchain Network"
           (map (fun n => Button (nd_label (NETWORKS n))
              (if bool_decide (dp_network st = n) then primary else ghost) false) NETWORK_ORDER);
         Text ("You will receive a unique deposit address on "
               +:+ nd_esploraLabel (NETWORKS (dp_network st))
               +:+ ". Send ECX there and the federation mints the same amount on Snowside.")]
     ++ error_box (dp_error st)
     ++ [Button (if dp_busy st then "Creating…" else "Create Deposit Address") primary
           (negb addrValid || dp_busy st)])
  :: match dp_deposit st with Some d => [deposit_card d] | None => [] end.

(** *** Withdraw *)

Definition withdraw_init (address : option string) : WithdrawState := {|
  wd_snowsideAddr := default "" address; wd_ecashAddr := ""; wd_amount := ""; wd_burnTx := "";
  wd_busy := None; wd_error := None; wd_done := None |}.

Definition with_outcome (st : WithdrawState) (burnTx : string) (err done : option string)
  : WithdrawState := {|
  wd_snowsideAddr := wd_snowsideAddr st; wd_ecashAddr := wd_ecashAddr st;
  wd_amount := wd_amount st; wd_burnTx := burnTx; wd_busy := None; wd_error := err;
  wd_done := done |}.

(** [doBurn]: the hash, and the state it leaves. The receipt is waited for in
    the background and its failure ignored. *)
Definition doBurn (address : option string) (st : WithdrawState)
  : D (option string * WithdrawState) :=
  match address with
  | None =>
      dret (None, with_outcome st (wd_burnTx st)
        (Some "No wallet in this app — burn from your own wallet and paste the tx hash below.")
        (wd_done st))
  | Some _ =>
      dtry
        (hash <- sendEcx BURN_ADDRESS (wd_amount st) ;;
         dtry (waitForReceipt hash) (fun _ => dret tt) ;;
         dret (Some hash, with_outcome st hash None (wd_done st)))
        (fun msg => dret (None, with_outcome st (wd_burnTx st) (Some msg) (wd_done st)))
  end.

(** The submission: on success the form is cleared, on failure it is kept. *)
Definition submit_withdrawal (network : NetworkId) (hash : string) (st : WithdrawState)
  : D WithdrawState :=
  dtry
    (reply <- createWithdrawal (wd_snowsideAddr st) (wd_ecashAddr st) (wd_amount st) network
                (Some hash) ;;
     id <- dlift (reply_id reply) ;;
     dret {| wd_snowsideAddr := wd_snowsideAddr st; wd_ecashAddr := ""; wd_amount := "";
             wd_burnTx := ""; wd_busy := None; wd_error := wd_error st; wd_done := Some id |})
    (fun msg => dret (with_outcome st (wd_burnTx st) (Some msg) (wd_done st))).

Definition withdraw_click (address : option string) (settings : Settings) (st : WithdrawState)
  : D WithdrawState :=
  let st0 := with_outcome st (wd_burnTx st) None None in
  let hash := trim (wd_burnTx st) in
  if negb (str_truthy hash) then
    burned <- doBurn address st0 ;;
    match burned with
    | (Some h, st1) =>
        if str_truthy h then submit_withdrawal (activeNetwork settings) h st1 else dret st1
    | (None, st1) => dret st1
    end
  else submit_withdrawal (activeNetwork settings) hash st0.

Definition withdraw_enabled (st : WithdrawState) : bool :=
  isAddress (wd_snowsideAddr st) && str_truthy (wd_ecashAddr st) && amountValid (wd_amount st)
  && bool_decide (wd_busy st = None).

Definition burn_enabled (address : option string) (st : WithdrawState) : bool :=
  amountValid (wd_amount st) && bool_decide (address <> None) && bool_decide (wd_busy st = None).

Definition is_busy (st : WithdrawState) (what : string) : bool := bool_decide (wd_busy st = Some what).

Definition WithdrawPane (address : option string) (settings : Settings) (st : WithdrawState)
  : list widget :=
  [Card (Some "Withdraw ECX to the mainchain")
     ([Field "Your Snowside Address (source of funds)" [Input (wd_snowsideAddr st) "0x…" false];
       Field "Destination ECX Address (mainchain)" [Input (wd_ecashAddr st) "ecash:qz…" false];
       Field ("Amount (" +:+ TOKEN_SYMBOL +:+ ")") [Input (wd_amount st) "0.0" false];
       Field "Burn Transaction Hash"
         [Input (wd_burnTx st) "0x…" false;
          Button (if is_busy st "burn" then "Burning…" else "Burn " +:+ TOKEN_SYMBOL) cta
            (negb (burn_enabled address st))];
       Text ("Click Burn " +:+ TOKEN_SYMBOL +:+ " to send your " +:+ TOKEN_SYMBOL
             +:+ " to the zero address on Snowside " +:+ nd_label (NETWORKS (activeNetwork settings)) +:+ ".");
       Text "Click Initiate Withdrawal — the federation sends ECX to your destination."]
      ++ error_box (wd_error st)
      ++ match wd_done st with
         | Some id => when (str_truthy id)
             (Text ("Withdrawal submitted (id " +:+ id +:+ "). Track it in the History tab."))
         | None => []
         end
      ++ [Button (if is_busy st "submit" then "Submitting…" else "Initiate Withdrawal") primary
            (negb (withdraw_enabled st))])].

(** *** History *)

Definition as_rows (j : json) : list json := match j with JArr l => l | _ => [] end.

Definition history_poll (address : option string) (st : HistoryState) : D HistoryState :=
  match address with
  | None => dret st
  | Some a =>
      dtry
        (both <- dall (listDeposits a) (listWithdrawals a) ;;
         dret {| hs_deposits := as_rows (fst both); hs_withdrawals := as_rows (snd both);
                 hs_error := None |})
        (fun msg => dret {| hs_deposits := hs_deposits st; hs_withdrawals := hs_withdrawals st;
                            hs_error := Some msg |})
  end.

(** [Number(v)] of a JSON value that is a number or a text. *)
Definition number_of (v : option json) : option parsed :=
  match v with
  | Some (JScalar (FInt z)) => Some (PFrac (z <? 0) (Z.abs z) 1)
  | Some (JScalar (FFrac r)) => Number_parse r
  | Some (JScalar (FStr s)) => Number_parse s
  | _ => None
  end.

(** [fmtEcx(BigInt(Math.floor(Number(w.amount_ecx) * 1e18)))]: [BigInt] of a
    number that is not finite is a RangeError. *)
Definition withdrawal_amount (w : json) : outcome string :=
  let v := row_field w "amount_ecx" in
  if json_truthy v then
    obind (BigInt_of_num (floor_scaled (number_of v) (10 ^ 18))) (fun wei =>
      Ok (fmtEcx wei 4 +:+ " ECX"))
  else Ok "—".

Definition deposit_amount (d : json) : string :=
  if not_null (row_field d "amount_sats")
  then locale_ratio (default 0 (row_number d "amount_sats")) 100 +:+ " ECX" else "—".

Definition deposit_row_view (now : Z) (d : json) : list widget :=
  [status_dot (row_text d "status"); Text (row_text d "status"); Text (row_text d "network");
   Text (deposit_amount d); Titled (fmtTime (row_number d "created_at")) (fmtAgo now (row_number d "created_at"))].

Definition withdrawal_row_view (now : Z) (w : json) : outcome (list widget) :=
  obind (withdrawal_amount w) (fun amount =>
    Ok [status_dot (row_text w "status"); Text (row_text w "status"); Text (row_text w "network");
        Text amount; Titled (fmtTime (row_number w "created_at")) (fmtAgo now (row_number w "created_at"))]).

(** Rendering may throw: React then unmounts the application. *)
Definition HistoryPane (now : Z) (address : option string) (st : HistoryState)
  : outcome (list widget) :=
  match address with
  | None =>
      Ok [Card None [Text "History is tied to your wallet address. Create or import a wallet first."]]
  | Some _ =>
      obind (map_outcome (withdrawal_row_view now) (hs_withdrawals st)) (fun rows =>
      Ok (error_box (hs_error st) ++
          [Card (Some ("Deposits (" +:+ dec_str (Z.of_nat (length (hs_deposits st))) +:+ ")"))
             (match hs_deposits st with
              | [] => [Text "No deposits yet."]
              | ds => concat (map (deposit_row_view now) ds)
              end);
           Card (Some ("Withdrawals (" +:+ dec_str (Z.of_nat (length (hs_withdrawals st))) +:+ ")"))
             (match hs_withdrawals st with
              | [] => [Text "No withdrawals yet."]
              | _ => concat rows
              end)]))
  end.

Definition BridgeTab (now : Z) (sub : string) (address : option string) (settings : Settings)
    (dp : DepositState) (wd : WithdrawState) (hs : HistoryState) : outcome (list widget) :=
  obind (if String.eqb sub "deposit" then Ok (DepositPane dp)
         else if String.eqb sub "withdraw" then Ok (WithdrawPane address settings wd)
         else if String.eqb sub "history" then HistoryPane now address hs
         else Ok []) (fun pane =>
  Ok (SubTabs [("deposit", "Deposit (ECX -> Snowside)"); ("withdraw", "Withdraw (Snowside -> ECX)");
               ("history", "History")] sub :: pane)).
End bridge_tab.

(** ** tabs/WalletTab.tsx *)

Record SendState := {
  sn_to : string;
  sn_amount : string;
  sn_busy : bool;
  sn_txHash : option string;
  sn_error : option string
}.

Section wallet_tab.
Context `{OUT : Outside} `{VU : ViemUnits} `{LOC : Locale}.

(** *** Setup: the address shown afterwards, or the error. *)

Definition setup_create : D (option string) := createWallet ;; walletAddress.

Definition setup_import (importValue : string) : D (option string * option string) :=
  dtry (importWallet importValue ;; a <- walletAddress ;; dret (a, None))
       (fun _ => dret (None, Some "Invalid private key")).

Definition WalletSetup (importValue : string) (err : option string) : list widget :=
  [Card (Some "Create New Wallet")
     [Text "Generates a fresh private key on this device and shows your receive address.";
      Button "Create Wallet" primary false];
   Card (Some "Import Wallet")
     ([Field "Private Key (hex)" [Input importValue "0x…" false]]
      ++ error_box err
      ++ [Button "Import" ghost (negb (str_truthy (trim importValue)))]);
   Text "Keys are stored locally on this device (plain localStorage in this MVP build — OS keychain storage is a planned hardening step). Back up your key from Settings."].

(** *** Sending *)

Definition send_click (st : SendState) : D SendState :=
  dtry
    (hash <- sendEcx (sn_to st) (sn_amount st) ;;
     dtry (waitForReceipt hash) (fun _ => dret tt) ;;
     dret {| sn_to := ""; sn_amount := ""; sn_busy := false; sn_txHash := Some hash; sn_error := None |})
    (fun msg => dret {| sn_to := sn_to st; sn_amount := sn_amount st; sn_busy := false;
                        sn_txHash := None; sn_error := Some msg |}).

Definition SendCard (address : string) (balance : option Z) (explorerUrl : string) (st : SendState)
  : widget :=
  let toValid := isAddress (sn_to st) in
  let valid := amountValid (sn_amount st) in
  Card (Some "Send")
    ([Field "From (your address)" [Input address "" true];
      Field "To" [Input (sn_to st) "0x…" false]]
     ++ when (str_truthy (sn_to st) && negb toValid) (Text "Invalid address")
     ++ [Field ("Amount (" +:+ TOKEN_SYMBOL +:+ ")") [Input (sn_amount st) "0.0" false]]
     ++ when (str_truthy (sn_amount st) && negb valid) (Text "Invalid amount")
     ++ match balance with
        | Some b => when valid (Text ("Available: " +:+ fmtEcx b 4 +:+ " " +:+ TOKEN_SYMBOL))
        | None => []
        end
     ++ error_box (sn_error st)
     ++ match sn_txHash st with
        | Some h => if str_truthy h
                    then [Text "Transaction submitted."; Link (explorerUrl +:+ "/tx/" +:+ h) h] else []
        | None => []
        end
     ++ [Button (if sn_busy st then "Sending…" else "Send") primary
           (negb toValid || negb valid || sn_busy st)]).

(** *** Home *)

Definition wallet_poll (rpcUrl address : string) : D Z := getBalance rpcUrl address.

Definition WalletHome (address explorerUrl : string) (balance : option Z) (sub : string)
    (st : SendState) : list widget :=
  [Card None
     [Text "Balance";
      Text ((match balance with Some b => fmtEcx b 4 | None => "…" end) +:+ " " +:+ TOKEN_SYMBOL);
      Text (shortAddr address 8); CopyButton address; Button "Use Different Wallet" danger false];
   SubTabs [("receive", "Receive"); ("send", "Send")] sub;
   (if String.eqb sub "receive"
    then Card (Some "Receive") [Qr address None; Text address; CopyButton address]
    else SendCard address balance explorerUrl st);
   Text "Danger zone lives in Settings (reveal key, delete wallet)."].

(** [WalletTab]: setup until there is an address. *)
Definition WalletTab (settings : Settings) (address : option string) (balance : option Z)
    (sub importValue : string) (err : option string) (st : SendState) : list widget :=
  match address with
  | Some a =>
      if str_truthy a
      then WalletHome a (nd_explorerUrl (NETWORKS (activeNetwork settings))) balance sub st
      else WalletSetup importValue err
  | None => WalletSetup importValue err
  end.
End wallet_tab.

(** ** tabs/OverviewTab.tsx *)

Record OverviewState := {
  ov_stats : option ChainStats;
  ov_statsError : option string;
  ov_balance : option Z;
  ov_bridge : option json
}.

(** A Number as a text, grouped; an integer in these screens. *)
Definition num_text `{Locale} (n : jsnum) : string :=
  match n with
  | Fin z => locale_ratio z 1
  | NaN => "NaN"
  | PosInf => "∞"
  | NegInf => "-∞"
  end.

(** [`${id} (0x${id.toString(16)})`] *)
Definition chain_id_text (n : jsnum) : string :=
  match n with
  | Fin z => dec_str z +:+ " (0x" +:+ (if z <? 0 then "-" else "") +:+ toString16 (Z.abs z) +:+ ")"
  | NaN => "NaN (0xNaN)"
  | PosInf => "Infinity (0xInfinity)"
  | NegInf => "-Infinity (0x-Infinity)"
  end.

Section overview_tab.
Context `{OUT : Outside} `{VU : ViemUnits} `{LOC : Locale}.

(** One run of the poller: each of the three reads fails on its own. *)
Definition overview_poll (rpcUrl : string) (address : option string) (st : OverviewState)
  : D OverviewState :=
  stats <- dtry (c <- getChainStats rpcUrl ;; dret (Some c, None))
                (fun msg => dret (None, Some msg)) ;;
  balance <- match address with
             | Some a =>
                 if str_truthy a
                 then dtry (b <- getBalance rpcUrl a ;; dret (Some b)) (fun _ => dret (ov_balance st))
                 else dret (ov_balance st)
             | None => dret (ov_balance st)
             end ;;
  bridge <- dtry (b <- bridge_status ;; dret (Some b)) (fun _ => dret None) ;;
  dret {| ov_stats := fst stats; ov_statsError := snd stats; ov_balance := balance;
          ov_bridge := bridge |}.

(** [bridge?.federation_online ?? false], as a condition. *)
Definition bridge_online (b : option json) : bool :=
  match b with Some j => json_truthy (row_field j "federation_online") | None => false end.

Definition stat_of (label : string) (v : option string) : widget := Stat label (default "—" v).

Definition is_some {A} (o : option A) : bool := match o with Some _ => true | None => false end.

Definition OverviewTab (settings : Settings) (address : option string) (st : OverviewState)
  : list widget :=
  let net := NETWORKS (activeNetwork settings) in
  let rpcUrl := rpc_url settings (activeNetwork settings) in
  [Card (Some "Wallet")
     (match address with
      | Some a =>
          if str_truthy a then
            [Text (shortAddr a 10);
             Text ((match ov_balance st with Some b => fmtEcx b 4 | None => "…" end) +:+ " " +:+ TOKEN_SYMBOL);
             Text (nd_label net); dot (is_some (ov_stats st)) false;
             Text (if is_some (ov_stats st) then "connected" else "unreachable")]
          else [Text "No wallet yet. Open the Wallet tab to create or import one."]
      | None => [Text "No wallet yet. Open the Wallet tab to create or import one."]
      end);
   Card (Some "Bridge Federation")
     [dot (bridge_online (ov_bridge st)) (is_some (ov_bridge st));
      Text (match ov_bridge st with
            | None => "API unreachable"
            | Some _ => if bridge_online (ov_bridge st) then "Online" else "Offline"
            end);
      Text "Custodial MVP bridge. Deposits are credited after federation confirmation; withdrawals are processed by the federation."];
   stat_of "Latest Block" ((fun c => num_text (blockNumber c)) <$> ov_stats st);
   stat_of "Gas Price" ((fun c => fmtGwei (gasPriceWei c) +:+ " gwei") <$> ov_stats st);
   stat_of "Chain ID" ((fun c => chain_id_text (chainId c)) <$> ov_stats st);
   Stat "Network" (nd_label net)]
  ++ match ov_statsError st with
     | Some m => when (str_truthy m)
         (Text ("RPC unreachable at " +:+ rpcUrl +:+ " — " +:+ m +:+ ". Check the endpoint in Settings."))
     | None => []
     end
  ++ [Card (Some "Connection")
        [Text ("RPC: " +:+ rpcUrl); Text ("Bridge API: " +:+ apiUrl settings);
         Link (nd_explorerUrl net) (nd_explorerUrl net);
         Link "https://docs.snowside.network" "docs.snowside.network"]].
End overview_tab.

(** ** tabs/NetworkTab.tsx *)

Record Probe := { pb_stats : option ChainStats; pb_error : bool }.

Section network_tab.
Context `{OUT : Outside} `{VU : ViemUnits} `{LOC : Locale}.

Definition probe (settings : Settings) (id : NetworkId) : D (NetworkId * Probe) :=
  dtry (c <- getChainStats (rpc_url settings id) ;;
        dret (id, {| pb_stats := Some c; pb_error := false |}))
       (fun _ => dret (id, {| pb_stats := None; pb_error := true |})).

Fixpoint probe_all (settings : Settings) (l : list NetworkId) : D (list (NetworkId * Probe)) :=
  match l with
  | [] => dret []
  | id :: l' =>
      p <- probe settings id ;;
      rest <- probe_all settings l' ;;
      dret (p :: rest)
  end.

Definition network_poll (settings : Settings) : D (list (NetworkId * Probe)) :=
  probe_all settings NETWORK_ORDER.

Definition probe_of (probes : list (NetworkId * Probe)) (id : NetworkId) : option Probe :=
  snd <$> List.find (fun p => bool_decide (fst p = id)) probes.

(** The click on a network's card. *)
Definition select_network (id : NetworkId) : D unit :=
  updateSettings {| p_theme := None; p_activeNetwork := Some id; p_apiUrl := None |}.

Definition network_card (settings : Settings) (probes : list (NetworkId * Probe)) (id : NetworkId)
  : widget :=
  let net := NETWORKS id in
  let p := probe_of probes id in
  let stats := p ≫= pb_stats in
  Card None
    ([Text (nd_label net); dot (is_some stats) (negb (is_some p));
      Text (match p with None => "probing…" | Some _ => if is_some stats then "online" else "offline" end);
      Row "Block" (default "—" ((fun c => num_text (blockNumber c)) <$> stats));
      Row "Chain ID" (default ("hint " +:+ dec_str (nd_chainIdHint net))
              ((fun c => chain_id_text (chainId c)) <$> stats));
      Row "Gas" (default "—" ((fun c => fmtGwei (gasPriceWei c) +:+ " gwei") <$> stats));
      Text (rpc_url settings id);
      Link (nd_explorerUrl net) (nd_explorerUrl net)]
     ++ when (bool_decide (activeNetwork settings = id)) (Text "Active network")).

Definition NetworkTab (settings : Settings) (probes : list (NetworkId * Probe)) : list widget :=
  map (network_card settings probes) NETWORK_ORDER.
End network_tab.

(** ** tabs/SettingsTab.tsx *)

Record SettingsState := { se_revealed : option string; se_confirmDelete : bool }.

Section settings_tab.
Context `{OUT : Outside} `{VU : ViemUnits}.

Definition choose_theme (t : Theme) : D unit :=
  updateSettings {| p_theme := Some t; p_activeNetwork := None; p_apiUrl := None |}.

Definition edit_api_url (url : string) : D unit :=
  updateSettings {| p_theme := None; p_activeNetwork := None; p_apiUrl := Some url |}.

Definition reveal_click (st : SettingsState) : D SettingsState :=
  k <- revealKey ;; dret {| se_revealed := k; se_confirmDelete := se_confirmDelete st |}.

Definition delete_click (st : SettingsState) : D SettingsState :=
  dret {| se_revealed := se_revealed st; se_confirmDelete := true |}.

Definition cancel_click (st : SettingsState) : D SettingsState :=
  dret {| se_revealed := se_revealed st; se_confirmDelete := false |}.

Definition confirm_click : D SettingsState :=
  deleteWallet ;;
  log info "settings" "Wallet deleted — reload the Wallet tab" ;;
  dret {| se_revealed := None; se_confirmDelete := false |}.

Definition wallet_zone (address : option string) (st : SettingsState) : list widget :=
  [Text (default "" address); Button "Reveal Private Key" ghost false]
  ++ (if se_confirmDelete st
      then [Button "Confirm Delete (no undo)" danger false; Button "Cancel" ghost false]
      else [Button "Delete Wallet" danger false])
  ++ match se_revealed st with
     | Some k => if str_truthy k
                 then [Text "Private key — never share this"; Text k; CopyButton k] else []
     | None => []
     end
  ++ [Text "After deleting, open the Wallet tab to create or import a new wallet."].

Definition SettingsTab (settings : Settings) (has : bool) (address : option string)
    (st : SettingsState) : list widget :=
  [Card (Some "Appearance")
     [Button "Dark" (match theme settings with dark => primary | light => ghost end) false;
      Button "Light" (match theme settings with light => primary | dark => ghost end) false];
   Card (Some "Bridge API")
     [Field "API Base URL" [Input (apiUrl settings) "" false];
      Text ("Custodial bridge API (Cloudflare Worker). Default: " +:+ nd_apiUrl (NETWORKS mainnet))];
   Card (Some "RPC Endpoints")
     (map (fun id => Field (nd_label (NETWORKS id) +:+ " RPC")
        [Input (json_text (rec_get (rpcUrls settings) (network_key id))) (nd_rpcUrl (NETWORKS id)) false])
        NETWORK_ORDER
      ++ [Text "The light client talks to these hosted endpoints for all chain data and transaction submission. Chain IDs are auto-detected per endpoint."]);
   Card (Some "Wallet (Danger Zone)")
     (if has then wallet_zone address st else [Text "No wallet on this device."]);
   Card (Some "About")
     [Text "Snowside desktop light client — eCash drivechain (slot 88) on an Avalanche L1.";
      Link "https://snowside.network" "snowside.network";
      Link "https://docs.snowside.network" "docs.snowside.network";
      Link "https://github.com/abitsuite/snowside" "github.com/abitsuite/snowside"]].
End settings_tab.

(** ** tabs/ConsoleTab.tsx *)

Record ConsoleState := { co_method : string; co_params : string; co_result : option string; co_busy : bool }.

(** [JSON.parse] and [JSON.stringify(_, null, 2)]. *)
Class JsonText := { JSON_parse : string -> outcome json; JSON_stringify : option json -> string }.

Section console_tab.
Context `{OUT : Outside} `{JT : JsonText}.

Definition console_params (params : string) : outcome (list json) :=
  obind (if str_truthy (trim params) then JSON_parse params else Ok (JArr [])) (fun parsed =>
    match parsed with JArr l => Ok l | _ => Throw "Params must be a JSON array" end).

Definition console_call (rpcUrl : string) (st : ConsoleState) : D ConsoleState :=
  let ended r := {| co_method := co_method st; co_params := co_params st; co_result := Some r;
                    co_busy := false |} in
  dtry
    (parsed <- dlift (console_params (co_params st)) ;;
     res <- rpcCall rpcUrl (trim (co_method st)) parsed ;;
     dret (ended (JSON_stringify res)))
    (fun msg => log error "console" msg ;; dret (ended ("Error: " +:+ msg))).

Definition level_color (l : LogLevel) : string :=
  match l with debug => "text-faint" | info => "text-accent-strong" | error => "text-err" end.

Definition ConsoleTab `{Locale} (settings : Settings) (entries : list LogEntry) (st : ConsoleState)
  : list widget :=
  [Card (Some ("JSON-RPC Console (" +:+ nd_label (NETWORKS (activeNetwork settings)) +:+ ")"))
     ([Input (co_method st) "eth_blockNumber" false;
       Button (if co_busy st then "…" else "Call") primary
         (co_busy st || negb (str_truthy (trim (co_method st))));
       Field "Params (JSON array)" [Input (co_params st) "" false]]
      ++ match co_result st with Some r => [Text r] | None => [] end
      ++ [Text ("Calls go to " +:+ rpc_url settings (activeNetwork settings))]);
   Card (Some "Log")
     (Button "Clear" ghost false
      :: match entries with
         | [] => [Text "No log entries yet."]
         | _ => map (fun e => Text (locale_time (ts e) +:+ " [" +:+ source e +:+ "] " +:+ message e)) entries
         end)].
End console_tab.

(** ** components/TopNav.tsx and App.tsx *)

Definition TABS : list (string * string) :=
  [("overview", "Overview"); ("wallet", "Wallet"); ("bridge", "Bridge"); ("network", "Network");
   ("console", "Console"); ("settings", "Settings")].

Definition TopNav (active : string) : widget := SubTabs TABS active.

(** [App]: the tab's screen between the navigation and the footer. *)
Definition App (settings : Settings) (tab : string) : list widget :=
  TopNav tab
  :: map Screen (List.filter (String.eqb tab) (map fst TABS))
  ++ [Text (nd_label (NETWORKS (activeNetwork settings)) +:+ " · "
            +:+ json_text (rec_get (rpcUrls settings) (network_key (activeNetwork settings))));
      Text "eCash drivechain · slot 88 · light client"].

(** ** main.tsx *)

(** [createRoot(document.getElementById("root")).render(...)]: React throws
    when the document has no such element. *)
Definition main (ids : list string) (app : list widget) : outcome (list widget) :=
  if existsb (String.eqb "root") ids then Ok app
  else Throw "Target container is not a DOM element.".
