(* ===== verification/DesktopProps.v ===== *)
(** * The desktop client: properties

    Settings across restarts, the log's bound, the poller, sending, and the
    withdrawal form; then the client against the bridge API it calls. *)

From Stdlib Require Import ZArith Lia Ascii String List Bool.
From stdpp Require Import base list strings numbers.
From S2P Require Import Prelude JsNumber Effects Json Database Api ApiSpec ApiProps Proxy Withdraw Desktop DesktopUi.
Local Open Scope Z_scope.

(** ** Settings *)

Definition network_keys : list string := map network_key NETWORK_ORDER.

(** An RPC URL for each network, and nothing that overrides one. *)
Definition rpc_wf (st : Settings) : Prop :=
  exists a b c extra, rpcUrls st = combine network_keys [a; b; c] ++ extra /\
    Forall (fun kv => ~ In (fst kv) network_keys) extra.

Definition settings_wf (st : Settings) : Prop := str_truthy (apiUrl st) = true /\ rpc_wf st.

(** What a restart makes of the settings: an empty API URL is the default one. *)
Definition restarted (st : Settings) : Settings := {|
  theme := theme st; activeNetwork := activeNetwork st; rpcUrls := rpcUrls st;
  apiUrl := str_or (apiUrl st) (apiUrl defaults)
|}.

Lemma filter_extra (extra : list (string * json)) :
  Forall (fun kv => ~ In (fst kv) network_keys) extra ->
  List.filter (fun kv => negb (existsb (String.eqb (fst kv)) network_keys)) extra = extra.
Proof.
  induction 1 as [|kv l Hkv _ IH]; [done|]. cbn [List.filter].
  destruct (existsb _ _) eqn:E; [|by rewrite IH]. apply existsb_eqb_in in E. done.
Qed.

Lemma spread_defaults x :
  exists a b c extra, spread (rpcUrls defaults) x = combine network_keys [a; b; c] ++ extra /\
    Forall (fun kv => ~ In (fst kv) network_keys) extra.
Proof.
  do 4 eexists. split; [reflexivity|]. apply List.Forall_forall. intros kv Hin.
  apply filter_In in Hin as [_ Hn]. apply negb_true_iff in Hn.
  intros Hk%existsb_eqb_in. change (map fst (rpcUrls defaults)) with network_keys in Hn. congruence.
Qed.

Lemma spread_wf (a b c : json) (extra : list (string * json)) :
  Forall (fun kv => ~ In (fst kv) network_keys) extra ->
  spread (rpcUrls defaults) (combine network_keys [a; b; c] ++ extra) =
    combine network_keys [a; b; c] ++ extra.
Proof.
  intros Hx. unfold spread. change (map fst (rpcUrls defaults)) with network_keys.
  rewrite List.filter_app, (filter_extra extra) by done. done.
Qed.

Lemma load_wf ls : settings_wf (load ls).
Proof.
  assert (Hd : settings_wf defaults).
  { split; [done|]. do 4 eexists. split; [reflexivity|]. constructor. }
  unfold load. destruct (negb _); [done|]. destruct (ls_settings ls) as [[parsed|]|]; try done.
  unfold settings_of. destruct (json_get parsed "theme"); [|done]. cbn [obind].
  destruct (json_get parsed "activeNetwork"); [|done]. cbn [obind].
  destruct (json_get parsed "rpcUrls"); [|done]. cbn [obind].
  destruct (json_get parsed "apiUrl") as [u|]; [|done]. cbn [obind]. split; cbn [apiUrl rpcUrls].
  - destruct u as [[[| | |s]| | |]|]; try done. unfold str_or. by destruct (str_truthy s) eqn:E.
  - apply spread_defaults.
Qed.

Lemma settings_json_roundtrip st : rpc_wf st -> settings_of (settings_json st) = Ok (restarted st).
Proof.
  intros (a & b & c & extra & Hr & Hx). destruct st as [t n r u]. unfold restarted.
  cbn [apiUrl rpcUrls theme activeNetwork] in *. subst r.
  unfold settings_of, settings_json. cbn [json_get rec_get theme activeNetwork apiUrl rpcUrls].
  simpl String.eqb. cbn [obind spread_source]. rewrite spread_wf by done.
  unfold JStr. by destruct t, n.
Qed.

Lemma spread_key_wf (a b c : json) (extra : list (string * json)) n v :
  Forall (fun kv => ~ In (fst kv) network_keys) extra ->
  exists a' b' c' extra', spread (combine network_keys [a; b; c] ++ extra) [(network_key n, v)] =
      combine network_keys [a'; b'; c'] ++ extra' /\
    Forall (fun kv => ~ In (fst kv) network_keys) extra'.
Proof.
  intros Hx. unfold spread. rewrite map_app.
  set (extra' := map (fun kv => (fst kv, default (snd kv) (rec_get [(network_key n, v)] (fst kv)))) extra).
  exists (if decide (n = mainnet) then v else a), (if decide (n = testnet) then v else b),
    (if decide (n = signet) then v else c), extra'. split.
  - destruct n; simpl; by rewrite app_nil_r.
  - apply List.Forall_forall. intros kv Hin. apply in_map_iff in Hin as (kv' & <- & Hin).
    rewrite List.Forall_forall in Hx. exact (Hx kv' Hin).
Qed.

(** ** The log *)

Fixpoint add_all (entries : list LogEntry) (l : list LogEntry) : list LogEntry :=
  match l with [] => entries | e :: l' => add_all (add_entry entries e) l' end.

Lemma last_n_length {A} n (l : list A) : length (last_n n l) = Nat.min n (length l).
Proof. unfold last_n. rewrite length_drop. lia. Qed.

Lemma last_n_app {A} n (l k : list A) :
  (length k <= n)%nat -> last_n (n - length k) l ++ k = last_n n (l ++ k).
Proof.
  intros. unfold last_n. rewrite length_app.
  replace (length l + length k - n)%nat with (length l - (n - length k))%nat by lia.
  rewrite drop_app_le; [done|lia].
Qed.

Lemma last_n_absorb {A} n (l k : list A) : last_n n (last_n n l ++ k) = last_n n (l ++ k).
Proof.
  unfold last_n. rewrite <-drop_app_le by lia. rewrite drop_drop, length_drop, length_app.
  f_equal. lia.
Qed.

Lemma add_all_last entries l :
  (length entries <= MAX_ENTRIES)%nat -> add_all entries l = last_n MAX_ENTRIES (entries ++ l).
Proof.
  revert entries. induction l as [|e l IH]; intros entries Hb; cbn [add_all].
  - rewrite app_nil_r. unfold last_n. by replace (length entries - MAX_ENTRIES)%nat with O by lia.
  - assert (Hadd : add_entry entries e = last_n MAX_ENTRIES (entries ++ [e])).
    { unfold add_entry. by rewrite <-(last_n_app MAX_ENTRIES entries [e]) by (unfold MAX_ENTRIES; simpl; lia). }
    rewrite IH; [|rewrite Hadd, last_n_length; lia].
    rewrite Hadd, last_n_absorb. by rewrite <-app_assoc.
Qed.

(** ** The poller *)

Definition poller_ok (p : poller) : Prop :=
  (po_running p = true /\ exists g, po_active p = [g]) \/ (po_running p = false /\ po_active p = []).

Lemma tick_ok g p : poller_ok p -> poller_ok (tick g p).
Proof.
  intros [[Hr Ha]|[Hr Ha]]; unfold tick; rewrite Hr; cbn [orb].
  - by left.
  - destruct (po_stopped p || _); [by right|]. left. cbn. rewrite Ha. eauto.
Qed.

Lemma poller_step_ok p p' : poller_step p p' -> poller_ok p -> poller_ok p'.
Proof.
  intros [q|q g Hin|q Hs|q] Hok.
  - by apply tick_ok.
  - right. unfold finish. cbn. split; [done|]. destruct Hok as [[_ [h Ha]]|[_ Ha]]; rewrite Ha in *.
    + destruct Hin as [->|[]]. simpl. by destruct (Nat.eq_dec g g).
    + done.
  - unfold change_deps. apply tick_ok. exact Hok.
  - exact Hok.
Qed.

Lemma poller_reachable_ok p : poller_reachable p -> poller_ok p.
Proof.
  induction 1 as [|p p' _ IH Hs]; [left; by split; [|eexists]|]. by eapply poller_step_ok.
Qed.

(** ** Calls that send a transaction *)

(** A JSON-RPC request whose method sends one. *)
Definition is_send_call (c : call) : bool :=
  match c with
  | CFetch h =>
      match hc_body h with
      | Some (JObj fields) =>
          match rec_get fields "method" with
          | Some (JScalar (FStr m)) => sends_transaction m
          | _ => false
          end
      | _ => false
      end
  | _ => false
  end.

Definition sends (s : app) : list call := List.filter is_send_call (a_calls s).

Section quiet.
Context `{OUT : Outside} `{VU : ViemUnits}.

(** A computation that sends nothing. *)
Definition quiet {A} (c : D A) : Prop := forall s, sends (snd (c s)) = sends s.

Lemma quiet_ret {A} (a : A) : quiet (dret a).
Proof. done. Qed.

Lemma quiet_throw {A} m : quiet (@dthrow A m).
Proof. done. Qed.

Lemma quiet_lift {A} (o : outcome A) : quiet (dlift o).
Proof. done. Qed.

Lemma quiet_bind {A B} (c : D A) (f : A -> D B) : quiet c -> (forall a, quiet (f a)) -> quiet (dbind c f).
Proof.
  intros Hc Hf s. unfold dbind. specialize (Hc s). destruct (c s) as [[a|m] s']; cbn [snd] in *; [|done].
  by rewrite Hf.
Qed.

Lemma quiet_try {A} (c : D A) h : quiet c -> (forall m, quiet (h m)) -> quiet (dtry c h).
Proof.
  intros Hc Hh s. unfold dtry. specialize (Hc s). destruct (c s) as [[a|m] s']; cbn [snd] in *; [done|].
  by rewrite Hh.
Qed.

Lemma quiet_call c : is_send_call c = false -> quiet (call_out c).
Proof. intros Hc s. unfold sends, call_out, with_call. cbn [snd a_calls List.filter]. by rewrite Hc. Qed.

(** A state update between two steps. *)
Lemma quiet_update {B} (f : app -> app) (c : app -> D B) :
  (forall s, sends (f s) = sends s) -> (forall s, quiet (c s)) ->
  quiet (dbind dget (fun s => dbind (dput (f s)) (fun _ => c s))).
Proof. intros Hf Hc s. unfold dbind, dget, dput. by rewrite Hc, Hf. Qed.

Lemma log_quiet l src msg : quiet (log l src msg).
Proof. intros s. done. Qed.

Lemma fetch_quiet url method body :
  (forall b, is_send_call (CFetch {| hc_tauri := b; hc_url := url; hc_method := method; hc_body := body |}) = false) ->
  quiet (httpFetch url method body).
Proof. intros Hb. unfold httpFetch. apply quiet_bind; [done|]. intros s. by apply quiet_call. Qed.

(** The bridge's requests carry no JSON-RPC method. *)
Lemma api_quiet path method fields :
  rec_get fields "method" = None -> quiet (api path method (Some (JObj fields))).
Proof.
  intros Hm. unfold api, baseUrl, getSettings. apply quiet_bind; [done|]. intros base.
  apply quiet_bind; [apply log_quiet|]. intros _. apply quiet_bind.
  { apply fetch_quiet. intros b. cbn. by rewrite Hm. }
  intros got. apply quiet_bind; [apply quiet_lift|]. intros resp.
  destruct (negb (hp_ok resp)); [|by destruct (hp_json resp)].
  apply quiet_bind; [apply log_quiet|]. intros _. apply quiet_throw.
Qed.

Lemma submit_quiet network hash st : quiet (submit_withdrawal network hash st).
Proof.
  unfold submit_withdrawal, createWithdrawal. apply quiet_try; [|intros; apply quiet_ret].
  apply quiet_bind; [by apply api_quiet|]. intros r. apply quiet_bind; [apply quiet_lift|].
  intros id. apply quiet_ret.
Qed.

Lemma rpcCall_quiet url method params : sends_transaction method = false -> quiet (rpcCall url method params).
Proof.
  intros Hm. unfold rpcCall. apply quiet_bind; [by apply quiet_call|]. intros started.
  apply quiet_bind; [apply log_quiet|]. intros _. apply quiet_try.
  - apply (quiet_update (fun s => with_nextId (a_nextId s + 1) s)); [done|]. intros s0.
    apply quiet_bind; [by apply fetch_quiet|]. intros got. apply quiet_bind; [apply quiet_lift|]. intros resp.
    destruct (negb (hp_ok resp)); [apply quiet_throw|]. destruct (hp_json resp); [|apply quiet_throw].
    apply quiet_bind; [apply quiet_lift|]. intros result. apply quiet_bind; [by apply quiet_call|].
    intros now. apply quiet_bind; [apply log_quiet|]. intros _. apply quiet_ret.
  - intros m. apply quiet_bind; [apply log_quiet|]. intros _. apply quiet_throw.
Qed.

Lemma act_quiet {A} url (c : action A) : reads_only c -> quiet (act url c).
Proof.
  induction c as [r|method params k IH]; cbn [act reads_only]; [intros _; apply quiet_lift|].
  intros [Hm Hk] s. unfold transportFor. pose proof (rpcCall_quiet url method (default [] params) Hm s) as H.
  destruct (rpcCall _ _ _ s) as [r s']. cbn [snd] in H. rewrite (IH r (Hk r)). done.
Qed.

Lemma waitForReceipt_quiet hash : quiet (waitForReceipt hash).
Proof.
  unfold waitForReceipt, getSettings. apply quiet_bind; [done|]. intros st. apply act_quiet, receipt_reads.
Qed.
End quiet.

(** ** A client to run *)

(** The method of a JSON-RPC request. *)
Definition method_of (c : http_call) : string :=
  match hc_body c with
  | Some (JObj fields) => match rec_get fields "method" with Some (JScalar (FStr m)) => m | _ => "" end
  | _ => ""
  end.

Definition toy_results : list (string * json) :=
  [("eth_chainId", JStr "0x8288"); ("eth_gasPrice", JStr "0x19"); ("eth_estimateGas", JStr "0x5208");
   ("eth_sendRawTransaction", JStr "0xburned"); ("eth_getTransactionReceipt", JObj [])].

(** A node that answers what a transfer needs, and a bridge that is offline. *)
Definition toy_outside : Outside := fun c _ =>
  match c return result_of c with
  | CNow => 1000
  | CFetch c =>
      match rec_get toy_results (method_of c) with
      | Some r => Ok {| hp_ok := true; hp_status := 200; hp_statusText := "OK";
                        hp_json := Some (JObj [("result", r)]) |}
      | None => Throw "offline"
      end
  | CGenerateKey => "0x01"
  end.

(** One request, and its result as a number or a text. *)
Definition number_action (method : string) (params : option (list json)) : action Z :=
  Requests method params (fun r => Done (obind r (fun j => BigInt_of_string (json_text j)))).

#[refine] Definition toy_units : ViemUnits := {|
  isAddress s := starts_with "0x" s;
  parseEther s := match BigInt_of_string s with Ok z => Ok (z * 10 ^ 18) | Throw m => Throw m end;
  formatEther z := dec_str (z / 10 ^ 18);
  account_address k := if starts_with "0x" k then Ok ("0xacc" +:+ k) else Throw "key";
  getChainId := number_action "eth_chainId" None;
  getGasPrice := number_action "eth_gasPrice" None;
  estimateGas from to value := number_action "eth_estimateGas" (Some [JStr from; JStr to; JInt value]);
  sendTransaction account chain to value gas gasPrice :=
    Requests "eth_sendRawTransaction" (Some [JStr (account +:+ to)])
      (fun r => Done (obind r (fun j => Ok (json_text j))));
  waitForTransactionReceipt hash timeout :=
    Requests "eth_getTransactionReceipt" (Some [JStr hash]) (fun r => Done (obind r (fun _ => Ok tt)))
|}.
Proof. by intros hash timeout. Defined.

Definition toy_locale : Locale := {|
  locale_ratio n d := dec_str (n / d);
  locale_time t := dec_str t;
  locale_date t := dec_str t;
  gwei_fixed w _ := dec_str w
|}.

Definition toy_app : app :=
  Desktop.App true defaults (Storage true None (Some "0x01")) [] 1 [1%nat; 2%nat] [] [] [].

(** ** Properties *)

(** *** Edits *)

Inductive edit := Update (p : settings_patch) | SetRpc (n : NetworkId) (url : string) | SetKey (pk : string) | ClearKey.

Definition edited `{OUT : Outside} (e : edit) : D unit :=
  match e with
  | Update p => updateSettings p
  | SetRpc n url => setRpcUrl n url
  | SetKey pk => setWalletKey pk
  | ClearKey => clearWalletKey
  end.

Fixpoint edits `{OUT : Outside} (es : list edit) : D unit :=
  match es with [] => dret tt | e :: es' => dbind (edited e) (fun _ => edits es') end.

(** The storage holds the settings. *)
Definition stored (s : app) : Prop :=
  ls_available (a_storage s) = true /\ rpc_wf (a_settings s) /\ load (a_storage s) = restarted (a_settings s).

Lemma restarted_wf st : rpc_wf st -> settings_wf (restarted st).
Proof. intros H. split; [|exact H]. cbn [apiUrl restarted]. unfold str_or. by destruct (str_truthy (apiUrl st)) eqn:E. Qed.

Lemma restarted_same st : settings_wf st -> restarted st = st.
Proof. intros [Hu _]. destruct st as [t n r u]. unfold restarted. cbn [apiUrl] in *. unfold str_or. by rewrite Hu. Qed.

Section edits.
Context `{OUT : Outside}.

Lemma persist_stored st s :
  ls_available (a_storage s) = true -> rpc_wf st ->
  a_settings (snd (persist st s)) = st /\ stored (snd (persist st s)).
Proof.
  intros Hav Hst. unfold stored, persist, notify, dbind, dget, dput.
  cbn [snd a_storage a_settings with_settings with_notified]. rewrite Hav. split_and!; [done..|].
  unfold load. cbn [ls_available ls_settings negb]. by rewrite settings_json_roundtrip.
Qed.

Lemma key_stored pk s :
  stored s -> a_settings (snd (write_wallet_key pk s)) = a_settings s /\ stored (snd (write_wallet_key pk s)).
Proof.
  intros (Hav & Hr & Hl). unfold stored, write_wallet_key, notify, dbind, dget, dput.
  cbn [snd a_storage a_settings with_settings with_notified]. rewrite Hav. split_and!; [done..|].
  rewrite <-Hl. unfold load. cbn [ls_available ls_settings]. by rewrite Hav.
Qed.

(** Each edit is stored; it changes the entry it names, and no other. *)
Lemma edited_stored e s :
  stored s ->
  let s' := snd (edited e s) in
  stored s' /\
  (forall n, rec_get (rpcUrls (a_settings s')) (network_key n) =
     match e with SetRpc m url => if decide (m = n) then Some (JStr url) else rec_get (rpcUrls (a_settings s)) (network_key n)
     | _ => rec_get (rpcUrls (a_settings s)) (network_key n) end) /\
  apiUrl (a_settings s') = match e with Update p => default (apiUrl (a_settings s)) (p_apiUrl p) | _ => apiUrl (a_settings s) end.
Proof.
  intros Hs. pose proof Hs as (Hav & (a & b & c & extra & Hr & Hx) & _).
  destruct e as [p|m url|pk|]; cbn [edited].
  - unfold updateSettings, getSettings, dbind, dget, dret. destruct (persist_stored {|
      theme := default (theme (a_settings s)) (p_theme p);
      activeNetwork := default (activeNetwork (a_settings s)) (p_activeNetwork p);
      rpcUrls := rpcUrls (a_settings s); apiUrl := default (apiUrl (a_settings s)) (p_apiUrl p) |} s Hav (proj1 (proj2 Hs))) as [-> ?].
    done.
  - unfold setRpcUrl, getSettings, dbind, dget, dret.
    destruct (persist_stored {| theme := theme (a_settings s); activeNetwork := activeNetwork (a_settings s);
      rpcUrls := spread (rpcUrls (a_settings s)) [(network_key m, JStr url)]; apiUrl := apiUrl (a_settings s) |} s Hav)
      as [-> ?].
    { unfold rpc_wf. cbn [rpcUrls]. rewrite Hr. by apply spread_key_wf. }
    split_and!; [done| |done]. intros n. cbn [rpcUrls]. rewrite Hr. by destruct m, n.
  - unfold setWalletKey. by destruct (key_stored (Some pk) s Hs) as [-> ?].
  - unfold clearWalletKey. by destruct (key_stored None s Hs) as [-> ?].
Qed.

Lemma edits_cons e es s : snd (edits (e :: es) s) = snd (edits es (snd (edited e s))).
Proof.
  cbn [edits]. unfold dbind.
  assert (Hok : exists s', edited e s = (Ok tt, s')) by (destruct e; unfold edited, updateSettings, setRpcUrl,
    setWalletKey, clearWalletKey, write_wallet_key, persist, getSettings, notify, dbind, dget, dput, dret; by eexists).
  by destruct Hok as [s' ->].
Qed.

Lemma edits_app es es' s : snd (edits (es ++ es') s) = snd (edits es' (snd (edits es s))).
Proof.
  revert s. induction es as [|e es IH]; intros s; [done|].
  change ((e :: es) ++ es') with (e :: (es ++ es')). by rewrite !edits_cons, IH.
Qed.

Lemma edits_stored es s : stored s -> stored (snd (edits es s)).
Proof.
  revert s. induction es as [|e es IH]; intros s Hs; [done|]. rewrite edits_cons. by apply IH, edited_stored.
Qed.

Lemma rpc_kept es s n :
  stored s -> (forall u, ~ In (SetRpc n u) es) ->
  rec_get (rpcUrls (a_settings (snd (edits es s)))) (network_key n) = rec_get (rpcUrls (a_settings s)) (network_key n).
Proof.
  revert s. induction es as [|e es IH]; intros s Hs Hno; [done|]. rewrite edits_cons.
  destruct (edited_stored e s Hs) as (Hs' & Hr & _). rewrite IH; [|done|intros u Hu; by apply (Hno u); right].
  rewrite Hr. destruct e as [|m url| |]; try done. destruct (decide (m = n)) as [->|]; [|done].
  by destruct (Hno url); left.
Qed.

Lemma api_kept es s :
  stored s -> (forall p u, In (Update p) es -> p_apiUrl p <> Some u) ->
  apiUrl (a_settings (snd (edits es s))) = apiUrl (a_settings s).
Proof.
  revert s. induction es as [|e es IH]; intros s Hs Hno; [done|]. rewrite edits_cons.
  destruct (edited_stored e s Hs) as (Hs' & _ & Ha). rewrite IH; [|done|intros p u Hu; by apply Hno; right].
  rewrite Ha. destruct e as [p| | |]; try done. destruct (p_apiUrl p) as [u|] eqn:E; [|done].
  by destruct (Hno p u (or_introl eq_refl)).
Qed.
End edits.

(** C37. Settings survive a restart. Of an app that started from its storage,
    whatever edits are made of the settings and of the wallet key, a restart
    reads back the settings as they are, except that an empty API URL becomes
    the default one: so each network has the RPC URL last entered for it, and
    the API URL is the last one entered unless that is empty. And no stored
    text can break them: what [load] makes of any storage has an API URL and
    one RPC entry per network. *)
Theorem settings_survive_restart `{OUT : Outside} s es :
  ls_available (a_storage s) = true -> a_settings s = load (a_storage s) ->
  let s' := snd (edits es s) in
  let st := load (a_storage s') in
  st = restarted (a_settings s') /\
  (forall es1 n url es2, es = es1 ++ SetRpc n url :: es2 -> (forall u, ~ In (SetRpc n u) es2) ->
     rec_get (rpcUrls st) (network_key n) = Some (JStr url)) /\
  (forall es1 p url es2, es = es1 ++ Update p :: es2 -> p_apiUrl p = Some url ->
     (forall p' u, In (Update p') es2 -> p_apiUrl p' <> Some u) ->
     apiUrl st = if str_truthy url then url else apiUrl defaults) /\
  (forall ls, settings_wf (load ls)).
Proof.
  intros Hav Hl s' st. pose proof (load_wf (a_storage s)) as Hwf. rewrite <-Hl in Hwf.
  assert (Hs : stored s) by (split_and!; [done|apply Hwf|by rewrite restarted_same, Hl]).
  pose proof (edits_stored es s Hs) as (_ & _ & Hst). fold s' st in Hst. rewrite Hst.
  split_and!; [done| | |apply load_wf].
  - intros es1 n url es2 -> Hno. cbn [rpcUrls restarted]. unfold s'. rewrite edits_app, edits_cons.
    pose proof (edits_stored es1 s Hs) as Hs1. destruct (edited_stored (SetRpc n url) _ Hs1) as (Hs2 & Hr & _).
    rewrite rpc_kept by done. rewrite Hr. by rewrite decide_True.
  - intros es1 p url es2 -> Hp Hno. cbn [apiUrl restarted]. unfold s'. rewrite edits_app, edits_cons.
    pose proof (edits_stored es1 s Hs) as Hs1. destruct (edited_stored (Update p) _ Hs1) as (Hs2 & _ & Ha).
    rewrite api_kept by done. rewrite Ha, Hp. done.
Qed.

(** The user changes signet's RPC URL twice, the theme, and clears the API URL. *)
Lemma settings_survive_restart_witness :
  let cleared := {| p_theme := Some light; p_activeNetwork := None; p_apiUrl := Some EmptyString |} in
  let es := [SetRpc signet "https://a"; Update cleared; SetRpc signet "https://b"] in
  let s' := snd (@edits toy_outside es toy_app) in
  apiUrl (a_settings s') = EmptyString /\
  load (a_storage s') = restarted (a_settings s') /\
  rec_get (rpcUrls (load (a_storage s'))) "signet" = Some (JStr "https://b") /\
  apiUrl (load (a_storage s')) = "https://snowside.network/v1".
Proof.
  intros cleared es s'. split; [reflexivity|].
  destruct (@settings_survive_restart toy_outside toy_app es) as (H1 & H2 & H3 & _); [reflexivity|reflexivity|].
  split; [exact H1|]. split.
  - apply (H2 [SetRpc signet "https://a"; Update cleared] signet "https://b" []); [reflexivity|]. intros u [].
  - refine (H3 [SetRpc signet "https://a"] cleared EmptyString [SetRpc signet "https://b"] eq_refl eq_refl _).
    intros p' u [H|[]]. discriminate H.
Defined.

(** Every change is announced: whatever is written, even when the storage is
    unavailable, each function that listens to the settings is called once,
    in the order of the subscriptions, and none that listens to the log. *)
Theorem every_change_is_announced `{OUT : Outside} (s : app) patch n url pk :
  let told (c : D unit) := a_notified (snd (c s)) = rev (a_listeners s) ++ a_notified s in
  told (updateSettings patch) /\ told (setRpcUrl n url) /\ told (setWalletKey pk) /\ told clearWalletKey.
Proof. done. Qed.

Lemma in_set_add l ls x : In x (set_add l ls) <-> x = l \/ In x ls.
Proof.
  unfold set_add. destruct (existsb _ _) eqn:E.
  - apply existsb_exists in E as (y & Hy & <-%Nat.eqb_eq). split; [tauto|]. by intros [->|].

  - rewrite in_app_iff. simpl. split; [intros [H|[H|[]]]; auto|intros [H|H]; auto].
Qed.

(** A listener is in the set once, however often it subscribes, and no longer
    after it has unsubscribed. *)
Lemma subscription `{OUT : Outside} (s : app) l :
  NoDup (a_listeners s) ->
  NoDup (a_listeners (snd (subscribeSettings l s))) /\ In l (a_listeners (snd (subscribeSettings l s))) /\
  ~ In l (a_listeners (snd (unsubscribeSettings l s))).
Proof.
  intros Hnd. unfold subscribeSettings, unsubscribeSettings, dbind, dget, dput.
  cbn [snd a_listeners with_listeners]. split_and!.
  - unfold set_add. destruct (existsb _ _) eqn:E; [done|]. apply list.NoDup_app. split_and!; [done| |apply NoDup_singleton].
    intros x Hx ->%list_elem_of_singleton. apply not_true_iff_false in E. apply E, existsb_exists.
    exists l. by split; [apply list_elem_of_In|apply Nat.eqb_refl].
  - apply in_set_add. by left.
  - unfold set_delete. intros [_ H]%filter_In. by rewrite Nat.eqb_refl in H.
Qed.

(** The log keeps the latest 500 entries: whatever sequence is logged, it
    holds the last 500 of what was there and what was added, in order. *)
Theorem log_keeps_the_latest entries l :
  (length entries <= MAX_ENTRIES)%nat ->
  add_all entries l = last_n MAX_ENTRIES (entries ++ l) /\
  length (add_all entries l) = Nat.min MAX_ENTRIES (length entries + length l).
Proof.
  intros Hb. rewrite add_all_last by done. split; [done|].
  by rewrite last_n_length, length_app.
Qed.

Lemma log_keeps_the_latest_witness :
  length (add_all [] (repeat {| ts := 0; level := info; source := "s"; message := "m" |} 600)) = 500%nat.
Proof. refine (proj2 (log_keeps_the_latest [] _ _)). simpl. unfold MAX_ENTRIES. lia. Defined.

(** A poller never overlaps itself: in every state its hook can reach, at
    most one run is under way, and the flag says whether one is; after an
    unmount no interval starts another; but new dependencies that arrive
    while a run is under way start no run of their own. *)
Theorem poller_never_overlaps p :
  poller_reachable p ->
  (length (po_active p) <= 1)%nat /\
  (po_running p = true <-> po_active p <> []) /\
  (po_stopped p = true -> po_started (tick (po_generation p) p) = po_started p) /\
  (po_active p <> [] -> po_started (change_deps p) = po_started p).
Proof.
  intros Hr. apply poller_reachable_ok in Hr as [[Hrun [g Ha]]|[Hrun Ha]]; rewrite Ha.
  - split_and!; [simpl; lia|done| |].
    + intros Hs. unfold tick. by rewrite Hs, orb_true_r.
    + intros _. unfold change_deps, tick. cbn. by rewrite Hrun.
  - split_and!; [simpl; lia|by rewrite Hrun| |done].
    intros Hs. unfold tick. by rewrite Hs, orb_true_r.
Qed.

Lemma poller_never_overlaps_witness :
  po_active mount = [O] /\ po_started (change_deps mount) = po_started mount.
Proof.
  split; [reflexivity|]. destruct (poller_never_overlaps mount poller_mounted) as (_ & _ & _ & H).
  apply H. discriminate.
Defined.

(** C38. A burn is not repeated. When the withdrawal form has burned and the
    submission then fails, the form keeps the burn's hash and its fields, and
    pressing the button again sends no further transaction. *)
Theorem burn_is_not_repeated `{OUT : Outside} `{VU : ViemUnits} a settings st s hash s1 :
  trim (wd_burnTx st) = "" -> str_truthy hash = true -> str_truthy (trim hash) = true ->
  sendEcx BURN_ADDRESS (wd_amount st) s = (Ok hash, s1) ->
  exists st' s', withdraw_click (Some a) settings st s = (Ok st', s') /\
    sends s' = sends s1 /\
    (wd_done st' = None ->
     wd_burnTx st' = hash /\ wd_amount st' = wd_amount st /\ wd_ecashAddr st' = wd_ecashAddr st /\
     forall s2, sends (snd (withdraw_click (Some a) settings st' s2)) = sends s2).
Proof.
  intros Hb Hh Hth Hsend. unfold withdraw_click at 1. rewrite Hb. cbn [negb str_truthy].
  change (negb (str_truthy "")) with true. cbv iota. unfold dbind at 1, doBurn.
  cbn [with_outcome wd_amount wd_burnTx wd_done]. unfold dtry at 1, dbind at 1. rewrite Hsend.
  unfold dbind at 1, dtry at 1. pose proof (waitForReceipt_quiet hash s1) as Hw.
  assert (Hwait : exists s2, (match waitForReceipt hash s1 with
      | (Ok x, s') => (Ok x, s') | (Throw _, s') => dret tt s' end) = (Ok tt, s2) /\ sends s2 = sends s1).
  { destruct (waitForReceipt hash s1) as [[[]|m] s2]; cbn [snd] in Hw; by exists s2. }
  destruct Hwait as (s2 & -> & Hs2). unfold dret at 1. rewrite Hh.
  set (st1 := with_outcome _ hash None _).
  pose proof (submit_quiet (activeNetwork settings) hash st1 s2) as Hq.
  unfold submit_withdrawal, dtry in Hq |- *.
  destruct (dbind _ _ s2) as [[st'|m] s'] eqn:Esub; cbn [snd] in Hq.
  - exists st', s'. split_and!; [done|by rewrite Hq|]. intros Hd. exfalso. revert Esub Hd.
    unfold dbind, dlift, dret. destruct (createWithdrawal _ _ _ _ _ s2) as [[r|m] s3]; [|done].
    destruct (reply_id r); [|done]. by intros [= <- _].
  - unfold dret. exists (with_outcome st1 (wd_burnTx st1) (Some m) (wd_done st1)), s'.
    unfold dret in Hq. cbn [snd] in Hq. split_and!; [done|by rewrite Hq|]. intros _.
    split_and!; [done|done|done|]. intros s4. unfold withdraw_click. cbn [wd_burnTx with_outcome st1].
    rewrite Hth. cbn [negb]. apply submit_quiet.
Qed.

Definition toy_form : WithdrawState := {|
  wd_snowsideAddr := "0xuser"; wd_ecashAddr := "tb1quser"; wd_amount := "1"; wd_burnTx := "";
  wd_busy := None; wd_error := None; wd_done := None |}.

Lemma burn_is_not_repeated_witness :
  exists st' s', @withdraw_click toy_outside toy_units (Some "0xuser") defaults toy_form toy_app = (Ok st', s') /\
    length (sends s') = 1%nat /\ wd_burnTx st' = "0xburned".
Proof.
  destruct (@burn_is_not_repeated toy_outside toy_units "0xuser" defaults toy_form toy_app "0xburned"
    (snd (@sendEcx toy_outside toy_units BURN_ADDRESS "1" toy_app))) as (st' & s' & Hc & Hs & Hkeep).
  - reflexivity.
  - reflexivity.
  - reflexivity.
  - vm_compute. reflexivity.
  - exists st', s'. split; [exact Hc|]. split.
    + rewrite Hs. vm_compute. reflexivity.
    + apply Hkeep. assert (Hst : fst (@withdraw_click toy_outside toy_units (Some "0xuser") defaults toy_form toy_app) = Ok st')
        by (rewrite Hc; reflexivity).
      vm_compute in Hst. injection Hst as <-. reflexivity.
Defined.

(** One withdrawal with an unreadable amount takes the history screen
    down: rendering throws as soon as any listed row's amount is a non-empty
    text that is not a finite number, which the API accepts from anyone. *)
Theorem unreadable_amount_breaks_history `{OUT : Outside} `{VU : ViemUnits} `{LOC : Locale}
    now a st w amount :
  In w (hs_withdrawals st) -> row_field w "amount_ecx" = Some (JStr amount) ->
  str_truthy amount = true -> Number_parse amount = None ->
  exists m, HistoryPane now (Some a) st = Throw m.
Proof.
  intros Hin Hw Ht Hn. unfold HistoryPane.
  assert (Hm : exists m, map_outcome (withdrawal_row_view now) (hs_withdrawals st) = Throw m).
  { induction (hs_withdrawals st) as [|x l IH]; [done|]. cbn [map_outcome].
    destruct (withdrawal_row_view now x) as [v|m] eqn:Ex; [|by exists m]. cbn [obind].
    destruct Hin as [->|Hin].
    - exfalso. revert Ex. unfold withdrawal_row_view, withdrawal_amount. rewrite Hw.
      unfold JStr. cbn [json_truthy]. rewrite Ht. cbn [number_of]. by rewrite Hn.
    - destruct (IH Hin) as [m ->]. by exists m. }
  destruct Hm as [m ->]. by exists m.
Qed.

(** The rows of the API's listing, as the client reads them. *)
Definition listed_withdrawals (address : string) (d : db) : list json :=
  match fst (handle_request (toy_runtime 5000 "")
         (Request GET ["v1"; "bridge"; "withdrawals"; address] None None) d) with
  | Answer 200 j => as_rows j
  | _ => []
  end.

Definition poisoned_db : db :=
  after_request (toy_runtime 1000 "w1") (withdraw_request "all of it") empty_db.

Lemma unreadable_amount_breaks_history_witness :
  exists m, @HistoryPane toy_units toy_locale 6000 (Some "0xuser")
    {| hs_deposits := []; hs_withdrawals := listed_withdrawals "0xuser" poisoned_db; hs_error := None |} = Throw m.
Proof.
  apply (@unreadable_amount_breaks_history toy_outside toy_units toy_locale 6000 "0xuser"
    {| hs_deposits := []; hs_withdrawals := listed_withdrawals "0xuser" poisoned_db; hs_error := None |}
    (default JNull (head (listed_withdrawals "0xuser" poisoned_db))) "all of it");
    try (vm_compute; reflexivity). by left.
Defined.

(** With the default settings no bridge call reaches the bridge. The API
    URL ends in /v1 and the client's paths start with /v1: the Worker sees
    /v1/v1/bridge/... and its routes pass that, whatever the body and the
    method (but OPTIONS, which no route gets), to the Esplora proxy, which asks testnet's Esplora server for it. *)
Theorem default_bridge_calls_reach_esplora `{SQ : Sqlite} `{ZD : Zod} `{CH : Chanfana} `{OUT : Outside}
    rt m path body s t d search :
  m <> OPTIONS -> a_settings s = defaults ->
  fst (baseUrl s) = Ok "https://snowside.network/v1" /\
  handle_request rt (Request m ("v1" :: "v1" :: "bridge" :: path) None body) d = (EsploraProxy, d) /\
  esplora_target ("/v1" +:+ "/v1/bridge/" +:+ t) search =
    Ok (testnet_esplora +:+ "/v1/bridge/" +:+ t +:+ search).
Proof.
  intros Hm Hs. split_and!.
  - unfold baseUrl, getSettings, dbind, dget, dret. cbn [fst]. by rewrite Hs.
  - by destruct m.
  - unfold esplora_target. rewrite replace_first_hit.
    assert (esplora_match ("" +:+ ("/v1/bridge/" +:+ t)) = None) as -> by done.
    rewrite new_URL_base by (simpl; tauto). by rewrite app_assoc_str.
Qed.

Lemma default_bridge_calls_reach_esplora_witness :
  fst (@baseUrl toy_app) = Ok "https://snowside.network/v1" /\
  handle_request (toy_runtime 0 "") (Request GET ["v1"; "v1"; "bridge"; "status"] None None) toy_db
    = (EsploraProxy, toy_db).
Proof.
  destruct (@default_bridge_calls_reach_esplora _ _ _ toy_outside (toy_runtime 0 "") GET ["status"] None
    toy_app "status" toy_db "" ltac:(discriminate) eq_refl) as (H1 & H2 & _).
  split; [exact H1|exact H2].
Defined.
