(* ===== verification/Payout.v ===== *)
(** * The value of a withdrawal, from the click to the payment

    A user of the desktop app types an amount, burns it and has the request
    posted ([DesktopUi.withdraw_click]); the API stores the amount in an
    INTEGER column; the service reads it back, converts it and pays. What SQLite,
    viem and JavaScript make of a numeral that a person types is stated once
    ([numeral_reading]), and the parts are the ones of the other files. *)

From Stdlib Require Import ZArith Lia Ascii String List Bool.
From stdpp Require Import base list strings numbers.
From S2P Require Import Prelude JsNumber HdWallet Effects Withdraw Federation Minting Json Database Api ApiSpec ApiProps Bridge BridgeProps BridgeTurn BridgeLive BridgePays Desktop DesktopUi DesktopProps.
Local Open Scope Z_scope.
Local Open Scope eff_scope.

(** ** The request the click makes *)

Definition api_method (m : string) : method :=
  if String.eqb m "GET" then GET else if String.eqb m "POST" then POST
  else if String.eqb m "PATCH" then PATCH else OTHER.

(** The request that the Worker at [host] gets of a call of the client: it sees
    the whole path of the URL. *)
Definition api_request (host : string) (c : http_call) : option request :=
  match url_parts (hc_url c) with
  | Some (h, segs) => if String.eqb h host then Some (Request (api_method (hc_method c)) segs None (hc_body c)) else None
  | None => None
  end.

Section client.
Context `{OUT : Outside} `{VU : ViemUnits}.

(** Calls are added and the settings kept. *)
Definition grown (s s' : app) : Prop :=
  a_settings s' = a_settings s /\ exists new, a_calls s' = new ++ a_calls s.

#[local] Instance grown_preorder : PreOrder grown.
Proof.
  split.
  - intros s. split; [done|by exists []].
  - intros s1 s2 s3 [H1 [n1 E1]] [H2 [n2 E2]]. split; [congruence|]. exists (n2 ++ n1). by rewrite E2, E1, app_assoc.
Qed.

Definition grows {A} (c : D A) : Prop := forall s, grown s (snd (c s)).

Lemma grows_pure {A} (o : outcome A) : grows (dlift o).
Proof. intros s. reflexivity. Qed.

Lemma grows_bind {A B} (c : D A) (f : A -> D B) : grows c -> (forall a, grows (f a)) -> grows (dbind c f).
Proof.
  intros Hc Hf s. unfold dbind. specialize (Hc s). destruct (c s) as [[a|m] s']; cbn [snd] in *; [|done].
  etransitivity; [done|apply Hf].
Qed.

Lemma grows_try {A} (c : D A) h : grows c -> (forall m, grows (h m)) -> grows (dtry c h).
Proof.
  intros Hc Hh s. unfold dtry. specialize (Hc s). destruct (c s) as [[a|m] s']; cbn [snd] in *; [done|].
  etransitivity; [done|apply Hh].
Qed.

Lemma grows_call c : grows (call_out c).
Proof. intros s. split; [done|by exists [c]]. Qed.

Lemma grows_log l src msg : grows (log l src msg).
Proof. intros s. split; [done|by exists [CNow]]. Qed.

Lemma grows_rpc url method params : grows (rpcCall url method params).
Proof.
  unfold rpcCall. apply grows_bind; [apply grows_call|]. intros started.
  apply grows_bind; [apply grows_log|]. intros _. apply grows_try.
  - intros s. unfold dbind at 1, dget at 1, dbind at 1, dput at 1. set (s0 := with_nextId _ s).
    assert (Hs0 : grown s s0) by (split; [done|by exists []]). etransitivity; [exact Hs0|]. clearbody s0. revert s0 Hs0.
    intros s0 _. refine ((_ : grows _) s0). apply grows_bind.
    { unfold httpFetch. apply grows_bind; [intros s1; reflexivity|]. intros s1. apply grows_call. }
    intros got. apply grows_bind; [apply grows_pure|]. intros resp.
    destruct (negb (hp_ok resp)); [intros s1; reflexivity|]. destruct (hp_json resp); [|intros s1; reflexivity].
    apply grows_bind; [apply grows_pure|]. intros result. apply grows_bind; [apply grows_call|]. intros now.
    apply grows_bind; [apply grows_log|]. intros _ s1. reflexivity.
  - intros m. apply grows_bind; [apply grows_log|]. intros _ s1. reflexivity.
Qed.

Lemma grows_act {A} url (c : action A) : grows (act url c).
Proof.
  induction c as [r|method params k IH]; cbn [act]; [apply grows_pure|]. intros s. unfold transportFor.
  pose proof (grows_rpc url method (default [] params) s) as H. destruct (rpcCall _ _ _ s) as [r s']. cbn [snd] in H.
  etransitivity; [exact H|apply IH].
Qed.

Lemma grows_all {A B} (a : D A) (b : D B) : grows a -> grows b -> grows (dall a b).
Proof.
  intros Ha Hb s. unfold dall. specialize (Ha s). destruct (a s) as [ra s1]. cbn [snd] in Ha. specialize (Hb s1).
  destruct (b s1) as [rb s2]. cbn [snd] in Hb. assert (H : grown s s2) by by etransitivity. by destruct ra, rb.
Qed.

Lemma grows_sendEcx to amount : grows (sendEcx to amount).
Proof.
  unfold sendEcx, getWalletKey, getSettings. apply grows_bind; [intros s; reflexivity|]. intros [k|]; [|intros s; reflexivity].
  destruct (negb (str_truthy k)); [intros s; reflexivity|]. destruct (negb (isAddress to)); [intros s; reflexivity|].
  apply grows_bind; [intros s; reflexivity|]. intros st. apply grows_bind; [apply grows_pure|]. intros account.
  apply grows_bind; [apply grows_act|]. intros cid. apply grows_bind; [apply grows_pure|]. intros v.
  apply grows_bind; [apply grows_all; apply grows_act|]. intros [gp gas]. apply grows_bind; [apply grows_act|]. intros h.
  apply grows_bind; [apply grows_log|]. intros _ s. reflexivity.
Qed.

Lemma grows_wait hash : grows (waitForReceipt hash).
Proof. unfold waitForReceipt, getSettings. apply grows_bind; [intros s; reflexivity|]. intros st. apply grows_act. Qed.

(** A call that a first part made is on record at the end. *)
Lemma called_bind {A B} x (c : D A) (f : A -> D B) s :
  In x (a_calls (snd (c s))) -> (forall a, grows (f a)) -> In x (a_calls (snd (dbind c f s))).
Proof.
  intros Hx Hf. unfold dbind. destruct (c s) as [[a|m] s']; cbn [snd] in *; [|done].
  destruct (Hf a s') as [_ [new ->]]. apply in_app_iff. by right.
Qed.

Lemma called_try {A} x (c : D A) h s :
  In x (a_calls (snd (c s))) -> (forall m, grows (h m)) -> In x (a_calls (snd (dtry c h s))).
Proof.
  intros Hx Hh. unfold dtry. destruct (c s) as [[a|m] s']; cbn [snd] in *; [done|].
  destruct (Hh m s') as [_ [new ->]]. apply in_app_iff. by right.
Qed.

(** The bridge's client asks with the settings of that moment. *)
Lemma api_calls path method body s :
  In (CFetch {| hc_tauri := a_isTauri s; hc_url := strip_slashes (apiUrl (a_settings s)) +:+ path;
                hc_method := method; hc_body := body |})
     (a_calls (snd (api path method body s))).
Proof.
  unfold api, baseUrl, getSettings. do 4 unfold dbind at 1. unfold dget, dret at 1.
  set (msg := method +:+ " " +:+ path). set (s1 := snd (log debug "bridge" msg s)).
  change (log debug "bridge" msg s) with (@Ok unit tt, s1). cbv beta iota.
  apply called_bind; [left; reflexivity|]. intros got. apply grows_bind; [apply grows_pure|]. intros resp.
  destruct (negb (hp_ok resp)); [|by destruct (hp_json resp); intros s2]. apply grows_bind; [apply grows_log|]. by intros _ s2.
Qed.

Definition submission (tauri : bool) (base network hash : string) (st : WithdrawState) : http_call :=
  {| hc_tauri := tauri; hc_url := base +:+ "/v1/bridge/withdraw"; hc_method := "POST";
     hc_body := Some (JObj ([("snowsideAddress", JStr (wd_snowsideAddr st)); ("ecashAddress", JStr (wd_ecashAddr st));
       ("amountEcx", JStr (wd_amount st)); ("network", JStr network); ("burnTxHash", JStr hash)])) |}.

Lemma submit_calls network hash st s :
  In (CFetch (submission (a_isTauri s) (strip_slashes (apiUrl (a_settings s))) (network_key network) hash st))
     (a_calls (snd (submit_withdrawal network hash st s))).
Proof.
  unfold submit_withdrawal. apply called_try; [|by intros m s'].
  apply called_bind; [apply api_calls|]. intros r. apply grows_bind; [apply grows_pure|]. by intros id s'.
Qed.

(** A click on the button with no hash in the form: after a burn that
    succeeded the request carries its hash and the amount. *)
Lemma click_submits a settings st hash s s1 :
  trim (wd_burnTx st) = "" -> str_truthy hash = true -> sendEcx BURN_ADDRESS (wd_amount st) s = (Ok hash, s1) ->
  exists tauri, In (CFetch (submission tauri (strip_slashes (apiUrl (a_settings s)))
    (network_key (activeNetwork settings)) hash st)) (a_calls (snd (withdraw_click (Some a) settings st s))).
Proof.
  intros Hb Hh Hsend. unfold withdraw_click. rewrite Hb. change (negb (str_truthy "")) with true. cbv iota.
  unfold dbind at 1, doBurn. cbn [with_outcome wd_amount wd_burnTx wd_done]. unfold dtry at 1, dbind at 1. rewrite Hsend.
  pose proof (grows_sendEcx BURN_ADDRESS (wd_amount st) s) as Hg1. rewrite Hsend in Hg1. cbn [snd] in Hg1.
  unfold dbind at 1, dtry at 1. pose proof (grows_wait hash s1) as Hg2.
  assert (Hwait : exists s2, (match waitForReceipt hash s1 with
      | (Ok x, s') => (Ok x, s') | (Throw _, s') => dret tt s' end) = (Ok tt, s2) /\ grown s1 s2).
  { destruct (waitForReceipt hash s1) as [[[]|m] s2]; cbn [snd] in Hg2; by exists s2. }
  destruct Hwait as (s2 & -> & Hs2). unfold dret at 1. rewrite Hh. exists (a_isTauri s2).
  destruct Hg1 as [Hset1 _], Hs2 as [Hset2 _]. rewrite <-Hset1, <-Hset2.
  exact (submit_calls _ hash (with_outcome (with_outcome st (wd_burnTx st) None None) hash None None) s2).
Qed.

(** The wallet sent [v] wei to the address and got the hash. *)
Definition sent_for (to : string) (v : Z) (h : string) : Prop :=
  exists account chain gas gasPrice url s s',
    act url (sendTransaction account chain to v gas gasPrice) s = (Ok h, s').

(** The burn is one transaction of the amount's wei to the burn address. *)
Lemma sendEcx_value to amount h s s' :
  sendEcx to amount s = (Ok h, s') -> exists v, parseEther amount = Ok v /\ sent_for to v h.
Proof.
  unfold sendEcx. unfold dbind at 1. destruct (getWalletKey s) as [[[k|]|m] s1]; [|done..].
  destruct (negb (str_truthy k)); [done|]. destruct (negb (isAddress to)); [done|].
  unfold dbind at 1. destruct (getSettings s1) as [[st|m] s2]; [|done].
  unfold dbind at 1, dlift at 1. destruct (account_address _) as [account|m]; [|done].
  unfold dbind at 1. destruct (act _ getChainId s2) as [[cid|m] s3]; [|done].
  unfold dbind at 1, dlift at 1. destruct (parseEther amount) as [v|m]; [|done].
  unfold dbind at 1. destruct (dall _ _ s3) as [[[gp gas]|m] s4]; [|done].
  unfold dbind at 1. destruct (act _ _ s4) as [[h'|m] s5] eqn:E; [|done].
  unfold dbind, log, dget, dput, dret. cbn. intros [= <- _]. exists v. split; [done|].
  exists account. eexists. exists gas, gp. eexists. by exists s4, s5.
Qed.
End client.

(** The request the API gets, when the API URL is its origin. *)
Lemma submission_request tauri base host network hash st :
  is_origin base host -> str_truthy hash = true ->
  api_request host (submission tauri base network hash st) =
    Some (withdrawal_request (wd_snowsideAddr st) (wd_ecashAddr st) (wd_amount st) network hash).
Proof.
  intros Ho Hh. unfold api_request, submission. cbn [hc_url hc_method hc_body].
  change "/v1/bridge/withdraw" with (String "/" "v1/bridge/withdraw"). rewrite (origin_parts _ host) by done.
  rewrite String.eqb_refl. unfold withdrawal_request, withdraw_fields. by rewrite Hh.
Qed.

(** With the API URL of the default settings, which has a path, the Worker is
    asked for another one. *)
Example default_submission_path tauri network hash st :
  rq_path <$> api_request "snowside.network" (submission tauri (strip_slashes (apiUrl defaults)) network hash st) =
    Some ["v1"; "v1"; "bridge"; "withdraw"].
Proof. vm_compute. reflexivity. Qed.

Lemma network_key_is_network n : is_network (network_key n) = true.
Proof. by destruct n. Qed.

(** ** Numerals that a person types *)

(** What the parts make of a numeral of at most fifteen digits, as documented:
    viem reads it as a decimal number of ether; a column of INTEGER affinity
    keeps a whole number as an integer and another as the nearest double,
    which JavaScript prints, unless it is below a millionth, without an
    exponent and in digits that stand for the numeral. *)
Record numeral_reading `{SQ : Sqlite} `{VU : ViemUnits} : Prop := {
  nr_wei s ds k : amount_digits s = Some (ds, k) -> (length ds <= 15)%nat ->
    parseEther s = Ok (be_val 10 ds * 10 ^ (18 - Z.of_nat k));
  nr_whole s ds k m : amount_digits s = Some (ds, k) -> (length ds <= 15)%nat ->
    be_val 10 ds = m * 10 ^ Z.of_nat k -> store INTEGER (FStr s) = FInt m;
  nr_real s ds k : amount_digits s = Some (ds, k) -> (length ds <= 15)%nat ->
    be_val 10 ds mod 10 ^ Z.of_nat k <> 0 -> 10 ^ Z.of_nat k <= be_val 10 ds * 10 ^ 6 ->
    exists repr n d, store INTEGER (FStr s) = FFrac repr /\ includes "." repr = true /\
      parseFloat repr = Some (PFrac false n d) /\ 0 < n /\ 0 < d /\ n * 10 ^ Z.of_nat k = be_val 10 ds * d
}.


(** A numeral has a digit before the dot, and its fraction is among its digits. *)
Lemma amount_digits_shape s ds k :
  amount_digits s = Some (ds, k) -> str_truthy s = true /\ (k < length ds)%nat.
Proof.
  unfold amount_digits. destruct s as [|c s]; [done|]. destruct (span_digits (String c s)) as [[|i ip] r]; [done|].
  destruct r as [|c' r]; [intros [= <- <-]; simpl; split; [done|lia]|].
  destruct (Ascii.eqb c' "."); [|done]. destruct (span_digits r) as [[|f fp] [|? ?]]; try done.
  intros [= <- <-]. split; [done|]. simpl. rewrite length_app. simpl. lia.
Qed.

(** *** An amount with a fraction *)

(** A numeral between a millionth and 2^50 satoshis that is no whole number. *)
Record fractional (s : string) (ds : list Z) (k : nat) : Prop := {
  fr_digits : amount_digits s = Some (ds, k);
  fr_short : (length ds <= 15)%nat;
  fr_fraction : be_val 10 ds mod 10 ^ Z.of_nat k <> 0;
  fr_least : 10 ^ Z.of_nat k <= be_val 10 ds * 10 ^ 6;
  fr_most : be_val 10 ds * 100000000 < 10 ^ Z.of_nat k * 2 ^ 50
}.

(** The service converts what the column holds of it to within two satoshis
    below and one above the wei that the wallet burns. *)
Lemma fractional_target `{SQ : Sqlite} `{VU : ViemUnits} s ds k network :
  numeral_reading -> fractional s ds k ->
  exists v T, parseEther s = Ok v /\ ecxToSats (amount_of_field (store INTEGER (FStr s))) network = Fin T /\
    v - 2 * 10 ^ 10 < T * 10 ^ 10 < v + 10 ^ 10.
Proof.
  intros N [Hd Hs Hf Hl Hm]. pose proof (amount_digits_shape s ds k Hd) as [_ Hk].
  destruct (nr_real N s ds k Hd Hs Hf Hl) as (repr & n & d & -> & Hdot & Hp & Hn & Hd0 & Hr).
  exists (be_val 10 ds * 10 ^ (18 - Z.of_nat k)). set (p := 10 ^ Z.of_nat k) in *. set (b := be_val 10 ds) in *.
  assert (Hp0 : 0 < p) by (unfold p; lia).
  assert (Hq : p * 10 ^ (18 - Z.of_nat k) = 10 ^ 18) by (unfold p; rewrite <-Z.pow_add_r by lia; f_equal; lia).
  assert (Hq0 : 0 < 10 ^ (18 - Z.of_nat k)) by lia. set (q := 10 ^ (18 - Z.of_nat k)) in *.
  destruct (floor_scaled_error n d 100000000 Hn Hd0 ltac:(lia)) as (T & HT & H1 & H2); [nia|].
  exists T. split_and!; [by apply (nr_wei N)| | |].
  - unfold ecxToSats, amount_of_field. cbn [amount_truthy amount_string].
    assert (String.eqb repr "0" || String.eqb repr "NaN" = false) as ->.
    { apply orb_false_iff. split; apply String.eqb_neq; by intros ->. }
    cbn [negb]. by rewrite Hdot, Hp.
  - assert (b * 100000000 < p * (T + 2)) by nia. nia.
  - assert (p * T < b * 100000000 + p) by nia. nia.
Qed.

(** *** A whole amount *)

(** A whole number of ECX, with or without zeros after a dot, below 546 times
    10^10. *)
Record whole (s : string) (m : Z) : Prop := {
  wh_digits : exists ds k, amount_digits s = Some (ds, k) /\ (length ds <= 15)%nat /\
    be_val 10 ds = m * 10 ^ Z.of_nat k;
  wh_range : 0 < m < DUST_LIMIT * ECX_TO_SATS
}.

Lemma whole_target `{SQ : Sqlite} `{VU : ViemUnits} s m :
  numeral_reading -> whole s m -> parseEther s = Ok (m * 10 ^ 18) /\ store INTEGER (FStr s) = FInt m.
Proof.
  intros N [(ds & k & Hd & Hs & Hm) _]. split; [|by apply (nr_whole N s ds k)].
  pose proof (amount_digits_shape s ds k Hd) as [_ Hk]. rewrite (nr_wei N s ds k Hd Hs), Hm.
  f_equal. rewrite <-Z.mul_assoc, <-Z.pow_add_r by lia. do 2 f_equal. lia.
Qed.

(** ** A row that stays unpaid

    A whole amount is stored as an integer, and the service reads an integer
    as wei: its target is below the dust limit. No turn of the service
    completes such a row, whatever is answered and lost. *)

Section stuck.
Context `{HL : HdLibrary} `{BL : BtcLibrary} `{VL : ViemLibrary}.
Context `{SQ : Sqlite} `{ZD : Zod} `{CH : Chanfana}.
Context (m : Z) (Hm : 0 < m < DUST_LIMIT * ECX_TO_SATS).

Definition stuck_row (x : record) : Prop :=
  fget x "amount_ecx" = FInt m /\ fget x "amount_sats" = FNull /\
  (fget x "status" = FStr "pending" \/ fget x "status" = FStr "failed").

Lemma stuck_target x :
  stuck_row x -> exists T, T < DUST_LIMIT /\
    sats_or (w_amount_sats (Withdrawal_of x)) (ecxToSats (w_amount_ecx (Withdrawal_of x)) (w_network (Withdrawal_of x))) = Fin T.
Proof using Hm.
  intros (Ha & Hs & _). cbn [w_amount_sats w_amount_ecx Withdrawal_of]. unfold fget_int. rewrite Ha, Hs.
  unfold ecxToSats, amount_of_field. cbn [amount_truthy amount_string sats_or]. unfold DUST_LIMIT, ECX_TO_SATS in *.
  destruct (negb _); [exists 0; split; [lia|done]|]. destruct (dec_str_no_dot m ltac:(lia)) as [-> _].
  rewrite BigInt_of_dec_str by lia. exists (Z.quot m (10 ^ 10)). rewrite Z.quot_div_nonneg by lia.
  assert (m / 10 ^ 10 < 546) by (apply Z.div_lt_upper_bound; lia).
  assert (0 <= m / 10 ^ 10) by (apply Z.div_pos; lia).
  split; [done|]. apply Number_of_BigInt_exact. lia.
Qed.

Lemma stuck_unpaid x raw : stuck_row x -> ~ pays_withdrawal (Withdrawal_of x) raw.
Proof using Hm.
  intros Hx (target & us & wal & ch & tx & bytes & Htarget & Hlt & _).
  destruct (stuck_target x Hx) as (T & HT & E). rewrite E in Htarget. subst target.
  cbn [num_lt] in Hlt. apply Z.ltb_ge in Hlt. lia.
Qed.

(** A report about the row that is no payment. *)
Definition only_fails (e : event) : Prop :=
  forall url a body, ev_query e = QApiPatch url a body ->
    rec_get body "amount_sats" = None /\ rec_get body "status" = Some (FStr "failed").

Lemma nothing_built `{Environment} (P : event -> Prop) x fds url w0 change (f : option string -> M service unit) :
  stuck_row x -> emits P (f None) ->
  emits P (mbind (buildSignAndBroadcastWithdrawal (w_network (Withdrawal_of x)) (request_of (Withdrawal_of x)) fds url w0 change) f).
Proof using Hm.
  intros Hx Hf. destruct (stuck_target x Hx) as (T & HT & E).
  unfold buildSignAndBroadcastWithdrawal. cbn [wr_amount_sats wr_amount_ecx wr_network request_of].
  unfold num_le. rewrite E. cbn [num_lt]. rewrite (proj2 (Z.ltb_lt T DUST_LIMIT) HT).
  by destruct (negb _).
Qed.

Lemma stuck_turn `{Environment} cfg now x :
  stuck_row x -> emits only_fails (processOneWithdrawal cfg now (Withdrawal_of x)).
Proof using Hm.
  intros Hx. unfold processOneWithdrawal, processWithdrawal, verifyBurnTx, fetchFundedDeposits.
  repeat match goal with
  | |- emits _ (mbind (buildSignAndBroadcastWithdrawal _ _ _ _ _ _) _) => by apply nothing_built; [|apply emits_ret]
  | |- emits _ (apiPatch _ _ _) => by apply apiPatch_emits; intros ? ? ? ? [= _ _ <-]
  | |- emits _ (getWallet _) => apply silent_emits, getWallet_silent
  | |- emits _ (getPublicClient _ _) => apply silent_emits, getPublicClient_silent
  | |- emits _ (mlift _) => apply emits_lift
  | |- only_fails _ => by intros ? ? ?
  | _ => emit_step
  end.
Qed.

Context (cfg : Config) (rt : runtime) (d0 : db) (drop : query -> bool) (w : Environment) (id : string).
Hypothesis Hd0 : db_ok d0.

#[local] Hint Extern 0 Environment => exact (here cfg rt d0 drop w) : typeclass_instances.
Local Abbreviation tabs := (tables cfg rt d0 drop).
Local Abbreviation after_call := (after_call cfg rt drop).

Definition stuck (d : db) : Prop := exists x, In x (withdrawals d) /\ fget x "id" = FStr id /\ stuck_row x.

Lemma after_call_stuck q d : db_ok d -> (forall r, only_fails (Ev q r)) -> stuck d -> stuck (after_call q d).
Proof using.
  clear Hm. intros Hd Hq (x & Hin & Hid & Ha & Hs & Hst).
  destruct (after_call_row cfg rt drop Withdrawals q d x Hd Hin) as [Hin'|(i & a & body & set & -> & _ & Hp & Hset & Hin')].
  { by exists x. }
  destruct (Hq (Resp 200 None) _ _ _ eq_refl) as (Hbs & Hbf).
  assert (Hok : row_ok Withdrawals x).
  { apply (db_ok_table Withdrawals) in Hd as [Hrok _]. rewrite list.Forall_forall in Hrok.
    apply Hrok. by apply list_elem_of_In. }
  exists (set_columns (schema_of Withdrawals) set x). unfold stuck_row. split_and!; [done|..].
  - rewrite (set_keeps_cell Withdrawals); try done. simpl. intuition discriminate.
  - rewrite (set_keeps_cell Withdrawals); try done. simpl. intuition discriminate.
  - rewrite (set_columns_other Withdrawals); [done|apply Hok|].
    destruct (rec_get set "amount_sats") as [v|] eqn:E; [|done]. apply Hset in E; [congruence|in_list].
  - right. assert (Hc : In (column_named Withdrawals "status") (schema_of Withdrawals)) by in_list.
    refine (eq_trans (set_columns_set Withdrawals set x _ _ Hc _) (store_text _)). apply Hset; [in_list|done].
Qed.

(** What the service may do without touching the row, or marking it failed. *)
Definition leaves_stuck (e : event) : Prop := patch_to (other_row cfg Withdrawals id) e \/ only_fails e.

Lemma stuck_kept t t' : added leaves_stuck t t' -> stuck (tabs t) -> stuck (tabs t').
Proof using Hd0.
  clear Hm. apply tables_keep; [done|]. intros q r d [He|He] Hd Hs.
  - destruct Hs as (x & Hin & Hid & Hx). exists x. split; [|done].
    by apply (after_call_spares cfg rt drop Withdrawals id).
  - apply after_call_stuck; [done| |done]. intros r' url a body E. by apply (He url a body).
Qed.

(** A listing that is accepted is that of the tables. *)
Lemma listing_shows tb t st rows :
  respond (QApiGet (API_URL cfg +:+ listing_path tb) (auth cfg)) t = Resp st (Some rows) -> resp_ok st = true ->
  rows = select_where tb (is_open tb) false (tabs t).
Proof.
  unfold respond, here, deployed. destruct (drop _); [done|]. cbn [call_request]. rewrite listing_request_path.
  cbn [fmap option_fmap option_map].
  pose proof (handle_listing rt tb (Some (auth cfg)) None (tabs t)) as Hl.
  destruct (handle_request _ _ _) as [ans d']. cbn [fst]. destruct Hl as [_ [(st' & b & -> & Hst)| ->]].
  - intros [= <- _]. congruence.
  - cbn [api_reply http_of rows_answer]. rewrite rows_of_json_rows. by intros [= _ <-].
Qed.

(** A computation keeps the row stuck. *)
Definition keeps_stuck {A} (c : M service A) : Prop := forall s t, stuck (tabs t) -> stuck (tabs (snd (c s t))).

Lemma stuck_emits {A} (c : M service A) : emits leaves_stuck c -> keeps_stuck c.
Proof using Hd0.
  intros Hc s t Hs. specialize (Hc s t). unfold runs in Hc. destruct (c s t) as [[o s'] t'].
  by apply (stuck_kept t).
Qed.

Lemma stuck_bind {A B} (c : M service A) (f : A -> M service B) :
  keeps_stuck c -> (forall a, keeps_stuck (f a)) -> keeps_stuck (mbind c f).
Proof.
  intros Hc Hf s t Hs. unfold mbind. specialize (Hc s t Hs). destruct (c s t) as [[[a|e] s'] t']; [by apply Hf|done].
Qed.

Lemma stuck_try {A} (c : M service A) h : keeps_stuck c -> (forall e, keeps_stuck (h e)) -> keeps_stuck (mtry c h).
Proof.
  intros Hc Hh s t Hs. unfold mtry. specialize (Hc s t Hs). destruct (c s t) as [[[a|e] s'] t']; [done|by apply Hh].
Qed.

Lemma stuck_ret {A} (a : A) : keeps_stuck (mret a).
Proof. by intros s t. Qed.

(** The rows of the listing: the stuck one, and others. *)
Lemma listed_turn t now x :
  stuck (tabs t) -> In x (select_where Withdrawals (is_open Withdrawals) false (tabs t)) ->
  emits leaves_stuck (processOneWithdrawal cfg now (Withdrawal_of x)).
Proof using Hm Hd0.
  intros (y & Hy & Hyid & Hstuck) Hx. destruct (listed_has_id cfg rt d0 drop Withdrawals _ t x Hd0 Hx) as [i Hi].
  apply select_where_in in Hx as [Hx _]. destruct (decide (i = id)) as [->|Hne].
  - assert (x = y) as -> by (apply (unique_id Withdrawals (tabs t)); [by apply tables_ok|done|done|congruence]).
    eapply emits_mono; [|by apply stuck_turn]. by right.
  - eapply emits_mono; [|by apply (withdrawal_work_own cfg rt d0 drop w now x i)].
    intros e He. left. intros url a body E. rewrite <-(He url a body E). by intros [_ ?]%item_url_inj.
Qed.

Lemma withdrawals_pass_stuck : keeps_stuck (processPendingWithdrawals cfg).
Proof using Hm Hd0.
  apply stuck_try; [|intros; apply stuck_ret]. intros s t Hs. unfold mbind at 1, apiGet, mbind at 1, ask at 1.
  set (q := QApiGet _ _). pose proof (listing_shows Withdrawals t) as Hl. change (QApiGet _ _) with q in Hl.
  assert (Hs1 : forall r, stuck (tabs (Ev q r :: t))).
  { intros r. apply (stuck_kept t); [|done]. apply added_cons. left. by intros ? ? ?. }
  destruct (respond q t) as [e|st [rows|]] eqn:Eq; cbn [http_json]; [apply Hs1| |destruct (negb _); apply Hs1].
  destruct (resp_ok st) eqn:Eok; cbn [negb]; [|apply Hs1]. rewrite (Hl st rows eq_refl Eok). unfold mret at 1.
  refine ((_ : keeps_stuck _) s _ (Hs1 _)). apply stuck_emits. apply emits_bind.
  - apply emits_ask. intros r. left. by intros ? ? ?.
  - intros now s1 t1. unfold runs. rewrite mfor_map.
    refine ((_ : emits leaves_stuck (mfor _ _)) s1 t1). apply emits_for. intros x Hx. by apply (listed_turn t).
Qed.

Lemma turn_stuck : keeps_stuck (Federation.poll_once cfg).
Proof using Hm Hd0.
  assert (Hother : forall A (c : M service A), emits (patch_to (other_row cfg Withdrawals id)) c -> keeps_stuck c).
  { intros A c Hc. apply stuck_emits. eapply emits_mono; [|exact Hc]. by left. }
  apply stuck_try; [|intros; apply stuck_ret]. apply stuck_bind; [apply Hother, checkIn_patches|intros _].
  apply stuck_bind; [|intros _; apply withdrawals_pass_stuck]. apply Hother, processPendingDeposits_patches.
  by intros i [? _]%item_url_inj.
Qed.

Lemma loop_stuck n : keeps_stuck (main_loop cfg n).
Proof using Hm Hd0.
  induction n as [|n IH]; [apply stuck_ret|]. cbn [main_loop]. apply stuck_bind; [apply turn_stuck|by intros _].
Qed.
End stuck.

(** ** Properties *)

Section posted.
Context `{OUT : Outside} `{VU : ViemUnits} `{SQ : Sqlite} `{ZD : Zod} `{CH : Chanfana}.

(** What the API gets of a click after a burn, and the row it makes of it. *)
Definition click_request (settings : Settings) (st : WithdrawState) (hash : string) : request :=
  withdrawal_request (wd_snowsideAddr st) (wd_ecashAddr st) (wd_amount st) (network_key (activeNetwork settings)) hash.

Definition click_row (rt : runtime) (settings : Settings) (st : WithdrawState) (hash : string) : record :=
  stored_row rt (wd_snowsideAddr st) (wd_ecashAddr st) (wd_amount st) (network_key (activeNetwork settings)) hash.

(** Among the calls is one that the Worker at [host] gets as the request [rq],
    and it adds the row [r] for this amount. *)
Definition posted (host : string) (calls : list call) (rt : runtime) (rq : request) (amount : string) (d : db) (r : record) : Prop :=
  let d' := after_request rt rq d in
  exists c, In (CFetch c) calls /\ api_request host c = Some rq /\ db_ok d' /\
    handle_request rt rq d = (ok_json [("id", JStr (rt_uuid rt)); ("status", JStr "pending")], d') /\
    withdrawals d' = withdrawals d ++ [r] /\ deposits d' = deposits d /\
    fget r "id" = FStr (rt_uuid rt) /\ fget r "status" = FStr "pending" /\
    fget r "amount_ecx" = store INTEGER (FStr amount) /\
    fget r "amount_sats" = FNull.

(** A burn that succeeded is in the tables of the API that gets the request. *)
Lemma click_posts host a settings st s hash s1 rt d :
  is_origin (strip_slashes (apiUrl (a_settings s))) host ->
  trim (wd_burnTx st) = "" -> str_truthy hash = true -> sendEcx BURN_ADDRESS (wd_amount st) s = (Ok hash, s1) ->
  takes rt d -> str_truthy (wd_snowsideAddr st) = true -> str_truthy (wd_ecashAddr st) = true ->
  str_truthy (wd_amount st) = true ->
  posted host (a_calls (snd (withdraw_click (Some a) settings st s)))
    rt (click_request settings st hash) (wd_amount st) d (click_row rt settings st hash).
Proof.
  intros Ho Hb Hh Hsend Htk Hs He Ha. destruct (click_submits a settings st hash s s1 Hb Hh Hsend) as (tauri & Hin).
  destruct (withdrawal_created rt _ _ _ _ hash d Htk Hs He Ha (network_key_is_network (activeNetwork settings)))
    as (d' & Hreq & Hok & Hw & Hd).
  unfold posted, after_request, click_request. rewrite Hreq. cbn [snd].
  eexists. split_and!; [exact Hin|by apply submission_request|done|done|done|done|..].
  - apply stored_row_id.
  - apply stored_row_status.
  - apply stored_row_amount.
  - apply stored_row_sats.
Qed.
End posted.

(** *** A viem and a SQLite that read numerals so *)

#[refine] Definition decimal_units : ViemUnits := {|
  isAddress := @isAddress toy_units;
  parseEther s := match amount_digits s with
                  | Some (ds, k) => Ok (be_val 10 ds * 10 ^ (18 - Z.of_nat k))
                  | None => Throw "InvalidDecimalNumber"
                  end;
  formatEther := @formatEther toy_units;
  account_address := @account_address toy_units;
  getChainId := @getChainId toy_units;
  getGasPrice := @getGasPrice toy_units;
  estimateGas := @estimateGas toy_units;
  sendTransaction := @sendTransaction toy_units;
  waitForTransactionReceipt := @waitForTransactionReceipt toy_units
|}.
Proof. apply (@receipt_reads toy_units). Defined.

#[refine] Definition numeral_sqlite : Sqlite := {|
  store a f := match a, f with
    | INTEGER, FStr s =>
        match amount_digits s with
        | Some (ds, k) =>
            let p := 10 ^ Z.of_nat k in
            if be_val 10 ds mod p =? 0 then FInt (be_val 10 ds / p) else FFrac s
        | None => f
        end
    | _, _ => f
    end;
  order_by := @order_by ref_sqlite
|}.
Proof.
  - done.
  - done.
  - intros f. by destruct f.
  - intros [] f; try done. destruct f as [|z|s|s]; try done.
    destruct (amount_digits s) as [[ds k]|]; [|done]. cbv zeta. by destruct (_ =? 0).
  - apply (@order_by_perm ref_sqlite).
  - apply (@order_by_asc ref_sqlite).
  - apply (@order_by_desc ref_sqlite).
Defined.

(** A text that starts with a digit is read from its start. *)
Lemma digit_start c s :
  is_digit c = true -> trim_start (String c s) = String c s /\ span_sign (String c s) = (false, String c s) /\
    starts_with "Infinity" (String c s) = false.
Proof. destruct c as [[] [] [] [] [] [] [] []]; try done. Qed.

(** [parseFloat] of a numeral with a dot. *)
Lemma parseFloat_numeral s ds k :
  amount_digits s = Some (ds, k) -> (0 < k)%nat ->
  includes "." s = true /\ parseFloat s = Some (PFrac false (be_val 10 ds) (10 ^ Z.of_nat k)).
Proof.
  unfold amount_digits. destruct (span_digits s) as [[|i ip] r] eqn:E; [done|]. destruct r as [|c r]; [intros [= _ <-]; lia|].
  destruct (Ascii.eqb_spec c ".") as [->|]; [|done]. destruct (span_digits r) as [[|f fp] [|? ?]] eqn:Er; try done.
  intros [= <- <-] _. assert (Hs : exists c s', s = String c s' /\ is_digit c = true).
  { destruct s as [|c s]; [done|]. cbn [span_digits] in E. destruct (is_digit c) eqn:Ec; [by exists c, s|done]. }
  destruct Hs as (c & s' & -> & Hc). split.
  - clear Hc Er. revert E. generalize (String c s'), (i :: ip), r. clear.
    intros s. induction s as [|c s IH]; intros l r E; [done|]. cbn [span_digits] in E.
    destruct (is_digit c) eqn:Ec; [|injection E as _ -> ->; reflexivity].
    destruct (span_digits s) as [l' r'] eqn:E'. injection E as _ ->.
    cbn [includes]. rewrite (IH l' r) by done. apply orb_true_r.
  - destruct (digit_start c s' Hc) as (Ht & Hsg & Hi). unfold parseFloat. rewrite Ht, Hsg, Hi, E, Er.
    cbn [span_exponent]. set (k := Z.of_nat (length (f :: fp))).
    assert (0 < k) by (unfold k; simpl; lia). replace (0 - k) with (- k) by lia.
    destruct (Z.leb_spec 0 (- k)); [lia|]. by rewrite Z.opp_involutive.
Qed.

Lemma numerals_are_read : @numeral_reading numeral_sqlite decimal_units.
Proof.
  split.
  - intros s ds k E _. cbn. by rewrite E.
  - intros s ds k m E _ Hm. cbn. rewrite E, Hm, Z_mod_mult, Z.div_mul by lia. done.
  - intros s ds k E _ Hf Hl. destruct k as [|k]; [by rewrite Z.mod_1_r in Hf|].
    destruct (parseFloat_numeral s ds (S k) E ltac:(lia)) as [Hd Hp].
    exists s, (be_val 10 ds), (10 ^ Z.of_nat (S k)). split_and!; [|done|done|nia|lia|done].
    cbn [store numeral_sqlite]. rewrite E. cbv zeta. by destruct (Z.eqb_spec (be_val 10 ds mod 10 ^ Z.of_nat (S k)) 0).
Qed.

(** A form, its network, and an API that has a funded deposit. *)
Definition form_of (amount : string) : WithdrawState := {|
  wd_snowsideAddr := "0xuser"; wd_ecashAddr := "tb1quser"; wd_amount := amount; wd_burnTx := "";
  wd_busy := None; wd_error := None; wd_done := None |}.

Definition signet_settings : Settings := {|
  theme := dark; activeNetwork := signet; rpcUrls := rpcUrls defaults; apiUrl := "https://snowside.network" |}.

(** The app, set to the API's origin. *)
Definition form_app : app := with_settings signet_settings (a_storage toy_app) toy_app.

Definition form_rt : runtime := toy_runtime 3000 "w2".

Definition form_tables (amount : string) : db :=
  @after_request numeral_sqlite ref_zod ref_chanfana form_rt
    (click_request signet_settings (form_of amount) "0xburned") unpaid_tables.

Definition form_row (amount : string) : record :=
  @click_row numeral_sqlite form_rt signet_settings (form_of amount) "0xburned".

Definition form_trace (amount : string) (n : nat) : trace :=
  @loop_trace toy_library toy_btc toy_viem
    (@deployed numeral_sqlite ref_zod ref_chanfana toy_cfg bridge_runtime (form_tables amount) check_ins_lost (toy_world []))
    toy_cfg n (@boot toy_library).

Definition form_end (amount : string) (n : nat) : db :=
  @tables numeral_sqlite ref_zod ref_chanfana toy_cfg bridge_runtime (form_tables amount) check_ins_lost (form_trace amount n).

#[local] Strategy expand [form_trace form_end form_tables].

Lemma form_takes : takes form_rt unpaid_tables.
Proof. split; [reflexivity|apply unpaid_ok|vm_compute; reflexivity]. Qed.

(** C6. The value of a withdrawal arrives. In an app whose API URL is the
    Worker's origin, not the default one, whose path the Worker would see, when
    the burn of a typed amount with a fraction succeeds, the click that made it
    has posted a request that the API stores as a new row; and every deployment of the service on these
    tables that reaches the row and finds it due pays it in its first turn,
    the satoshis that it pays being worth what was burned to within two
    satoshis below and one above. *)
Theorem desktop_withdrawal_is_paid_out `{HL : HdLibrary} `{BL : BtcLibrary} `{VL : ViemLibrary}
    `{SQ : Sqlite} `{ZD : Zod} `{CH : Chanfana} `{OUT : Outside} `{VU : ViemUnits} host a settings st hash s s1 ds k rt d :
  is_origin (strip_slashes (apiUrl (a_settings s))) host -> numeral_reading -> trim (wd_burnTx st) = "" -> str_truthy hash = true ->
  sendEcx BURN_ADDRESS (wd_amount st) s = (Ok hash, s1) -> fractional (wd_amount st) ds k ->
  takes rt d -> str_truthy (wd_snowsideAddr st) = true -> str_truthy (wd_ecashAddr st) = true ->
  let rq := click_request settings st hash in
  let r := click_row rt settings st hash in
  let d' := after_request rt rq d in
  posted host (a_calls (snd (withdraw_click (Some a) settings st s)))
    rt rq (wd_amount st) d r /\
  exists burned, sent_for BURN_ADDRESS burned hash /\
    forall cfg rt' drop (w : Environment) id0 address url w0 T n sv,
      reached cfg rt' d' drop Withdrawals (rt_uuid rt) -> due cfg rt' d' drop w (rt_uuid rt) address url w0 T r ->
      wallet_is w0 sv -> backing id0 (w_network (Withdrawal_of r)) address d' -> (0 < n)%nat ->
      let t := @loop_trace HL BL VL (deployed cfg rt' d' drop w) cfg n sv in
      burned - 2 * 10 ^ 10 < T * 10 ^ 10 < burned + 10 ^ 10 /\
      exists l1 raw, paid_in (rt_uuid rt) T (trim l1) (tables cfg rt' d' drop t) /\
        pays_withdrawal (Withdrawal_of r) raw /\ In (Ev (QBroadcast url raw) (Resp 200 (Some l1))) t.
Proof.
  intros Ho N Hb Hh Hsend F Htk Hs He rq r d'. destruct (amount_digits_shape _ _ _ (fr_digits _ _ _ F)) as [Ha _].
  destruct (sendEcx_value _ _ _ _ _ Hsend) as (burned & Hv & Hsent).
  pose proof (click_posts host a settings st s hash s1 rt d Ho Hb Hh Hsend Htk Hs He Ha) as Hposted.
  split; [exact Hposted|]. exists burned. split; [done|]. intros cfg rt' drop w id0 address url w0 T n sv R D Hw Hback Hn t.
  destruct Hposted as (c & _ & _ & _ & _ & Hrows & _ & _ & _ & Hamount & Hsats).
  fold r in Hamount, Hsats. split.
  - destruct (fractional_target _ _ _ (w_network (Withdrawal_of r)) N F) as (v & T' & Hv' & HT & Hacc).
    pose proof (BridgePays.wd_amount _ _ _ _ _ _ _ _ _ _ _ D) as HD. cbn [w_amount_sats w_amount_ecx Withdrawal_of] in HD.
    unfold fget_int in HD. rewrite Hsats, Hamount in HD. cbn [sats_or] in HD. rewrite HT in HD.
    rewrite Hv in Hv'. by simplify_eq.
  - refine (loop_pays cfg rt' d' drop w (rt_uuid rt) id0 address url w0 T r n sv [] R D Hw Hback _ Hn).
    cbn [tables]. unfold d', rq. rewrite Hrows. apply in_app_iff. right. by left.
Qed.

Lemma desktop_withdrawal_is_paid_out_witness :
  exists burned hash, @sent_for toy_outside decimal_units BURN_ADDRESS burned "0xburned" /\
    burned - 2 * 10 ^ 10 < 50000 * 10 ^ 10 < burned + 10 ^ 10 /\
    paid_in "w2" 50000 (trim hash) (form_end "0.0005" 2).
Proof.
  destruct (@desktop_withdrawal_is_paid_out toy_library toy_btc toy_viem numeral_sqlite ref_zod ref_chanfana toy_outside
    decimal_units "snowside.network" "0xuser" signet_settings (form_of "0.0005") "0xburned" form_app
    (snd (@sendEcx toy_outside decimal_units BURN_ADDRESS "0.0005" form_app)) [0; 0; 0; 0; 5] 4 form_rt unpaid_tables)
    as ((c & _ & _ & Hok & _) & burned & Hsent & Hpays).
  - exists "https:". reflexivity.
  - apply numerals_are_read.
  - reflexivity.
  - reflexivity.
  - vm_compute. reflexivity.
  - split; [reflexivity|vm_compute; lia|vm_compute; discriminate|vm_compute; discriminate|vm_compute; reflexivity].
  - apply form_takes.
  - reflexivity.
  - reflexivity.
  - destruct (Hpays toy_cfg bridge_runtime check_ins_lost (toy_world []) "d1"
      (default "" (fget_str coin_row "ecash_address")) "https://esplora.signet.drivechain.info" toy_w0 50000 2%nat
      (@boot toy_library)) as (Hval & hash & raw & Hp & _).
    + split; try (vm_compute; reflexivity). exact Hok.
    + split; try (vm_compute; reflexivity).
      * exists "0xburned". split_and!; [vm_compute; reflexivity..|]. intros t. vm_compute. reflexivity.
      * eexists. vm_compute. reflexivity.
      * vm_compute. discriminate.
      * intros t. eexists. split; [vm_compute; reflexivity|].
        by apply toy_coins_build; [intros a t'; vm_compute|vm_compute|vm_compute].
      * intros raw t. exists "l1hash". split; vm_compute; reflexivity.
      * intros u (a & t & st & us & E & Hu). injection E as <- <-. destruct Hu as [<-|[]]. vm_compute. discriminate.
      * intros t. eexists. split; [vm_compute; reflexivity|]. vm_compute. discriminate.
    + left. reflexivity.
    + exists coin_row. split_and!; try (vm_compute; reflexivity); [vm_compute; left; reflexivity|].
      eexists. vm_compute. reflexivity.
    + lia.
    + exists burned, hash. split; [exact Hsent|]. split; [exact Hval|exact Hp].
Defined.

(** C7. A whole amount is burned for nothing. In an app whose API URL is the
    Worker's origin, when the typed amount is a whole number of ECX below 546
    times 10^10, written with or without zeros after a dot, the wallet burns
    all of it and the request is stored, but in every
    deployment of the service on these tables, whatever else happens and
    however long it runs, the row is never completed, and no transaction that
    the service builds would pay it. *)
Theorem whole_burn_is_never_paid `{HL : HdLibrary} `{BL : BtcLibrary} `{VL : ViemLibrary}
    `{SQ : Sqlite} `{ZD : Zod} `{CH : Chanfana} `{OUT : Outside} `{VU : ViemUnits} host a settings st hash s s1 m rt d :
  is_origin (strip_slashes (apiUrl (a_settings s))) host -> numeral_reading -> trim (wd_burnTx st) = "" -> str_truthy hash = true ->
  sendEcx BURN_ADDRESS (wd_amount st) s = (Ok hash, s1) -> whole (wd_amount st) m ->
  takes rt d -> str_truthy (wd_snowsideAddr st) = true -> str_truthy (wd_ecashAddr st) = true ->
  let rq := click_request settings st hash in
  let r := click_row rt settings st hash in
  let d' := after_request rt rq d in
  posted host (a_calls (snd (withdraw_click (Some a) settings st s)))
    rt rq (wd_amount st) d r /\
  sent_for BURN_ADDRESS (m * 10 ^ 18) hash /\
    forall cfg rt' drop (w : Environment) n sv,
      let d'' := tables cfg rt' d' drop (@loop_trace HL BL VL (deployed cfg rt' d' drop w) cfg n sv) in
      exists x, In x (withdrawals d'') /\ fget x "id" = FStr (rt_uuid rt) /\
        (forall y, In y (withdrawals d'') -> fget y "id" = FStr (rt_uuid rt) -> y = x) /\
        (fget x "status" = FStr "pending" \/ fget x "status" = FStr "failed") /\
        forall raw, ~ pays_withdrawal (Withdrawal_of x) raw.
Proof.
  intros Ho N Hb Hh Hsend W Htk Hs He rq r d'. destruct (wh_digits _ _ W) as (ds & k & Hd & _).
  destruct (amount_digits_shape _ _ _ Hd) as [Ha _]. destruct (whole_target _ _ N W) as [Hwei Hint].
  destruct (sendEcx_value _ _ _ _ _ Hsend) as (burned & Hv & Hsent). rewrite Hwei in Hv. injection Hv as <-.
  pose proof (click_posts host a settings st s hash s1 rt d Ho Hb Hh Hsend Htk Hs He Ha) as Hposted.
  split_and!; [exact Hposted|done|].
  destruct Hposted as (c & _ & _ & Hok & _ & Hrows & _ & Hid & Hst & Hamount & Hsats). rewrite Hint in Hamount.
  intros cfg rt' drop w n sv d''. pose proof (wh_range _ _ W) as Hm.
  assert (Hstuck : stuck m (rt_uuid rt) d').
  { exists r. split_and!; [unfold d', rq; rewrite Hrows; apply in_app_iff; right; by left|done|]. by split_and!; [| |left]. }
  destruct (loop_stuck m Hm cfg rt' d' drop w (rt_uuid rt) Hok n sv [] Hstuck) as (x & Hin & Hxid & Hx).
  exists x. split_and!; [done|done| |apply Hx|intros raw; by apply (stuck_unpaid m Hm)].
  intros y Hy Hyid. apply (unique_id Withdrawals d''); [by apply tables_ok|done|done|congruence].
Qed.

Lemma whole_burn_is_never_paid_witness :
  @sent_for toy_outside decimal_units BURN_ADDRESS (5 * 10 ^ 18) "0xburned" /\
  exists x, In x (withdrawals (form_end "5.0" 2)) /\ fget x "id" = FStr "w2" /\
    (fget x "status" = FStr "pending" \/ fget x "status" = FStr "failed") /\
    forall raw, ~ @pays_withdrawal toy_library toy_btc (Withdrawal_of x) raw.
Proof.
  destruct (@whole_burn_is_never_paid toy_library toy_btc toy_viem numeral_sqlite ref_zod ref_chanfana toy_outside
    decimal_units "snowside.network" "0xuser" signet_settings (form_of "5.0") "0xburned" form_app
    (snd (@sendEcx toy_outside decimal_units BURN_ADDRESS "5.0" form_app)) 5 form_rt unpaid_tables)
    as (_ & Hsent & Hnever).
  - exists "https:". reflexivity.
  - apply numerals_are_read.
  - reflexivity.
  - reflexivity.
  - vm_compute. reflexivity.
  - split; [|vm_compute; split; reflexivity]. exists [5; 0], 1%nat. split_and!; [reflexivity|simpl; lia|reflexivity].
  - apply form_takes.
  - reflexivity.
  - reflexivity.
  - split; [exact Hsent|].
    destruct (Hnever toy_cfg bridge_runtime check_ins_lost (toy_world []) 2%nat (@boot toy_library))
      as (x & Hin & Hid & _ & Hst & Hno).
    exists x. split; [exact Hin|]. split; [exact Hid|]. split; [exact Hst|exact Hno].
Defined.
