(* ===== verification/TourRuntime.v ===== *)
(** * The tour's client runtime ([packages/tour/assets/tour.js])

    One page state per load: the viewport, the slide index, the display mode,
    the swipe being tracked, and every property of the DOM the script writes.
    Each handler of [init] is a function on that state; [step] dispatches the
    browser's events to them. Coordinates are whole CSS pixels; a style value
    that is a computed Number keeps the double ([dbl]) it is printed from. The
    stage is taken to exist, as in the document the build writes. *)

From Stdlib Require Import ZArith Lia Ascii String List Bool.
From stdpp Require Import base list strings numbers pretty.
From S2P Require Import Prelude JsNumber.
Local Open Scope Z_scope.

(** ** Numbers *)

(** [a < b] on finite non-negative doubles. *)
Definition dbl_ltb (x y : dbl) : bool :=
  let (a, b) := dbl_ratio x in let (c, d) := dbl_ratio y in a * d <? c * b.

(** [Math.min(x, y)] *)
Definition dbl_min (x y : dbl) : dbl := if dbl_ltb y x then y else x.

(** [parseInt(s, 10)]; [None] is NaN. A value of 2^53 or more would be rounded,
    which no comparison with a slide count can see. *)
Definition parseInt10 (str : string) : option Z :=
  let (neg, s) := span_sign (trim_start str) in
  match span_digits s with
  | ([], _) => None
  | (ds, _) => Some (if neg then - be_val 10 ds else be_val 10 ds)
  end.

(** ** State *)

Inductive display_mode := deck | mobile.

#[global] Instance display_mode_eq : EqDecision display_mode.
Proof. solve_decision. Defined.

Definition mode_name (m : display_mode) : string :=
  match m with deck => "deck" | mobile => "mobile" end.

(** A style property: unset, a number followed by a unit, or other text. *)
Inductive css := Unset | Num (x : dbl) (unit : string) | Text (s : string).

(** What the script writes. An [option] field is an element the page may lack
    ([if (progress)]); [scroll_top] has a slide's scroller, if it has one. *)
Record dom := MkDom {
  data_mode : string;
  scale : css;
  transform : css;
  slide_active : list bool;
  scroll_top : list (option Z);
  progress : option css;
  dot_active : list bool;
  counter : option string;
  prev_disabled : option bool;
  next_disabled : option bool;
  hint_hidden : option bool;
}.

Inductive fullscreen_call := RequestFullscreen | ExitFullscreen.

Record window_state := MkWindow {
  innerWidth : Z;
  innerHeight : Z;
  hash : string;
  history : nat;
  has_replaceState : bool;
  fullscreen_element : bool;
  can_request : bool;
  can_exit : bool;
  fullscreen_calls : list fullscreen_call;
}.

Record tour := MkTour {
  index : Z;
  mode : display_mode;
  tracking : bool;
  startX : Z;
  startY : Z;
  win : window_state;
  page : dom;
}.

Definition total (t : tour) : Z := Z.of_nat (length (slide_active (page t))).

Definition set_index (i : Z) (t : tour) : tour :=
  MkTour i (mode t) (tracking t) (startX t) (startY t) (win t) (page t).
Definition set_mode (m : display_mode) (t : tour) : tour :=
  MkTour (index t) m (tracking t) (startX t) (startY t) (win t) (page t).
Definition set_touch (b : bool) (x y : Z) (t : tour) : tour :=
  MkTour (index t) (mode t) b x y (win t) (page t).
Definition set_win (w : window_state) (t : tour) : tour :=
  MkTour (index t) (mode t) (tracking t) (startX t) (startY t) w (page t).
Definition set_page (d : dom) (t : tour) : tour :=
  MkTour (index t) (mode t) (tracking t) (startX t) (startY t) (win t) d.

Definition set_hash (s : string) (n : nat) (w : window_state) : window_state :=
  MkWindow (innerWidth w) (innerHeight w) s n (has_replaceState w)
    (fullscreen_element w) (can_request w) (can_exit w) (fullscreen_calls w).
Definition set_size (x y : Z) (w : window_state) : window_state :=
  MkWindow x y (hash w) (history w) (has_replaceState w)
    (fullscreen_element w) (can_request w) (can_exit w) (fullscreen_calls w).
Definition set_fullscreen (b : bool) (cs : list fullscreen_call) (w : window_state) : window_state :=
  MkWindow (innerWidth w) (innerHeight w) (hash w) (history w) (has_replaceState w)
    b (can_request w) (can_exit w) cs.

(** ** Layout *)

Definition MOBILE_SCALE : dbl := fl 3 5.

Definition deckScale (w : window_state) : dbl :=
  dbl_min (fl (innerWidth w) 980) (fl (innerHeight w) 552).

Definition shouldUseMobile (w : window_state) : bool := dbl_ltb (deckScale w) MOBILE_SCALE.

Definition set_layout (dm : string) (sc tr : css) (d : dom) : dom :=
  MkDom dm sc tr (slide_active d) (scroll_top d) (progress d) (dot_active d) (counter d)
    (prev_disabled d) (next_disabled d) (hint_hidden d).

Definition fitCanvas (t : tour) : tour :=
  let d := page t in
  set_page (set_layout (data_mode d) (Num (deckScale (win t)) "") (transform d) d) t.

(** ** Rendering *)

(** [for (i...) list[i].classList.toggle('active', i === index)] *)
Definition toggle_active (i : Z) (l : list bool) : list bool :=
  imap (fun k _ => Z.of_nat k =? i) l.

(** Every scroller but the visible slide's goes back to the top. *)
Definition reset_scrollers (i : Z) (l : list (option Z)) : list (option Z) :=
  imap (fun k s => if negb (Z.of_nat k =? i) then (fun _ => 0) <$> s else s) l.

Definition progress_pct (i n : Z) : css := Num (dbl_mul (fl (i + 1) n) (Dbl 100 0)) "%".

Definition counter_text (i n : Z) : string := dec_str (i + 1) +:+ " / " +:+ dec_str n.

Definition slide_hash (i : Z) : string := "#" +:+ dec_str (i + 1).

Definition write_hash (h : string) (w : window_state) : window_state :=
  if String.eqb (hash w) h then w
  else if has_replaceState w then set_hash h (history w) w
  else set_hash h (S (history w)) w.

Definition clamp (i n : Z) : Z :=
  let i := if i <? 0 then 0 else i in
  if n - 1 <? i then n - 1 else i.

Definition render (t : tour) : tour :=
  let n := total t in
  let i := clamp (index t) n in
  let d := page t in
  let d' := MkDom (data_mode d) (scale d)
    (match mode t with
     | deck => transform d
     | mobile => Text ("translateX(" +:+ dec_str (- i * 100) +:+ "%)")
     end)
    (match mode t with deck => toggle_active i (slide_active d) | mobile => slide_active d end)
    (match mode t with deck => scroll_top d | mobile => reset_scrollers i (scroll_top d) end)
    ((fun _ => progress_pct i n) <$> progress d)
    (toggle_active i (dot_active d))
    ((fun _ => counter_text i n) <$> counter d)
    ((fun _ => i =? 0) <$> prev_disabled d)
    ((fun _ => i =? n - 1) <$> next_disabled d)
    (hint_hidden d) in
  set_win (write_hash (slide_hash i) (win t)) (set_page d' (set_index i t)).

Definition hide_hint (t : tour) : tour :=
  let d := page t in
  set_page (MkDom (data_mode d) (scale d) (transform d) (slide_active d) (scroll_top d)
    (progress d) (dot_active d) (counter d) (prev_disabled d) (next_disabled d)
    ((fun _ => true) <$> hint_hidden d)) t.

Definition go (next : Z) (t : tour) : tour :=
  if next =? index t then t else hide_hint (render (set_index next t)).

Definition next (t : tour) : tour := go (index t + 1) t.
Definition prev (t : tour) : tour := go (index t - 1) t.

(** ** Mode switching *)

Definition applyMode (t : tour) : tour :=
  let nextMode := if shouldUseMobile (win t) then mobile else deck in
  let changed := negb (bool_decide (nextMode = mode t)) in
  let t := set_mode nextMode t in
  let d := page t in
  let t := match nextMode with
           | deck => fitCanvas (set_page (set_layout (mode_name deck) (scale d) Unset d) t)
           | mobile => set_page (set_layout (mode_name mobile) Unset (transform d) d) t
           end in
  if changed || bool_decide (nextMode = mobile) then render t else t.

(** ** Input *)

Definition SWIPE_MIN : Z := 45.

(** [e.touches] and [e.changedTouches] as their coordinates. *)
Definition onTouchStart (touches : list (Z * Z)) (t : tour) : tour :=
  match touches with
  | [(x, y)] => set_touch true x y t
  | _ => t
  end.

Definition onTouchEnd (changed : list (Z * Z)) (t : tour) : tour :=
  if negb (tracking t) then t
  else
    let t := set_touch false (startX t) (startY t) t in
    match changed with
    | [] => t
    | (x, y) :: _ =>
        let dx := x - startX t in
        let dy := y - startY t in
        if (Z.abs dx <? SWIPE_MIN) || (Z.abs dx <? Z.abs dy) then t
        else if dx <? 0 then next t else prev t
    end.

(** A keyboard event's target. *)
Record key_target := KeyTarget { tagName : string; isContentEditable : bool }.

Definition is_typing (e : option key_target) : bool :=
  match e with
  | None => false
  | Some e => String.eqb (tagName e) "INPUT" || String.eqb (tagName e) "TEXTAREA" || isContentEditable e
  end.

Definition toggleFullscreen (t : tour) : tour :=
  let w := win t in
  let call c := set_win (set_fullscreen (fullscreen_element w) (fullscreen_calls w ++ [c]) w) t in
  if negb (fullscreen_element w) then
    if can_request w then call RequestFullscreen else t
  else if can_exit w then call ExitFullscreen else t.

Definition one_of (l : list string) (k : string) : bool := existsb (String.eqb k) l.
Definition next_keys : list string := ["ArrowRight"; "ArrowDown"; "PageDown"; " "; "Spacebar"].
Definition prev_keys : list string := ["ArrowLeft"; "ArrowUp"; "PageUp"].

(** The second component is whether [preventDefault] was called. *)
Definition onKey (key : string) (target : option key_target) (t : tour) : tour * bool :=
  if is_typing target then (t, false)
  else if one_of next_keys key then (next t, true)
  else if one_of prev_keys key then (prev t, true)
  else if String.eqb key "Home" then (go 0 t, true)
  else if String.eqb key "End" then (go (total t - 1) t, true)
  else if one_of ["f"; "F"] key then (toggleFullscreen t, false)
  else (t, false).

Definition interactive_tags : list string := ["A"; "BUTTON"; "INPUT"; "TEXTAREA"].

Definition in_left_third (clientX : Z) (w : window_state) : bool :=
  let (a, b) := dbl_ratio (dbl_mul (fl (innerWidth w) 1) (fl 33 100)) in clientX * b <? a.

(** [path] holds the tag names from the target up to [document.body], which it
    excludes. *)
Definition onClick (path : list string) (clientX : Z) (t : tour) : tour :=
  if existsb (one_of interactive_tags) path then t
  else match mode t with
       | mobile => next t
       | deck => if in_left_third clientX (win t) then prev t else next t
       end.

(** ** Boot and events *)

(** The slide of [location.hash], when it names one. *)
Definition hash_slide (n : Z) (h : string) : option Z :=
  match parseInt10 (replace_first "#" "" h) with
  | Some v => if (1 <=? v) && (v <=? n) then Some (v - 1) else None
  | None => None
  end.

(** The script's variables before [init]: slide 0, deck mode, no touch. *)
Definition boot (w : window_state) (d : dom) : tour := MkTour 0 deck false 0 0 w d.

Definition init (t : tour) : tour :=
  let t := match hash_slide (total t) (hash (win t)) with
           | Some i => set_index i t
           | None => t
           end in
  render (applyMode t).

(** The listener of [hashchange]. *)
Definition onHashChange (t : tour) : tour :=
  match hash_slide (total t) (hash (win t)) with Some i => go i t | None => t end.

(** What the browser delivers. A resize, a hash change and a fullscreen change
    also change the window before the listener runs; scrolling inside the
    visible slide has no listener. A disabled button delivers no click. *)
Inductive event :=
| EvResize (w h : Z)
| EvKey (key : string) (target : option key_target)
| EvClick (path : list string) (clientX : Z)
| EvTouchStart (touches : list (Z * Z))
| EvTouchEnd (changed : list (Z * Z))
| EvPrev
| EvNext
| EvDot (i : nat)
| EvHash (h : string)
| EvFullscreen (b : bool)
| EvScroll (y : Z).

Definition step (e : event) (t : tour) : tour :=
  match e with
  | EvResize w h => applyMode (set_win (set_size w h (win t)) t)
  | EvKey k tgt => fst (onKey k tgt t)
  | EvClick path x => onClick path x t
  | EvTouchStart l => onTouchStart l t
  | EvTouchEnd l => onTouchEnd l t
  | EvPrev => prev t
  | EvNext => next t
  | EvDot i => if decide (i < length (dot_active (page t)))%nat then go (Z.of_nat i) t else t
  | EvHash h => onHashChange (set_win (set_hash h (history (win t)) (win t)) t)
  | EvFullscreen b => set_win (set_fullscreen b (fullscreen_calls (win t)) (win t)) t
  | EvScroll y =>
      let d := page t in
      set_page (MkDom (data_mode d) (scale d) (transform d) (slide_active d)
        (alter (fmap (fun _ => y)) (Z.to_nat (index t)) (scroll_top d))
        (progress d) (dot_active d) (counter d) (prev_disabled d) (next_disabled d)
        (hint_hidden d)) t
  end.

Definition run (es : list event) (t : tour) : tour := foldl (fun t e => step e t) t es.

(** ** What the page promises *)

(** Exactly slide (or dot) [i] of [l] is marked active. *)
Definition only_active (i : Z) (l : list bool) : Prop :=
  forall k b, l !! k = Some b -> b = (Z.of_nat k =? i).

(** The mode is the viewport's, and the root style is that mode's. *)
Definition layout_ok (t : tour) : Prop :=
  mode t = (if shouldUseMobile (win t) then mobile else deck) /\
  data_mode (page t) = mode_name (mode t) /\
  match mode t with
  | deck => transform (page t) = Unset /\ scale (page t) = Num (deckScale (win t)) ""
  | mobile => scale (page t) = Unset
  end.

(** The document shows slide [index], and everything else agrees with it. *)
Record content_ok (t : tour) : Prop := {
  ok_index : 0 <= index t < total t;
  ok_slide : match mode t with
    | deck => only_active (index t) (slide_active (page t))
    | mobile =>
        transform (page t) = Text ("translateX(" +:+ dec_str (- index t * 100) +:+ "%)") /\
        forall k y, scroll_top (page t) !! k = Some (Some y) -> Z.of_nat k <> index t -> y = 0
    end;
  ok_dots : only_active (index t) (dot_active (page t));
  ok_progress : forall p, progress (page t) = Some p -> p = progress_pct (index t) (total t);
  ok_counter : forall c, counter (page t) = Some c -> c = counter_text (index t) (total t);
  ok_prev : forall b, prev_disabled (page t) = Some b -> b = (index t =? 0);
  ok_next : forall b, next_disabled (page t) = Some b -> b = (index t =? total t - 1);
}.

Definition in_sync (t : tour) : Prop := layout_ok t /\ content_ok t.

(** ** Lemmas *)

Lemma only_active_toggle i l : only_active i (toggle_active i l).
Proof.
  intros k b. unfold toggle_active. rewrite list_lookup_imap.
  destruct (l !! k); [|done]. by intros [= <-].
Qed.

Lemma toggle_active_length i l : length (toggle_active i l) = length l.
Proof. apply length_imap. Qed.

Lemma clamp_range i n : 0 < n -> 0 <= clamp i n < n.
Proof. intros. unfold clamp. destruct (Z.ltb_spec i 0), (Z.ltb_spec (n - 1) i);
  try destruct (Z.ltb_spec (n - 1) 0); lia. Qed.

Lemma clamp_id i n : 0 <= i < n -> clamp i n = i.
Proof. intros. unfold clamp. destruct (Z.ltb_spec i 0); [lia|]. destruct (Z.ltb_spec (n - 1) i); lia. Qed.

Lemma win_write_hash h w :
  innerWidth (write_hash h w) = innerWidth w /\ innerHeight (write_hash h w) = innerHeight w /\
  hash (write_hash h w) = h.
Proof.
  unfold write_hash. destruct (String.eqb_spec (hash w) h); [by subst|].
  by destruct (has_replaceState w).
Qed.

Lemma layout_of_size w w' :
  innerWidth w' = innerWidth w -> innerHeight w' = innerHeight w -> deckScale w' = deckScale w.
Proof. unfold deckScale. by intros -> ->. Qed.

Lemma total_render t : total (render t) = total t.
Proof.
  unfold total, render. cbn. destruct (mode t); [|done]. by rewrite toggle_active_length.
Qed.

Lemma render_scale t : deckScale (win (render t)) = deckScale (win t).
Proof. apply layout_of_size; apply win_write_hash. Qed.

Lemma render_layout t : layout_ok t -> layout_ok (render t).
Proof.
  unfold layout_ok, shouldUseMobile. rewrite render_scale. unfold render.
  cbn [mode set_win set_page set_index page data_mode scale transform]. by destruct (mode t).
Qed.

Lemma render_content t : 0 < total t -> content_ok (render t).
Proof.
  intros Hn. pose proof (clamp_range (index t) _ Hn) as Hi. split; rewrite ?total_render; cbn.
  - done.
  - destruct (mode t); [apply only_active_toggle|]. split; [done|].
    intros k y. unfold reset_scrollers. rewrite list_lookup_imap.
    destruct (scroll_top (page t) !! k) as [o|]; [|done]. cbn.
    destruct (Z.eqb_spec (Z.of_nat k) (clamp (index t) (total t))); cbn; [done|].
    destruct o; [|done]. by intros [= <-].
  - apply only_active_toggle.
  - destruct (progress (page t)); [|done]. by intros p [= <-].
  - destruct (counter (page t)); [|done]. by intros p [= <-].
  - destruct (prev_disabled (page t)); [|done]. by intros p [= <-].
  - destruct (next_disabled (page t)); [|done]. by intros p [= <-].
Qed.

Lemma hide_hint_sync t : in_sync t -> in_sync (hide_hint t).
Proof. intros [Hl []]. by split. Qed.

Lemma go_sync i t : in_sync t -> in_sync (go i t).
Proof.
  intros [Hl Hc]. unfold go. destruct (i =? index t); [done|]. apply hide_hint_sync. split.
  - by apply render_layout.
  - apply render_content. pose proof (ok_index _ Hc). change (total (set_index i t)) with (total t). lia.
Qed.

Lemma applyMode_layout t : layout_ok (applyMode t).
Proof.
  unfold applyMode. destruct (shouldUseMobile (win t)) eqn:E.
  - rewrite orb_comm. rewrite bool_decide_true by done. cbn [orb]. apply render_layout.
    unfold layout_ok. cbn. by rewrite E.
  - destruct (_ || _); [apply render_layout|]; unfold layout_ok; cbn; by rewrite E.
Qed.

(** Without a change of mode a deck keeps its content, and every other case
    renders. *)
Lemma applyMode_content t : content_ok t -> content_ok (applyMode t).
Proof.
  intros Hc. pose proof (ok_index _ Hc). unfold applyMode. destruct (shouldUseMobile (win t)) eqn:E.
  - rewrite orb_comm. rewrite bool_decide_true by done. cbn [orb]. apply render_content.
    change (0 < total t). lia.
  - destruct (bool_decide (deck = mode t)) eqn:Em; cbn.
    + apply bool_decide_eq_true in Em. rewrite bool_decide_false by done. cbn.
      destruct Hc as [? Hs]. split; try done. rewrite <-Em in Hs. done.
    + apply render_content. change (0 < total t). lia.
Qed.

Lemma applyMode_sync t : content_ok t -> in_sync (applyMode t).
Proof. split; [apply applyMode_layout|by apply applyMode_content]. Qed.

Lemma total_applyMode t : total (applyMode t) = total t.
Proof. unfold applyMode. destruct (_ || _); rewrite ?total_render; by destruct (shouldUseMobile (win t)). Qed.

Lemma init_sync t : 0 < total t -> in_sync (init t).
Proof.
  intros Hn. unfold init. split.
  - apply render_layout, applyMode_layout.
  - apply render_content. rewrite total_applyMode. by destruct (hash_slide _ _).
Qed.

Lemma go_index i t : in_sync t -> index (go i t) = clamp i (total t).
Proof.
  intros [_ Hc]. unfold go. destruct (Z.eqb_spec i (index t)) as [->|_]; [|done].
  symmetry. apply clamp_id, Hc.
Qed.

Lemma total_go i t : total (go i t) = total t.
Proof. unfold go. destruct (_ =? _); [done|]. exact (total_render (set_index i t)). Qed.

Lemma layout_of_content t t' :
  mode t' = mode t -> win t' = win t -> page t' = page t -> layout_ok t -> layout_ok t'.
Proof. unfold layout_ok. by intros -> -> ->. Qed.

Lemma set_touch_sync b x y t : in_sync t -> in_sync (set_touch b x y t).
Proof. intros [Hl []]. by split. Qed.

Lemma set_win_content w t : content_ok t -> content_ok (set_win w t).
Proof. by intros []. Qed.

(** A window change that keeps the size keeps the layout. *)
Lemma set_win_sync w t :
  innerWidth w = innerWidth (win t) -> innerHeight w = innerHeight (win t) ->
  in_sync t -> in_sync (set_win w t).
Proof.
  intros Hw Hh [Hl Hc]. split; [|by apply set_win_content].
  unfold layout_ok, shouldUseMobile in *. cbn. by rewrite (layout_of_size _ _ Hw Hh).
Qed.

Lemma scroll_sync y t : in_sync t -> in_sync (step (EvScroll y) t).
Proof.
  intros [Hl Hc]. split; [done|]. destruct Hc as [Hi Hs Hd Hp Hct Hpr Hn]. split; cbn; try done.
  destruct (mode t); [done|]. destruct Hs as [Htr Hs]. split; [done|]. intros k z Hk Hne.
  rewrite list_lookup_alter_ne in Hk by lia. by apply (Hs k).
Qed.

#[export] Hint Resolve go_sync set_touch_sync scroll_sync : snow.

Lemma step_sync e t : in_sync t -> in_sync (step e t).
Proof.
  intros Ht. destruct e as [w h|k tgt|path x|l|l| | |i|h|b|y];
    cbn [step]; unfold onKey, onClick, onTouchStart, onTouchEnd, next, prev, onHashChange,
      toggleFullscreen.
  - apply applyMode_sync, set_win_content, Ht.
  - repeat destruct_if; cbn [fst]; auto with snow; by apply set_win_sync.
  - destruct_if; [done|]. destruct (mode t); [destruct_if|]; auto with snow.
  - destruct l as [|[] []]; auto with snow.
  - destruct_if; [done|]. destruct l as [|[] ?]; [auto with snow|]. repeat destruct_if; auto with snow.
  - auto with snow.
  - auto with snow.
  - destruct (decide _); auto with snow.
  - assert (in_sync (set_win (set_hash h (history (win t)) (win t)) t)) by (by apply set_win_sync).
    destruct (hash_slide _ _); auto with snow.
  - by apply set_win_sync.
  - by apply scroll_sync.
Qed.

Lemma run_sync es t : in_sync t -> in_sync (run es t).
Proof. revert t. induction es as [|e es IH]; intros t Ht; [done|]. apply IH. by apply step_sync. Qed.

(** ** The page as a cursor

    What a visitor asks for, without the DOM: a step forward, a step back, a
    slide, or nothing. *)
Inductive command := Advance | Back | Goto (i : Z) | Stay.

Definition cursor (n : Z) (c : command) (i : Z) : Z :=
  match c with
  | Advance => Z.min (i + 1) (n - 1)
  | Back => Z.max (i - 1) 0
  | Goto j => Z.max 0 (Z.min j (n - 1))
  | Stay => i
  end.

Definition command_of (e : event) (t : tour) : command :=
  match e with
  | EvKey k tgt =>
      if is_typing tgt then Stay
      else if one_of ["ArrowRight"; "ArrowDown"; "PageDown"; " "; "Spacebar"] k then Advance
      else if one_of ["ArrowLeft"; "ArrowUp"; "PageUp"] k then Back
      else if one_of ["Home"] k then Goto 0
      else if one_of ["End"] k then Goto (total t - 1)
      else Stay
  | EvClick path x =>
      if existsb (one_of ["A"; "BUTTON"; "INPUT"; "TEXTAREA"]) path then Stay
      else if bool_decide (mode t = deck) && in_left_third x (win t) then Back else Advance
  | EvTouchEnd ((x, y) :: _) =>
      if tracking t && (45 <=? Z.abs (x - startX t)) && (Z.abs (y - startY t) <=? Z.abs (x - startX t))
      then if x <? startX t then Advance else Back
      else Stay
  | EvPrev => Back
  | EvNext => Advance
  | EvDot i => if bool_decide (i < length (dot_active (page t)))%nat then Goto (Z.of_nat i) else Stay
  | EvHash h => match hash_slide (total t) h with Some i => Goto i | None => Stay end
  | EvResize _ _ | EvTouchStart _ | EvTouchEnd [] | EvFullscreen _ | EvScroll _ => Stay
  end.

Lemma cursor_go i t : in_sync t -> index (go i t) = cursor (total t) (Goto i) (index t).
Proof.
  intros Ht. rewrite go_index by done. pose proof (ok_index _ (proj2 Ht)). unfold clamp, cursor.
  destruct (Z.ltb_spec i 0), (Z.ltb_spec (total t - 1) i); try destruct (Z.ltb_spec (total t - 1) 0); lia.
Qed.

Lemma cursor_next t : in_sync t -> index (next t) = cursor (total t) Advance (index t).
Proof.
  intros Ht. unfold next. rewrite cursor_go by done. pose proof (ok_index _ (proj2 Ht)). simpl. lia.
Qed.

Lemma cursor_prev t : in_sync t -> index (prev t) = cursor (total t) Back (index t).
Proof.
  intros Ht. unfold prev. rewrite cursor_go by done. pose proof (ok_index _ (proj2 Ht)). simpl. lia.
Qed.

Lemma applyMode_index t : content_ok t -> index (applyMode t) = index t.
Proof.
  intros Hc. assert (forall m, clamp (index t) (total (set_mode m t)) = index t) as Hi
    by (intros; apply clamp_id, Hc).
  unfold applyMode. destruct (_ || _); destruct (shouldUseMobile (win t)); cbn; try done; apply (Hi deck).
Qed.

#[export] Hint Resolve cursor_go cursor_next cursor_prev : snow.

Lemma step_cursor e t : in_sync t -> index (step e t) = cursor (total t) (command_of e t) (index t).
Proof.
  intros Ht. destruct e as [w h|k tgt|path x|l|l| | |i|h|b|y];
    cbn [step command_of]; auto with snow.
  - cbn [cursor]. by rewrite applyMode_index by (apply set_win_content, Ht).
  - unfold onKey, next_keys, prev_keys. destruct (is_typing tgt); [done|].
    destruct (one_of _ k); [by apply cursor_next|]. destruct (one_of _ k); [by apply cursor_prev|].
    unfold one_of; cbn [existsb]. rewrite !orb_false_r.
    destruct (String.eqb k "Home"); [by apply cursor_go|].
    destruct (String.eqb k "End"); [by apply cursor_go|].
    destruct (_ || _); [|done]. cbn [fst]. unfold toggleFullscreen. by repeat destruct_if.
  - unfold onClick, interactive_tags. destruct (existsb _ _); [done|].
    destruct (mode t); cbn [andb bool_decide decide_rel]; [|auto with snow].
    rewrite bool_decide_true by done. cbn [andb]. destruct (in_left_third _ _); auto with snow.
  - by destruct l as [|[] []].
  - unfold onTouchEnd. destruct (tracking t); cbn [negb andb]; [|by destruct l as [|[]]].
    destruct l as [|[x y] l]; [done|]. unfold SWIPE_MIN. cbn [startX startY set_touch].
    assert (in_sync (set_touch false (startX t) (startY t) t)) as Hs by auto with snow.
    destruct (Z.ltb_spec (Z.abs (x - startX t)) 45), (Z.leb_spec 45 (Z.abs (x - startX t))); try lia;
      cbn [andb orb]; [done|].
    destruct (Z.ltb_spec (Z.abs (x - startX t)) (Z.abs (y - startY t))),
      (Z.leb_spec (Z.abs (y - startY t)) (Z.abs (x - startX t))); try lia; [done|].
    destruct (Z.ltb_spec (x - startX t) 0), (Z.ltb_spec x (startX t)); try lia;
      [exact (cursor_next _ Hs)|exact (cursor_prev _ Hs)].
  - case_bool_decide; rewrite ?decide_True, ?decide_False by done; auto with snow.
  - assert (in_sync (set_win (set_hash h (history (win t)) (win t)) t)) as Hs by (by apply set_win_sync).
    unfold onHashChange. cbn [win set_win hash set_hash]. change (total (set_win _ t)) with (total t).
    destruct (hash_slide _ _); [exact (cursor_go _ _ Hs)|done].
Qed.

(** ** The address bar *)

Lemma span_digits_all s ds :
  all_str is_digit s = true -> digits_of 10 s = Some ds -> span_digits s = (ds, "").
Proof.
  revert ds. induction s as [|c s IH]; intros ds; [by intros _ [= <-]|].
  cbn [all_str digits_of span_digits]. intros [Hc Hs]%andb_prop. rewrite Hc.
  unfold digit_val. unfold is_digit in Hc. rewrite Hc.
  destruct (digits_of 10 s) as [es|]; [|done]. destruct (_ <? 10); [|done].
  intros [= <-]. by rewrite (IH es).
Qed.

Lemma span_sign_digits s : all_str is_digit s = true -> span_sign s = (false, s).
Proof.
  destruct s as [|c s]; [done|]. cbn [all_str]. intros [Hc _]%andb_prop.
  by destruct c as [[] [] [] [] [] [] [] []].
Qed.

Lemma parseInt10_dec_str n : 0 <= n -> parseInt10 (dec_str n) = Some n.
Proof.
  intros Hn. destruct (dec_str_digits n Hn) as (ds & Hds & Hv & Hall & Hne). unfold parseInt10.
  rewrite trim_start_digits, span_sign_digits, (span_digits_all _ ds) by done.
  destruct ds; [|by rewrite Hv]. destruct (dec_str n) as [|c s]; [done|]. cbn [digits_of] in Hds.
  by destruct (digit_val c), (digits_of 10 s); try destruct (_ <? 10).
Qed.

Lemma hash_slide_hash i n : 0 <= i < n -> hash_slide n (slide_hash i) = Some i.
Proof.
  intros Hi. unfold hash_slide, slide_hash. rewrite (replace_first_hit "#" ""). cbn [String.append].
  rewrite parseInt10_dec_str by lia.
  destruct (Z.leb_spec 1 (i + 1)), (Z.leb_spec (i + 1) n); try lia. cbn. f_equal. lia.
Qed.

Definition hash_ok (t : tour) : Prop := hash (win t) = slide_hash (index t).

Lemma render_hash t : hash_ok (render t).
Proof. apply win_write_hash. Qed.

Lemma go_hash i t : hash_ok t -> hash_ok (go i t).
Proof. intros. unfold go. destruct (_ =? _); [done|]. exact (render_hash (set_index i t)). Qed.

Lemma applyMode_hash t : hash_ok t -> hash_ok (applyMode t).
Proof.
  intros. unfold applyMode. destruct (_ || _); [apply render_hash|]. by destruct (shouldUseMobile (win t)).
Qed.

#[export] Hint Resolve go_hash applyMode_hash : snow.

(** The events that do not come from the address bar. *)
Definition not_hash (e : event) : Prop := match e with EvHash _ => False | _ => True end.

Lemma step_hash e t : not_hash e -> hash_ok t -> hash_ok (step e t).
Proof.
  intros Hn Ht. assert (forall b x y, hash_ok (set_touch b x y t)) by done.
  destruct e as [w h|k tgt|path x|l|l| | |i|h|b|y];
    cbn [step]; unfold onKey, onClick, onTouchStart, onTouchEnd, next, prev, toggleFullscreen;
    try done; auto with snow.
  - repeat destruct_if; cbn [fst]; auto with snow.
  - destruct_if; [done|]. destruct (mode t); [destruct_if|]; auto with snow.
  - by destruct l as [|[] []].
  - destruct_if; [done|]. destruct l as [|[] ?]; [done|]. repeat destruct_if; auto with snow.
  - destruct (decide _); auto with snow.
Qed.

Lemma run_hash es t : Forall not_hash es -> hash_ok t -> hash_ok (run es t).
Proof.
  revert t. induction es as [|e es IH]; intros t; [done|].
  intros [He Hes]%Forall_cons Ht. apply IH; [done|]. by apply step_hash.
Qed.

Lemma total_step e t : total (step e t) = total t.
Proof.
  destruct e as [w h|k tgt|path x|l|l| | |i|h|b|y];
    cbn [step]; unfold onKey, onClick, onTouchStart, onTouchEnd, next, prev, onHashChange, toggleFullscreen.
  - by rewrite total_applyMode.
  - by repeat destruct_if; cbn [fst]; rewrite ?total_go.
  - destruct_if; [done|]. destruct (mode t); [destruct_if|]; by rewrite total_go.
  - by destruct l as [|[] []].
  - destruct_if; [done|]. destruct l as [|[] ?]; [done|]. by repeat destruct_if; rewrite ?total_go.
  - by rewrite total_go.
  - by rewrite total_go.
  - destruct (decide _); by rewrite ?total_go.
  - destruct (hash_slide _ _); by rewrite ?total_go.
  - done.
  - done.
Qed.

Lemma total_run es t : total (run es t) = total t.
Proof. revert t. induction es as [|e es IH]; intros t; [done|]. cbn. change (total (run es (step e t)) = total t). by rewrite IH, total_step. Qed.

Lemma total_init t : total (init t) = total t.
Proof. unfold init. rewrite total_render, total_applyMode. by destruct (hash_slide _ _). Qed.

Lemma index_settle s : 0 <= index s < total s -> index (render (applyMode s)) = index s.
Proof.
  intros Hi. assert (index (applyMode s) = index s) as E.
  { unfold applyMode. destruct (_ || _); destruct (shouldUseMobile (win s)); cbn; try done;
      apply clamp_id, Hi. }
  unfold render. cbn. rewrite E, total_applyMode. by apply clamp_id.
Qed.

Lemma init_index t :
  0 < total t -> index t = 0 ->
  index (init t) = default 0 (hash_slide (total t) (hash (win t))).
Proof.
  intros Hn H0. unfold init. destruct (hash_slide _ _) as [i|] eqn:E.
  - apply index_settle. cbn. change (total (set_index i t)) with (total t).
    unfold hash_slide in E. destruct (parseInt10 _) as [v|]; [|done].
    destruct (_ && _) eqn:B; [|done]. injection E as <-. bool_prop. lia.
  - rewrite index_settle; cbn [default]; lia.
Qed.

(** ** The layout threshold *)

Lemma mobile_scale_value : dbl_ratio MOBILE_SCALE = (5404319552844595, 2 ^ 53).
Proof. vm_compute. reflexivity. Qed.

(** [n / d] against 0.6 in whole pixels: [lo] is the last size below. *)
Lemma ratio_below lo d n :
  0 <= n -> 0 < d -> 0 < lo -> lo * (2 ^ 53 + 1) < d * 5404319552844595 ->
  n <= lo -> dbl_ltb (fl n d) MOBILE_SCALE = true.
Proof.
  intros Hn Hd Hlo Hc Hle. unfold dbl_ltb. rewrite mobile_scale_value.
  destruct (dbl_ratio (fl n d)) as [a b] eqn:E. destruct (Z.eq_dec n 0) as [->|Hnz].
  { change (dbl_ratio (fl 0 d)) with (0, 1) in E. by injection E as <- <-. }
  destruct (fl_error n d a b ltac:(lia) Hd E) as (Ha & Hb & He). apply Z.ltb_lt.
  assert (n * b <= lo * b) by nia. assert (a * d * 2 ^ 53 <= lo * b * (2 ^ 53 + 1)) by lia.
  apply (Z.mul_lt_mono_pos_r d); [done|]. nia.
Qed.

Lemma ratio_above hi d n :
  0 < d -> 0 < hi -> d * 5404319552844595 <= hi * (2 ^ 53 - 1) ->
  hi <= n -> dbl_ltb (fl n d) MOBILE_SCALE = false.
Proof.
  intros Hd Hhi Hc Hle. unfold dbl_ltb. rewrite mobile_scale_value.
  destruct (dbl_ratio (fl n d)) as [a b] eqn:E.
  destruct (fl_error n d a b ltac:(lia) Hd E) as (Ha & Hb & He). apply Z.ltb_ge.
  assert (hi * b <= n * b) by nia. assert (hi * b * (2 ^ 53 - 1) <= a * d * 2 ^ 53) by lia.
  apply (Z.mul_le_mono_pos_r _ _ d); [done|]. nia.
Qed.

Lemma dbl_ratio_pos x : 0 < snd (dbl_ratio x).
Proof. unfold dbl_ratio. destruct (Z.leb_spec 0 (ex x)); simpl; lia. Qed.

Lemma dbl_ltb_min x y z : dbl_ltb (dbl_min x y) z = dbl_ltb x z || dbl_ltb y z.
Proof.
  unfold dbl_min, dbl_ltb. pose proof (dbl_ratio_pos x). pose proof (dbl_ratio_pos y).
  pose proof (dbl_ratio_pos z).
  destruct (dbl_ratio x) as [a b] eqn:Ex, (dbl_ratio y) as [c d] eqn:Ey,
    (dbl_ratio z) as [e f] eqn:Ez; cbn [snd] in *.
  destruct (Z.ltb_spec (c * b) (a * d)); rewrite ?Ex, ?Ey;
    destruct (Z.ltb_spec (a * f) (e * b)), (Z.ltb_spec (c * f) (e * d)); cbn; try done.
  - assert (c * b * f < a * d * f) by nia. assert (a * f * d < e * b * d) by nia. nia.
  - assert (a * d * f <= c * b * f) by nia. assert (c * f * b < e * d * b) by nia. nia.
Qed.

Lemma width_threshold w : 0 <= w -> dbl_ltb (fl w 980) MOBILE_SCALE = (w <? 588).
Proof.
  intros Hw. destruct (Z.ltb_spec w 588).
  - by apply (ratio_below 587); lia.
  - destruct (Z.eq_dec w 588) as [->|]; [by vm_compute|]. by apply (ratio_above 589); lia.
Qed.

Lemma height_threshold h : 0 <= h -> dbl_ltb (fl h 552) MOBILE_SCALE = (h <=? 331).
Proof.
  intros Hh. destruct (Z.leb_spec h 331); [by apply (ratio_below 331); lia|by apply (ratio_above 332); lia].
Qed.

(** ** Properties *)

(** C27. Whatever a visitor does, the page agrees with itself: from its first
    paint on, after any sequence of events, the slide index is a slide's, the
    layout is the one its viewport calls for, exactly that slide is shown, and
    the progress bar, dots, counter and buttons are that slide's; and unless the
    address bar was edited, so is the URL. *)
Theorem tour_stays_in_sync w d es :
  let t := run es (init (boot w d)) in
  (0 < length (slide_active d))%nat ->
  in_sync t /\ total t = Z.of_nat (length (slide_active d)) /\
  (Forall not_hash es -> hash (win t) = slide_hash (index t)).
Proof.
  intros t Hn. assert (0 < total (boot w d)) as Hb by (unfold total; cbn; lia). split_and!.
  - by apply run_sync, init_sync.
  - unfold t. by rewrite total_run, total_init.
  - intros Hes. apply run_hash; [done|]. apply render_hash.
Qed.

(** C26. The page refines a cursor over its slides: on a consistent page every
    browser event moves the index exactly as the command it stands for moves a
    cursor, forward and back stopping at the ends, and events that ask for
    nothing (typing, a link, a short or vertical swipe, a resize) leaving it. *)
Theorem tour_refines_cursor e t :
  in_sync t ->
  in_sync (step e t) /\ total (step e t) = total t /\
  index (step e t) = cursor (total t) (command_of e t) (index t).
Proof. intros Ht. auto using step_sync, total_step, step_cursor. Qed.

(** A shared link works: opening, in any window and with any earlier page
    state, a copy of the document at the address the page shows after any
    visit starts at the slide that visit ended on. *)
Theorem deep_link_roundtrip w d es w' d' :
  let t := run es (init (boot w d)) in
  (0 < length (slide_active d))%nat ->
  length (slide_active d') = length (slide_active d) ->
  Forall not_hash es -> hash w' = hash (win t) ->
  index (init (boot w' d')) = index t.
Proof.
  intros t Hn Hd Hes Hw. assert (0 < total (boot w d)) as Hb by (unfold total; cbn; lia).
  assert (in_sync t) as [_ Hc] by (by apply run_sync, init_sync).
  assert (hash_ok t) as Ht by (apply run_hash; [done|]; apply render_hash).
  assert (total (boot w' d') = total t) as Hd'.
  { unfold t. rewrite total_run, total_init. unfold total. cbn. by rewrite Hd. }
  pose proof (ok_index _ Hc). rewrite init_index by (done || lia). cbn [win boot].
  rewrite Hw, Ht, Hd', hash_slide_hash by done. done.
Qed.

(** The layout switches exactly at 588 pixels of width and 331 of height:
    with the rounding of its two divisions, the script's comparison of the
    canvas scale with 0.60 is this test on the window's whole pixels. *)
Theorem layout_threshold w :
  0 <= innerWidth w -> 0 <= innerHeight w ->
  shouldUseMobile w = (innerWidth w <? 588) || (innerHeight w <=? 331).
Proof.
  intros. unfold shouldUseMobile, deckScale.
  by rewrite dbl_ltb_min, width_threshold, height_threshold.
Qed.

(** ** Witnesses *)

(** A three-slide page with every optional element. *)
Definition sample_window (x y : Z) (h : string) : window_state :=
  MkWindow x y h 1 true false true true [].
Definition sample_page : dom :=
  MkDom "deck" Unset Unset [true; false; false] [None; Some 0; Some 0]
    (Some Unset) [true; false; false] (Some "1 / 3") (Some false) (Some false) (Some false).

Definition sample_visit : list event :=
  [EvKey "ArrowRight" None; EvResize 390 844; EvTouchStart [(300, 400)];
   EvTouchEnd [(200, 410)]; EvScroll 120; EvClick ["P"] 10].

Lemma tour_stays_in_sync_witness :
  (0 < length (slide_active sample_page))%nat /\
  let t := run sample_visit (init (boot (sample_window 1280 720 "") sample_page)) in
  in_sync t /\ mode t = mobile /\ index t = 2 /\ hash (win t) = "#3".
Proof.
  split; [cbn; lia|]. intros t.
  destruct (tour_stays_in_sync (sample_window 1280 720 "") sample_page sample_visit) as (Hs & _ & Hh).
  - cbn. lia.
  - split_and!; [exact Hs|by vm_compute|by vm_compute|].
    etrans; [apply Hh; repeat constructor|by vm_compute].
Defined.

Lemma tour_refines_cursor_witness :
  let t := init (boot (sample_window 390 844 "#2") sample_page) in
  in_sync t /\ index (step (EvTouchEnd [(0, 0)]) (step (EvTouchStart [(60, 10)]) t)) = 2.
Proof.
  intros t. assert (in_sync t) as Ht by (apply init_sync; by vm_compute). split; [exact Ht|].
  destruct (tour_refines_cursor (EvTouchStart [(60, 10)]) t Ht) as (Ht' & _ & _).
  destruct (tour_refines_cursor (EvTouchEnd [(0, 0)]) _ Ht') as (_ & _ & E).
  etrans; [exact E|by vm_compute].
Defined.

Lemma deep_link_roundtrip_witness :
  let t := run sample_visit (init (boot (sample_window 1280 720 "") sample_page)) in
  index (init (boot (sample_window 800 600 "#3") sample_page)) = index t /\ index t = 2.
Proof.
  intros t. split; [|by vm_compute].
  apply (deep_link_roundtrip (sample_window 1280 720 "") sample_page sample_visit).
  - cbn. lia.
  - done.
  - repeat constructor.
  - by vm_compute.
Defined.

Lemma layout_threshold_witness :
  shouldUseMobile (sample_window 600 1024 "") = false /\
  shouldUseMobile (sample_window 430 932 "") = true.
Proof.
  split.
  - etrans; [apply layout_threshold; cbn; lia|done].
  - etrans; [apply layout_threshold; cbn; lia|done].
Defined.
