(* ===== verification/Edge.v ===== *)
(** * Serving the sites

    The Cloudflare Pages middlewares of the bridge, the explorer and the tour
    ([packages/*/functions/_middleware.js]) and the tour's preview server
    ([packages/tour/scripts/serve.mjs]). The asset pipeline, the WHATWG URL
    parser and the file system are parameters; [decodeURIComponent] and the
    POSIX [path] functions the server calls are written out. *)

From Stdlib Require Import ZArith Lia Ascii String List Bool.
From stdpp Require Import base list strings numbers.
From S2P Require Import Prelude JsNumber.
Local Open Scope Z_scope.

(** ** Middlewares *)

(** A parsed URL: everything before the path, the path, everything after. *)
Record url := Url { origin : string; pathname : string; search : string }.

Definition set_pathname (p : string) (u : url) : url := Url (origin u) p (search u).

Record edge_request := EdgeRequest { rq_url : url; rq_host : option string; rq_rest : string }.
Record edge_response := EdgeResponse { rs_status : Z; rs_body : string }.

(** [context.next(request)], without an argument the incoming request, and
    [context.env.ASSETS.fetch(url)]. *)
Class Pages := {
  next_handler : edge_request -> edge_response;
  assets_fetch : url -> edge_response;
}.

Definition host_of (q : edge_request) : string := str_or (default "" (rq_host q)) "".

(** [new Request(newUrl, request)] *)
Definition with_url (u : url) (q : edge_request) : edge_request :=
  EdgeRequest u (rq_host q) (rq_rest q).

(** [packages/bridge/functions/_middleware.js] *)
Definition bridge_onRequest `{Pages} (q : edge_request) : edge_response :=
  let hostname := host_of q in
  let isTestnet := starts_with "bridge-testnet." hostname in
  let isSignet := starts_with "bridge-signet." hostname in
  let path := pathname (rq_url q) in
  if isTestnet || isSignet then
    let networkPrefix := if isTestnet then "testnet" else "signet" in
    if negb (starts_with ("/" +:+ networkPrefix) path) then
      next_handler (with_url (set_pathname ("/" +:+ networkPrefix +:+ path) (rq_url q)) q)
    else next_handler q
  else next_handler q.

(** [packages/explorer/functions/_middleware.js] *)
Definition explorer_onRequest `{Pages} (q : edge_request) : edge_response :=
  let host := host_of q in
  let path := pathname (rq_url q) in
  if starts_with "explorer-testnet" host &&
     (negb (starts_with "/testnet" path) && negb (includes "." path))
  then assets_fetch (set_pathname ("/testnet" +:+ path) (rq_url q))
  else if starts_with "explorer-signet" host &&
     (negb (starts_with "/signet" path) && negb (includes "." path))
  then assets_fetch (set_pathname ("/signet" +:+ path) (rq_url q))
  else next_handler q.

(** [packages/tour/functions/_middleware.js] *)
Definition tour_onRequest `{Pages} (q : edge_request) : edge_response :=
  if includes "." (pathname (rq_url q)) then next_handler q
  else
    let response := next_handler q in
    if rs_status response =? 404 then assets_fetch (set_pathname "/index.html" (rq_url q))
    else response.

(** ** decodeURIComponent *)

Definition hex_pair (s : string) : option (Z * string) :=
  match s with
  | String a (String b s') =>
      match digit_val a, digit_val b with
      | Some x, Some y => if (x <? 16) && (y <? 16) then Some (x * 16 + y, s') else None
      | _, _ => None
      end
  | _ => None
  end.

Definition char_of (b : Z) : ascii := ascii_of_N (Z.to_N b).

(** [n] further octets [%XX] that continue a UTF-8 sequence. *)
Fixpoint continuation (n : nat) (s : string) : option (list Z * string) :=
  match n with
  | O => Some ([], s)
  | S n' =>
      match s with
      | String "%" s1 =>
          match hex_pair s1 with
          | Some (b, s2) =>
              if Z.land b 192 =? 128 then
                match continuation n' s2 with Some (bs, r) => Some (b :: bs, r) | None => None end
              else None
          | None => None
          end
      | _ => None
      end
  end.

(** The code point of a lead octet with its continuation, when the encoding is
    the shortest one and names a Unicode scalar value. *)
Definition code_point_ok (lead : Z) (bs : list Z) : bool :=
  let v m := foldl (fun a b => a * 64 + Z.land b 63) (Z.land lead m) bs in
  match bs with
  | [_] => 128 <=? v 31
  | [_; _] => (2048 <=? v 15) && negb ((55296 <=? v 15) && (v 15 <=? 57343))
  | [_; _; _] => (65536 <=? v 7) && (v 7 <=? 1114111)
  | _ => false
  end.

Definition utf8_length (lead : Z) : option nat :=
  if Z.land lead 224 =? 192 then Some 1%nat
  else if Z.land lead 240 =? 224 then Some 2%nat
  else if Z.land lead 248 =? 240 then Some 3%nat
  else None.

Definition malformed : string := "URI malformed".

(** Each turn consumes a character, so the length of the text is enough fuel. *)
Fixpoint decode_loop (fuel : nat) (s : string) : outcome string :=
  match fuel, s with
  | _, EmptyString => Ok ""
  | O, _ => Ok ""
  | S fuel', String c s1 =>
      if Ascii.eqb c "%" then
        match hex_pair s1 with
        | None => Throw malformed
        | Some (b, s2) =>
            if b <? 128 then obind (decode_loop fuel' s2) (fun r => Ok (String (char_of b) r))
            else match utf8_length b with
                 | None => Throw malformed
                 | Some n =>
                     match continuation n s2 with
                     | Some (bs, s3) =>
                         if code_point_ok b bs then
                           obind (decode_loop fuel' s3) (fun r =>
                             Ok (foldr (fun x t => String (char_of x) t) r (b :: bs)))
                         else Throw malformed
                     | None => Throw malformed
                     end
                 end
        end
      else obind (decode_loop fuel' s1) (fun r => Ok (String c r))
  end.

Definition decodeURIComponent (s : string) : outcome string := decode_loop (String.length s) s.

(** ** POSIX paths *)

(** The segments of an absolute path after [normalize], innermost first: empty
    and dot segments go, a double dot takes its parent away. *)
Fixpoint resolve_segments (acc : list string) (segs : list string) : list string :=
  match segs with
  | [] => acc
  | x :: segs' =>
      if String.eqb x "" || String.eqb x "." then resolve_segments acc segs'
      else if String.eqb x ".." then resolve_segments (tail acc) segs'
      else resolve_segments (x :: acc) segs'
  end.

(** [join(dir, rel)] for an absolute, normalized directory, as its segments;
    whether the result ends in a slash does not matter to a file system look-up
    of a directory, and makes that of a file fail. *)
Definition path_join (dir : list string) (rel : string) : list string :=
  rev (resolve_segments (rev dir) (split_slash rel)).

Definition trailing_slash (s : string) : bool := starts_with "/" (reverse_str s).

(** [extname(p)]: from the last dot of the last segment, unless that dot is the
    segment's first character or the segment is a double dot. *)
Fixpoint last_dot (s : string) : option string :=
  match s with
  | EmptyString => None
  | String c s' =>
      match last_dot s' with
      | Some e => Some e
      | None => if Ascii.eqb c "." then Some s else None
      end
  end.

Definition base_ext (base : string) : string :=
  if String.eqb base ".." then "" else
  match base with
  | EmptyString => ""
  | String _ s => default "" (last_dot s)
  end.

(** The last non-empty segment. *)
Definition basename (segs : list string) : string :=
  List.last (List.filter (fun x => negb (String.eqb x "")) segs) "".

Definition extname (p : string) : string := base_ext (basename (split_slash p)).

(** ** The preview server *)

Inductive file_kind := IsFile | IsDirectory | IsOther.

(** [stat] and [readFile] on an absolute path, given by its segments and
    whether it ends in a slash; [new URL(req.url, 'http://localhost').pathname]. *)
Class Host := {
  stat_path : list string -> bool -> option file_kind;
  read_path : list string -> outcome string;
  url_pathname : string -> outcome string;
  distDir : list string;
}.

Record http_reply := HttpReply { hr_status : Z; hr_headers : list (string * string); hr_body : string }.

Definition TYPES : list (string * string) := [
  (".html", "text/html; charset=utf-8");
  (".css", "text/css; charset=utf-8");
  (".js", "text/javascript; charset=utf-8");
  (".json", "application/json; charset=utf-8");
  (".svg", "image/svg+xml");
  (".png", "image/png");
  (".jpg", "image/jpeg");
  (".jpeg", "image/jpeg");
  (".webp", "image/webp");
  (".ico", "image/x-icon");
  (".txt", "text/plain; charset=utf-8")].

Section serve.
Context `{Host}.

Definition tryFile (path : list string) (slash : bool) : option (list string) :=
  match stat_path path slash with
  | None => None
  | Some IsDirectory =>
      let idx := path ++ ["index.html"] in
      match stat_path idx false with
      | Some IsFile => Some idx
      | _ => None
      end
  | Some _ => Some path
  end.

Definition not_found : http_reply :=
  HttpReply 404 [("content-type", "text/html; charset=utf-8")] "<h1>404</h1>".

(** The file the server answers with, when there is one. *)
Definition serve_target (path : string) : option (list string) :=
  match tryFile (path_join distDir path) (trailing_slash path) with
  | Some t => Some t
  | None =>
      if String.eqb (extname path) "" then tryFile (path_join distDir "index.html") false else None
  end.

Definition respond_with (req_url : string) : outcome http_reply :=
  obind (url_pathname req_url) (fun raw =>
  obind (decodeURIComponent raw) (fun path =>
  match serve_target path with
  | None => Ok not_found
  | Some target =>
      obind (read_path target) (fun body =>
      let type := str_or (default "" (rec_get TYPES (base_ext (basename target))))
                    "application/octet-stream" in
      Ok (HttpReply 200 [("content-type", type); ("cache-control", "no-store")] body))
  end)).

Definition serve (req_url : string) : http_reply :=
  match respond_with req_url with
  | Ok r => r
  | Throw msg => HttpReply 500 [("content-type", "text/plain; charset=utf-8")] ("500 " +:+ msg)
  end.

End serve.

(** ** Lemmas *)

Lemma prefix_starts p q s : starts_with (p +:+ q) (p +:+ q +:+ s) = true.
Proof. rewrite <-app_assoc_str. apply starts_with_app. Qed.

Lemma hex_pair_length s b r : hex_pair s = Some (b, r) -> String.length s = S (S (String.length r)).
Proof.
  destruct s as [|x [|y s]]; try done. unfold hex_pair.
  destruct (digit_val x), (digit_val y); try done. destruct (_ && _); [|done]. by intros [= _ ->].
Qed.

Lemma continuation_length n s bs r :
  continuation n s = Some (bs, r) -> (String.length r <= String.length s)%nat.
Proof.
  revert s bs. induction n as [|n IH]; intros s bs; cbn [continuation]; [by intros [= _ ->]|].
  destruct s as [|c s]; [done|]. destruct (ascii_dec c "%") as [->|Hc]; [|by destruct c as [[] [] [] [] [] [] [] []]].
  destruct (hex_pair s) as [[b s2]|] eqn:E; [|done]. apply hex_pair_length in E.
  destruct (_ =? _); [|done]. destruct (continuation n s2) as [[bs' r']|] eqn:E2; [|done].
  intros [= _ <-]. apply IH in E2. simpl. lia.
Qed.

(** The fuel is enough: more of it changes nothing. *)
Lemma decode_fuel f g s :
  (String.length s <= f)%nat -> (String.length s <= g)%nat -> decode_loop f s = decode_loop g s.
Proof.
  revert g s. induction f as [|f IH]; intros g s Hf Hg.
  - destruct s; [by destruct g|simpl in Hf; lia].
  - destruct s as [|c s]; [by destruct g|]. destruct g as [|g]; [simpl in Hg; lia|].
    simpl in Hf, Hg. cbn [decode_loop]. destruct (Ascii.eqb c "%"); [|by rewrite (IH g) by lia].
    destruct (hex_pair s) as [[b s2]|] eqn:E; [|done]. apply hex_pair_length in E.
    destruct (b <? 128); [by rewrite (IH g) by lia|]. destruct (utf8_length b); [|done].
    destruct (continuation _ s2) as [[bs r]|] eqn:E2; [|done]. apply continuation_length in E2.
    destruct (code_point_ok b bs); [|done]. by rewrite (IH g) by lia.
Qed.

Lemma decode_char c s :
  Ascii.eqb c "%" = false ->
  decodeURIComponent (String c s) = obind (decodeURIComponent s) (fun r => Ok (String c r)).
Proof. intros Hc. unfold decodeURIComponent. cbn [String.length decode_loop]. by rewrite Hc. Qed.

Lemma decode_slash s :
  decodeURIComponent ("%2f" +:+ s) = obind (decodeURIComponent s) (fun r => Ok (String "/" r)).
Proof.
  unfold decodeURIComponent.
  change (decode_loop (String.length ("%2f" +:+ s)) ("%2f" +:+ s)) with
    (obind (decode_loop (S (S (String.length s))) s) (fun r => Ok (String (char_of 47) r))).
  by rewrite (decode_fuel _ (String.length s)) by lia.
Qed.

Lemma decode_plain p s r :
  all_str (fun c => negb (Ascii.eqb c "%")) p = true ->
  decodeURIComponent s = Ok r -> decodeURIComponent (p +:+ s) = Ok (p +:+ r).
Proof.
  intros Hp Hs. induction p as [|c p IH]; [done|]. cbn [all_str] in Hp.
  apply andb_prop in Hp as [Hc Hp]. cbn [String.append]. rewrite decode_char by (by apply negb_true_iff).
  by rewrite IH.
Qed.

Definition is_dots (x : string) : bool := String.eqb x "" || String.eqb x "." || String.eqb x "..".

(** A segment a URL and a path can carry as it is. *)
Definition plain_segment (x : string) : bool :=
  no_slash x && all_str (fun c => negb (Ascii.eqb c "%")) x && negb (is_dots x).

Lemma resolve_app acc l k : resolve_segments acc (l ++ k) = resolve_segments (resolve_segments acc l) k.
Proof. revert acc. induction l as [|x l IH]; intros acc; [done|]. simpl. by repeat destruct_if. Qed.

(** Segments other than a double dot only ever add to a path. *)
Lemma resolve_down acc segs :
  Forall (fun x => x <> "..") segs -> exists k, resolve_segments acc segs = k ++ acc.
Proof.
  revert acc. induction segs as [|x segs IH]; intros acc; [by exists []|].
  intros Hf. inversion Hf as [|? ? Hx Hs]; subst. simpl. destruct (_ || _); [by apply IH|].
  destruct (String.eqb_spec x ".."); [done|]. destruct (IH (x :: acc) Hs) as [k ->].
  exists (k ++ [x]). by rewrite <-(assoc_L (++)).
Qed.

Lemma resolve_plain acc segs :
  forallb plain_segment segs = true -> resolve_segments acc segs = rev segs ++ acc.
Proof.
  revert acc. induction segs as [|x segs IH]; intros acc; [done|]. cbn [forallb].
  intros [[_ Hx%negb_true_iff]%andb_prop Hs]%andb_prop. unfold is_dots in Hx. bool_prop. simpl.
  destruct (String.eqb_spec x ""), (String.eqb_spec x "."), (String.eqb_spec x ".."); try done.
  cbn. rewrite IH by done. by rewrite <-(assoc_L (++)).
Qed.

Lemma resolve_up acc n : (length acc <= n)%nat -> resolve_segments acc (repeat ".." n) = [].
Proof.
  revert acc. induction n as [|n IH]; intros acc Hn; [by destruct acc; [|simpl in Hn; lia]|].
  simpl. apply IH. destruct acc; simpl in *; lia.
Qed.

Definition carries_no_escape (x : string) : bool :=
  no_slash x && all_str (fun c => negb (Ascii.eqb c "%")) x.

Lemma decode_joined l :
  forallb carries_no_escape l = true ->
  decodeURIComponent (join_with "%2f" l) = Ok (join_with "/" l).
Proof.
  induction l as [|x l IH]; [done|]. cbn [forallb]. intros [[_ Hx]%andb_prop Hl]%andb_prop.
  destruct l as [|y l].
  - cbn [join_with]. rewrite <-(app_nil_r_str x). by apply decode_plain.
  - change (decodeURIComponent (x +:+ "%2f" +:+ join_with "%2f" (y :: l)) =
      Ok (x +:+ String "/" (join_with "/" (y :: l)))).
    apply decode_plain; [done|]. by rewrite decode_slash, IH.
Qed.

Lemma split_joined l :
  forallb carries_no_escape l = true -> l <> [] -> split_slash (join_with "/" l) = l.
Proof.
  induction l as [|x l IH]; [done|]. cbn [forallb]. intros [[Hx _]%andb_prop Hl]%andb_prop _.
  destruct l as [|y l]; [by apply split_plain|].
  change (split_slash (x +:+ String "/" (join_with "/" (y :: l))) = x :: y :: l).
  by rewrite split_cons, IH.
Qed.

Lemma all_str_joined f sep l :
  all_str f sep = true -> forallb (all_str f) l = true -> all_str f (join_with sep l) = true.
Proof.
  intros Hs. induction l as [|x l IH]; [done|]. cbn [forallb]. intros [Hx Hl]%andb_prop.
  destruct l as [|y l]; [done|].
  change (all_str f (x +:+ sep +:+ join_with sep (y :: l)) = true).
  by rewrite !all_str_app, Hx, Hs, IH.
Qed.

Lemma joined_last sep l x : exists p, join_with sep (l ++ [x]) = p +:+ x.
Proof.
  induction l as [|y l [p IH]]; [by exists ""|]. exists (y +:+ sep +:+ p).
  rewrite !app_assoc_str, <-IH. by destruct l.
Qed.

Lemma trailing_slash_app p x : no_slash x = true -> x <> "" -> trailing_slash (p +:+ x) = false.
Proof.
  intros Hx Hne. unfold trailing_slash. rewrite reverse_str_app.
  assert (Hr : no_slash (reverse_str x) = true) by (unfold no_slash; by rewrite all_str_reverse).
  destruct (reverse_str x) as [|c r] eqn:E.
  - apply (f_equal reverse_str) in E. by rewrite reverse_str_involutive in E.
  - cbn [String.append starts_with]. unfold no_slash in Hr. cbn [all_str] in Hr.
    apply andb_prop in Hr as [Hc%negb_true_iff _]. by rewrite Ascii.eqb_sym, Hc.
Qed.

(** The path that climbs [up] directories and goes down [segs], its slashes
    encoded. *)
Definition climbing_path (up : nat) (segs : list string) : string :=
  "/" +:+ join_with "%2f" (repeat ".." up ++ segs).

Lemma climb_no_escape up segs :
  forallb plain_segment segs = true -> forallb carries_no_escape (repeat ".." up ++ segs) = true.
Proof.
  intros Hs. rewrite forallb_app. apply andb_true_intro. split.
  - by induction up.
  - induction segs as [|x segs IH]; [done|]. cbn [forallb] in *. unfold carries_no_escape at 1.
    apply andb_prop in Hs as [[-> _]%andb_prop Hs]. by rewrite IH.
Qed.

Lemma climb_decodes up segs :
  forallb plain_segment segs = true ->
  decodeURIComponent (climbing_path up segs) = Ok ("/" +:+ join_with "/" (repeat ".." up ++ segs)).
Proof.
  intros Hs. apply (decode_plain "/"); [done|]. by apply decode_joined, climb_no_escape.
Qed.

Lemma climb_joins dir up segs :
  forallb plain_segment segs = true -> segs <> [] -> (length dir <= up)%nat ->
  path_join dir ("/" +:+ join_with "/" (repeat ".." up ++ segs)) = segs.
Proof.
  intros Hs Hne Hup. unfold path_join. change ("/" +:+ ?s) with ("" +:+ String "/" s).
  rewrite split_cons, split_joined by (done || by apply climb_no_escape || by destruct up, segs).
  change ("" :: ?l) with ([""] ++ l). rewrite resolve_app, resolve_app. cbn [resolve_segments String.eqb orb].
  rewrite resolve_up by (by rewrite length_rev).
  by rewrite resolve_plain, app_nil_r, rev_involutive.
Qed.

Lemma climb_not_slashed up segs :
  forallb plain_segment segs = true -> segs <> [] ->
  trailing_slash ("/" +:+ join_with "/" (repeat ".." up ++ segs)) = false.
Proof.
  intros Hs Hne. destruct segs as [|x segs _] using rev_ind; [done|]. rewrite (assoc_L (++)).
  destruct (joined_last "/" (repeat ".." up ++ segs) x) as [p ->]. rewrite <-app_assoc_str.
  rewrite forallb_app in Hs. cbn [forallb] in Hs. unfold plain_segment at 2, is_dots in Hs. bool_prop.
  by apply trailing_slash_app.
Qed.

(** The encoded path has no slash after its first character. *)
Lemma climb_one_segment up segs :
  forallb plain_segment segs = true ->
  split_slash (climbing_path up segs) = [""; join_with "%2f" (repeat ".." up ++ segs)].
Proof.
  intros Hs. unfold climbing_path. change ("/" +:+ ?s) with ("" +:+ String "/" s).
  rewrite split_cons by done. f_equal. apply split_plain. apply all_str_joined; [done|].
  pose proof (climb_no_escape up segs Hs) as H. clear -H.
  induction (repeat ".." up ++ segs) as [|x l IH]; [done|]. cbn [forallb] in *.
  apply andb_prop in H as [[Hx _]%andb_prop H]. unfold no_slash in Hx. by rewrite Hx, IH.
Qed.

(** ** Properties *)

(** The preview server leaves its directory: on any machine, any readable
    file can be fetched with a path in which only encoded slashes climb, a
    path the URL parser keeps as the single segment it is. *)
Theorem preview_server_reads_any_file `{Host} req segs body :
  forallb plain_segment segs = true -> segs <> [] ->
  url_pathname req = Ok (climbing_path (length distDir) segs) ->
  stat_path segs false = Some IsFile -> read_path segs = Ok body ->
  hr_status (serve req) = 200 /\ hr_body (serve req) = body /\
  ~ In ".." (split_slash (climbing_path (length distDir) segs)).
Proof.
  intros Hs Hne Hurl Hstat Hread.
  assert (respond_with req = Ok (HttpReply 200
    [("content-type", str_or (default "" (rec_get TYPES (base_ext (basename segs))))
        "application/octet-stream"); ("cache-control", "no-store")] body)) as E.
  { unfold respond_with. rewrite Hurl. cbn [obind]. rewrite climb_decodes by done. cbn [obind].
    unfold serve_target, tryFile. rewrite climb_joins, climb_not_slashed, Hstat by done.
    by rewrite Hread. }
  unfold serve. rewrite E. split_and!; [done|done|]. rewrite climb_one_segment by done.
  intros [?|[Hd|[]]]; [done|].
  destruct (repeat ".." (length distDir) ++ segs) as [|x [|y l]] eqn:El; [done| |].
  - cbn [join_with] in Hd. subst x. destruct segs as [|x segs _] using rev_ind; [done|].
    rewrite (assoc_L (++)) in El. apply (app_inj_tail _ [] x "..") in El as [_ ->].
    rewrite forallb_app in Hs. apply andb_prop in Hs as [_ Hs]. discriminate.
  - change (x +:+ "%2f" +:+ join_with "%2f" (y :: l) = "..") in Hd.
    apply (f_equal String.length) in Hd. rewrite !app_length_str in Hd. simpl in Hd. lia.
Qed.

(** Without an encoded climb the server stays inside: when the decoded path
    has no double-dot segment, the file it answers with is below [dist]. *)
Theorem preview_server_confined `{Host} path target :
  ~ In ".." (split_slash path) -> serve_target path = Some target ->
  exists rel, target = distDir ++ rel.
Proof.
  intros Hd Ht.
  assert (exists k, path_join distDir path = distDir ++ k) as [k Hk].
  { unfold path_join. destruct (resolve_down (rev distDir) (split_slash path)) as [k ->].
    - apply List.Forall_forall. intros x Hx ->. done.
    - exists (rev k). by rewrite rev_app_distr, rev_involutive. }
  assert (exists k, path_join distDir "index.html" = distDir ++ k) as [k' Hk'].
  { exists ["index.html"]. unfold path_join. cbn. by rewrite rev_involutive. }
  assert (forall l b t, tryFile l b = Some t -> exists r, t = l ++ r) as Htry.
  { intros l b t. unfold tryFile. destruct (stat_path l b) as [[| |]|]; try done;
      [intros [= <-]; exists []; by rewrite app_nil_r| |intros [= <-]; exists []; by rewrite app_nil_r].
    destruct (stat_path (l ++ _) false) as [[| |]|]; try done. intros [= <-]. by exists ["index.html"]. }
  unfold serve_target in Ht. rewrite Hk, Hk' in Ht.
  destruct (tryFile (distDir ++ k) _) as [t|] eqn:E.
  - injection Ht as <-. destruct (Htry _ _ _ E) as [r ->]. exists (k ++ r). by rewrite <-(assoc_L (++)).
  - destruct (String.eqb _ _); [|done]. destruct (Htry _ _ _ Ht) as [r ->].
    exists (k' ++ r). by rewrite <-(assoc_L (++)).
Qed.

(** What the bridge middleware hands on. *)
Definition prefixed (net : string) (q : edge_request) : edge_request :=
  with_url (set_pathname ("/" +:+ net +:+ pathname (rq_url q)) (rq_url q)) q.

(** The bridge middleware serves a network host from that network's
    directory: it hands on one request, the visitor's own or the same one under
    the network's prefix; on a network host that request is under the prefix,
    on any other it is untouched, and handing it to the middleware again
    changes nothing. *)
Theorem bridge_host_routing `{Pages} q :
  exists q', bridge_onRequest q = next_handler q' /\ bridge_onRequest q' = next_handler q' /\
    (q' = q \/ q' = prefixed "testnet" q \/ q' = prefixed "signet" q) /\
    (starts_with "bridge-testnet." (host_of q) = true ->
       starts_with "/testnet" (pathname (rq_url q')) = true) /\
    (starts_with "bridge-signet." (host_of q) = true ->
       starts_with "/signet" (pathname (rq_url q')) = true) /\
    (starts_with "bridge-testnet." (host_of q) = false ->
     starts_with "bridge-signet." (host_of q) = false -> q' = q).
Proof.
  assert (forall s, starts_with "bridge-testnet." s = true -> starts_with "bridge-signet." s = false) as Hex.
  { intros s E%starts_with_split. by rewrite E. }
  assert (forall net, starts_with ("/" +:+ net) (pathname (rq_url (prefixed net q))) = true) as Hp.
  { intros net. unfold prefixed. cbn [rq_url with_url set_pathname pathname].
    change ("/" +:+ net +:+ ?p) with (("/" +:+ net) +:+ p). apply starts_with_app. }
  unfold bridge_onRequest. destruct (starts_with "bridge-testnet." (host_of q)) eqn:Et; cbn [orb].
  - specialize (Hex _ Et). destruct (starts_with ("/" +:+ "testnet") _) eqn:Ep; cbn [negb].
    + exists q. rewrite Et; cbn [orb]. rewrite Ep, Hex. naive_solver.
    + exists (prefixed "testnet" q). change (host_of (prefixed "testnet" q)) with (host_of q).
      rewrite Et, Hp, Hex. naive_solver.
  - destruct (starts_with "bridge-signet." (host_of q)) eqn:Es.
    + destruct (starts_with ("/" +:+ "signet") _) eqn:Ep; cbn [negb].
      * exists q. rewrite Et, Es; cbn [orb]. rewrite Ep. naive_solver.
      * exists (prefixed "signet" q). change (host_of (prefixed "signet" q)) with (host_of q).
        rewrite Et, Es, Hp. naive_solver.
    + exists q. rewrite Et, Es. naive_solver.
Qed.

(** The explorer does the same from its assets, but only for paths without an
    extension. *)
Lemma explorer_asset_unrouted `{Pages} q :
  includes "." (pathname (rq_url q)) = true -> explorer_onRequest q = next_handler q.
Proof. unfold explorer_onRequest. intros ->. by rewrite !andb_false_r. Qed.

(** The tour answers an extensionless path with a 404 only when its own
    document is missing. *)
Lemma tour_fallback `{Pages} q :
  includes "." (pathname (rq_url q)) = false -> rs_status (tour_onRequest q) = 404 ->
  rs_status (assets_fetch (set_pathname "/index.html" (rq_url q))) = 404.
Proof. unfold tour_onRequest. intros ->. destruct (Z.eqb_spec (rs_status (next_handler q)) 404); done. Qed.

(** ** Witnesses *)

(** A machine with the built tour and a file outside of it. *)
#[local] Instance sample_host : Host := {
  stat_path p slash :=
    if bool_decide (p = ["srv"; "dist"]) then Some IsDirectory
    else if bool_decide (p = ["srv"; "dist"; "index.html"] \/ p = ["etc"; "passwd"])
    then (if slash then None else Some IsFile) else None;
  read_path p := if bool_decide (p = ["etc"; "passwd"]) then Ok "root:x:0:0" else Ok "<!DOCTYPE html>";
  url_pathname s := Ok s;
  distDir := ["srv"; "dist"];
}.

Lemma preview_server_reads_any_file_witness :
  climbing_path 2 ["etc"; "passwd"] = "/..%2f..%2fetc%2fpasswd" /\
  hr_body (serve "/..%2f..%2fetc%2fpasswd") = "root:x:0:0".
Proof.
  split; [reflexivity|].
  apply (preview_server_reads_any_file "/..%2f..%2fetc%2fpasswd" ["etc"; "passwd"] "root:x:0:0").
  - reflexivity.
  - discriminate.
  - reflexivity.
  - reflexivity.
  - reflexivity.
Defined.

Lemma preview_server_confined_witness :
  serve_target "/7" = Some ["srv"; "dist"; "index.html"] /\
  exists rel, ["srv"; "dist"; "index.html"] = distDir ++ rel.
Proof.
  split; [by vm_compute|]. apply (preview_server_confined "/7").
  - cbn. intros [?|[?|[]]]; done.
  - by vm_compute.
Defined.
