(* ===== verification/Explorer.v ===== *)
(** * The explorer: packages/explorer/src/components

    The dashboard's script (ExplorerDashboard.astro) and the search form's
    (Search.astro), as handlers of [Browser]. The dashboard asks the node for
    the latest block, the gas price and the number of peers, then for the
    last six blocks, and draws everything at once; an interval does it again.
    The clock is part of the page; what the platform formats is a parameter.
    Classes that show a state are kept under the element's id and [.class]. *)

From Stdlib Require Import ZArith Lia Ascii String List Bool.
From stdpp Require Import base list strings numbers gmap.
From S2P Require Import Prelude JsNumber Effects Json Browser.
Local Open Scope Z_scope.
Local Open Scope js_scope.

(** ** The page *)

Inductive timer := LoadDashboard.

(** The time in milliseconds, and where the page was sent to. *)
Record variables := Variables { clock : Z; location : option string }.

Local Abbreviation page := (page variables timer).
Local Abbreviation js := (js variables timer).
Local Abbreviation world := (world variables timer).

Definition with_clock (t : Z) : page -> page := with_vars (fun v => Variables t (location v)).
Definition with_location (l : string) : page -> page := with_vars (fun v => Variables (clock v) (Some l)).

(** [className = c] *)
Definition set_class (id c : string) : js unit := set_text (id +:+ ".class") c.

(** [(n / 1e9).toFixed(2)], [n.toLocaleString()], [((a / b) * 100).toFixed(2)]
    and [(Number(wei) / 1e18).toFixed(6)]. *)
Class Platform := {
  gwei_text : jsnum -> string;
  locale_text : jsnum -> string;
  percent_text : jsnum -> jsnum -> string;
  ecx_text : Z -> string
}.

(** ** JSON-RPC *)

(** A property of a value that may be undefined. *)
Definition prop (j : option json) (k : string) : outcome (option json) :=
  match j with Some j => json_get j k | None => Throw "TypeError" end.

Definition rpc_body (method : string) (params : list json) : json :=
  JObj [("jsonrpc", JStr "2.0"); ("id", JInt 1); ("method", JStr method); ("params", JArr params)].

Definition rpc_call (rpcUrl method : string) (params : list json) : string * fetch_init :=
  (rpcUrl, Some ("POST", rpc_body method params)).

(** [if (data.error) throw new Error(data.error.message); return data.result] *)
Definition rpc_result (data : json) : outcome (option json) :=
  obind (json_get data "error") (fun err =>
    if json_truthy err then obind (prop err "message") (fun m => Throw (json_text m))
    else json_get data "result").

(** A reply without a body stands for a call that failed, too. *)
Definition rpc_reply (r : reply) : outcome (option json) :=
  match snd r with Some data => rpc_result data | None => Throw "SyntaxError" end.

(** [parseInt(x, 16)] *)
Definition parse_hex (j : option json) : jsnum := parseInt (Some 16) (json_text j).

(** A number in a text; integers below 10^21. *)
Definition num_text (n : jsnum) : string :=
  match n with Fin z => dec_str z | NaN => "NaN" | PosInf => "Infinity" | NegInf => "-Infinity" end.

Section script.
Context `{PL : Platform}.
Context (rpcUrl : string).

(** ** Formatting *)

(** [hash.slice] is a method of strings (and of arrays, which no node sends
    here). *)
Definition formatHash (hash : option json) : outcome string :=
  if negb (json_truthy hash) then Ok "—"
  else match hash with
       | Some (JScalar (FStr s)) =>
           Ok (if (String.length s <=? 6 + 4 + 2)%nat then s
               else take_str (6 + 2) s +:+ "..." +:+ drop_str (String.length s - 4) s)
       | _ => Throw "TypeError"
       end.

Definition floor_div (n : jsnum) (d : Z) : jsnum := match n with Fin z => Fin (z / d) | _ => n end.

Definition formatTimeAgo (now_ms : Z) (timestampHex : option json) : string :=
  let ts := parse_hex timestampHex in
  let now := Fin (now_ms / 1000) in
  let diff := num_sub now ts in
  if num_lt diff (Fin 0) then "just now"
  else if num_lt diff (Fin 60) then num_text diff +:+ " secs ago"
  else if num_lt diff (Fin 3600) then num_text (floor_div diff 60) +:+ " mins ago"
  else if num_lt diff (Fin 86400) then num_text (floor_div diff 3600) +:+ " hrs ago"
  else num_text (floor_div diff 86400) +:+ " days ago".

(** A number of ECX is zero for 0 wei, and below 0.000001 for less than 10^12
    wei. *)
Definition formatValue (valueHex : option json) : outcome string :=
  if negb (json_truthy valueHex) || is_string valueHex "0x0" then Ok "0"
  else obind (BigInt_of_string (json_text valueHex)) (fun wei =>
         Ok (if wei =? 0 then "0" else if wei <? 10 ^ 12 then "<0.000001" else ecx_text wei)).

Definition formatGasUsed (gasUsedHex gasLimitHex : option json) : string :=
  let used := parse_hex gasUsedHex in
  let limit := parse_hex gasLimitHex in
  let pct := if num_lt (Fin 0) limit then percent_text used limit else "0" in
  locale_text used +:+ " (" +:+ pct +:+ "%)".

(** ** Drawing *)

Definition setStatus (connected : bool) : js unit :=
  if connected then
    set_class "status-dot" "w-2 h-2 rounded-full bg-emerald-500 animate-pulse" ;;
    set_text "status-text" "Connected" ;;
    set_class "status-text" "text-xs text-emerald-500"
  else
    set_class "status-dot" "w-2 h-2 rounded-full bg-rose-500" ;;
    set_text "status-text" "Disconnected" ;;
    set_class "status-text" "text-xs text-rose-500".

Definition notice (color s : string) : string :=
  backquoted "<div class=`px-4 py-8 text-center text-" +:+ color +:+ backquoted "-500 text-sm`>" +:+ s +:+ "</div>".

Definition cell (classes content : string) : string :=
  backquoted "<div class=`" +:+ classes +:+ backquoted "`>" +:+ content +:+ "</div>".

(** [x.length] of an array or a string; undefined of anything else. *)
Definition length_text (j : option json) : string :=
  match j with
  | Some (JArr l) => dec_str (Z.of_nat (length l))
  | Some (JScalar (FStr s)) => dec_str (Z.of_nat (String.length s))
  | _ => "undefined"
  end.

Definition zero_miner : string := "0x0000000000000000000000000000000000000000".

Definition block_row (now : Z) (block : option json) : outcome string :=
  obind (prop block "number") (fun number =>
  obind (prop block "transactions") (fun transactions =>
  obind (prop block "miner") (fun miner =>
  obind (if json_truthy miner && negb (is_string miner zero_miner) then formatHash miner else Ok "PoA Validator")
    (fun validator =>
  obind (prop block "gasUsed") (fun gasUsed =>
  obind (prop block "gasLimit") (fun gasLimit =>
  obind (prop block "timestamp") (fun timestamp =>
  Ok (cell "px-4 py-3 hover:bg-surface-2 transition-colors flex items-center text-sm"
       (cell "w-16" (backquoted "<span class=`text-snow-400 font-mono`>#" +:+ num_text (parse_hex number)
                     +:+ "</span>")
        +:+ cell "flex-1 text-slate-400" (formatTimeAgo now timestamp)
        +:+ cell "hidden md:block w-28 font-mono text-slate-400 text-xs truncate" validator
        +:+ cell "w-14 text-right text-slate-400"
              (if json_truthy transactions then length_text transactions else "0")
        +:+ cell "hidden lg:block w-28 text-right text-slate-400 text-xs"
              (formatGasUsed gasUsed gasLimit)))))))))).

(** A transaction with the number of its block. *)
Definition tx : Type := json * jsnum.

Definition tx_row (t : tx) : outcome string :=
  obind (json_get (fst t) "hash") (fun hash =>
  obind (formatHash hash) (fun txHash =>
  obind (json_get (fst t) "from") (fun from_ =>
  obind (formatHash from_) (fun from =>
  obind (json_get (fst t) "to") (fun to_ =>
  obind (if json_truthy to_ then formatHash to_ else Ok "Contract Creation") (fun to =>
  obind (json_get (fst t) "value") (fun value_ =>
  obind (formatValue value_) (fun value =>
  Ok (cell "px-4 py-3 hover:bg-surface-2 transition-colors flex items-center text-sm"
       (cell "w-24 font-mono text-snow-400 text-xs truncate" txHash
        +:+ cell "hidden md:block w-12 text-slate-400" ("#" +:+ num_text (snd t))
        +:+ cell "hidden md:block w-24 font-mono text-slate-400 text-xs truncate" from
        +:+ cell "hidden md:block w-24 font-mono text-slate-400 text-xs truncate" to
        +:+ cell "flex-1 text-right text-slate-300 font-mono text-xs" (value +:+ " ECX"))))))))))).

(** What a table shows: a notice, or its rows one after the other. *)
Definition table_html {A} (empty : string) (row : A -> outcome string) (l : list A) : outcome string :=
  match l with
  | [] => Ok (notice "slate" empty)
  | _ => obind (map_outcome row l) (fun rows => Ok (String.concat "" rows))
  end.

Definition renderBlocksTable (now : Z) (blocks : list (option json)) : js unit :=
  html <- jlift (table_html "No blocks available" (block_row now) blocks) ;;
  set_text "blocks-table" html.

Definition renderTxsTable (txs : list tx) : js unit :=
  html <- jlift (table_html "No transactions in recent blocks" tx_row txs) ;;
  set_text "txs-table" html.

Definition showErrorState : js unit :=
  setStatus false ;;
  set_text "stat-latest-block" "N/A" ;;
  set_text "stat-latest-block-age" "" ;;
  set_text "stat-gas-price" "N/A" ;;
  set_text "stat-block-time" "N/A" ;;
  set_text "stat-recent-txns" "N/A" ;;
  set_text "stat-peers" "N/A" ;;
  set_text "blocks-table" (notice "rose" "RPC Unavailable") ;;
  set_text "txs-table" (notice "rose" "RPC Unavailable").

(** ** Loading *)

(** ['0x' + n.toString(16)] *)
Definition block_hex (n : jsnum) : string :=
  "0x" +:+ match n with Fin z => toString16 z | _ => num_text n end.

(** The last six blocks, from block [latest - i] down to the first one. *)
Fixpoint block_calls (fuel : nat) (i : Z) (latest : jsnum) : list (string * fetch_init) :=
  match fuel with
  | O => []
  | S fuel' =>
      let n := num_sub latest (Fin i) in
      if num_le (Fin 0) n
      then rpc_call rpcUrl "eth_getBlockByNumber" [JStr (block_hex n); JBool true]
             :: block_calls fuel' (i + 1) latest
      else []
  end.

Definition not_null (j : option json) : bool := match j with Some (JScalar FNull) => false | _ => true end.

(** The times between one block and the next that are positive. *)
Fixpoint block_times (timestamps : list jsnum) : list jsnum :=
  match timestamps with
  | a :: ((b :: _) as rest) =>
      let diff := num_sub a b in
      if num_lt (Fin 0) diff then diff :: block_times rest else block_times rest
  | _ => []
  end.

(** [Math.round(sum / n)]: the nearest integer, a tie upwards. *)
Definition round_ratio (sum : jsnum) (n : Z) : jsnum :=
  match sum with Fin s => Fin ((2 * s + n) / (2 * n)) | _ => sum end.

Definition avgBlockTime (blocks : list (option json)) : outcome jsnum :=
  if (1 <? length blocks)%nat then
    obind (map_outcome (fun b => obind (prop b "timestamp") (fun t => Ok (parse_hex t))) blocks) (fun ts =>
      let times := block_times ts in
      Ok (match times with
          | [] => Fin 0
          | _ => round_ratio (fold_left num_add times (Fin 0)) (Z.of_nat (length times))
          end))
  else Ok (Fin 0).

(** [for (const tx of (block.transactions || [])) txs.push(Object.assign(tx, ...))];
    nothing can be assigned to null. *)
Definition block_txs (block : option json) : outcome (list tx) :=
  obind (prop block "transactions") (fun transactions =>
  obind (prop block "number") (fun number =>
    if negb (json_truthy transactions) then Ok []
    else match transactions with
         | Some (JArr l) =>
             map_outcome (fun t => match t with
               | JScalar FNull => Throw "TypeError"
               | _ => Ok (t, parse_hex number)
               end) l
         | _ => Throw "TypeError"
         end)).

Definition all_txs (blocks : list (option json)) : outcome (list tx) :=
  obind (map_outcome block_txs blocks) (fun l => Ok (concat l)).

Definition fetch_blocks (calls : list (string * fetch_init)) : js (list reply) :=
  match calls with [] => jret [] | _ => fetch_all calls end.

(** [blocks[0] ? formatTimeAgo(blocks[0].timestamp) : ''] *)
Definition latest_age (now : Z) (blocks : list (option json)) : outcome string :=
  match blocks with
  | b :: _ => if json_truthy b then obind (prop b "timestamp") (fun t => Ok (formatTimeAgo now t)) else Ok ""
  | [] => Ok ""
  end.

(** Everything that is drawn, from the answers of one load. *)
Definition draw (latestBlock gasPrice : jsnum) (peerCount : option jsnum) (blocks : list (option json)) : js unit :=
  avg <- jlift (avgBlockTime blocks) ;;
  txs <- jlift (all_txs blocks) ;;
  now <- reads (fun p => clock (vars p)) ;;
  setStatus true ;;
  set_text "stat-latest-block" ("#" +:+ num_text latestBlock) ;;
  age <- jlift (latest_age now blocks) ;;
  set_text "stat-latest-block-age" age ;;
  set_text "stat-gas-price" (gwei_text gasPrice +:+ " Gwei") ;;
  set_text "stat-block-time" (num_text avg +:+ "s") ;;
  set_text "stat-recent-txns" (dec_str (Z.of_nat (length txs))) ;;
  set_text "stat-peers" (from_option num_text "N/A" peerCount) ;;
  renderBlocksTable now blocks ;;
  renderTxsTable (take 6 txs).

Definition head_calls : list (string * fetch_init) :=
  [rpc_call rpcUrl "eth_blockNumber" []; rpc_call rpcUrl "eth_gasPrice" []; rpc_call rpcUrl "net_peerCount" []].

Definition loadDashboard : js unit :=
  jtry
    (heads <- fetch_all head_calls ;;
     match heads with
     | [r1; r2; r3] =>
         blockNumberHex <- jlift (rpc_reply r1) ;;
         gasPriceHex <- jlift (rpc_reply r2) ;;
         let peerCountHex := match rpc_reply r3 with Ok j => j | Throw _ => Some JNull end in
         let latestBlock := parse_hex blockNumberHex in
         let gasPrice := parse_hex gasPriceHex in
         let peerCount := if json_truthy peerCountHex then Some (parse_hex peerCountHex) else None in
         replies <- fetch_blocks (block_calls 6 0 latestBlock) ;;
         all <- jlift (map_outcome rpc_reply replies) ;;
         draw latestBlock gasPrice peerCount (List.filter not_null all)
     | _ => jthrow TypeError
     end)
    (fun _ => showErrorState).

(** ** The search form *)

Definition is_hex (c : ascii) : bool := ascii_in "0" "9" c || ascii_in "a" "f" c || ascii_in "A" "F" c.

(** [/^0x[a-fA-F0-9]{n}$/] *)
Definition hex_of_length (n : nat) (s : string) : bool :=
  starts_with "0x" s && (String.length s =? n + 2)%nat && all_str is_hex (drop_str 2 s).

(** [/^\d+$/], then the addresses, then the hashes. *)
Definition search_type (input : string) : option string :=
  if str_truthy input && all_str is_digit input then Some "block"
  else if hex_of_length 40 input then Some "address"
  else if hex_of_length 64 input then Some "tx"
  else None.

Definition search_submit : js unit :=
  v <- reads (value "search-input") ;;
  let input := trim v in
  hide "search-error" ;;
  if negb (str_truthy input) then jret tt
  else
    match search_type input with
    | Some type => touch (with_location ("/" +:+ type +:+ "/" +:+ input))
    | None =>
        set_text "search-error"
          "Invalid search query. Please enter a valid Block Height, Address, or Txn Hash." ;;
        show "search-error"
    end.

(** ** Events *)

Inductive event :=
| Tick (t : Z)
| Input (v : string)
| Submit
| Fires (timer_id : Z)
| Answers (n : nat) (a : answer).

Definition loading_texts : gmap string string :=
  list_to_map
    [("status-dot.class", "w-2 h-2 rounded-full bg-amber-500 animate-pulse");
     ("status-text", "Connecting..."); ("status-text.class", "text-xs text-slate-500");
     ("stat-latest-block", "—"); ("stat-latest-block-age", ""); ("stat-gas-price", "—");
     ("stat-block-time", "—"); ("stat-recent-txns", "—"); ("stat-peers", "—");
     ("blocks-table", notice "slate" "Loading blocks...");
     ("txs-table", notice "slate" "Loading transactions...")].

(** The page at the time it loads. *)
Definition blank (t : Z) : page := {|
  vars := Variables t None;
  inputs := ∅;
  texts := loading_texts;
  hidden := {["search-error"]};
  disabled := ∅;
  timers := [(1, LoadDashboard)];
  next_timer := 2;
  alerts := []
|}.

Definition load (t : Z) : world := start loadDashboard (World (blank t) [] []).

Definition step (e : event) (w : world) : world :=
  match e with
  | Tick t => start (touch (with_clock t)) w
  | Input v => start (set_value "search-input" v) w
  | Submit => start search_submit w
  | Fires i => fires (fun _ => loadDashboard) i w
  | Answers n a => answered n a w
  end.

Definition steps (es : list event) (w : world) : world := fold_left (fun w e => step e w) es w.

End script.

(** ** The pages that are built *)

(** src/pages/index.astro and the static paths of src/pages/[network]. *)
Definition getStaticPaths : list (string * (string * Z)) :=
  [("mainnet", ("https://rpc.snowside.network/mainnet", 32904));
   ("testnet", ("https://rpc.snowside.network/testnet", 33160));
   ("signet", ("https://rpc.snowside.network/signet", 33416))].

(** The paths a page is served under: the index, and one directory a network. *)
Definition is_page (path : string) : bool :=
  existsb (String.eqb path) ["/"; "/index.html"] ||
  existsb (fun n => existsb (String.eqb path)
    ["/" +:+ fst n; "/" +:+ fst n +:+ "/"; "/" +:+ fst n +:+ "/index.html"]) getStaticPaths.
