(* ===== verification/ExplorerProps.v ===== *)
(** * Properties of the explorer

    The dashboard shows one load: the script implements a set of independent
    loads ([dashboard_step]), each of which, when its calls are answered, makes
    the page show its own numbers and blocks, or the error state. What it asks
    of the node, and where the search form sends the page. *)

From Stdlib Require Import ZArith Lia Ascii String List Bool.
From stdpp Require Import base list strings numbers gmap.
From S2P Require Import Prelude JsNumber Effects Json Edge Browser Explorer.
Local Open Scope Z_scope.
Local Open Scope js_scope.

Local Abbreviation page := (page variables timer).
Local Abbreviation js := (js variables timer).
Local Abbreviation world := (world variables timer).

(** ** What the dashboard shows *)

(** Texts by element. *)
Definition shows (l : list (string * string)) (p : page) : Prop :=
  forall id v, In (id, v) l -> text id p = v.

Definition loading : list (string * string) := map_to_list loading_texts.

Definition unavailable : list (string * string) :=
  [("status-dot.class", "w-2 h-2 rounded-full bg-rose-500"); ("status-text", "Disconnected");
   ("status-text.class", "text-xs text-rose-500"); ("stat-latest-block", "N/A");
   ("stat-latest-block-age", ""); ("stat-gas-price", "N/A"); ("stat-block-time", "N/A");
   ("stat-recent-txns", "N/A"); ("stat-peers", "N/A");
   ("blocks-table", notice "rose" "RPC Unavailable"); ("txs-table", notice "rose" "RPC Unavailable")].

Section dashboard.
Context `{PL : Platform}.
Context (rpcUrl : string).

(** The texts of one set of answers, if they can be drawn. *)
Definition drawn (now : Z) (latestBlock gasPrice : jsnum) (peerCount : option jsnum)
    (blocks : list (option json)) : outcome (list (string * string)) :=
  obind (avgBlockTime blocks) (fun avg =>
  obind (all_txs blocks) (fun txs =>
  obind (latest_age now blocks) (fun age =>
  obind (table_html "No blocks available" (block_row now) blocks) (fun blocks_html =>
  obind (table_html "No transactions in recent blocks" tx_row (take 6 txs)) (fun txs_html =>
  Ok [("status-dot.class", "w-2 h-2 rounded-full bg-emerald-500 animate-pulse"); ("status-text", "Connected");
      ("status-text.class", "text-xs text-emerald-500");
      ("stat-latest-block", "#" +:+ num_text latestBlock); ("stat-latest-block-age", age);
      ("stat-gas-price", gwei_text gasPrice +:+ " Gwei"); ("stat-block-time", num_text avg +:+ "s");
      ("stat-recent-txns", dec_str (Z.of_nat (length txs)));
      ("stat-peers", from_option num_text "N/A" peerCount);
      ("blocks-table", blocks_html); ("txs-table", txs_html)]))))).

(** What is shown after all the calls of a load are answered. *)
Definition picture (now : Z) (latestBlock gasPrice : jsnum) (peerCount : option jsnum)
    (blocks : list (option json)) : list (string * string) :=
  match drawn now latestBlock gasPrice peerCount blocks with Ok l => l | Throw _ => unavailable end.

(** ** The dashboard as a set of loads

    A load has asked its first three calls, or it knows what the node said to
    them and has asked for the blocks. *)
Inductive unanswered := Heads | Blocks (latestBlock gasPrice : jsnum) (peerCount : option jsnum).

Definition calls_of (l : unanswered) : list (string * fetch_init) :=
  match l with Heads => head_calls rpcUrl | Blocks latestBlock _ _ => block_calls rpcUrl 6 0 latestBlock end.

Record dashboard := Dashboard {
  d_now : Z;
  d_loads : list unanswered;
  d_shown : list (string * string)
}.

Definition shown (l : list (string * string)) (d : dashboard) : dashboard := Dashboard (d_now d) (d_loads d) l.
Definition asking (l : unanswered) (d : dashboard) : dashboard := Dashboard (d_now d) (d_loads d ++ [l]) (d_shown d).

(** The numbers in the answers to the first three calls; the third may fail. *)
Definition head_values (replies : list reply) : option (jsnum * jsnum * option jsnum) :=
  match replies with
  | [r1; r2; r3] =>
      match rpc_reply r1, rpc_reply r2 with
      | Ok latest, Ok gas =>
          Some (parse_hex latest, parse_hex gas,
            match rpc_reply r3 with
            | Ok peers => if json_truthy peers then Some (parse_hex peers) else None
            | Throw _ => None
            end)
      | _, _ => None
      end
  | _ => None
  end.

(** A load's calls are answered. *)
Definition load_answered (l : unanswered) (a : answer) (d : dashboard) : dashboard :=
  match l, a with
  | Heads, AllReplied replies =>
      match head_values replies with
      | Some (latest, gas, peers) =>
          match block_calls rpcUrl 6 0 latest with
          | [] => shown (picture (d_now d) latest gas peers []) d
          | _ => asking (Blocks latest gas peers) d
          end
      | None => shown unavailable d
      end
  | Blocks latest gas peers, AllReplied replies =>
      match map_outcome rpc_reply replies with
      | Ok blocks => shown (picture (d_now d) latest gas peers (List.filter not_null blocks)) d
      | Throw _ => shown unavailable d
      end
  | _, _ => shown unavailable d
  end.

Definition dashboard_step (ev : event) (d : dashboard) : dashboard :=
  match ev with
  | Tick t => Dashboard t (d_loads d) (d_shown d)
  | Fires i => if i =? 1 then asking Heads d else d
  | Answers n a =>
      match d_loads d !! n with
      | Some l =>
          if fits (FetchAll (calls_of l)) a
          then load_answered l a (Dashboard (d_now d) (delete n (d_loads d)) (d_shown d)) else d
      | None => d
      end
  | Input _ | Submit => d
  end.

Definition dashboard_steps (es : list event) (d : dashboard) : dashboard :=
  fold_left (fun d ev => dashboard_step ev d) es d.

Definition dashboard_start (t : Z) : dashboard := Dashboard t [Heads] loading.

(** Reads of the chain only. *)
Definition reads_chain (q : query) : Prop :=
  let calls l := Forall (fun c => exists method params,
    c = rpc_call rpcUrl method params /\
    In method ["eth_blockNumber"; "eth_gasPrice"; "net_peerCount"; "eth_getBlockByNumber"]) l in
  match q with
  | FetchAll l => calls l /\ (length l <= 6)%nat
  | _ => False
  end.

(** ** The script implements it *)

Definition rest_of_prog (c : prog variables timer) : answer -> prog variables timer :=
  match c with Await _ k => k | _ => fun _ => End end.

(** What a load does once the node has answered about the head. *)
Definition blocks_prog (latestBlock gasPrice : jsnum) (peerCount : option jsnum) : prog variables timer :=
  jtry
    (replies <- fetch_blocks (block_calls rpcUrl 6 0 latestBlock) ;;
     all <- jlift (map_outcome rpc_reply replies) ;;
     draw latestBlock gasPrice peerCount (List.filter not_null all))
    (fun _ => showErrorState) (fun _ => End) (fun _ => End).

Definition wait_of (l : unanswered) : wait variables timer :=
  Wait (FetchAll (calls_of l))
    (rest_of_prog (match l with Heads => handler (loadDashboard rpcUrl) | Blocks b g pc => blocks_prog b g pc end)).

Definition ids : list string :=
  ["status-dot.class"; "status-text"; "status-text.class"; "stat-latest-block"; "stat-latest-block-age";
   "stat-gas-price"; "stat-block-time"; "stat-recent-txns"; "stat-peers"; "blocks-table"; "txs-table"].

Record refines (d : dashboard) (w : world) : Prop := {
  rf_clock : clock (vars (page_of w)) = d_now d;
  rf_timers : timers (page_of w) = [(1, LoadDashboard)];
  rf_shown : shows (d_shown d) (page_of w);
  rf_ids : Forall (fun kv => In (fst kv) ids) (d_shown d);
  rf_waits : waits w = map wait_of (d_loads d);
  rf_calls : Forall (fun l => calls_of l <> []) (d_loads d);
  rf_asked : Forall reads_chain (asked w)
}.

Ltac texts_shown :=
  intros ? ? Hin; unfold text; cbn [texts with_texts];
  repeat (destruct Hin as [Hin|Hin];
    [injection Hin as <- <-; rewrite ?lookup_insert_ne by done; by rewrite lookup_insert_eq|]);
  destruct Hin.

Definition keeps_page (p p' : page) : Prop := vars p' = vars p /\ timers p' = timers p.

Lemma run_error p0 p ws qs :
  keeps_page p0 p ->
  exists p', run (showErrorState (fun _ => End) (fun _ => End)) (World p ws qs) = World p' ws qs /\
    shows unavailable p' /\ keeps_page p0 p'.
Proof.
  intros [Hv Ht]. unfold showErrorState, setStatus, set_class. run_js. eexists. split; [reflexivity|]. split; [|done]. texts_shown.
Qed.

Lemma run_draw latestBlock gasPrice peerCount blocks p ws qs :
  exists p', run (jtry (draw latestBlock gasPrice peerCount blocks) (fun _ => showErrorState)
      (fun _ => End) (fun _ => End)) (World p ws qs) = World p' ws qs /\
    shows (picture (clock (vars p)) latestBlock gasPrice peerCount blocks) p' /\ keeps_page p p'.
Proof.
  unfold draw, renderBlocksTable, renderTxsTable, picture, drawn, setStatus, set_class.
  destruct (avgBlockTime blocks) as [avg|m]; cbn [jlift obind]; run_js; [|by apply run_error].
  destruct (all_txs blocks) as [txs|m]; cbn [jlift obind]; run_js; [|by apply run_error].
  change (vars (Datatypes.id p)) with (vars p).
  destruct (latest_age (clock (vars p)) blocks) as [age|m]; cbn [jlift obind]; run_js; [|by apply run_error].
  destruct (table_html "No blocks available" _ _) as [bh|m]; cbn [jlift obind]; run_js; [|by apply run_error].
  destruct (table_html _ tx_row _) as [th|m]; cbn [jlift obind]; run_js; [|by apply run_error].
  eexists. split; [reflexivity|]. split; [|done]. texts_shown.
Qed.

Lemma drawn_ids now latestBlock gasPrice peerCount blocks l :
  drawn now latestBlock gasPrice peerCount blocks = Ok l -> map fst l = ids.
Proof.
  unfold drawn, obind.
  repeat match goal with |- match ?o with _ => _ end = _ -> _ => destruct o; [|done] end.
  by intros [= <-].
Qed.

Lemma ids_of l : map fst l = ids -> Forall (fun kv : string * string => In (fst kv) ids) l.
Proof.
  intros H. apply List.Forall_forall. intros kv Hin. rewrite <-H. by apply in_map.
Qed.

Lemma picture_ids now latestBlock gasPrice peerCount blocks :
  Forall (fun kv => In (fst kv) ids) (picture now latestBlock gasPrice peerCount blocks).
Proof.
  unfold picture. destruct (drawn _ _ _ _ _) as [l|m] eqn:E; [|by apply ids_of].
  by apply ids_of, (drawn_ids _ _ _ _ _ _ E).
Qed.

Lemma block_calls_read fuel i latest :
  Forall (fun c => exists method params, c = rpc_call rpcUrl method params /\
    In method ["eth_blockNumber"; "eth_gasPrice"; "net_peerCount"; "eth_getBlockByNumber"])
    (block_calls rpcUrl fuel i latest) /\
  (length (block_calls rpcUrl fuel i latest) <= fuel)%nat.
Proof.
  revert i. induction fuel as [|fuel IH]; intros i; cbn [block_calls]; [by split|].
  destruct (num_le _ _); [|split; [done|cbn; lia]]. destruct (IH (i + 1)) as [H1 H2]. split; [|cbn; lia].
  constructor; [|done]. do 2 eexists. split; [reflexivity|]. cbn. tauto.
Qed.

Lemma calls_read l : reads_chain (FetchAll (calls_of l)).
Proof.
  destruct l as [|b g pc]; [|apply block_calls_read]. split; [|cbn; lia].
  repeat constructor; do 2 eexists; (split; [reflexivity|cbn; tauto]).
Qed.

(** A page that keeps the drawn texts and the clock. *)
Lemma same_texts d w p' :
  refines d w -> clock (vars p') = clock (vars (page_of w)) -> timers p' = timers (page_of w) ->
  (forall id, In id ids -> text id p' = text id (page_of w)) -> refines d (World p' (waits w) (asked w)).
Proof.
  intros [Hc Ht Hs Hi Hw Hn Ha] Hv Hti Htext. split; cbn [page_of waits asked]; try done; [congruence|congruence|].
  intros id v Hin. rewrite Htext; [by apply Hs|]. rewrite List.Forall_forall in Hi. by apply (Hi _ Hin).
Qed.

Lemma refines_shown d p p' l qs :
  refines d (World p (map wait_of (d_loads d)) qs) -> keeps_page p p' -> shows l p' ->
  Forall (fun kv => In (fst kv) ids) l ->
  refines (shown l d) (World p' (map wait_of (d_loads d)) qs).
Proof.
  intros [Hc Ht _ _ _ Hn Ha] [Hv Hti] Hs Hl. split; cbn [page_of waits asked shown d_now d_loads d_shown] in *; try done; congruence.
Qed.

Lemma refines_asking d p qs l :
  refines d (World p (map wait_of (d_loads d)) qs) -> calls_of l <> [] ->
  refines (asking l d) (World p (map wait_of (d_loads d) ++ [wait_of l]) (FetchAll (calls_of l) :: qs)).
Proof.
  intros [Hc Ht Hs Hi _ Hn Ha] Hl. split; cbn [page_of waits asked asking d_now d_loads d_shown] in *; try done.
  - by rewrite map_app.
  - apply Forall_app. by repeat constructor.
  - constructor; [apply calls_read|done].
Qed.

(** The rest of a load does what the answers say. *)
Lemma rest_refines l a d p qs :
  refines d (World p (map wait_of (d_loads d)) qs) -> calls_of l <> [] -> fits (FetchAll (calls_of l)) a = true ->
  refines (load_answered l a d) (run (w_rest (wait_of l) a) (World p (map wait_of (d_loads d)) qs)).
Proof.
  intros R Hne Hf. pose proof (rf_clock _ _ R) as Hc. cbn [page_of] in Hc.
  assert (Herr : refines (shown unavailable d)
    (run (showErrorState (fun _ => End) (fun _ => End)) (World p (map wait_of (d_loads d)) qs))).
  { destruct (run_error p p (map wait_of (d_loads d)) qs) as (p' & -> & Hs & Hk); [done|]. by apply (refines_shown d p); [..|apply ids_of]. }
  assert (Hdraw : forall b g pc blocks, refines (shown (picture (d_now d) b g pc blocks) d)
    (run (jtry (draw b g pc blocks) (fun _ => showErrorState) (fun _ => End) (fun _ => End))
      (World p (map wait_of (d_loads d)) qs))).
  { intros b g pc blocks. destruct (run_draw b g pc blocks p (map wait_of (d_loads d)) qs) as (p' & -> & Hs & Hk).
    rewrite Hc in Hs. apply (refines_shown d p); [done..|apply picture_ids]. }
  destruct l as [|b g pc].
  - destruct a as [| |rs|e]; try done.
    destruct rs as [|r1 [|r2 [|r3 []]]]; try done.
    unfold load_answered, head_values. unfold wait_of, loadDashboard, fetch_all, await. run_js. cbn [w_rest rest_of_prog].
    destruct (rpc_reply r1) as [b|m]; cbn [jlift]; run_js; [|exact Herr].
    destruct (rpc_reply r2) as [g|m]; cbn [jlift]; run_js; [|exact Herr].
    set (pc := match rpc_reply r3 with Ok peers => if json_truthy peers then Some (parse_hex peers) else None
                | Throw _ => None end).
    assert (E : (if json_truthy match rpc_reply r3 with Ok j => j | Throw _ => Some JNull end
      then Some (parse_hex match rpc_reply r3 with Ok j => j | Throw _ => Some JNull end) else None) = pc)
      by (unfold pc; by destruct (rpc_reply r3)).
    rewrite E. clearbody pc. clear E.
    change (refines (match block_calls rpcUrl 6 0 (parse_hex b) with
        | [] => shown (picture (d_now d) (parse_hex b) (parse_hex g) pc []) d
        | _ => asking (Blocks (parse_hex b) (parse_hex g) pc) d end)
      (run (blocks_prog (parse_hex b) (parse_hex g) pc) (World p (map wait_of (d_loads d)) qs))).
    destruct (block_calls rpcUrl 6 0 (parse_hex b)) as [|c cs] eqn:Ec.
    + unfold blocks_prog. rewrite Ec. apply Hdraw.
    + pose proof (refines_asking d p qs (Blocks (parse_hex b) (parse_hex g) pc) R) as Hr.
      cbn [calls_of] in Hr. rewrite Ec in Hr. specialize (Hr ltac:(done)).
      unfold wait_of in Hr at 2. cbn [calls_of] in Hr. unfold blocks_prog in Hr |- *. rewrite Ec in Hr |- *. exact Hr.
  - cbn [calls_of] in Hne, Hf. cbn [wait_of w_rest]. unfold blocks_prog.
    destruct (block_calls rpcUrl 6 0 b) as [|c cs] eqn:Ec; [done|]. clear Hne.
    cbn [fetch_blocks]. unfold fetch_all, await. run_js. cbn [rest_of_prog].
    destruct a as [| |rs|e]; try done. cbn [load_answered].
    destruct (map_outcome rpc_reply rs) as [all|m]; cbn [jlift]; run_js; [apply Hdraw|exact Herr].
Qed.

Lemma step_refines ev d w : refines d w -> refines (dashboard_step ev d) (step rpcUrl ev w).
Proof.
  intros R. destruct w as [p ws qs]. pose proof R as [Hc Ht Hs Hi Hw Hn Ha]. cbn [page_of waits asked] in *. subst ws.
  destruct ev as [t|v| |i|n a]; cbn [step dashboard_step].
  - run_js. by split.
  - run_js. by apply (same_texts d (World p _ qs)).
  - unfold search_submit. run_js. set (input := trim _).
    destruct (str_truthy input); run_js; [|by apply (same_texts d (World p _ qs))].
    destruct (search_type input); run_js; [by apply (same_texts d (World p _ qs))|].
    apply (same_texts d (World p _ qs)); [done..|]. intros id Hin. unfold text. cbn [texts with_hidden with_texts page_of].
    rewrite lookup_insert_ne; [done|]. intros <-. cbn in Hin. intuition discriminate.
  - unfold fires. cbn [page_of]. rewrite Ht. cbn [List.find fst]. rewrite (Z.eqb_sym 1 i).
    destruct (i =? 1); [|done]. exact (refines_asking d p qs Heads R ltac:(done)).
  - unfold answered. cbn [waits]. rewrite list_lookup_fmap. destruct (d_loads d !! n) as [l|] eqn:El; [|done].
    cbn [fmap option_fmap option_map]. change (w_query (wait_of l)) with (FetchAll (calls_of l)).
    destruct (fits _ a) eqn:Ef; [|done].
    set (d' := Dashboard (d_now d) (delete n (d_loads d)) (d_shown d)).
    assert (E : delete n (map wait_of (d_loads d)) = map wait_of (d_loads d')) by (symmetry; apply list_fmap_delete).
    cbn [page_of asked]. rewrite E. apply rest_refines; [|by eapply Forall_lookup_1 in Hn|done].
    split; cbn [page_of waits asked d' d_now d_loads d_shown]; try done. by apply Forall_delete.
Qed.

Lemma start_refines t : refines (dashboard_start t) (load rpcUrl t).
Proof.
  assert (E : dashboard_start t = asking Heads (Dashboard t [] loading)) by reflexivity. rewrite E.
  generalize (refines_asking (Dashboard t [] loading) (blank t) [] Heads). cbn [d_loads map app].
  intros H. apply H; [|done]. clear H E. split; [reflexivity|reflexivity| | |reflexivity|constructor|constructor].
  - intros id v Hin. apply list_elem_of_In, elem_of_map_to_list in Hin. unfold text. cbn [page_of texts blank]. by rewrite Hin.
  - apply (bool_decide_unpack _). vm_compute. exact I.
Qed.

Lemma steps_refine es d w : refines d w -> refines (dashboard_steps es d) (steps rpcUrl es w).
Proof. revert d w. induction es as [|ev es IH]; intros d w R; [done|]. by apply IH, step_refines. Qed.

(** C35. The dashboard shows one load. Whatever the node answers, in whatever
    order the answers of overlapping loads come, and wherever drawing throws,
    the script does what a set of independent loads does: each asks its own
    calls, and when the last of them is answered, all eleven texts become, at
    once, those of that load's block number, gas price, peers and at most six
    blocks, or those of the error state; and all it ever asks of the node is
    reads. *)
Theorem dashboard_is_one_snapshot t es :
  let w := steps rpcUrl es (load rpcUrl t) in
  let d := dashboard_steps es (dashboard_start t) in
  shows (d_shown d) (page_of w) /\
  map w_query (waits w) = map (fun l => FetchAll (calls_of l)) (d_loads d) /\
  Forall reads_chain (asked w).
Proof.
  cbn zeta. destruct (steps_refine es _ _ (start_refines t)) as [_ _ Hs _ Hw _ Ha].
  split_and!; [done| |done]. rewrite Hw, map_map. by apply map_ext.
Qed.
End dashboard.

(** ** The search form *)

(** A text the form accepts: a block's number, an address or a hash. *)
Inductive query_text : string -> string -> Prop :=
| query_block s : s <> "" -> all_str is_digit s = true -> query_text "block" s
| query_address h : String.length h = 40%nat -> all_str is_hex h = true -> query_text "address" ("0x" +:+ h)
| query_tx h : String.length h = 64%nat -> all_str is_hex h = true -> query_text "tx" ("0x" +:+ h).

Lemma hex_of_length_iff n s :
  hex_of_length n s = true <-> exists h, s = "0x" +:+ h /\ String.length h = n /\ all_str is_hex h = true.
Proof.
  unfold hex_of_length. split.
  - intros [[H1 H2%Nat.eqb_eq]%andb_true_iff H3]%andb_true_iff. apply starts_with_split in H1.
    exists (drop_str 2 s). split; [exact H1|]. split; [|done].
    rewrite H1, app_length_str in H2. cbn [String.length] in H2.
    change (drop_str (String.length "0x") s) with (drop_str 2 s) in H2. lia.
  - intros (h & -> & Hl & Hh). rewrite starts_with_app, app_length_str.
    change (drop_str 2 ("0x" +:+ h)) with h. rewrite Hh, Hl. cbn [String.length].
    rewrite (Nat.add_comm n 2). by rewrite Nat.eqb_refl.
Qed.

Lemma search_type_iff type s : search_type s = Some type <-> query_text type s.
Proof.
  unfold search_type. split.
  - destruct (str_truthy s && all_str is_digit s) eqn:E1.
    + apply andb_true_iff in E1 as [Ht Hd]. intros [= <-]. constructor; [|done]. by intros ->.
    + destruct (hex_of_length 40 s) eqn:E2.
      { apply hex_of_length_iff in E2 as (h & -> & ? & ?). intros [= <-]. by constructor. }
      destruct (hex_of_length 64 s) eqn:E3; [|done].
      apply hex_of_length_iff in E3 as (h & -> & ? & ?). intros [= <-]. by constructor.
  - assert (Hx : forall h, str_truthy ("0x" +:+ h) && all_str is_digit ("0x" +:+ h) = false) by done.
    intros [s' Hne Hd|h Hl Hh|h Hl Hh].
    + rewrite Hd, andb_true_r. by destruct s'.
    + rewrite Hx, (proj2 (hex_of_length_iff 40 _)); [done|by exists h].
    + rewrite Hx, (proj2 (hex_of_length_iff 64 _)) by (by exists h).
      destruct (hex_of_length 40 ("0x" +:+ h)) eqn:E; [|done].
      apply hex_of_length_iff in E as (h' & [= <-] & Hl' & _). lia.
Qed.

(** What a submission does to where the page is sent. *)
Lemma submit_location `{PL : Platform} rpcUrl w :
  location (vars (page_of (step rpcUrl Submit w))) =
    match search_type (trim (value "search-input" (page_of w))) with
    | Some type => Some ("/" +:+ type +:+ "/" +:+ trim (value "search-input" (page_of w)))
    | None => location (vars (page_of w))
    end.
Proof.
  cbn [step]. unfold search_submit. run_js. change (Datatypes.id (page_of w)) with (page_of w).
  set (input := trim _). destruct (str_truthy input) eqn:Ht; run_js.
  - by destruct (search_type input).
  - assert (E : input = "") by (by destruct input). by rewrite E.
Qed.

(** No page is at a path with something after its type. *)
Lemma query_is_no_page type s prefix :
  query_text type s -> In prefix [""; "/testnet"; "/signet"] ->
  is_page (prefix +:+ "/" +:+ type +:+ "/" +:+ s) = false.
Proof.
  intros Hq Hp. assert (Hne : s <> "") by (by destruct Hq).
  destruct s as [|c s]; [done|].
  cbn [In] in Hp. destruct Hp as [<-|[<-|[<-|[]]]]; destruct Hq; reflexivity.
Qed.

(** C36. A search leads to no page. The form sends the page on exactly for a block
    number, an address or a transaction hash, to a path of its type and the
    text as it was given; but on whatever host, the middleware makes of it a
    path at which the explorer has no page. *)
Theorem search_leads_to_no_page `{PL : Platform} `{PG : Pages} rpcUrl w q :
  location (vars (page_of w)) = None ->
  let input := trim (value "search-input" (page_of w)) in
  let sent := location (vars (page_of (step rpcUrl Submit w))) in
  (sent <> None <-> exists type, query_text type input) /\
  forall target, sent = Some target -> pathname (rq_url q) = target ->
    (exists type, query_text type input /\ target = "/" +:+ type +:+ "/" +:+ input) /\
    exists path, is_page path = false /\
      (explorer_onRequest q = next_handler q /\ path = target \/
       explorer_onRequest q = assets_fetch (set_pathname path (rq_url q))).
Proof.
  intros Hnone. cbn zeta. rewrite submit_location, Hnone. set (input := trim _).
  destruct (search_type input) as [type|] eqn:E.
  - apply search_type_iff in E. split; [split; [by exists type|done]|]. intros target [= <-] Hpath.
    split; [by exists type|]. unfold explorer_onRequest. rewrite Hpath.
    destruct (starts_with "explorer-testnet" (host_of q) && _);
      [exists ("/testnet" +:+ ("/" +:+ type +:+ "/" +:+ input)); split; [|by right]|
       destruct (starts_with "explorer-signet" (host_of q) && _);
         [exists ("/signet" +:+ ("/" +:+ type +:+ "/" +:+ input)); split; [|by right]|
          exists ("" +:+ ("/" +:+ type +:+ "/" +:+ input)); split; [|by left]]];
      apply (query_is_no_page type input); cbn; tauto.
  - split; [|done]. split; [done|]. intros (type & H%search_type_iff). congruence.
Qed.

(** ** Runs *)

#[local] Instance toy_platform : Platform := {|
  gwei_text := num_text; locale_text := num_text; percent_text _ _ := "0.00"; ecx_text := dec_str
|}.

Definition signet_rpc : string := "https://rpc.snowside.network/signet".

Definition result (j : json) : reply := (200, Some (JObj [("jsonrpc", JStr "2.0"); ("id", JInt 1); ("result", j)])).

Definition heads (latest gas : string) : answer :=
  AllReplied [result (JStr latest); result (JStr gas); (0, None)].

Definition block (n time : string) : reply :=
  result (JObj [("number", JStr n); ("timestamp", JStr time); ("transactions", JArr []);
                ("gasUsed", JStr "0x0"); ("gasLimit", JStr "0x1")]).

(** Two loads; the node answers the second first. *)
Definition overtaken : list event :=
  [Tick 1000000; Fires 1; Answers 1 (heads "0x2" "0x5"); Answers 0 (heads "0x1" "0x7");
   Answers 0 (AllReplied [block "0x2" "0x64"; block "0x1" "0x5a"; block "0x0" "0x0"]);
   Answers 0 (AllReplied [block "0x1" "0x5a"; block "0x0" "0x0"])].

Lemma dashboard_is_one_snapshot_witness :
  let d es := dashboard_steps signet_rpc es (dashboard_start 0) in
  let w es := steps signet_rpc es (load signet_rpc 0) in
  In ("stat-latest-block", "#2") (d_shown (d (take 5 overtaken))) /\
  In ("stat-gas-price", "5 Gwei") (d_shown (d (take 5 overtaken))) /\
  In ("stat-block-time", "50s") (d_shown (d (take 5 overtaken))) /\
  d_loads (d (take 5 overtaken)) = [Blocks (Fin 1) (Fin 7) None] /\
  shows (d_shown (d (take 5 overtaken))) (page_of (w (take 5 overtaken))) /\
  In ("stat-latest-block", "#1") (d_shown (d overtaken)) /\ In ("stat-gas-price", "7 Gwei") (d_shown (d overtaken)) /\
  shows (d_shown (d overtaken)) (page_of (w overtaken)).
Proof.
  cbv zeta. do 3 (split; [apply (bool_decide_unpack _); vm_compute; exact I|]). split; [vm_compute; reflexivity|].
  split; [exact (proj1 (dashboard_is_one_snapshot signet_rpc 0 (take 5 overtaken)))|].
  do 2 (split; [apply (bool_decide_unpack _); vm_compute; exact I|]).
  exact (proj1 (dashboard_is_one_snapshot signet_rpc 0 overtaken)).
Defined.

(** The snapshot may be an older one: the answers of a load that was overtaken
    are drawn over those of the later load. *)
Example older_answers_are_drawn_last :
  text "stat-latest-block" (page_of (steps signet_rpc overtaken (load signet_rpc 0))) = "#1".
Proof. vm_compute. reflexivity. Qed.

(** A node that answers about a block it does not have with null, and about its
    transactions with a null one, takes the dashboard to the error state. *)
Example null_transaction_is_an_error :
  let w := steps signet_rpc [Answers 0 (heads "0x0" "0x1");
    Answers 0 (AllReplied [result (JObj [("number", JStr "0x0"); ("transactions", JArr [JNull])])])]
    (load signet_rpc 0) in
  text "status-text" (page_of w) = "Disconnected" /\ text "blocks-table" (page_of w) = notice "rose" "RPC Unavailable".
Proof. vm_compute. auto. Qed.

#[local] Instance toy_pages : Pages := {|
  next_handler q := EdgeResponse (if is_page (pathname (rq_url q)) then 200 else 404) (pathname (rq_url q));
  assets_fetch u := EdgeResponse (if is_page (pathname u) then 200 else 404) (pathname u)
|}.

Definition search_request (host path : string) : edge_request :=
  EdgeRequest (Url "https://explorer.snowside.network" path "") (Some host) "".

Lemma search_leads_to_no_page_witness :
  let w := steps signet_rpc [Input " 42 "] (load signet_rpc 0) in
  let q := search_request "explorer-signet.snowside.network" "/block/42" in
  location (vars (page_of (step signet_rpc Submit w))) = Some "/block/42" /\
  explorer_onRequest q = EdgeResponse 404 "/signet/block/42" /\
  (forall target, location (vars (page_of (step signet_rpc Submit w))) = Some target -> pathname (rq_url q) = target ->
    (exists type, query_text type "42" /\ target = "/" +:+ type +:+ "/" +:+ "42") /\
    exists path, is_page path = false /\
      (explorer_onRequest q = next_handler q /\ path = target \/
       explorer_onRequest q = assets_fetch (set_pathname path (rq_url q)))).
Proof.
  split; [vm_compute; reflexivity|]. split; [vm_compute; reflexivity|].
  exact (proj2 (search_leads_to_no_page signet_rpc (steps signet_rpc [Input " 42 "] (load signet_rpc 0))
    (search_request "explorer-signet.snowside.network" "/block/42") eq_refl)).
Defined.
