(* ===== verification/TourContent.v ===== *)
(** * The tour's copy ([packages/tour/content.mjs])

    Every string of the deck, as UTF-8. *)

From Stdlib Require Import Ascii String List.
From stdpp Require Import base strings.
From S2P Require Import Prelude.

Record card := Card { kicker : string; title : string; body : string }.

Record cover_content := CoverContent {
  cover_kicker : string;
  cover_banner : string;
  cover_bannerAlt : string;
  cover_tagline : string;
  cover_subtitle : string;
}.

(** A slide of cards; [footnote] is [footnoteStrong] and [footnoteRest]. *)
Record cards_content := CardsContent {
  cards_heading : string;
  cards_lead : string;
  cards_list : list card;
  cards_footnote : option (string * string);
}.

Record row := Row { feature : string; snowside : string; lightning : string; base : string }.
Record comparison_content := ComparisonContent {
  cmp_heading : string; cmp_lead : string; columns : list string; rows : list row }.

Record risk := Risk { risk_name : string; mitigation : string }.
Record risks_content := RisksContent { risks_heading : string; risks_lead : string; risk_items : list risk }.

Record phase := Phase { month : string; milestone : string }.
Record roadmap_content := RoadmapContent { roadmap_heading : string; roadmap_lead : string; phases : list phase }.

Record revenue := Revenue { rev_title : string; apy : string; note : string }.
Record opportunities_content := OpportunitiesContent {
  opp_heading : string; opp_lead : string; opp_cards : list revenue; footnote : string }.

Record faq := Faq { faq_q : string; faq_a : string }.
Record faqs_content := FaqsContent { faqs_heading : string; faqs_lead : string; faq_items : list faq }.

Record link := Link { icon : string; link_label : string; href : string }.
Record connect_content := ConnectContent {
  connect_heading : string; connect_lead : string; links : list link; footer : list string }.

Definition cover : cover_content :=
  CoverContent "SNOWSIDE TOUR"
    "/cover-banner.png"
    "Bitcoin Security at Avalanche Speed"
    "Bitcoin Security<br />at Avalanche Speed"
    "The eCash Sidechain on Avalanche<br />Native ECX Gas • Native USDC Liquidity".

Definition whatIsSnowside : cards_content :=
  CardsContent "What Is Snowside?"
    "A dedicated Avalanche Layer-1 blockchain built to host Paul Sztorc’s upcoming eCash hard-fork. It runs as a clean EVM sidechain where the **native gas token is ECX** — no new tokens, no pre-mine, just eCash security via blind merged mining."
    [
    Card "01 — Gas"
        "Native ECX gas"
        "Fees paid in ECX via BIP-301 blind merged mining.";
    Card "02 — Finality"
        "Sub-second finality"
        "Avalanche Snowman consensus settles in under a second.";
    Card "03 — Bridge"
        "USDC bridging"
        "Native Interchain Messaging from the Avalanche C-Chain.";
    Card "04 — EVM"
        "Full EVM"
        "Remix, Hardhat, Foundry work out-of-the-box.";
    Card "05 — Validation"
        "Community-run validators"
        "Community-operated validator set with low operational cost.";
    Card "06 — Token"
        "No token. No ICO."
        "Infrastructure, not an investment vehicle."]
    None.

Definition twoAssets : cards_content :=
  CardsContent "Two Native Assets, Zero Friction"
    "Bridging eCash and stablecoin economies in one network."
    [
    Card "Asset 01"
        "⚡ Native ECX Gas"
        "Transaction fees paid in real ECX via blind merged mining. No new token, no pre-mine, no inflation.";
    Card "Asset 02"
        "🌉 USDC Bridging"
        "Avalanche Interchain Messaging (ICM) bridges USDC from the C-Chain natively. Stable liquidity from day one."]
    (Some ("No competing token.", " Just ECX for gas and USDC for liquidity.")).

Definition howItWorks : cards_content :=
  CardsContent "How It Works"
    "Four layers of technology, one cohesive sidechain."
    [
    Card "01"
        "BMM"
        "eCash miners commit to Snowside blocks without running them. They earn ECX fees while securing the chain with existing hash power.";
    Card "02"
        "Avalanche L1"
        "A dedicated validator set runs Snowside with sub-second finality. Validators are community-operated.";
    Card "03"
        "ECX Gas Flow"
        "Users pay gas in ECX. Miners collect fees through BMM commitments. The loop closes entirely within eCash.";
    Card "04"
        "ICM USDC Bridge"
        "Avalanche ICM trustlessly bridges USDC from the C-Chain — no third-party bridges, no wrapped assets."]
    None.

Definition whyAvalanche : cards_content :=
  CardsContent "Why Avalanche Is the Perfect Substrate"
    ""
    [
    Card "01"
        "Sovereign validation"
        "Snowside runs its own validators, ensuring dedicated throughput for eCash operations.";
    Card "02"
        "Native interoperability"
        "Avalanche ICM allows trust-less bridging of USDC from the C-Chain without third-party bridges.";
    Card "03"
        "Low operational cost"
        "Avalanche9000’s subscription model makes community-run validation cheap and feasible.";
    Card "04"
        "Tooling maturity"
        "Full EVM compatibility — Remix, Hardhat, The Graph, Foundry all work out-of-the-box.";
    Card "05"
        "Proven L1 track record"
        "Multiple Avalanche L1s are already live in production. The infrastructure is battle-tested."]
    None.

Definition agenticPayments : cards_content :=
  CardsContent "Agentic Payments"
    "Snowside’s low-fee ECX gas and native USDC bridging make it ideal for autonomous, machine-to-machine payments."
    [
    Card "Protocol"
        "x402"
        "An open payment protocol built on the HTTP 402 <em>Payment Required</em> status code. Agents pay per-request, natively over HTTP — no gateways, no intermediaries.";
    Card "Settlement"
        "USDC, low fees"
        "Stablecoin settlement via native ICM USDC. Sub-cent transaction fees and no price volatility — predictable per-call economics for agents.";
    Card "Autonomy"
        "Machines pay machines"
        "Autonomous AI agents discover, negotiate, and pay for services without human-in-the-loop approvals or custodial wallets.";
    Card "Finality"
        "Instant settlement"
        "Sub-second Avalanche finality means a payment is confirmed before the response is served — no waiting on block confirmations.";
    Card "Composability"
        "Full EVM"
        "x402 payment flows compose with any EVM contract — escrows, streaming, programmable spend policies — all on one chain.";
    Card "No token tax"
        "ECX, not a toll token"
        "Gas is paid in ECX. No protocol token skim on every agent transaction — just the eCash security fee."]
    None.

Definition comparison : comparison_content :=
  ComparisonContent "How Snowside Compares"
    "Snowside vs. Lightning Network vs. Base"
    ["Feature"; "Snowside"; "Lightning"; "Base"]
    [
    Row "Consensus mechanism"
        "Avalanche PoS + BMM"
        "Off-chain channels"
        "Ethereum PoS";
    Row "Finality time"
        "< 1 second"
        "Instant (payment)"
        "~ 2 seconds";
    Row "Gas token"
        "ECX"
        "BTC"
        "ETH";
    Row "Smart contracts"
        "Full EVM"
        "Limited (scripts)"
        "Full EVM";
    Row "Stablecoin support"
        "Native USDC via ICM"
        "None"
        "Native USDC";
    Row "Node operation"
        "Community-run"
        "Manual"
        "Manual";
    Row "Maintenance burden"
        "Low"
        "Medium"
        "Medium";
    Row "Validator sovereignty"
        "Dedicated set"
        "N/A"
        "Shared with Ethereum"].

Definition risks : risks_content :=
  RisksContent "Risks & Mitigations"
    ""
    [
    Risk "Low initial validator count"
        "Launch with community validators. Low operational cost via Avalanche9000 reduces technical barriers to participation. Validator incentives funded by ECX gas fees.";
    Risk "BMM adoption by miners"
        "BMM fees are denominated in ECX. Miners earn real revenue with zero additional hashing cost. The economic incentive is straightforward and self-sustaining.";
    Risk "USDC bridge security"
        "ICM is a native Avalanche protocol, not a third-party bridge. It uses the full security of the Avalanche consensus — the same mechanism securing billions in TVL on the C-Chain.";
    Risk "eCash specification changes"
        "Direct coordination with Paul Sztorc ensures the L1 configuration tracks the eCash spec. Smart contracts are upgradeable during the initial testnet phase.";
    Risk "Long-term maintainability"
        "EthSide was retired because manual operation was unsustainable. Community-run validators and low operational cost eliminate the maintenance burden that killed the predecessor.";
    Risk "Regulatory uncertainty"
        "Snowside uses existing, established assets (ECX, USDC) — no new token issuance. The chain is fully open source and community-operated."].

Definition roadmap : roadmap_content :=
  RoadmapContent "From Devnet to Mainnet and Beyond..."
    ""
    [
    Phase "Devnet"
        "Internal development network. Genesis configuration, precompile integration, and BMM coordination precompile validation against the Subnet-EVM fork.";
    Phase "Alphanet"
        "Federated federation bootstrapping. eCash Alphanet BIP-300/301 deposit and withdrawal flow validation; NativeMinter and DeployerAllowList precompiles live.";
    Phase "Betanet"
        "Public testnet with community validators. Security audit of peg smart contracts; ICM USDC bridge integration with the Avalanche C-Chain; block explorer deployment.";
    Phase "Mainnet"
        "Mainnet launch with community validators; public RPC endpoints; developer documentation released; first eCash dApp deployments.";
    Phase "Ongoing"
        "Validator growth, protocol maintenance, ecosystem development. Continuous BMM adoption and USDC liquidity expansion."].

Definition opportunities : opportunities_content :=
  OpportunitiesContent "Opportunities"
    "Revenue streams and yield for participants in the Snowside network."
    [
    Revenue "Validator Staking"
        "ECX gas fees"
        "Run a Snowside validator and earn a share of every transaction’s ECX gas. Sovereign PoS with sub-second finality means consistent, predictable revenue.";
    Revenue "Miner BMM Yield"
        "Sidechain fees"
        "eCash miners commit to Snowside blocks through Blind Merged Mining — earn ECX fees from the sidechain with zero additional hashing cost. Pure incremental revenue on existing hash power.";
    Revenue "USDC Liquidity Provision"
        "Bridge fees + yield"
        "Provide USDC liquidity via the ICM bridge from Avalanche C-Chain. Enable stablecoin commerce on Snowside and capture bridging fees plus DeFi yield opportunities."]
    "Three ways to earn. Zero new tokens. All revenue denominated in ECX or USDC.".

Definition faqs : faqs_content :=
  FaqsContent "Frequently Asked Questions"
    ""
    [
    Faq "What is Snowside?"
        "An Avalanche L1 for Paul Sztorc’s eCash hard-fork. ECX gas, USDC bridge, community-run validators.";
    Faq "Is there a token?"
        "No. No token, no pre-mine, no ICO, no airdrop. The network runs on ECX and USDC only.";
    Faq "How does ECX gas work?"
        "eCash miners commit to Snowside blocks via BMM. Users pay gas in ECX. Miners earn the fees.";
    Faq "How is USDC bridged?"
        "Trustlessly from Avalanche C-Chain via Interchain Messaging — a native Avalanche protocol, not a third-party bridge.";
    Faq "How do I run a validator?"
        "Deploy via NodΞRunr — one-click setup, 24/7 monitoring, automatic updates.";
    Faq "When does mainnet launch?"
        "Targeted for the Mainnet phase of the roadmap, following Betanet and security audits."].

Definition connect : connect_content :=
  ConnectContent "Connect with Us"
    "Open source. No token. Powered by Avalanche. Supported by the eCash sidechain community."
    [
    Link "📘"
        "Read the Whitepaper"
        "https://snowside.network/whitepaper.pdf";
    Link "💻"
        "View on GitHub"
        "https://github.com/abitsuite/snowside";
    Link "🐦"
        "Follow on X"
        "https://x.com/0xShomari";
    Link "💬"
        "Join our Discord"
        "https://discord.gg/jVytngEWt";
    Link "🌐"
        "Visit snowside.network"
        "https://snowside.network";
    Link "🏃"
        "Run a Validator"
        "https://layer1.run"]
    ["Snowside is an independent open-source project.";
     "Not affiliated with or endorsed by the Avalanche Foundation.";
     "Powered by Avalanche. Secured by eCash. Open to all."].

Definition BRAND_TITLE : string := "Snowside Tour".
Definition BRAND_TAGLINE : string := "Bitcoin Security at Avalanche Speed".
Definition PAGE_TITLE : string := BRAND_TITLE +:+ " — " +:+ BRAND_TAGLINE.
Definition PAGE_DESCRIPTION : string :=
  "The eCash Sidechain on Avalanche. Native ECX Gas • Native USDC Liquidity.".
