(* ===== verification/TourBuild.v ===== *)
(** * The tour's build ([packages/tour/slides.mjs], [packages/tour/scripts/build-tour.mjs])

    The slide model and the renderer: escaping, the block and slide renderers,
    the document, and the files written to [dist]. SHA-256, the two asset files
    and the copied public directory are parameters; directory creation and the
    console are left out. In template text a backquote stands for the double
    quote of the markup. *)

From Stdlib Require Import ZArith Lia Ascii String List Bool.
From stdpp Require Import base list strings numbers pretty gmap.
From S2P Require Import Prelude TourContent.
Local Open Scope Z_scope.

Definition quote_char : ascii := "034".
Definition newline : string := String "010" "".

(** A template chunk. *)
Definition h (s : string) : string :=
  map_str (fun c => if Ascii.eqb c "`" then quote_char else c) s.

(** ** The slide model (slides.mjs) *)

Inductive block :=
| BCards (cols : Z) (cards : list card)
| BNote (strong : string) (rest : option string)
| BComparison
| BRisks
| BRoadmap
| BRevenue (cards : list revenue)
| BFaqs (items : list faq).

Inductive slide_kind :=
| KCover (c : cover_content)
| KDefault (heading lead : string) (blocks : list block)
| KConnect (c : connect_content).

Record slide := Slide { id : string; label : string; kind : slide_kind }.

(** [slide.heading]; a cover has none. *)
Definition slide_heading (s : slide) : string :=
  match kind s with
  | KCover _ => ""
  | KDefault hd _ _ => hd
  | KConnect c => connect_heading c
  end.

Definition cards_slide (i l : string) (c : cards_content) (cols : Z) (more : list block) : slide :=
  Slide i l (KDefault (cards_heading c) (cards_lead c) (BCards cols (cards_list c) :: more)).

Definition footnote_block (c : cards_content) : list block :=
  match cards_footnote c with Some (s, r) => [BNote s (Some r)] | None => [] end.

Definition slides : list slide := [
  Slide "cover" "Cover" (KCover cover);
  cards_slide "what-is-snowside" "What Is Snowside?" whatIsSnowside 2 [];
  cards_slide "two-assets" "Two Native Assets" twoAssets 2 (footnote_block twoAssets);
  cards_slide "how-it-works" "How It Works" howItWorks 4 [];
  cards_slide "why-avalanche" "Why Avalanche" whyAvalanche 3 [];
  cards_slide "agentic-payments" "Agentic Payments" agenticPayments 3 [];
  Slide "comparison" "How Snowside Compares"
    (KDefault (cmp_heading comparison) (cmp_lead comparison) [BComparison]);
  Slide "risks" "Risks & Mitigations"
    (KDefault (risks_heading risks) (risks_lead risks) [BRisks]);
  Slide "roadmap" "Roadmap"
    (KDefault (roadmap_heading roadmap) (roadmap_lead roadmap) [BRoadmap]);
  Slide "opportunities" "Opportunities"
    (KDefault (opp_heading opportunities) (opp_lead opportunities)
      [BRevenue (opp_cards opportunities); BNote (footnote opportunities) None]);
  Slide "faqs" "FAQ" (KDefault (faqs_heading faqs) (faqs_lead faqs) [BFaqs (faq_items faqs)]);
  Slide "connect" "Connect with Us" (KConnect connect)].

Definition totalSlides : Z := Z.of_nat (length slides).

(** ** Escaping and inline formatting *)

Definition esc_char (c : ascii) : string :=
  if Ascii.eqb c "&" then "&amp;"
  else if Ascii.eqb c "<" then "&lt;"
  else if Ascii.eqb c ">" then "&gt;"
  else if Ascii.eqb c quote_char then "&quot;"
  else String c "".

(** [s.replace(/x/g, r)] for a character [x]. *)
Fixpoint replace_char (x : ascii) (r s : string) : string :=
  match s with
  | EmptyString => ""
  | String c s' => if Ascii.eqb c x then r +:+ replace_char x r s' else String c (replace_char x r s')
  end.

Definition esc (s : string) : string :=
  replace_char quote_char "&quot;"
    (replace_char ">" "&gt;" (replace_char "<" "&lt;" (replace_char "&" "&amp;" s))).

(** [s.replace(re, f)] with the global flag: [m] is the expression anchored at
    the current position, giving the replacement and what follows the match.
    Each turn consumes a character, so the length is enough fuel. *)
Fixpoint replace_loop (fuel : nat) (m : string -> option (string * string)) (s : string) : string :=
  match fuel, s with
  | O, _ => s
  | _, EmptyString => ""
  | S fuel', String c s' =>
      match m s with
      | Some (r, rest) => r +:+ replace_loop fuel' m rest
      | None => String c (replace_loop fuel' m s')
      end
  end.

Definition replace_re (m : string -> option (string * string)) (s : string) : string :=
  replace_loop (String.length s) m s.

(** A literal pattern. *)
Definition match_lit (p r s : string) : option (string * string) :=
  if starts_with p s then Some (r, drop_str (String.length p) s) else None.

Definition escKeepEm (s : string) : string :=
  replace_re (match_lit "&lt;/em&gt;" "</em>") (replace_re (match_lit "&lt;em&gt;" "<em>") (esc s)).

(** [/&lt;br\s*\/?&gt;/]; white space beyond ASCII is not considered. *)
Definition match_br (s : string) : option (string * string) :=
  if starts_with "&lt;br" s then
    let s1 := trim_start (drop_str 6 s) in
    let s2 := match s1 with String "/" s2 => s2 | _ => s1 end in
    match_lit "&gt;" "<br />" s2
  else None.

Definition escKeepBr (s : string) : string :=
  replace_re (match_lit newline "<br />") (replace_re match_br (esc s)).

Definition line_end (c : ascii) : bool := Ascii.eqb c "010" || Ascii.eqb c "013".

(** The shortest text before a double asterisk, on one line, and what follows
    the asterisks. *)
Fixpoint until_stars (s : string) : option (string * string) :=
  if starts_with "**" s then Some ("", drop_str 2 s)
  else match s with
       | EmptyString => None
       | String c s' =>
           if line_end c then None
           else match until_stars s' with Some (x, r) => Some (String c x, r) | None => None end
       end.

(** [/\*\*(.+?)\*\*/] replaced by the group in a [strong] element. *)
Definition match_bold (s : string) : option (string * string) :=
  if starts_with "**" s then
    match drop_str 2 s with
    | EmptyString => None
    | String c s' =>
        if line_end c then None
        else match until_stars s' with
             | Some (x, r) => Some ("<strong>" +:+ String c x +:+ "</strong>", r)
             | None => None
             end
    end
  else None.

Definition inline (s : string) : string := replace_re match_bold (escKeepEm s).

Definition slug_char (c : ascii) : bool := ascii_in "a" "z" c || is_digit c.

(** [/[^a-z0-9]+/g] to a hyphen; [gap] is whether the last character already
    belonged to a run. *)
Fixpoint hyphenate (gap : bool) (s : string) : string :=
  match s with
  | EmptyString => ""
  | String c s' =>
      if slug_char c then String c (hyphenate false s')
      else if gap then hyphenate true s'
      else String "-" (hyphenate true s')
  end.

(** One hyphen off the front, one off the back. *)
Definition strip_front (s : string) : string :=
  match s with String "-" s' => s' | _ => s end.
Definition strip_edges (s : string) : string :=
  reverse_str (strip_front (reverse_str (strip_front s))).

Definition slug (s : string) : string := strip_edges (hyphenate false (to_lower s)).

(** [list.join(sep)] *)
Fixpoint join (sep : string) (l : list string) : string :=
  match l with
  | [] => ""
  | [x] => x
  | x :: l' => x +:+ sep +:+ join sep l'
  end.

Definition join_lines : list string -> string := join newline.

(** A template of several lines. *)
Definition lines_of (l : list (list string)) : string :=
  join_lines (map (fun parts => foldr String.append "" parts) l).

(** ** Block renderers *)

Definition imap_z {A B} (f : A -> Z -> B) (l : list A) : list B :=
  imap (fun k x => f x (Z.of_nat k)) l.

Definition renderCard (c : card) : string :=
  lines_of [[h "          <article class=`snow-card`>"];
    [h "            <div class=`snow-card-kicker`>"; esc (kicker c); "</div>"];
    ["            <h3>"; esc (title c); "</h3>"];
    ["            <p>"; escKeepEm (body c); "</p>"];
    ["          </article>"]].

Definition renderCards (cols : Z) (cards : list card) : string :=
  let compact := (4 <=? cols) || (4 <? Z.of_nat (length cards)) in
  let gridClass := "grid" +:+ (if compact then " compact" else "") +:+
    (if 4 <=? cols then " tight" else "") in
  lines_of [[h "        <div class=`"; gridClass; h "` data-cols=`"; dec_str cols; h "`>"];
    [join_lines (map renderCard cards)];
    ["        </div>"]].

Definition renderNote (strong : string) (rest : option string) : string :=
  let s := if str_truthy strong then "<strong>" +:+ inline strong +:+ "</strong>" else "" in
  let r := match rest with
           | Some r => if str_truthy r then inline r else ""
           | None => ""
           end in
  h "        <p class=`snow-note`>" +:+ s +:+ r +:+ "</p>".

Definition renderComparison : string :=
  let head := join_lines (imap_z (fun c i =>
    "              <th" +:+ (if i =? 1 then h " class=`hl`" else "") +:+ ">" +:+ esc c +:+ "</th>")
    (columns comparison)) in
  let body := join_lines (map (fun r => lines_of [["            <tr>"];
      [h "              <th scope=`row`>"; esc (feature r); "</th>"];
      [h "              <td class=`hl`>"; esc (snowside r); "</td>"];
      ["              <td>"; esc (lightning r); "</td>"];
      ["              <td>"; esc (TourContent.base r); "</td>"];
      ["            </tr>"]]) (rows comparison)) in
  lines_of [[h "        <div class=`table-wrap`>"]; ["          <table>"]; ["            <thead>"];
    ["              <tr>"]; [head]; ["              </tr>"]; ["            </thead>"];
    ["            <tbody>"]; [body]; ["            </tbody>"]; ["          </table>"];
    ["        </div>"]].

Definition renderRisks : string :=
  let items := join_lines (map (fun r => lines_of [[h "          <article class=`snow-card`>"];
      [h "            <div class=`risk-head`><span class=`tag tag-risk`>RISK</span><p class=`risk-name`>";
       esc (risk_name r); "</p></div>"];
      [h "            <div class=`risk-body`><span class=`tag tag-fix`>FIX</span><p>";
       escKeepEm (mitigation r); "</p></div>"];
      ["          </article>"]]) (risk_items risks)) in
  lines_of [[h "        <div class=`grid` data-cols=`2`>"]; [items]; ["        </div>"]].

Definition renderRoadmap : string :=
  let n := Z.of_nat (length (phases roadmap)) in
  let items := join_lines (imap_z (fun p i => lines_of [[h "          <li class=`phase`>"];
      [h "            <div class=`phase-rail`>"];
      [h "              <div class=`phase-num`>"; dec_str (i + 1); "</div>"];
      [if i <? n - 1 then h "              <div class=`phase-line`></div>" +:+ newline else "";
       "            </div>"];
      [h "            <div class=`phase-body`>"];
      ["              <h3>"; esc (month p); "</h3>"];
      ["              <p>"; escKeepEm (milestone p); "</p>"];
      ["            </div>"];
      ["          </li>"]]) (phases roadmap)) in
  lines_of [[h "        <ol class=`phases`>"]; [items]; ["        </ol>"]].

Definition renderRevenue (cards : list revenue) : string :=
  let items := join_lines (map (fun c => lines_of [[h "          <article class=`snow-card`>"];
      [h "            <div class=`snow-card-kicker`>Revenue Stream</div>"];
      ["            <h3>"; esc (rev_title c); "</h3>"];
      [h "            <div class=`snow-revenue-apy`>"; esc (apy c); "</div>"];
      ["            <p>"; escKeepEm (note c); "</p>"];
      ["          </article>"]]) cards) in
  lines_of [[h "        <div class=`grid` data-cols=`3`>"]; [items]; ["        </div>"]].

Definition renderFaqs (items : list faq) : string :=
  lines_of [[h "        <div class=`faq-grid`>"];
    [join_lines (map (fun f => lines_of [[h "          <article class=`snow-card`>"];
      ["            <h3>"; esc (faq_q f); "</h3>"];
      ["            <p>"; escKeepEm (faq_a f); "</p>"];
      ["          </article>"]]) items)];
    ["        </div>"]].

Definition renderBlock (b : block) : string :=
  match b with
  | BCards cols cards => renderCards cols cards
  | BNote strong rest => renderNote strong rest
  | BComparison => renderComparison
  | BRisks => renderRisks
  | BRoadmap => renderRoadmap
  | BRevenue cards => renderRevenue cards
  | BFaqs items => renderFaqs items
  end.

(** ** Slide renderers *)

(** The opening tag of slide [i]. *)
Definition section_tag (s : slide) (i : Z) : string :=
  let lbl := str_or (str_or (label s) (slide_heading s)) "" in
  let active := if i =? 0 then " active" else "" in
  let attrs := h "data-index=`" +:+ dec_str i +:+ h "` data-label=`" +:+ esc lbl +:+
    h "` id=`slide-" +:+ slug (id s) +:+ h "`" in
  h "      <section class=`slide" +:+ active +:+ h "` " +:+ attrs +:+
    h " aria-label=`" +:+ esc lbl +:+ h "`>".

Definition renderCover (tag : string) (c : cover_content) : string :=
  lines_of [[tag];
    [h "        <div class=`snow-bg`>"];
    [h "          <div class=`cover-inner snow-cover-root`>"];
    [h "            <div class=`cover-kicker`>"; esc (cover_kicker c); "</div>"];
    [h "            <img src=`"; esc (cover_banner c); h "` alt=`"; esc (cover_bannerAlt c);
     h "` class=`cover-banner` />"];
    [h "            <h1 class=`cover-tagline`>"; escKeepBr (cover_tagline c); "</h1>"];
    [h "            <p class=`cover-subtitle`>"; escKeepBr (cover_subtitle c); "</p>"];
    ["          </div>"];
    ["        </div>"];
    ["      </section>"]].

Definition renderConnect (tag : string) (c : connect_content) : string :=
  let links := join_lines (map (fun l => h "            <a class=`snow-btn` href=`" +:+ esc (href l) +:+
    h "`>" +:+ esc (icon l) +:+ " " +:+ esc (link_label l) +:+ "</a>") (links c)) in
  let footer := join ("<br />" +:+ newline +:+ "            ") (map esc (footer c)) in
  lines_of [[tag];
    [h "        <div class=`snow-bg`>"];
    [h "          <div class=`connect-inner snow-connect-root`>"];
    ["            <h1>"; esc (connect_heading c); "</h1>"];
    [h "            <p class=`connect-lead`>"; esc (connect_lead c); "</p>"];
    [h "            <div class=`connect-grid`>"];
    [links];
    ["            </div>"];
    [h "            <p class=`connect-footer`>"];
    ["            "; footer];
    ["            </p>"];
    ["          </div>"];
    ["        </div>"];
    ["      </section>"]].

Definition renderDefault (tag : string) (num : Z) (heading lead : string) (blocks : list block) : string :=
  let lead := if str_truthy lead
    then h "          <p class=`slide-lead`>" +:+ inline lead +:+ "</p>" +:+ newline else "" in
  lines_of [[tag];
    [h "        <div class=`snow-bg`>"];
    [h "          <div class=`slide-label`>Snowside Tour</div>"];
    [h "          <div class=`slide-content`>"];
    ["            <h2>"; esc heading; "</h2>"];
    [lead; join_lines (map renderBlock blocks)];
    ["          </div>"];
    [h "          <div class=`slide-number`>"; dec_str num; " / "; dec_str totalSlides; "</div>"];
    ["        </div>"];
    ["      </section>"]].

Definition renderSlide (s : slide) (i : Z) : string :=
  let tag := section_tag s i in
  match kind s with
  | KCover c => renderCover tag c
  | KConnect c => renderConnect tag c
  | KDefault heading lead blocks => renderDefault tag (i + 1) heading lead blocks
  end.

(** ** The document *)

Definition slidesHtml : string := join_lines (imap_z renderSlide slides).

Definition renderDot (s : slide) (i : Z) : string :=
  h "        <button type=`button` class=`dot" +:+ (if i =? 0 then " active" else "") +:+
  h "` data-dot=`" +:+ dec_str i +:+ h "` aria-label=`Go to slide " +:+ dec_str (i + 1) +:+
  (if str_truthy (label s) then ": " +:+ esc (label s) else "") +:+ h "`></button>".

Definition dotsHtml : string := join_lines (imap_z renderDot slides).

Definition ORIGIN : string := "https://tour.snowside.network".
Definition OG_IMAGE : string := ORIGIN +:+ "/cover-banner.png".

Section document.
(** The content-hashed names of the two assets. *)
Context (cssHref jsSrc : string).

Definition head_html : string := lines_of [
    [h "  <meta charset=`utf-8` />"];
    [h "  <meta name=`viewport` content=`width=device-width, initial-scale=1, viewport-fit=cover` />"];
    ["  <title>"; esc PAGE_TITLE; "</title>"];
    [h "  <meta name=`description` content=`"; esc PAGE_DESCRIPTION; h "` />"];
    [h "  <link rel=`icon` href=`/favicon.svg` type=`image/svg+xml` />"];
    [""];
    ["  <!-- Fonts: same families the previous build loaded from Google Fonts -->"];
    [h "  <link rel=`preconnect` href=`https://fonts.googleapis.com` />"];
    [h "  <link rel=`preconnect` href=`https://fonts.gstatic.com` crossorigin />"];
    [h "  <link rel=`stylesheet` href=`https://fonts.googleapis.com/css2?family=Inter:wght@200;400;600;700;800&family=JetBrains+Mono:wght@200;400;600;700&display=swap` type=`text/css` />"];
    [""];
    [h "  <link rel=`stylesheet` href=`"; cssHref; h "` />"];
    [""];
    ["  <!-- Mode boot: runs BEFORE first paint so a reflowing phone never flashes the"];
    ["       deck (and a tablet or desktop never flashes the reflow layout). Kept"];
    ["       inline and tiny on purpose. Threshold must match assets/tour.js"];
    ["       (MOBILE_SCALE) and the documented value in assets/tour.css. -->"];
    ["  <script>"];
    ["    (function () {"];
    ["      var w = window.innerWidth, h = window.innerHeight"];
    ["      var scale = Math.min(w / 980, h / 552)"];
    ["      var mode = scale < 0.60 ? 'mobile' : 'deck'"];
    ["      document.documentElement.setAttribute('data-mode', mode)"];
    ["      if (mode === 'deck') {"];
    ["        document.documentElement.style.setProperty('--scale', String(scale))"];
    ["      }"];
    ["    })()"];
    ["  </script>"];
    [""];
    ["  <!-- Simple Analytics -->"];
    [h "  <script async defer src=`https://scripts.simpleanalyticscdn.com/latest.js`></script>"];
    [h "  <noscript><img src=`https://queue.simpleanalyticscdn.com/noscript.gif` alt=`` referrerpolicy=`no-referrer-when-downgrade` /></noscript>"];
    [""];
    ["  <!-- Open Graph -->"];
    [h "  <meta property=`og:title` content=`"; esc PAGE_TITLE; h "` />"];
    [h "  <meta property=`og:site_name` content=`Snowside Tour` />"];
    [h "  <meta property=`og:description` content=`"; esc PAGE_DESCRIPTION; h "` />"];
    [h "  <meta property=`og:type` content=`website` />"];
    [h "  <meta property=`og:url` content=`"; ORIGIN; h "/` />"];
    [h "  <meta property=`og:image` content=`"; OG_IMAGE; h "` />"];
    [h "  <meta property=`og:image:secure_url` content=`"; OG_IMAGE; h "` />"];
    [h "  <meta property=`og:image:type` content=`image/png` />"];
    [h "  <meta property=`og:image:width` content=`1200` />"];
    [h "  <meta property=`og:image:height` content=`630` />"];
    [h "  <meta property=`og:image:alt` content=`"; esc PAGE_TITLE; h "` />"];
    [h "  <meta property=`og:locale` content=`en_US` />"];
    [""];
    ["  <!-- Twitter / X -->"];
    [h "  <meta name=`twitter:card` content=`summary_large_image` />"];
    [h "  <meta name=`twitter:site` content=`@0xShomari` />"];
    [h "  <meta name=`twitter:creator` content=`@0xShomari` />"];
    [h "  <meta name=`twitter:title` content=`"; esc PAGE_TITLE; h "` />"];
    [h "  <meta name=`twitter:description` content=`"; esc PAGE_DESCRIPTION; h "` />"];
    [h "  <meta name=`twitter:image` content=`"; OG_IMAGE; h "` />"];
    [h "  <meta name=`twitter:image:alt` content=`"; esc PAGE_TITLE; h "` />"]].

Definition body_html : string := lines_of [
    [h "  <div class=`progress` role=`progressbar` aria-label=`Tour progress`></div>"];
    [""];
    [h "  <div class=`mobile-bar`>"];
    [h "    <div class=`mobile-wordmark`>Snowside Tour</div>"];
    [h "    <div class=`mobile-counter`>1 / "; dec_str totalSlides; "</div>"];
    ["  </div>"];
    [""];
    [h "  <div class=`viewport` role=`region` aria-roledescription=`carousel` aria-label=`Snowside Tour slides`>"];
    [h "    <div class=`stage`>"];
    [slidesHtml];
    ["    </div>"];
    ["  </div>"];
    [""];
    [h "  <div class=`dots` role=`group` aria-label=`Slide navigation`>"];
    [dotsHtml];
    ["  </div>"];
    [""];
    ["  <!-- Phone hint: swiping is not self-evident on a first visit. Fades out on"];
    ["       first successful interaction (see assets/tour.js). -->"];
    [h "  <div class=`swipe-hint` aria-hidden=`true`>Swipe or tap &rarr;</div>"];
    [""];
    [h "  <div class=`deck-controls`>"];
    [h "    <button type=`button` data-nav=`prev` aria-label=`Previous slide`>&#8592;</button>"];
    [h "    <button type=`button` data-nav=`next` aria-label=`Next slide`>&#8594;</button>"];
    ["  </div>"];
    [""];
    [h "  <p class=`visually-hidden`>Use the arrow keys, Page Up and Page Down, Home and End, or swipe"];
    ["  to move between the "; dec_str totalSlides; " slides. Press F to toggle full screen.</p>"];
    [""];
    ["  <!-- Without JS the deck cannot advance, so show every slide as a long page"];
    ["       instead of a single frozen frame. -->"];
    ["  <noscript>"];
    ["    <style>"];
    ["      html, body { overflow: auto !important; }"];
    ["      .viewport { position: static !important; overflow: visible !important; }"];
    ["      .stage { position: static !important; transform: none !important; width: auto !important; height: auto !important; }"];
    ["      .slide { display: block !important; position: relative !important; inset: auto !important; height: auto !important; min-height: 552px; margin-bottom: 1rem; }"];
    ["      .slide-content, .connect-inner { height: auto !important; overflow: visible !important; }"];
    ["      .progress, .deck-controls, .dots, .mobile-bar { display: none !important; }"];
    ["    </style>"];
    ["  </noscript>"];
    [""];
    [h "  <script src=`"; jsSrc; h "`></script>"]].

Definition html : string := lines_of [
    ["<!DOCTYPE html>"];
    [h "<html lang=`en` data-mode=`deck`>"];
    ["<head>"];
    [head_html];
    ["</head>"];
    [h "<body data-mode=`deck`>"];
    [body_html];
    ["</body>"];
    ["</html>"];
    [""]].
End document.

(** ** Emission *)

(** SHA-256 in hexadecimal, the two asset files, and the files of the public
    directory with their relative paths (none when it does not exist). *)
Class BuildInputs := {
  sha256_hex : string -> string;
  tour_css : string;
  tour_js : string;
  public_files : list (string * string);
}.

Section emit.
Context `{BuildInputs}.

Definition assetHash (file : string) : string := take_str 8 (sha256_hex file).
Definition css_href : string := "/assets/tour." +:+ assetHash tour_css +:+ ".css".
Definition js_src : string := "/assets/tour." +:+ assetHash tour_js +:+ ".js".

(** The output directory: relative path to content. *)

Definition write_file (d : gmap string string) (w : string * string) : gmap string string := <[fst w := snd w]> d.

Definition html_out : string := html css_href js_src.

Definition build (d : gmap string string) : gmap string string :=
  let d := foldl write_file d [
    (replace_first "/assets/" "assets/" css_href, tour_css);
    (replace_first "/assets/" "assets/" js_src, tour_js);
    ("assets/tour.css", tour_css);
    ("assets/tour.js", tour_js)] in
  let d := foldl write_file d public_files in
  foldl write_file d [
    ("index.html", html_out);
    ("404.html", html_out);
    ("_redirects", "/*    /index.html   200" +:+ newline)].
End emit.
