(* ===== verification/TourProps.v ===== *)
(** * Properties of the tour's build

    Escaping and inline formatting, slugs, the deck's own markup against what
    the runtime expects of it, and the files of one build. *)

From Stdlib Require Import ZArith Lia Ascii String List Bool.
From stdpp Require Import base list strings numbers pretty gmap.
From S2P Require Import Prelude JsNumber TourContent TourBuild.
Local Open Scope Z_scope.

(** ** Replacement *)

Lemma replace_char_app x r s t :
  replace_char x r (s +:+ t) = replace_char x r s +:+ replace_char x r t.
Proof.
  induction s as [|c s IH]; [done|]. cbn [String.append replace_char].
  destruct (Ascii.eqb c x); cbn [String.append]; by rewrite IH, ?app_assoc_str.
Qed.

(** [esc] works character by character. *)
Lemma esc_cons c s : esc (String c s) = esc_char c +:+ esc s.
Proof.
  unfold esc, esc_char. cbn [replace_char].
  destruct (Ascii.eqb_spec c "&") as [->|H1]; [by rewrite !replace_char_app|].
  cbn [replace_char]. destruct (Ascii.eqb_spec c "<") as [->|H2]; [by rewrite !replace_char_app|].
  cbn [replace_char]. destruct (Ascii.eqb_spec c ">") as [->|H3]; [by rewrite !replace_char_app|].
  cbn [replace_char]. by destruct (Ascii.eqb_spec c quote_char) as [->|H4].
Qed.

Definition consumes (m : string -> option (string * string)) : Prop :=
  forall c s r rest, m (String c s) = Some (r, rest) -> (String.length rest <= String.length s)%nat.

Lemma replace_fuel m f g s :
  consumes m -> (String.length s <= f)%nat -> (String.length s <= g)%nat ->
  replace_loop f m s = replace_loop g m s.
Proof.
  intros Hm. revert g s. induction f as [|f IH]; intros g s Hf Hg.
  - destruct s; [by destruct g|simpl in Hf; lia].
  - destruct s as [|c s]; [by destruct g|]. destruct g as [|g]; [simpl in Hg; lia|].
    simpl in Hf, Hg. cbn [replace_loop]. destruct (m (String c s)) as [[r rest]|] eqn:E.
    + pose proof (Hm _ _ _ _ E). by rewrite (IH g) by lia.
    + by rewrite (IH g) by lia.
Qed.

Lemma replace_re_cons m c s :
  consumes m ->
  replace_re m (String c s) =
    match m (String c s) with
    | Some (r, rest) => r +:+ replace_re m rest
    | None => String c (replace_re m s)
    end.
Proof.
  intros Hm. unfold replace_re. cbn [String.length replace_loop].
  destruct (m (String c s)) as [[r rest]|] eqn:E; [|done]. pose proof (Hm _ _ _ _ E).
  rewrite (replace_fuel m (String.length s) (String.length rest) rest) by (done || lia). done.
Qed.

Lemma drop_str_length n s : String.length (drop_str n s) = (String.length s - n)%nat.
Proof. revert s. induction n as [|n IH]; intros [|c s]; simpl; auto. Qed.

Lemma match_lit_consumes p r : p <> "" -> consumes (match_lit p r).
Proof.
  intros Hp c s r' rest. unfold match_lit. destruct (starts_with p _); [|done]. intros [= _ <-].
  rewrite drop_str_length. destruct p; [done|]. simpl. lia.
Qed.

(** ** The four entities, decoded *)

Definition match_entity (s : string) : option (string * string) :=
  match match_lit "&amp;" "&" s with
  | Some x => Some x
  | None =>
      match match_lit "&lt;" "<" s with
      | Some x => Some x
      | None =>
          match match_lit "&gt;" ">" s with
          | Some x => Some x
          | None => match_lit "&quot;" (String quote_char "") s
          end
      end
  end.

(** How a browser reads the escaped text back. *)
Definition unescape (s : string) : string := replace_re match_entity s.

Lemma match_entity_consumes : consumes match_entity.
Proof.
  intros c s r rest. unfold match_entity.
  destruct (match_lit "&amp;" _ _) eqn:E1; [intros [= ->]; by eapply match_lit_consumes in E1|].
  destruct (match_lit "&lt;" _ _) eqn:E2; [intros [= ->]; by eapply match_lit_consumes in E2|].
  destruct (match_lit "&gt;" _ _) eqn:E3; [intros [= ->]; by eapply match_lit_consumes in E3|].
  intros E4. by eapply match_lit_consumes in E4.
Qed.

Lemma match_entity_other c s : Ascii.eqb c "&" = false -> match_entity (String c s) = None.
Proof.
  intros Hc. unfold match_entity, match_lit. cbn [starts_with]. by rewrite Ascii.eqb_sym, Hc.
Qed.

Lemma unescape_esc_char c s : unescape (esc_char c +:+ s) = String c (unescape s).
Proof.
  unfold esc_char. destruct (Ascii.eqb_spec c "&") as [->|H1];
    [|destruct (Ascii.eqb_spec c "<") as [->|H2]; [|destruct (Ascii.eqb_spec c ">") as [->|H3];
      [|destruct (Ascii.eqb_spec c quote_char) as [->|H4]]]];
    cbn [String.append]; unfold unescape; rewrite replace_re_cons by apply match_entity_consumes; [done..|].
  by rewrite match_entity_other by (by apply Ascii.eqb_neq).
Qed.

Definition markup_free (s : string) : bool :=
  all_str (fun c => negb (Ascii.eqb c "<" || Ascii.eqb c ">" || Ascii.eqb c quote_char)) s.

Lemma esc_markup_free s : markup_free (esc s) = true.
Proof.
  induction s as [|c s IH]; [done|]. rewrite esc_cons. unfold markup_free in *.
  rewrite all_str_app, IH. unfold esc_char.
  destruct (Ascii.eqb c "&"); [done|]. destruct (Ascii.eqb c "<") eqn:E1; [done|].
  destruct (Ascii.eqb c ">") eqn:E2; [done|]. destruct (Ascii.eqb c quote_char) eqn:E3; [done|].
  cbn [all_str]. by rewrite E1, E2, E3.
Qed.

(** ** Tags *)

(** Every opening angle bracket of [s] opens one of the tags [allow]. *)
Fixpoint only_tags (allow : list string) (s : string) : bool :=
  match s with
  | EmptyString => true
  | String c s' =>
      (negb (Ascii.eqb c "<") || existsb (fun t => starts_with t s) allow) && only_tags allow s'
  end.

Definition lacks (x : ascii) (s : string) : bool := all_str (fun c => negb (Ascii.eqb c x)) s.

Lemma only_tags_weaken allow allow' s :
  (forall t, In t allow -> In t allow') -> only_tags allow s = true -> only_tags allow' s = true.
Proof.
  intros Hin. induction s as [|c s IH]; [done|]. cbn [only_tags]. intros [H Hs]%andb_prop.
  rewrite IH by done. rewrite andb_true_r. destruct (Ascii.eqb c "<"); [|done]. cbn in *.
  apply existsb_exists in H as (t & Ht & H). apply existsb_exists. eauto.
Qed.

Lemma only_tags_free s : markup_free s = true -> only_tags [] s = true.
Proof.
  induction s as [|c s IH]; [done|]. unfold markup_free. cbn [all_str only_tags].
  intros [Hc Hs]%andb_prop. rewrite IH by done. by destruct (Ascii.eqb c "<").
Qed.

Lemma only_tags_tail allow c s : only_tags allow (String c s) = true -> only_tags allow s = true.
Proof. cbn [only_tags]. by intros [_ ?]%andb_prop. Qed.

Lemma only_tags_drop allow n s : only_tags allow s = true -> only_tags allow (drop_str n s) = true.
Proof.
  revert s. induction n as [|n IH]; intros [|c s]; try done. intros H. apply IH. by eapply only_tags_tail.
Qed.

(** A matcher that fires only on [x], whose replacement may be put before any
    well-tagged text. *)
Definition tag_safe (allow : list string) (x : ascii) (m : string -> option (string * string)) : Prop :=
  consumes m /\
  (forall c s, Ascii.eqb c x = false -> m (String c s) = None) /\
  (forall s r rest, m s = Some (r, rest) -> only_tags allow s = true ->
     only_tags allow rest = true /\
     forall t, only_tags allow t = true -> only_tags allow (r +:+ t) = true).

Lemma replace_keeps_start allow x m p s :
  tag_safe allow x m -> lacks x p = true -> starts_with p s = true -> starts_with p (replace_re m s) = true.
Proof.
  intros (Hc & Hx & _). revert s. induction p as [|a p IH]; intros s; [done|].
  unfold lacks. cbn [all_str]. intros [Ha%negb_true_iff Hp]%andb_prop.
  destruct s as [|b s]; [done|]. cbn [starts_with]. intros [E Hs]%andb_prop.
  apply Ascii.eqb_eq in E as <-. rewrite replace_re_cons, Hx by done.
  cbn [starts_with]. by rewrite Ascii.eqb_refl, IH.
Qed.

Lemma replace_only_tags_fuel allow x m n s :
  tag_safe allow x m -> forallb (lacks x) allow = true -> (String.length s <= n)%nat ->
  only_tags allow s = true -> only_tags allow (replace_re m s) = true.
Proof.
  intros Hm Hall. pose proof Hm as (Hc & Hx & Hr). revert s. induction n as [|n IH]; intros s Hn Hs.
  - destruct s; [done|simpl in Hn; lia].
  - destruct s as [|c s]; [done|]. simpl in Hn. rewrite replace_re_cons by done.
    destruct (m (String c s)) as [[r rest]|] eqn:E.
    + pose proof (Hc _ _ _ _ E). destruct (Hr _ _ _ E Hs) as [Hrest Happ]. apply Happ, IH; [lia|done].
    + pose proof Hs as [Ht Htl]%andb_prop. cbn [only_tags]. rewrite IH by (done || lia).
      rewrite andb_true_r. destruct (Ascii.eqb c "<") eqn:Ec; [|done]. cbn [negb orb] in *.
      apply existsb_exists in Ht as (t & Hin & Ht). apply existsb_exists. exists t. split; [done|].
      assert (lacks x t = true) as Hl by (by rewrite forallb_forall in Hall; apply Hall).
      pose proof (replace_keeps_start allow x m t _ Hm Hl Ht) as Hk.
      by rewrite replace_re_cons, E in Hk.
Qed.

Lemma replace_only_tags allow x m s :
  tag_safe allow x m -> forallb (lacks x) allow = true ->
  only_tags allow s = true -> only_tags allow (replace_re m s) = true.
Proof. intros. by eapply replace_only_tags_fuel. Qed.

Lemma only_tags_app_free allow p t :
  lacks "<" p = true -> only_tags allow t = true -> only_tags allow (p +:+ t) = true.
Proof.
  induction p as [|c p IH]; [done|]. unfold lacks. cbn [all_str String.append only_tags].
  intros [-> Hp]%andb_prop Ht. by rewrite IH.
Qed.

Lemma only_tags_app_r allow p t : only_tags allow (p +:+ t) = true -> only_tags allow t = true.
Proof. induction p as [|c p IH]; [done|]. intros H. by eapply IH, only_tags_tail. Qed.

Lemma only_tags_tag allow r t :
  In (String "<" r) allow -> lacks "<" r = true ->
  only_tags allow t = true -> only_tags allow (String "<" r +:+ t) = true.
Proof.
  intros Hin Hr Ht. cbn [String.append only_tags]. rewrite only_tags_app_free by done.
  rewrite andb_true_r. apply orb_true_intro. right. apply existsb_exists.
  exists (String "<" r). split; [done|]. exact (starts_with_app (String "<" r) t).
Qed.

Lemma lit_tag_safe allow x p r :
  In (String "<" r) allow -> lacks "<" r = true ->
  tag_safe allow x (match_lit (String x p) (String "<" r)).
Proof.
  intros Hin Hr. split_and!.
  - by apply match_lit_consumes.
  - intros c s Hc. unfold match_lit. cbn [starts_with]. by rewrite Ascii.eqb_sym, Hc.
  - intros s r' rest. unfold match_lit. destruct (starts_with _ s); [|done]. intros [= <- <-] Hs.
    split; [by apply (only_tags_drop _ (S (String.length p)))|]. intros t. by apply only_tags_tag.
Qed.

Lemma until_stars_spec s x r : until_stars s = Some (x, r) -> s = x +:+ "**" +:+ r.
Proof.
  revert x. induction s as [|c s IH]; intros x; [done|]. cbn [until_stars].
  destruct (starts_with "**" (String c s)) eqn:E.
  - intros [= <- <-]. by apply starts_with_split in E.
  - destruct (line_end c); [done|]. destruct (until_stars s) as [[y r']|]; [|done].
    intros [= <- <-]. by rewrite (IH y).
Qed.

Lemma starts_before_stars p y u t :
  lacks "*" p = true -> starts_with p (y +:+ String "*" u) = true -> starts_with p (y +:+ t) = true.
Proof.
  revert y. induction p as [|a p IH]; intros y; [by destruct (y +:+ t)|].
  unfold lacks. cbn [all_str]. intros [Ha%negb_true_iff Hp]%andb_prop.
  destruct y as [|b y]; cbn [String.append starts_with]; [by rewrite Ha|].
  intros [-> Hs]%andb_prop. by apply IH.
Qed.

Lemma only_tags_before_stars allow y u t :
  forallb (lacks "*") allow = true -> only_tags allow (y +:+ String "*" u) = true ->
  only_tags allow t = true -> only_tags allow (y +:+ t) = true.
Proof.
  intros Hall. induction y as [|c y IH]; [done|]. cbn [String.append only_tags].
  intros [Hc Hy]%andb_prop Ht. rewrite IH by done. rewrite andb_true_r.
  destruct (Ascii.eqb c "<"); [|done]. cbn [negb orb] in *.
  apply existsb_exists in Hc as (p & Hin & Hp). apply existsb_exists. exists p. split; [done|].
  apply (starts_before_stars p (String c y) u); [|done]. rewrite forallb_forall in Hall. by apply Hall.
Qed.

Lemma bold_tag_safe allow :
  In "<strong>" allow -> In "</strong>" allow -> forallb (lacks "*") allow = true ->
  tag_safe allow "*" match_bold.
Proof.
  intros H1 H2 Hall.
  assert (forall s r rest, match_bold s = Some (r, rest) -> exists y,
    s = "**" +:+ y +:+ "**" +:+ rest /\ r = "<strong>" +:+ y +:+ "</strong>") as Hsp.
  { intros s r rest. unfold match_bold. destruct (starts_with "**" s) eqn:E; [|done].
    apply starts_with_split in E. change (String.length "**") with 2%nat in E.
    destruct (drop_str 2 s) as [|c s']; [done|]. destruct (line_end c); [done|].
    destruct (until_stars s') as [[x r']|] eqn:E2; [|done]. intros [= <- <-].
    apply until_stars_spec in E2 as ->. exists (String c x). by rewrite E. }
  split_and!.
  - intros c s r rest E. destruct (Hsp _ _ _ E) as (y & Hs & _).
    apply (f_equal String.length) in Hs. rewrite !app_length_str in Hs. simpl in Hs. lia.
  - intros c s Hc. unfold match_bold. cbn [starts_with]. by rewrite Ascii.eqb_sym, Hc.
  - intros s r rest E Hs. destruct (Hsp _ _ _ E) as (y & -> & ->).
    apply only_tags_app_r in Hs. split.
    + by apply only_tags_app_r, only_tags_app_r in Hs.
    + intros t Ht. rewrite !app_assoc_str. apply (only_tags_tag allow "strong>"); [done|done|].
      apply (only_tags_before_stars allow y (String "*" rest)); [done|done|].
      by apply (only_tags_tag allow "/strong>").
Qed.

(** ** Slugs *)

Definition slug_or_hyphen (c : ascii) : bool := slug_char c || Ascii.eqb c "-".

(** Letters and digits in single-hyphen-separated groups; [prev] is whether a
    hyphen came just before. *)
Fixpoint hyphens_single (prev : bool) (s : string) : bool :=
  match s with
  | EmptyString => true
  | String c s' =>
      if slug_char c then hyphens_single false s'
      else Ascii.eqb c "-" && negb prev && hyphens_single true s'
  end.

Definition is_slug (s : string) : bool :=
  hyphens_single true s && negb (starts_with "-" (reverse_str s)).

Lemma hyphenate_single gap s : hyphens_single gap (hyphenate gap s) = true.
Proof.
  revert gap. induction s as [|c s IH]; intros gap; [done|]. cbn [hyphenate].
  destruct (slug_char c) eqn:E.
  - cbn [hyphens_single]. rewrite E. apply IH.
  - destruct gap; [apply IH|]. cbn. apply IH.
Qed.

Lemma single_weaken s : hyphens_single true s = true -> hyphens_single false s = true.
Proof. destruct s as [|c s]; [done|]. cbn. destruct (slug_char c); [done|]. by rewrite andb_false_r. Qed.

Lemma strip_front_single s : hyphens_single false s = true -> hyphens_single true (strip_front s) = true.
Proof.
  destruct s as [|c s]; [done|]. destruct (Ascii.eqb_spec c "-") as [->|Hc]; [done|].
  intros H. assert (strip_front (String c s) = String c s) as -> by (by destruct c as [[] [] [] [] [] [] [] []]).
  cbn [hyphens_single] in *. destruct (slug_char c); [done|]. apply Ascii.eqb_neq in Hc. by rewrite Hc in H.
Qed.

Lemma single_app_hyphen prev s :
  hyphens_single prev (s +:+ "-") = true ->
  hyphens_single prev s = true /\ (s = "" \/ starts_with "-" (reverse_str s) = false).
Proof.
  revert prev. induction s as [|c s IH]; intros prev; [by split; [|left]|].
  cbn [String.append hyphens_single]. intros H.
  assert (hyphens_single (negb (slug_char c)) (s +:+ "-") = true) as Hs.
  { destruct (slug_char c); [done|]. by apply andb_prop in H as [_ H]. }
  destruct (IH _ Hs) as [Hs' Hor]. split.
  - destruct (slug_char c); [done|]. apply andb_prop in H as [-> _]. done.
  - right. change (String c s) with (String c "" +:+ s). rewrite reverse_str_app.
    destruct s as [|d s].
    + cbn [String.append hyphens_single] in Hs. destruct (slug_char c) eqn:E; [|done].
      change (Ascii.eqb "-" c && true = false). rewrite andb_true_r. apply Ascii.eqb_neq. by intros <-.
    + destruct Hor as [?|Hn]; [done|].
      destruct (reverse_str (String d s)) as [|e r] eqn:E; [|done].
      apply (f_equal reverse_str) in E. by rewrite reverse_str_involutive in E.
Qed.

Lemma strip_back_slug s :
  hyphens_single true s = true -> is_slug (reverse_str (strip_front (reverse_str s))) = true.
Proof.
  intros H. unfold is_slug. rewrite reverse_str_involutive.
  destruct (reverse_str s) as [|c r] eqn:E; [done|].
  assert (s = reverse_str r +:+ String c "") as Hs.
  { rewrite <-(reverse_str_involutive s), E. exact (reverse_str_app (String c "") r). }
  destruct (Ascii.eqb_spec c "-") as [->|Hc].
  - cbn [strip_front]. rewrite Hs in H. apply single_app_hyphen in H as [-> [Hr|Hr]].
    + apply (f_equal reverse_str) in Hr. rewrite reverse_str_involutive in Hr. by subst r.
    + rewrite reverse_str_involutive in Hr. by rewrite Hr.
  - assert (strip_front (String c r) = String c r) as -> by (by destruct c as [[] [] [] [] [] [] [] []]).
    rewrite <-E, reverse_str_involutive, H, E. cbn [starts_with]. rewrite Ascii.eqb_sym.
    apply Ascii.eqb_neq in Hc. by rewrite Hc.
Qed.

Lemma slug_is_slug s : is_slug (slug s) = true.
Proof. apply strip_back_slug, strip_front_single, hyphenate_single. Qed.

Lemma slug_char_lower c : slug_char c || Ascii.eqb c "-" = true -> lower_char c = c.
Proof. destruct c as [[] [] [] [] [] [] [] []]; by intros ?. Qed.

Lemma single_lower prev s : hyphens_single prev s = true -> to_lower s = s.
Proof.
  revert prev. induction s as [|c s IH]; intros prev; [done|]. unfold to_lower in *. cbn [hyphens_single map_str].
  destruct (slug_char c) eqn:E.
  - intros Hs. by rewrite (IH _ Hs), slug_char_lower by (by rewrite E).
  - intros [[Hc _]%andb_prop Hs]%andb_prop. by rewrite (IH _ Hs), slug_char_lower by (by rewrite E, Hc).
Qed.

Lemma single_hyphenate gap s : hyphens_single gap s = true -> hyphenate gap s = s.
Proof.
  revert gap. induction s as [|c s IH]; intros gap; [done|]. cbn [hyphens_single hyphenate].
  destruct (slug_char c); [intros H; by rewrite IH|].
  intros [[->%Ascii.eqb_eq Hg%negb_true_iff]%andb_prop Hs]%andb_prop. rewrite Hg. by rewrite IH.
Qed.

Lemma strip_front_id s : starts_with "-" s = false -> strip_front s = s.
Proof. destruct s as [|c s]; [done|]. cbn [starts_with]. by destruct c as [[] [] [] [] [] [] [] []]. Qed.

Lemma single_front s : hyphens_single true s = true -> starts_with "-" s = false.
Proof.
  destruct s as [|c s]; [done|]. cbn [hyphens_single starts_with].
  destruct (Ascii.eqb_spec "-" c) as [<-|]; done.
Qed.

Lemma slug_fixed s : is_slug s = true -> slug s = s.
Proof.
  intros [H Hb%negb_true_iff]%andb_prop. unfold slug, strip_edges.
  rewrite (single_lower _ _ H), (single_hyphenate false) by (by apply single_weaken).
  rewrite (strip_front_id s) by (by apply single_front).
  by rewrite strip_front_id, reverse_str_involutive.
Qed.

(** ** The deck *)

(** Occurrences of [p] in [s]. *)
Fixpoint count (p s : string) : Z :=
  (if starts_with p s then 1 else 0) + match s with EmptyString => 0 | String _ s' => count p s' end.

(** ** Properties *)

(** Text put into the page by [esc] can neither open a tag nor end an
    attribute, and a browser reads back exactly the text that was given. *)
Theorem esc_roundtrip s : unescape (esc s) = s /\ markup_free (esc s) = true.
Proof.
  split; [|apply esc_markup_free]. induction s as [|c s IH]; [done|].
  by rewrite esc_cons, unescape_esc_char, IH.
Qed.

(** Inline formatting lets through no markup but its own: whatever the
    copy says, every angle bracket in a rendered lead or note opens an [em] or
    [strong] tag, and in a card body an [em] tag. *)
Theorem inline_opens_only_its_tags s :
  only_tags ["<em>"; "</em>"] (escKeepEm s) = true /\
  only_tags ["<strong>"; "</strong>"; "<em>"; "</em>"] (inline s) = true.
Proof.
  assert (only_tags ["<em>"; "</em>"] (escKeepEm s) = true) as He.
  { unfold escKeepEm. apply (replace_only_tags _ "&"); [|done|apply (replace_only_tags _ "&"); [|done|]].
    - apply (lit_tag_safe _ "&" "lt;/em&gt;" "/em>"); [simpl; auto|done].
    - apply (lit_tag_safe _ "&" "lt;em&gt;" "em>"); [simpl; auto|done].
    - apply (only_tags_weaken []); [by intros ? []|]. apply only_tags_free, esc_markup_free. }
  split; [done|]. unfold inline. apply (replace_only_tags _ "*"); [|done|].
  - by apply bold_tag_safe; simpl; auto.
  - revert He. apply only_tags_weaken. simpl. tauto.
Qed.

(** A slug is letters and digits in groups joined by single hyphens, with
    none at either end, and every such text is its own slug. *)
Theorem slug_canonical s :
  is_slug (slug s) = true /\ slug (slug s) = slug s /\ (is_slug s = true <-> slug s = s).
Proof.
  split_and!; [apply slug_is_slug|apply slug_fixed, slug_is_slug|].
  split; [apply slug_fixed|]. intros <-. apply slug_is_slug.
Qed.

(** The deck the repository ships fits its runtime: one section and one dot
    per slide, one of each marked active, section ids that are distinct and the
    slides' own, and no markup the renderers did not write. *)
Theorem deck_fits_runtime :
  count "<section class=" slidesHtml = totalSlides /\
  count (h "class=`dot") dotsHtml = totalSlides /\
  count (h "class=`slide active`") slidesHtml = 1 /\
  count (h "class=`dot active`") dotsHtml = 1 /\
  NoDup (map (fun s => slug (id s)) slides) /\
  Forall (fun s => count (h "id=`slide-" +:+ id s +:+ h "`") slidesHtml = 1) slides.
Proof.
  split_and!; [vm_compute; reflexivity..| |].
  - apply (bool_decide_eq_true_1 _). vm_compute. reflexivity.
  - apply (bool_decide_eq_true_1 _). vm_compute. reflexivity.
Qed.

Section build.
Context `{BuildInputs}.

Lemma foldl_write_miss d ws p :
  Forall (fun w => fst w <> p) ws -> foldl write_file d ws !! p = d !! p.
Proof.
  revert d. induction ws as [|[q c] ws IH]; intros d Hws; [done|].
  inversion Hws as [|? ? Hq Hr]; subst. cbn [foldl]. rewrite IH by done.
  unfold write_file. cbn [fst snd] in *. by rewrite lookup_insert_ne.
Qed.

(** The two hashed names differ whatever the hashes are. *)
Lemma hrefs_differ : drop_str 1 css_href <> drop_str 1 js_src.
Proof.
  intros E. apply (app_inj_str "assets/tour.") in E. apply (f_equal reverse_str) in E.
  by rewrite !reverse_str_app in E.
Qed.

(** Nor are they the old names. *)
Lemma hashed_not_plain k ext old :
  (String.length old < String.length (k +:+ ext))%nat -> "assets/tour." +:+ k +:+ ext <> "assets/tour." +:+ old.
Proof. intros Hl E. apply (app_inj_str "assets/tour.") in E. rewrite E in Hl. lia. Qed.

Lemma css_not_plain ext : In ext ["css"; "js"] -> drop_str 1 css_href <> "assets/tour." +:+ ext.
Proof. intros Hin. apply hashed_not_plain. rewrite app_length_str. destruct Hin as [<-|[<-|[]]]; simpl; lia. Qed.

Lemma js_not_plain ext : In ext ["css"; "js"] -> drop_str 1 js_src <> "assets/tour." +:+ ext.
Proof.
  intros [<-|[<-|[]]]; [|apply hashed_not_plain; rewrite app_length_str; simpl; lia].
  intros E. apply (app_inj_str "assets/tour.") in E.
  apply (f_equal reverse_str) in E. by rewrite reverse_str_app in E.
Qed.

(** A built page finds its files: whatever the output directory held and
    whatever public files are copied, as long as none of those lies under
    [assets], the stylesheet and script the document names are the ones it was
    built with, also under their old names, and the document itself answers
    both the root and unknown paths. *)
Theorem build_is_complete (d : gmap string string) :
  Forall (fun f => starts_with "assets/" (fst f) = false) public_files ->
  build d !! drop_str 1 css_href = Some tour_css /\
  build d !! drop_str 1 js_src = Some tour_js /\
  build d !! "assets/tour.css" = Some tour_css /\
  build d !! "assets/tour.js" = Some tour_js /\
  build d !! "index.html" = Some html_out /\
  build d !! "404.html" = Some html_out.
Proof.
  intros Hpub.
  assert (Hd : forall p, starts_with "assets/" p = true -> build d !! p =
    foldl write_file d [(replace_first "/assets/" "assets/" css_href, tour_css);
      (replace_first "/assets/" "assets/" js_src, tour_js);
      ("assets/tour.css", tour_css); ("assets/tour.js", tour_js)] !! p).
  { intros p Hp. unfold build. rewrite foldl_write_miss; [rewrite foldl_write_miss; [done|]|].
    - eapply Forall_impl; [exact Hpub|]. cbn beta. intros w Hw E. by rewrite E, Hp in Hw.
    - repeat (apply List.Forall_cons; [intros E; cbn in E; subst p; done|]). apply List.Forall_nil. }
  assert (Hc : replace_first "/assets/" "assets/" css_href = drop_str 1 css_href) by reflexivity.
  assert (Hj : replace_first "/assets/" "assets/" js_src = drop_str 1 js_src) by reflexivity.
  rewrite Hc, Hj in Hd.
  assert (drop_str 1 css_href <> drop_str 1 js_src) as Hne by apply hrefs_differ.
  split_and!; [rewrite Hd by done..| |]; unfold build; cbn [foldl]; unfold write_file; cbn [fst snd].
  - rewrite (lookup_insert_ne _ "assets/tour.js"), (lookup_insert_ne _ "assets/tour.css") by
      (symmetry; apply css_not_plain; simpl; auto).
    by rewrite lookup_insert_ne, lookup_insert_eq by done.
  - rewrite (lookup_insert_ne _ "assets/tour.js"), (lookup_insert_ne _ "assets/tour.css") by
      (symmetry; apply js_not_plain; simpl; auto).
    by rewrite lookup_insert_eq.
  - by rewrite lookup_insert_ne, lookup_insert_eq by done.
  - by rewrite lookup_insert_eq.
  - by rewrite !lookup_insert_ne, lookup_insert_eq by done.
  - by rewrite lookup_insert_ne, lookup_insert_eq by done.
Qed.
End build.

(** ** Witness *)

Definition sample_inputs : BuildInputs :=
  Build_BuildInputs (fun f => if String.eqb f "body{}" then "0123456789abcdef" else "fedcba9876543210")
    "body{}" "(function(){})()" [("favicon.svg", "<svg/>")].

Lemma build_is_complete_witness :
  build (H := sample_inputs) empty !! "assets/tour.01234567.css" = Some "body{}" /\
  build (H := sample_inputs) empty !! "assets/tour.fedcba98.js" = Some "(function(){})()".
Proof.
  assert (Forall (fun f => starts_with "assets/" (fst f) = false) (public_files (BuildInputs := sample_inputs)))
    as Hp by (repeat constructor).
  destruct (build_is_complete (H := sample_inputs) empty Hp) as (Hc & Hj & _).
  split; [exact Hc|exact Hj].
Defined.
