(* ===== verification/Pdf.v ===== *)
(** * Documents drawn with jsPDF

    What packages/web/src/data/whitepaper (types.ts and the figures) and
    packages/web/src/pages/whitepaper.pdf.ts are written in: Number arithmetic
    with fractions, a document as the list of the calls made to jsPDF, and the
    state of the writer. The arithmetic is a class with two instances, the
    doubles of JavaScript and exact rationals. *)

From Stdlib Require Import ZArith QArith Lia Ascii String List Bool SpecFloat.
From stdpp Require Import base list strings numbers.
From S2P Require Import Prelude.
Local Open Scope Z_scope.

(** ** Numbers *)

(** [lit n d] is the literal with value [n / d]. *)
Class Num (A : Type) := {
  lit : Z -> positive -> A;
  nadd : A -> A -> A;
  nsub : A -> A -> A;
  nmul : A -> A -> A;
  ndiv : A -> A -> A;
  nltb : A -> A -> bool
}.

Declare Scope num_scope.
Delimit Scope num_scope with num.
Notation "# n" := (lit n%Z 1%positive) (at level 1, n at level 0, format "# n") : num_scope.
Infix "+" := nadd : num_scope.
Infix "-" := nsub : num_scope.
Infix "*" := nmul : num_scope.
Infix "/" := ndiv : num_scope.

(** JavaScript's Numbers: a literal is the double nearest to its value, which
    the division of two integers rounds to. *)
Definition double_of_Z (z : Z) : spec_float := binary_normalize 53 1024 z 0 false.

#[export] Instance double_num : Num spec_float := {|
  lit n d := SFdiv 53 1024 (double_of_Z n) (double_of_Z (Zpos d));
  nadd := SFadd 53 1024;
  nsub := SFsub 53 1024;
  nmul := SFmul 53 1024;
  ndiv := SFdiv 53 1024;
  nltb := SFltb
|}.

(** The same arithmetic without rounding, for statements about positions. *)
Definition exact_num : Num Q := {|
  lit n d := Qmake n d;
  nadd := Qplus;
  nsub := Qminus;
  nmul := Qmult;
  ndiv a b := Qmult a (Qinv b);
  nltb a b := negb (Qle_bool b a)
|}.

(** ** Documents *)

Definition color := (Z * Z * Z)%type.

(** The calls that write to a document. *)
Inductive op (A : Type) :=
| AddFileToVFS (file base64 : string)
| AddFont (file family style : string)
| SetProperties (properties : list (string * string))
| SetFillColor (c : color)
| SetTextColor (c : color)
| SetDrawColor (c : color)
| SetLineWidth (w : A)
| SetLineDashPattern (dashes : list A) (phase : A)
| SetFont (family style : string)
| SetFontSize (size : A)
| Line (x1 y1 x2 y2 : A)
| Rect (x y w h : A) (style : string)
| RoundedRect (x y w h rx ry : A) (style : string)
| Triangle (x1 y1 x2 y2 x3 y3 : A) (style : string)
| Text (lines : list string) (x y : A)
| AddPage.
Arguments AddFileToVFS {A}. Arguments AddFont {A}. Arguments SetProperties {A}.
Arguments SetFillColor {A}. Arguments SetTextColor {A}. Arguments SetDrawColor {A}.
Arguments SetFont {A}. Arguments AddPage {A}. Arguments SetLineWidth {A}. Arguments SetFontSize {A}.
Arguments SetLineDashPattern {A}. Arguments Line {A}. Arguments Rect {A}. Arguments RoundedRect {A}.
Arguments Triangle {A}. Arguments Text {A}.

(** A value thrown by a library: an [Error] with its message, or another. *)
Inductive thrown := ErrorObject (message : string) | OtherValue.

(** What jsPDF computes: the size of a page, metrics that depend on the calls
    made so far (newest first), and the bytes of the document. *)
Class JsPdf (A : Type) := {
  getWidth : A;
  getHeight : A;
  getTextWidth : list (op A) -> string -> A;
  splitTextToSize : list (op A) -> string -> A -> list string;
  output : list (op A) -> string + thrown
}.

(** The pages of a document. *)
Fixpoint pages {A} (ops : list (op A)) : Z :=
  match ops with
  | [] => 1
  | AddPage :: before => pages before + 1
  | _ :: before => pages before
  end.

(** ** The writer *)

(** The calls made, newest first, and the variables [cursorY] and [pageNum]. *)
Record pen (A : Type) := Pen { ops : list (op A); cursorY : A; pageNum : Z }.
Arguments Pen {A} ops cursorY pageNum.
Arguments ops {A}. Arguments cursorY {A}. Arguments pageNum {A}.

Definition W (A X : Type) : Type := pen A -> X * pen A.

Declare Scope pdf_scope.
Delimit Scope pdf_scope with pdf.

Section writer.
Context {A : Type}.

Definition wret {X} (x : X) : W A X := fun s => (x, s).
Definition wbind {X Y} (c : W A X) (f : X -> W A Y) : W A Y := fun s => let (x, s') := c s in f x s'.
Definition emit (o : op A) : W A unit := fun s => (tt, Pen (o :: ops s) (cursorY s) (pageNum s)).

Fixpoint wfor {X} (xs : list X) (body : X -> W A unit) : W A unit :=
  match xs with
  | [] => wret tt
  | x :: xs' => wbind (body x) (fun _ => wfor xs' body)
  end.

Definition measure `{JsPdf A} (t : string) : W A A := fun s => (getTextWidth (ops s) t, s).
Definition split_text `{JsPdf A} (t : string) (w : A) : W A (list string) := fun s =>
  (splitTextToSize (ops s) t w, s).

Definition get_cursor : W A A := fun s => (cursorY s, s).
Definition set_cursor (y : A) : W A unit := fun s => (tt, Pen (ops s) y (pageNum s)).
Definition get_page : W A Z := fun s => (pageNum s, s).
Definition next_page : W A unit := fun s => (tt, Pen (ops s) (cursorY s) (pageNum s + 1)).
End writer.

Notation "x <- c ;; k" := (wbind c (fun x => k))
  (at level 100, c at next level, right associativity) : pdf_scope.
Notation "c ;; k" := (wbind c (fun _ => k))
  (at level 100, right associativity) : pdf_scope.

(** ** Figures: types.ts *)

Record FigureContext (A : Type) := Ctx { ctx_x : A; ctx_y : A; ctx_width : A }.
Arguments Ctx {A}. Arguments ctx_x {A}. Arguments ctx_y {A}. Arguments ctx_width {A}.

Record Figure (A : Type) := MkFigure {
  caption : string;
  height : A;
  draw : FigureContext A -> W A unit
}.
Arguments MkFigure {A}. Arguments caption {A}. Arguments height {A}. Arguments draw {A}.

Inductive Block (A : Type) := Paragraph (text : string) | Fig (f : Figure A).
Arguments Paragraph {A}. Arguments Fig {A}.

Record WhitepaperSection (A : Type) := MkSection { heading : string; body : list (Block A) }.
Arguments MkSection {A}. Arguments heading {A}. Arguments body {A}.

(** *** The helpers every figure declares *)

Section helpers.
Context {A : Type} `{NU : Num A} `{JP : JsPdf A}.
Local Open Scope num_scope.

Definition dr (c : color) : W A unit := emit (SetDrawColor c).
Definition fl (c : color) : W A unit := emit (SetFillColor c).
Definition tx (c : color) : W A unit := emit (SetTextColor c).

Definition ctext (t : string) (cx ty : A) : W A unit := fun s =>
  emit (Text [t] (cx - getTextWidth (ops s) t / #2) ty) s.
End helpers.
