(* ===== verification/PdfFigures.v ===== *)
(** * The whitepaper's figures: packages/web/src/data/whitepaper/figures/*.ts

    One definition per file: the calls [draw] makes, in order, with the local
    constants and closures the code declares. *)

From Stdlib Require Import ZArith Lia String List Bool.
From stdpp Require Import base list strings numbers.
From S2P Require Import Prelude Pdf.
Local Open Scope Z_scope.

(** ** Colours *)

Definition PURPLE : color := (107, 45, 91).
Definition BTC_ORG : color := (247, 147, 26).
Definition USDC_BL : color := (39, 117, 202).
Definition SNOW : color := (56, 189, 248).
Definition SNOW_D : color := (14, 165, 233).
Definition INK : color := (15, 15, 15).
Definition LIGHT : color := (240, 240, 245).
Definition AXIS : color := (102, 102, 115).
Section figures.
Context {A : Type} `{NU : Num A} `{JP : JsPdf A}.
Local Open Scope num_scope.
Local Open Scope pdf_scope.

(** Rows of consensus-layers.ts and boxes of gas-flow.ts *)
Record tier_row := Tier { tier_label : string; tier_desc : string; tier_time : string; tier_color : color }.
Record flow_box := Box { b_x : A; b_color : color; b_label : string; b_sub : string }.

(** architecture-diagram.ts *)
Definition architectureDiagram : Figure A := {|
  caption := "Figure: System architecture. eCash miners secure Snowside via BMM commitments (left). Avalanche C-Chain provides USDC liquidity via ICM bridge (right). Snowside operates as a sovereign EVM L1 in the center.";
  height := #165;
  draw ctx :=
    let x := ctx_x ctx in let y := ctx_y ctx in let width := ctx_width ctx in
    let padT := #10 in
    let boxH := #70 in
    let boxY := y + padT in
    let boxW := (width - #80) / #3 in
    let gap := #40 in
    let leftX := x in
    let midX := x + boxW + gap in
    let rightX := x + #2 * (boxW + gap) in
    let cy := boxY + boxH / #2 in
    fl LIGHT ;;
    dr BTC_ORG ;;
    emit (SetLineWidth (lit 15 10)) ;;
    emit (RoundedRect leftX boxY boxW boxH #6 #6 "FD") ;;
    emit (SetFont "NotoSans" "bold") ;;
    emit (SetFontSize #10) ;;
    tx BTC_ORG ;;
    ctext "eCash L1" (leftX + boxW / #2) (cy - #6) ;;
    emit (SetFont "NotoSans" "normal") ;;
    emit (SetFontSize #8) ;;
    tx AXIS ;;
    ctext "Proof-of-Work" (leftX + boxW / #2) (cy + #8) ;;
    ctext "SHA-256d mining" (leftX + boxW / #2) (cy + #20) ;;
    fl LIGHT ;;
    dr PURPLE ;;
    emit (SetLineWidth (lit 15 10)) ;;
    emit (RoundedRect midX boxY boxW boxH #6 #6 "FD") ;;
    emit (SetFont "NotoSans" "bold") ;;
    emit (SetFontSize #10) ;;
    tx PURPLE ;;
    ctext "Snowside L1" (midX + boxW / #2) (cy - #6) ;;
    emit (SetFont "NotoSans" "normal") ;;
    emit (SetFontSize #8) ;;
    tx AXIS ;;
    ctext "Avalanche consensus" (midX + boxW / #2) (cy + #8) ;;
    ctext "EVM execution" (midX + boxW / #2) (cy + #20) ;;
    fl LIGHT ;;
    dr USDC_BL ;;
    emit (SetLineWidth (lit 15 10)) ;;
    emit (RoundedRect rightX boxY boxW boxH #6 #6 "FD") ;;
    emit (SetFont "NotoSans" "bold") ;;
    emit (SetFontSize #10) ;;
    tx USDC_BL ;;
    ctext "C-Chain" (rightX + boxW / #2) (cy - #6) ;;
    emit (SetFont "NotoSans" "normal") ;;
    emit (SetFontSize #8) ;;
    tx AXIS ;;
    ctext "Avalanche Primary" (rightX + boxW / #2) (cy + #8) ;;
    ctext "USDC liquidity" (rightX + boxW / #2) (cy + #20) ;;
    let arrow (x1 : A) (x2 : A) (ay : A) (color : color) (label : string) (dashed : bool) :=
      dr color ;;
      emit (SetLineWidth #2) ;;
      (if dashed then emit (SetLineDashPattern [#4; #3] #0) else wret tt) ;;
      emit (Line x1 ay x2 ay) ;;
      emit (SetLineDashPattern [] #0) ;;
      let dir := if nltb x1 x2 then #1 else #(-1) in
      fl color ;;
      emit (Triangle x2 ay (x2 - dir * #7) (ay - #4) (x2 - dir * #7) (ay + #4) "F") ;;
      emit (SetFont "NotoSans" "normal") ;;
      emit (SetFontSize (lit 75 10)) ;;
      tx INK ;;
      ctext label ((x1 + x2) / #2) (ay - #8) in
    let yBmm := cy - #16 in
    arrow (leftX + boxW + #4) (midX - #4) yBmm BTC_ORG "BMM commitment" false ;;
    let yIcm := cy + #16 in
    arrow (rightX - #4) (midX + boxW + #4) yIcm USDC_BL "ICM bridge (USDC)" false ;;
    emit (SetFont "NotoSans" "italic") ;;
    emit (SetFontSize (lit 75 10)) ;;
    tx AXIS ;;
    ctext "Native gas: ECX" (midX + boxW / #2) (boxY + boxH + #14)
|}.

(** bmm-flow.ts *)
Definition bmmFlow : Figure A := {|
  caption := "Figure: Blind Merged Mining. eCash miners include a compact header commitment (zero marginal cost) and earn ECX fees from settlement proposers. No additional hardware or software required.";
  height := #120;
  draw ctx :=
    let x := ctx_x ctx in let y := ctx_y ctx in let width := ctx_width ctx in
    let padT := #12 in
    let boxW := #130 in
    let boxH := #70 in
    let boxY := y + padT in
    let leftX := x in
    let rightX := x + width - boxW in
    let cy := boxY + boxH / #2 in
    fl LIGHT ;;
    dr BTC_ORG ;;
    emit (SetLineWidth (lit 12 10)) ;;
    emit (RoundedRect leftX boxY boxW boxH #6 #6 "FD") ;;
    emit (SetFont "NotoSans" "bold") ;;
    emit (SetFontSize #10) ;;
    tx BTC_ORG ;;
    ctext "eCash Miners" (leftX + boxW / #2) (cy - #6) ;;
    emit (SetFont "NotoSans" "normal") ;;
    emit (SetFontSize #8) ;;
    tx AXIS ;;
    ctext "Coinbase commitment" (leftX + boxW / #2) (cy + #8) ;;
    ctext "No Snowside node needed" (leftX + boxW / #2) (cy + #20) ;;
    fl LIGHT ;;
    dr SNOW_D ;;
    emit (SetLineWidth (lit 12 10)) ;;
    emit (RoundedRect rightX boxY boxW boxH #6 #6 "FD") ;;
    emit (SetFont "NotoSans" "bold") ;;
    emit (SetFontSize #10) ;;
    tx SNOW_D ;;
    ctext "Settlement Proposers" (rightX + boxW / #2) (cy - #6) ;;
    emit (SetFont "NotoSans" "normal") ;;
    emit (SetFontSize #8) ;;
    tx AXIS ;;
    ctext "Submit BMM commitments" (rightX + boxW / #2) (cy + #8) ;;
    ctext "Pay ECX to miners" (rightX + boxW / #2) (cy + #20) ;;
    let gapL := leftX + boxW + #6 in
    let gapR := rightX - #6 in
    let midX := (gapL + gapR) / #2 in
    let arrow (x1 : A) (x2 : A) (ay : A) (color : color) (label : string) :=
      dr color ;;
      emit (SetLineWidth #2) ;;
      emit (Line x1 ay x2 ay) ;;
      let dir := if nltb x1 x2 then #1 else #(-1) in
      fl color ;;
      emit (Triangle x2 ay (x2 - dir * #7) (ay - #4) (x2 - dir * #7) (ay + #4) "F") ;;
      emit (SetFont "NotoSans" "normal") ;;
      emit (SetFontSize (lit 75 10)) ;;
      tx INK ;;
      ctext label ((x1 + x2) / #2) (ay - #8) in
    arrow gapL gapR (cy - #14) BTC_ORG "Header commitment" ;;
    arrow gapR gapL (cy + #14) SNOW "ECX fee reward"
|}.

(** gas-flow.ts *)
Definition gasFlow : Figure A := {|
  caption := "Figure: ECX gas flow. Users pay ECX for transaction fees. Block producers collect fees and distribute BMM settlement incentives to eCash miners. No new token is minted — the Bitcoin economic model is preserved end-to-end.";
  height := #110;
  draw ctx :=
    let x := ctx_x ctx in let y := ctx_y ctx in let width := ctx_width ctx in
    let padT := #12 in
    let boxH := #56 in
    let boxW := #100 in
    let boxY := y + padT in
    let gap := (width - #3 * boxW) / #2 in
    let x0 := x in
    let x1 := x + boxW + gap in
    let x2 := x + #2 * (boxW + gap) in
    let cy := boxY + boxH / #2 in
    let boxes := [Box x0 SNOW "Users" "Pay ECX gas";
      Box x1 PURPLE "Producers" "Collect fees";
      Box x2 BTC_ORG "Miners" "BMM incentive"] in
    wfor boxes (fun b =>
      fl LIGHT ;;
      dr (b_color b) ;;
      emit (SetLineWidth (lit 12 10)) ;;
      emit (RoundedRect (b_x b) boxY boxW boxH #5 #5 "FD") ;;
      emit (SetFont "NotoSans" "bold") ;;
      emit (SetFontSize #9) ;;
      tx (b_color b) ;;
      ctext (b_label b) ((b_x b) + boxW / #2) (cy - #4) ;;
      emit (SetFont "NotoSans" "normal") ;;
      emit (SetFontSize (lit 75 10)) ;;
      tx AXIS ;;
      ctext (b_sub b) ((b_x b) + boxW / #2) (cy + #10)) ;;
    let arrow (x1 : A) (x2 : A) (ay : A) (color : color) (label : string) :=
      dr color ;;
      emit (SetLineWidth (lit 15 10)) ;;
      emit (Line x1 ay x2 ay) ;;
      fl color ;;
      emit (Triangle x2 ay (x2 - #5) (ay - #3) (x2 - #5) (ay + #3) "F") ;;
      emit (SetFont "NotoSans" "normal") ;;
      emit (SetFontSize #7) ;;
      tx INK ;;
      ctext label ((x1 + x2) / #2) (ay - #6) in
    arrow (x0 + boxW + #3) (x1 - #3) cy SNOW "ECX fees" ;;
    arrow (x1 + boxW + #3) (x2 - #3) cy BTC_ORG "Settlement" ;;
    emit (SetFont "NotoSans" "italic") ;;
    emit (SetFontSize #7) ;;
    tx AXIS ;;
    ctext "No new token minted. No pre-mine. Pure Bitcoin economics." (x + width / #2) (boxY + boxH + #14)
|}.

(** icm-bridge.ts *)
Definition icmBridge : Figure A := {|
  caption := "Figure: ICM USDC bridge. USDC moves trust-minimized between Avalanche C-Chain and Snowside via native Interchain Messaging — no third-party custodian, no wrapped tokens. Contract Owner USDC shares auto-bridge to C-Chain by default; the Treasury’s USDC remains on Snowside under Foundation management.";
  height := #140;
  draw ctx :=
    let x := ctx_x ctx in let y := ctx_y ctx in let width := ctx_width ctx in
    let padT := #12 in
    let boxW := #130 in
    let boxH := #64 in
    let boxY := y + padT in
    let leftX := x in
    let rightX := x + width - boxW in
    let cy := boxY + boxH / #2 in
    fl LIGHT ;;
    dr USDC_BL ;;
    emit (SetLineWidth (lit 12 10)) ;;
    emit (RoundedRect leftX boxY boxW boxH #6 #6 "FD") ;;
    emit (SetFont "NotoSans" "bold") ;;
    emit (SetFontSize #10) ;;
    tx USDC_BL ;;
    ctext "C-Chain" (leftX + boxW / #2) (cy - #6) ;;
    emit (SetFont "NotoSans" "normal") ;;
    emit (SetFontSize #8) ;;
    tx AXIS ;;
    ctext "USDC native" (leftX + boxW / #2) (cy + #8) ;;
    ctext "Avalanche Primary" (leftX + boxW / #2) (cy + #20) ;;
    fl LIGHT ;;
    dr PURPLE ;;
    emit (SetLineWidth (lit 12 10)) ;;
    emit (RoundedRect rightX boxY boxW boxH #6 #6 "FD") ;;
    emit (SetFont "NotoSans" "bold") ;;
    emit (SetFontSize #10) ;;
    tx PURPLE ;;
    ctext "Snowside" (rightX + boxW / #2) (cy - #6) ;;
    emit (SetFont "NotoSans" "normal") ;;
    emit (SetFontSize #8) ;;
    tx AXIS ;;
    ctext "USDC bridged" (rightX + boxW / #2) (cy + #8) ;;
    ctext "DeFi-ready" (rightX + boxW / #2) (cy + #20) ;;
    let gapL := leftX + boxW + #6 in
    let gapR := rightX - #6 in
    let midX := (gapL + gapR) / #2 in
    let yTop := cy - #10 in
    dr USDC_BL ;;
    emit (SetLineWidth #2) ;;
    emit (Line gapL yTop gapR yTop) ;;
    fl USDC_BL ;;
    emit (Triangle gapR yTop (gapR - #7) (yTop - #4) (gapR - #7) (yTop + #4) "F") ;;
    emit (SetFont "NotoSans" "normal") ;;
    emit (SetFontSize (lit 65 10)) ;;
    tx INK ;;
    ctext "USDC in" midX (yTop - #6) ;;
    let yBot := cy + #10 in
    dr SNOW ;;
    emit (SetLineWidth #2) ;;
    emit (Line gapR yBot gapL yBot) ;;
    fl SNOW ;;
    emit (Triangle gapL yBot (gapL + #7) (yBot - #4) (gapL + #7) (yBot + #4) "F") ;;
    emit (SetFont "NotoSans" "normal") ;;
    emit (SetFontSize (lit 65 10)) ;;
    tx INK ;;
    ctext "Owner USDC out (auto)" midX (yBot + #10) ;;
    emit (SetFont "NotoSans" "bold") ;;
    emit (SetFontSize (lit 75 10)) ;;
    tx INK ;;
    ctext "ICM (trust-minimized)" midX (cy + #1)
|}.

(** consensus-layers.ts *)
Definition consensusLayers : Figure A := {|
  caption := "Figure: Three-tier confirmation model. Instant (Avalanche, ~1-2s), Confirmed (eCash block, ~2min), Settled (BMM anchor to eCash L1, ~10-20min). Users choose the tier that matches their trust requirement.";
  height := #150;
  draw ctx :=
    let x := ctx_x ctx in let y := ctx_y ctx in let width := ctx_width ctx in
    let tierH := #36 in
    let gap := #8 in
    let tierW := width - #40 in
    let tierX := x + #20 in
    let tiers := [Tier "Instant" "Avalanche consensus — sub-2-second finality" "~1-2s" SNOW;
      Tier "Confirmed" "eCash block confirmation" "~2min" PURPLE;
      Tier "Settled" "BMM anchor to eCash L1 (1-2 blocks)" "~10-20min" BTC_ORG] in
    wfor (zip (seq 0 (length tiers)) tiers) (fun '(i, tier) =>
      let ty := y + #12 + #(Z.of_nat i) * (tierH + gap) in
      fl LIGHT ;;
      dr (tier_color tier) ;;
      emit (SetLineWidth (lit 12 10)) ;;
      emit (RoundedRect tierX ty tierW tierH #5 #5 "FD") ;;
      emit (SetFont "NotoSans" "bold") ;;
      emit (SetFontSize #10) ;;
      tx INK ;;
      emit (Text [(tier_label tier)] (tierX + #12) (ty + #16)) ;;
      emit (SetFont "NotoSans" "normal") ;;
      emit (SetFontSize #8) ;;
      tx AXIS ;;
      emit (Text [(tier_desc tier)] (tierX + #12) (ty + #27)) ;;
      emit (SetFont "NotoSans" "bold") ;;
      emit (SetFontSize #9) ;;
      tx (tier_color tier) ;;
      tw <- measure (tier_time tier) ;;
      emit (Text [(tier_time tier)] (tierX + tierW - tw - #12) (ty + #22))) ;;
    dr AXIS ;;
    emit (SetLineWidth (lit 6 10)) ;;
    emit (SetLineDashPattern [#2; #2] #0) ;;
    let lineX := tierX + tierW / #2 in
    wfor (seq 0 (length tiers - 1)) (fun i =>
      let y1 := y + #12 + (#(Z.of_nat i) + #1) * tierH + #(Z.of_nat i) * gap in
      let y2 := y + #12 + (#(Z.of_nat i) + #1) * (tierH + gap) in
      emit (Line lineX y1 lineX y2)) ;;
    emit (SetLineDashPattern [] #0)
|}.

(** validator-economics.ts *)
Definition validatorEconomics : Figure A := {|
  caption := "Figure: Validator economics. Operational cost is ~$10-20/month via Avalanche9000 subscription plus ECX bond (0.3 ECX minimum, Phase 2+). Revenue comes from Priority Fees and Treasury distribution (85%, proportional to bonded ECX). NodΞRunr eliminates manual maintenance, making community-run validation feasible.";
  height := #110;
  draw ctx :=
    let x := ctx_x ctx in let y := ctx_y ctx in let width := ctx_width ctx in
    let padT := #12 in
    let boxW := (width - #30) / #2 in
    let boxH := #64 in
    let boxY := y + padT in
    let leftX := x in
    let rightX := x + boxW + #30 in
    let cy := boxY + boxH / #2 in
    fl LIGHT ;;
    dr AXIS ;;
    emit (SetLineWidth #1) ;;
    emit (RoundedRect leftX boxY boxW boxH #5 #5 "FD") ;;
    emit (SetFont "NotoSans" "bold") ;;
    emit (SetFontSize #10) ;;
    tx INK ;;
    emit (Text ["Cost"] (leftX + #12) (cy - #10)) ;;
    emit (SetFont "NotoSans" "normal") ;;
    emit (SetFontSize #8) ;;
    tx AXIS ;;
    emit (Text ["Avalanche9000 subscription"] (leftX + #12) (cy + #4)) ;;
    emit (Text ["~$10-20 / month per validator"] (leftX + #12) (cy + #16)) ;;
    emit (Text ["AVAX (Phase 1-2) + 0.3 ECX bond (Phase 2+)"] (leftX + #12) (cy + #28)) ;;
    fl LIGHT ;;
    dr SNOW ;;
    emit (SetLineWidth (lit 12 10)) ;;
    emit (RoundedRect rightX boxY boxW boxH #5 #5 "FD") ;;
    emit (SetFont "NotoSans" "bold") ;;
    emit (SetFontSize #10) ;;
    tx PURPLE ;;
    emit (Text ["Revenue"] (rightX + #12) (cy - #10)) ;;
    emit (SetFont "NotoSans" "normal") ;;
    emit (SetFontSize #8) ;;
    tx AXIS ;;
    emit (Text ["Priority Fees (ECX, 100% to producer)"] (rightX + #12) (cy + #4)) ;;
    emit (Text ["Treasury distribution (85%, prop. to bonded ECX)"] (rightX + #12) (cy + #16)) ;;
    emit (Text ["Permissionless — anyone can run"] (rightX + #12) (cy + #28))
|}.

(** fee-model.ts *)
Definition feeModel : Figure A := {|
  caption := "Figure: Three-part fee model. Base Fees flow to eCash L1 miners via BMM commitments (non-negotiable). Priority Fees go to the block-producing validator. Contract Fees (optional, opt-in by contract owner, ECX or USDC) split between the Contract Owner (50% -> 80% vesting over 18 months) and the Snowside Treasury (50% -> 20%). The Treasury distributes to the Foundation (10% retained), Settlement Proposers (5%), and Validators (85%, 100% proportional to bonded ECX).";
  height := #260;
  draw ctx :=
    let x := ctx_x ctx in let y := ctx_y ctx in let width := ctx_width ctx in
    let topBoxW := #180 in
    let topBoxH := #32 in
    let topBoxY := y + #10 in
    let topBoxX := x + (width - topBoxW) / #2 in
    fl LIGHT ;;
    dr INK ;;
    emit (SetLineWidth #1) ;;
    emit (RoundedRect topBoxX topBoxY topBoxW topBoxH #5 #5 "FD") ;;
    emit (SetFont "NotoSans" "bold") ;;
    emit (SetFontSize #10) ;;
    tx INK ;;
    ctext "Transaction Fee (ECX) — Contract Fees optionally USDC" (topBoxX + topBoxW / #2) (topBoxY + #20) ;;
    let midBoxW := (width - #40) / #3 in
    let midBoxH := #52 in
    let midBoxY := topBoxY + topBoxH + #30 in
    let gap := #20 in
    let baseX := x in
    let prioX := x + midBoxW + gap in
    let contractX := x + #2 * (midBoxW + gap) in
    fl LIGHT ;;
    dr BTC_ORG ;;
    emit (SetLineWidth (lit 12 10)) ;;
    emit (RoundedRect baseX midBoxY midBoxW midBoxH #5 #5 "FD") ;;
    emit (SetFont "NotoSans" "bold") ;;
    emit (SetFontSize #9) ;;
    tx BTC_ORG ;;
    ctext "Base Fee" (baseX + midBoxW / #2) (midBoxY + #14) ;;
    emit (SetFont "NotoSans" "normal") ;;
    emit (SetFontSize (lit 75 10)) ;;
    tx AXIS ;;
    ctext "Required, algorithmic" (baseX + midBoxW / #2) (midBoxY + #26) ;;
    ctext "-> eCash L1 miners" (baseX + midBoxW / #2) (midBoxY + #38) ;;
    ctext "(100% via BMM)" (baseX + midBoxW / #2) (midBoxY + #48) ;;
    fl LIGHT ;;
    dr PURPLE ;;
    emit (SetLineWidth (lit 12 10)) ;;
    emit (RoundedRect prioX midBoxY midBoxW midBoxH #5 #5 "FD") ;;
    emit (SetFont "NotoSans" "bold") ;;
    emit (SetFontSize #9) ;;
    tx PURPLE ;;
    ctext "Priority Fee" (prioX + midBoxW / #2) (midBoxY + #14) ;;
    emit (SetFont "NotoSans" "normal") ;;
    emit (SetFontSize (lit 75 10)) ;;
    tx AXIS ;;
    ctext "Optional, user-set" (prioX + midBoxW / #2) (midBoxY + #26) ;;
    ctext "-> Block-producing" (prioX + midBoxW / #2) (midBoxY + #38) ;;
    ctext "validator (100%)" (prioX + midBoxW / #2) (midBoxY + #48) ;;
    fl LIGHT ;;
    dr SNOW_D ;;
    emit (SetLineWidth (lit 12 10)) ;;
    emit (RoundedRect contractX midBoxY midBoxW midBoxH #5 #5 "FD") ;;
    emit (SetFont "NotoSans" "bold") ;;
    emit (SetFontSize #9) ;;
    tx SNOW_D ;;
    ctext "Contract Fee" (contractX + midBoxW / #2) (midBoxY + #14) ;;
    emit (SetFont "NotoSans" "normal") ;;
    emit (SetFontSize #7) ;;
    tx AXIS ;;
    ctext "Optional, opt-in" (contractX + midBoxW / #2) (midBoxY + #26) ;;
    ctext "ECX or USDC" (contractX + midBoxW / #2) (midBoxY + #36) ;;
    ctext "-> Owner + Treasury" (contractX + midBoxW / #2) (midBoxY + #48) ;;
    let arrowFromTop (tx_x : A) (bx : A) (color : color) :=
      dr color ;;
      emit (SetLineWidth #1) ;;
      let startY := topBoxY + topBoxH in
      let endY := midBoxY in
      emit (Line tx_x startY tx_x (startY + #12)) ;;
      emit (Line tx_x (startY + #12) bx (startY + #12)) ;;
      emit (Line bx (startY + #12) bx endY) ;;
      fl color ;;
      emit (Triangle bx endY (bx - #3) (endY - #5) (bx + #3) (endY - #5) "F") in
    arrowFromTop (topBoxX + topBoxW / #2 - #50) (baseX + midBoxW / #2) BTC_ORG ;;
    arrowFromTop (topBoxX + topBoxW / #2) (prioX + midBoxW / #2) PURPLE ;;
    arrowFromTop (topBoxX + topBoxW / #2 + #50) (contractX + midBoxW / #2) SNOW_D ;;
    let vestY := midBoxY + midBoxH + #28 in
    let vestW := midBoxW in
    let vestH := #44 in
    let vestX := contractX in
    fl LIGHT ;;
    dr AXIS ;;
    emit (SetLineWidth (lit 8 10)) ;;
    emit (SetLineDashPattern [#3; #2] #0) ;;
    emit (RoundedRect vestX vestY vestW vestH #4 #4 "FD") ;;
    emit (SetLineDashPattern [] #0) ;;
    emit (SetFont "NotoSans" "bold") ;;
    emit (SetFontSize #8) ;;
    tx INK ;;
    ctext "Vesting Schedule" (vestX + vestW / #2) (vestY + #12) ;;
    emit (SetFont "NotoSans" "normal") ;;
    emit (SetFontSize #7) ;;
    tx AXIS ;;
    ctext "t=0: Owner 50% | Treasury 50%" (vestX + vestW / #2) (vestY + #24) ;;
    ctext "t=18: Owner 80% | Treasury 20%" (vestX + vestW / #2) (vestY + #34) ;;
    dr AXIS ;;
    emit (SetLineWidth (lit 8 10)) ;;
    emit (Line (contractX + midBoxW / #2) (midBoxY + midBoxH) (vestX + vestW / #2) vestY) ;;
    fl AXIS ;;
    emit (Triangle (vestX + vestW / #2) vestY (vestX + vestW / #2 - #3) (vestY - #5) (vestX + vestW / #2 + #3) (vestY - #5) "F") ;;
    let distY := vestY + vestH + #24 in
    fl LIGHT ;;
    dr AXIS ;;
    emit (SetLineWidth (lit 8 10)) ;;
    emit (SetLineDashPattern [#3; #2] #0) ;;
    emit (RoundedRect vestX distY vestW #58 #4 #4 "FD") ;;
    emit (SetLineDashPattern [] #0) ;;
    emit (SetFont "NotoSans" "bold") ;;
    emit (SetFontSize #8) ;;
    tx INK ;;
    ctext "Treasury Distribution" (vestX + vestW / #2) (distY + #12) ;;
    emit (SetFont "NotoSans" "normal") ;;
    emit (SetFontSize (lit 65 10)) ;;
    tx AXIS ;;
    ctext "Foundation: 10% (retained)" (vestX + vestW / #2) (distY + #24) ;;
    ctext "Proposers: 5% (configurable)" (vestX + vestW / #2) (distY + #34) ;;
    ctext "Validators: 85% (prop. to bonded ECX)" (vestX + vestW / #2) (distY + #44) ;;
    ctext "(governance: mechanism TBD)" (vestX + vestW / #2) (distY + #54) ;;
    dr AXIS ;;
    emit (SetLineWidth (lit 8 10)) ;;
    emit (Line (vestX + vestW / #2) (vestY + vestH) (vestX + vestW / #2) distY) ;;
    fl AXIS ;;
    emit (Triangle (vestX + vestW / #2) distY (vestX + vestW / #2 - #3) (distY - #5) (vestX + vestW / #2 + #3) (distY - #5) "F")
|}.

(** role-separation.ts *)
Definition roleSeparation : Figure A := {|
  caption := "Figure: Role separation. Validators (top) run Snowball consensus and produce blocks with ECX bonding. Settlement Proposers (bottom) submit BMM commitments to eCash L1 — permissionless, no bonding required, compensated from the Snowside Treasury’s captured Contract Fees.";
  height := #170;
  draw ctx :=
    let x := ctx_x ctx in let y := ctx_y ctx in let width := ctx_width ctx in
    let padT := #10 in
    let boxW := width - #40 in
    let boxH := #56 in
    let gap := #24 in
    let boxX := x + #20 in
    let valY := y + padT in
    fl LIGHT ;;
    dr PURPLE ;;
    emit (SetLineWidth (lit 14 10)) ;;
    emit (RoundedRect boxX valY boxW boxH #6 #6 "FD") ;;
    emit (SetFont "NotoSans" "bold") ;;
    emit (SetFontSize #10) ;;
    tx PURPLE ;;
    emit (Text ["Validators"] (boxX + #12) (valY + #16)) ;;
    emit (SetFont "NotoSans" "normal") ;;
    emit (SetFontSize (lit 75 10)) ;;
    tx AXIS ;;
    emit (Text ["Run Snowball consensus · Produce + finalize blocks"] (boxX + #12) (valY + #30)) ;;
    emit (Text ["ECX bonding (Phase 2+) · Subject to slashing"] (boxX + #12) (valY + #42)) ;;
    emit (Text ["Earn Priority Fees + Treasury distribution (85%)"] (boxX + #12) (valY + #52)) ;;
    let arrowX := boxX + boxW / #2 in
    let arrowY1 := valY + boxH + #2 in
    let arrowY2 := arrowY1 + gap - #4 in
    dr SNOW ;;
    emit (SetLineWidth (lit 15 10)) ;;
    emit (Line arrowX arrowY1 arrowX arrowY2) ;;
    fl SNOW ;;
    emit (Triangle arrowX (arrowY2 + #4) (arrowX - #4) (arrowY2 - #2) (arrowX + #4) (arrowY2 - #2) "F") ;;
    emit (SetFont "NotoSans" "normal") ;;
    emit (SetFontSize #7) ;;
    tx INK ;;
    ctext "Finalized blocks" (arrowX + #50) ((arrowY1 + arrowY2) / #2 + #2) ;;
    let spY := arrowY2 + #8 in
    fl LIGHT ;;
    dr BTC_ORG ;;
    emit (SetLineWidth (lit 14 10)) ;;
    emit (RoundedRect boxX spY boxW boxH #6 #6 "FD") ;;
    emit (SetFont "NotoSans" "bold") ;;
    emit (SetFontSize #10) ;;
    tx BTC_ORG ;;
    emit (Text ["Settlement Proposers"] (boxX + #12) (spY + #16)) ;;
    emit (SetFont "NotoSans" "normal") ;;
    emit (SetFontSize (lit 75 10)) ;;
    tx AXIS ;;
    emit (Text ["Submit BMM commitments to eCash L1 · No bonding required"] (boxX + #12) (spY + #30)) ;;
    emit (Text ["Permissionless from day one · Treasury-compensated (5%)"] (boxX + #12) (spY + #42)) ;;
    emit (Text ["Cannot forge blocks — only anchor existing finalized blocks"] (boxX + #12) (spY + #52))
|}.

(** permissionless-roadmap.ts *)
Definition permissionlessRoadmap : Figure A := {|
  caption := "Figure: Two-phase permissionless validation roadmap. Phase 1: permissioned launch with seeded validators. Phase 2: open registration with AVAX + ECX bonding and slashing.";
  height := #150;
  draw ctx :=
    let x := ctx_x ctx in let y := ctx_y ctx in let width := ctx_width ctx in
    let padT := #12 in
    let gap := #30 in
    let boxW := (width - gap) / #2 in
    let boxH := #92 in
    let boxY := y + padT in
    let p1X := x in
    let p2X := x + boxW + gap in
    fl LIGHT ;;
    dr AXIS ;;
    emit (SetLineWidth (lit 12 10)) ;;
    emit (RoundedRect p1X boxY boxW boxH #5 #5 "FD") ;;
    emit (SetFont "NotoSans" "bold") ;;
    emit (SetFontSize #9) ;;
    tx INK ;;
    ctext "Phase 1" (p1X + boxW / #2) (boxY + #14) ;;
    emit (SetFontSize #8) ;;
    tx AXIS ;;
    ctext "Permissioned" (p1X + boxW / #2) (boxY + #26) ;;
    emit (SetFontSize #7) ;;
    ctext "3-5 seeded validators" (p1X + boxW / #2) (boxY + #40) ;;
    ctext "AVAX staking" (p1X + boxW / #2) (boxY + #52) ;;
    ctext "Three-part fees active" (p1X + boxW / #2) (boxY + #64) ;;
    ctext "BMM settlement open" (p1X + boxW / #2) (boxY + #76) ;;
    fl LIGHT ;;
    dr SNOW_D ;;
    emit (SetLineWidth (lit 12 10)) ;;
    emit (RoundedRect p2X boxY boxW boxH #5 #5 "FD") ;;
    emit (SetFont "NotoSans" "bold") ;;
    emit (SetFontSize #9) ;;
    tx SNOW_D ;;
    ctext "Phase 2" (p2X + boxW / #2) (boxY + #14) ;;
    emit (SetFontSize #8) ;;
    tx AXIS ;;
    ctext "Permissionless" (p2X + boxW / #2) (boxY + #26) ;;
    emit (SetFontSize #7) ;;
    ctext "Open registration" (p2X + boxW / #2) (boxY + #40) ;;
    ctext "AVAX + 0.3 ECX bond" (p2X + boxW / #2) (boxY + #52) ;;
    ctext "Slashing active" (p2X + boxW / #2) (boxY + #64) ;;
    ctext "Target: 10+ validators" (p2X + boxW / #2) (boxY + #76) ;;
    let arrowY := boxY + boxH / #2 in
    let arrow (x1 : A) (x2 : A) :=
      dr AXIS ;;
      emit (SetLineWidth (lit 15 10)) ;;
      emit (Line x1 arrowY x2 arrowY) ;;
      fl AXIS ;;
      emit (Triangle x2 arrowY (x2 - #5) (arrowY - #3) (x2 - #5) (arrowY + #3) "F") in
    arrow (p1X + boxW + #2) (p2X - #2)
|}.

End figures.
