(* ===== verification/PdfContent.v ===== *)
(** * The whitepaper's text: packages/web/src/data/whitepaper/meta.ts, content.ts

    Section by section, with the figures where the text places them. *)

From Stdlib Require Import ZArith String List Bool.
From stdpp Require Import base list strings.
From S2P Require Import Prelude Pdf PdfFigures.
Local Open Scope Z_scope.

(** ** meta.ts *)

Record WhitepaperMeta := Meta {
  brand : string;
  version : string;
  meta_title : string;
  meta_subtitle : string;
  meta_date : string;
  meta_tagline : string;
  author : string;
  url : string
}.

Definition WHITEPAPER_VERSION : string := "0.5".

Definition meta : WhitepaperMeta := {|
  brand := "Snowside";
  version := WHITEPAPER_VERSION;
  meta_title := "Snowside Whitepaper";
  meta_subtitle := "version " +:+ WHITEPAPER_VERSION;
  meta_date := "September 2026";
  meta_tagline := "Bitcoin security at Avalanche speed.";
  author := "0xShomari";
  url := "https://snowside.network"
|}.

(** ** content.ts *)

Record Whitepaper (A : Type) := MkWhitepaper {
  title : string;
  subtitle : string;
  date : string;
  tagline : string;
  headline : string;
  wp_sections : list (WhitepaperSection A)
}.
Arguments MkWhitepaper {A}. Arguments title {A}. Arguments subtitle {A}. Arguments date {A}.
Arguments tagline {A}. Arguments headline {A}. Arguments wp_sections {A}.

Section content.
Context {A : Type} `{NU : Num A} `{JP : JsPdf A}.

Definition section_tl_dr : WhitepaperSection A := {|
  heading := "Tl;dr";
  body :=
    [Paragraph "Snowside is a dedicated Avalanche Layer-1 blockchain built to host Paul Sztorc's upcoming eCash hard-fork. It runs as a clean EVM sidechain where the native gas token is ECX itself — no new minted tokens, no pre-mine, just Bitcoin security via blind merged mining.";
     Paragraph "Key properties:";
     Paragraph "• Native ECX gas — transaction fees paid in ECX, no new token, no pre-mine";
     Paragraph "• Bitcoin security via Blind Merged Mining (BIP-301) on eCash";
     Paragraph "• Sub-2-second finality through Avalanche Snowman consensus";
     Paragraph "• Three-part fee model: Base Fees to eCash miners (100% via BMM), Priority Fees to validators, Contract Fees (optional, opt-in) split between contract owners and the Snowside Treasury";
     Paragraph "• Contract Fees may be denominated in ECX or USDC at the contract owner's discretion";
     Paragraph "• Treasury distributes to the Snowside Foundation (10% retained), Settlement Proposers (5%), and Validators (85%, proportional to bonded ECX)";
     Paragraph "• USDC bridging from C-Chain via Avalanche Interchain Messaging (ICM)";
     Paragraph "• Full EVM compatibility — Remix, Hardhat, Foundry work out-of-the-box";
     Paragraph "• NodΞRunr automation eliminates the operational overhead that killed EthSide";
     Paragraph "• Sovereign validator set — dedicated throughput for eCash operations";
     Paragraph "• Permissionless validation roadmap — phased transition from permissioned launch to permissionless AVAX + ECX bonding";
     Paragraph "• No token. No ICO. No governance token. Infrastructure, not an investment vehicle."]
|}.

Definition section_introduction : WhitepaperSection A := {|
  heading := "Introduction";
  body :=
    [Paragraph "Bitcoin's scripting system is intentionally limited. This constraint preserves security and predictability but prevents the deployment of complex smart contract logic directly on the Bitcoin network. Sidechains have long been proposed as the solution: independent chains that inherit Bitcoin's security while offering expanded functionality.";
     Paragraph "Paul Sztorc's Drivechain proposal (BIP-300/301) provides a concrete mechanism for Bitcoin-secured sidechains. Blind Merged Mining (BIP-301) allows eCash miners to secure sidechains without running additional software or understanding their internals. The upcoming eCash hard-fork activates Drivechains on a Bitcoin fork, enabling purpose-built sidechains to launch with Bitcoin-class security from day one.";
     Paragraph (backquoted "Note: Snowside is built for Paul Sztorc's upcoming `eCash` hard-fork (a proposed Bitcoin hard-fork activating Drivechains), which is distinct from the existing eCash cryptocurrency (Amaury Sechet's Bitcoin fork).");
     Paragraph "Paul's previous EVM sidechain, EthSide, was discontinued because standalone chain management was too time-consuming. The chain required constant manual intervention for updates, monitoring, and maintenance — work that was not sustainable for a single maintainer.";
     Paragraph "Snowside solves this problem. By building on Avalanche's Layer-1 infrastructure and leveraging NodΞRunr for automated node management, Snowside gives Paul and his community a chain that they can actually use — without babysitting. The combination of eCash's economic security model, Avalanche's high-performance consensus, and NodΞRunr's operational automation creates a sidechain that is both secure and trivially operable."]
|}.

Definition section_architecture_overview : WhitepaperSection A := {|
  heading := "Architecture Overview";
  body :=
    [Paragraph "Snowside is an EVM-compatible Layer-1 blockchain running on Avalanche's consensus infrastructure. It combines three layers: an EVM execution environment, Avalanche's Snowman consensus protocol for fast finality, and Blind Merged Mining for eCash-anchored settlement security.";
     Paragraph "## Rollup-Style Settlement";
     Paragraph (backquoted "Snowside's settlement pattern is classified as `rollup-style settlement` — analogous to Ethereum L2s but with BMM instead of optimistic or ZK proofs. This framing is valuable because the market understands rollup settlement patterns. It clarifies the relationship between Avalanche finality (fast, local) and BMM settlement (slow, anchored to PoW). It distinguishes Snowside from pure sidechains or pure rollups.");
     Paragraph "## EVM Execution Layer";
     Paragraph "Snowside runs a standard EVM execution environment. All existing Ethereum developer tools — Remix, Hardhat, Foundry, The Graph, viem, ethers.js — work without modification. Smart contracts written in Solidity or Vyper deploy identically to how they would on any other EVM chain.";
     Paragraph "The EVM is augmented with custom precompiles for eCash-specific logic, configurable via NodΞRunr's precompile concierge feature. This allows eCash protocol rules to be enforced at the consensus level rather than through external smart contracts.";
     Paragraph "## Subnet-EVM and Implementation Languages";
     Paragraph "Snowside is built on Subnet-EVM (a fork of go-ethereum, written in Go) integrated with AvalancheGo. The BMM coordination precompile is implemented in Go within Subnet-EVM. BMM bidder software and settlement monitoring are implemented in Rust for reliability and the team's expertise. Smart contracts (peg, fee distribution) are in Solidity. This is a pragmatic choice: Subnet-EVM gives us a working EVM with Avalanche integration, while Rust is used for standalone components where reliability is critical.";
     Paragraph "## BMM Coordination Precompile";
     Paragraph "The BMM coordination precompile is a core component managing the settlement process and escrowing fees.";
     Paragraph "State tracked:";
     Paragraph "• pendingBlocks: array of (blockHash, baseFeeAmount, blockNumber)";
     Paragraph "• currentMerkleRoot: computed Merkle root of pending block hashes";
     Paragraph "• totalEscrowedFees: sum of all escrowed Base Fees";
     Paragraph "• pendingProposer: address of proposer with active BMM Request";
     Paragraph "• settlementStatus: enum (Idle, Pending, Confirmed)";
     Paragraph "Functions:";
     Paragraph "• submitBlock(blockHash, baseFeeAmount): called by validators when blocks are finalized; escrows fees and updates Merkle root";
     Paragraph "• proposeSettlement(expectedMerkleRoot, prevMainBlock): called by proposers to initiate BMM Request; emits event for bidder software";
     Paragraph "• updateAggregate(newMerkleRoot): called by proposer to include new blocks produced during pending settlement; updates the BMM Request target";
     Paragraph "• confirmSettlement(eCashBlockHeight, acceptedHash): called when eCash confirms BMM Accept; releases escrowed fees to proposer";
     Paragraph "• getSettlementStatus(): view function returning current state";
     Paragraph "## Avalanche Consensus (Snowman)";
     Paragraph "Snowside validators use Avalanche's Snowman consensus — the linear-chain variant of the Avalanche Consensus Protocol. Snowman provides deterministic finality: once a block is accepted by the validator set, it is final and cannot be reverted. This eliminates the probabilistic finality problem of proof-of-work chains, where blocks can always be orphaned.";
     Paragraph "Key properties of Snowman consensus on Snowside:";
     Paragraph "• Sub-2-second finality — transactions confirm in approximately 1-2 seconds";
     Paragraph "• Sovereign validator set — independent of C-Chain or any other Avalanche L1";
     Paragraph "• Phased permissionless participation — permissioned at launch, open with AVAX + ECX bonding in Phase 2";
     Paragraph "• Custom throughput — Snowside sets its own block size and gas limits";
     Paragraph "## Blind Merged Mining Settlement";
     Paragraph "While Avalanche consensus provides fast, deterministic finality, ultimate settlement security comes from eCash via Blind Merged Mining (BIP-301). Snowside block producers submit compact header commitments to eCash miners, who include them in coinbase transactions. This creates a cryptographic link between eCash's proof-of-work and Snowside's activity.";
     Paragraph "This two-layer security model is described in detail in section 4 (Blind Merged Mining) and section 8 (Consensus & Security Model).";
     Fig architectureDiagram]
|}.

Definition section_blind_merged_mining : WhitepaperSection A := {|
  heading := "Blind Merged Mining";
  body :=
    [Paragraph "Blind Merged Mining (BMM) is the mechanism by which eCash miners secure Snowside without running a full Snowside node. It is defined in BIP-301 and activates as part of the eCash Drivechain (BIP-300/301) hard-fork.";
     Paragraph "## How BMM Works";
     Paragraph "Validators produce and finalize Snowside blocks. Settlement proposers then submit compact block header commitments for these finalized blocks to the eCash mainchain. eCash miners include these commitments in their coinbase transactions. The miner who includes a commitment earns an ECX fee from the settlement proposer who submitted it.";
     Paragraph "Crucially, eCash miners do not need to:";
     Paragraph "• Run a Snowside full node";
     Paragraph "• Validate Snowside transactions";
     Paragraph "• Understand Snowside's consensus rules";
     Paragraph "• Hold any Snowside-specific tokens";
     Paragraph (backquoted "They simply include a small data commitment in a transaction they are already making. This is the `blind` in Blind Merged Mining — miners are blind to the sidechain's internals.");
     Fig bmmFlow;
     Paragraph "## BMM Request Format Details";
     Paragraph "The BMM Request format submitted to eCash consists of:";
     Paragraph "• 1 byte: OP_RETURN (0x6a)";
     Paragraph "• 3 bytes: Message header (0x00bf00)";
     Paragraph "• 1 byte: Sidechain number (Snowside's assigned nSidechain, 0-255)";
     Paragraph "• 32 bytes: h* (Merkle root of aggregated Snowside block hashes)";
     Paragraph "• 32 bytes: prevMainBlock (hash of the previous eCash block)";
     Paragraph "The prevMainBlock ties the BMM Request to a specific eCash block height. A BMM Request with prevMainBlock = H_N can only be accepted in eCash block N+1. This prevents replay attacks and stale request acceptance.";
     Paragraph "## Merkle Root Aggregation Mechanism";
     Paragraph "Snowside aggregates multiple finalized block hashes into a single Merkle root. This Merkle root is submitted as h* in the BMM Request to eCash. Only when the aggregate is accepted on eCash does the proposer collect the escrowed Base Fees from all aggregated blocks. This amortizes the eCash settlement cost across many Snowside blocks. The proposer balances aggregation size (more fees) against settlement delay (user experience).";
     Paragraph "## Settlement Failure and Mutable Aggregates";
     Paragraph "MUTABLE AGGREGATES:";
     Paragraph "• New blocks produced during a pending settlement ARE included in the current aggregate.";
     Paragraph "• The proposer can update their BMM Request with a larger Merkle root via the updateAggregate() function.";
     Paragraph "• This allows proposers to maximize their bid value as more blocks accumulate.";
     Paragraph "• The Merkle root grows monotonically during the pending period.";
     Paragraph "SETTLEMENT FAILURE:";
     Paragraph "• If the BMM Request is not accepted in the target eCash block, the settlement remains in Pending status.";
     Paragraph "• The proposer can retry with a new BMM Request in the next eCash block (with an updated prevMainBlock and potentially an updated Merkle root if new blocks have been added).";
     Paragraph "• Escrowed fees remain locked until settlement is confirmed.";
     Paragraph "• There is no timeout that releases fees without settlement — fees are only released on successful BMM acceptance.";
     Paragraph "• Multiple failed settlements accumulate escrowed fees and blocks, increasing the incentive for proposers to eventually settle (larger payout).";
     Paragraph "This mechanism ensures proposers are accountable — they only earn revenue by successfully anchoring to eCash PoW. It also means that during periods of high eCash fee market congestion, Snowside settlement may slow down, but funds remain safe in escrow. The mutable aggregate design means proposers can keep trying with an ever-growing payload until they succeed.";
     Paragraph "## Block Production vs Settlement";
     Paragraph "Snowside separates two architecturally distinct roles: validators who run consensus and produce blocks, and settlement proposers who anchor finalized blocks to eCash L1 via BMM commitments.";
     Paragraph "Validators:";
     Paragraph "• Run Snowman consensus and produce new Snowside blocks";
     Paragraph "• Require ECX bonding (Phase 2+) for sybil resistance";
     Paragraph "• Subject to slashing for misbehavior";
     Paragraph "• Earn Priority Fees and Treasury distribution";
     Paragraph "• Permissioned in Phase 1, permissionless in Phase 2+";
     Paragraph "Settlement Proposers:";
     Paragraph "• Anyone who submits BMM commitments to anchor existing Snowside blocks to eCash L1";
     Paragraph "• No staking or bonding required — permissionless from day one";
     Paragraph "• Sybil resistance is economic: each BMM commitment costs real ECX (paid to miners)";
     Paragraph "• Compensated from the Snowside Treasury’s captured Contract Fees (5% at default configuration)";
     Paragraph "• 100% of Base Fees directed to eCash L1 miners via BMM — non-negotiable";
     Paragraph "• Cannot forge blocks — they only anchor existing finalized blocks";
     Paragraph "This separation means sybil concerns are specifically about the validator set, not the settlement layer. Settlement is open by design and naturally protected by BMM economics.";
     Fig roleSeparation;
     Paragraph "## Fee Escrow Mechanism";
     Paragraph "Base Fees are escrowed in the precompile when blocks are finalized. Fees are NOT immediately available to proposers. Base Fees are released to eCash miners via the BMM bid when confirmSettlement() is called after eCash BMM acceptance — proposers receive no Base Fee margin, they are compensated from the Treasury instead. If the aggregate is never accepted, fees remain escrowed (see Settlement Failure Handling). This creates accountability — proposers must successfully settle for blocks to be anchored to eCash.";
     Paragraph "## Sidechain Independence";
     Paragraph "eCash supports up to 256 sidechains (nSidechain 0-255). Each sidechain gets its own independent slot in the eCash coinbase. Snowside's BMM bid only competes with other Snowside proposers targeting the same sidechain number. Snowside does NOT compete with other sidechains for block space. This makes settlement economics more predictable and lower-cost.";
     Paragraph "## BIP300 Operation Support";
     Paragraph "Snowside supports the following BIP300 operations:";
     Paragraph "• M1 (Propose Sidechain): Register Snowside on eCash";
     Paragraph "• M2 (ACK Sidechain Proposal): Community approval of Snowside";
     Paragraph "• M5 (Deposit): Move ECX from eCash L1 to Snowside L2";
     Paragraph "• M6 (Withdraw): Move ECX from Snowside L2 to eCash L1 (canonical, slow path — approximately 3-6 months)";
     Paragraph "• M3/M4 (Withdrawal bundle processes): Part of the canonical withdrawal flow";
     Paragraph "## Economic Incentives";
     Paragraph "The economic model is simple and self-sustaining:";
     Paragraph "• Snowside users pay ECX for gas (Base Fees and Priority Fees). Contract Fees may be denominated in ECX or USDC at the contract owner’s discretion.";
     Paragraph "• Validators collect Priority Fees and Treasury distribution (85% of net, proportional to bonded ECX)";
     Paragraph "• Settlement proposers are compensated from the Treasury (5% of net); 100% of Base Fees go to eCash miners via BMM";
     Paragraph "• Miners include commitments because the marginal cost is zero and the fee is positive";
     Paragraph "Because the cost to miners is negligible — they are already producing blocks — rational miners will include Snowside commitments. This gives Snowside access to eCash's full security budget.";
     Paragraph "## Proposer Economics Detail";
     Paragraph "Proposer Revenue = 5% (configurable) of Snowside Treasury’s total captured Contract Fees";
     Paragraph "Proposer Cost = 100% of escrowed Base Fees (paid to eCash miners via BMM bid — non-negotiable)";
     Paragraph "Proposer Profit = Treasury Share - Base Fee Pass-Through";
     Paragraph "Because Base Fees and Contract Fees are separate fee streams, proposers must aggregate enough blocks so that their Treasury share exceeds the Base Fee pass-through cost. This creates a natural market for settlement frequency: proposers balance aggregation size (more blocks = more Base Fees to pass through, but also more on-chain activity generating Contract Fees) against settlement delay.";
     Paragraph "Mutable aggregates allow proposers to grow their payload during pending settlement, increasing their potential revenue. During early phases when Contract Fee adoption is low, the Snowside Foundation operates a non-competitive fallback Settlement Proposer to guarantee consistent settlement (see Section 4.11).";
     Paragraph "## Fallback Settlement by Snowside Foundation";
     Paragraph "During early adoption, open-market settlement proposers may find it uneconomical to submit BMM commitments: Contract Fee participation may be too low for the 5% Treasury share to cover Base Fee pass-through costs. To ensure settlement continuity, the Snowside Foundation operates a fallback proposer.";
     Paragraph "The Foundation’s fallback proposer ONLY submits a BMM commitment when no open-market proposer has submitted within approximately 10 minutes (one eCash block interval). This ensures Snowside blocks are anchored to eCash even during periods of low economic activity.";
     Paragraph "The fallback proposer is funded by the Foundation’s retained Treasury portion (10% of gross Contract Fee capture). As protocol adoption grows and Contract Fee participation increases, open-market proposers will find it profitable to compete, and the fallback proposer’s role diminishes.";
     Paragraph "This mechanism ensures that Snowside never goes without eCash settlement, even in the earliest days when transaction volume is low. The fallback is a safety net, not a permanent subsidy — the goal is a thriving competitive proposer market.";
     Paragraph "## Settlement Finality";
     Paragraph "BMM provides a third tier of confirmation: settlement. While Avalanche consensus confirms transactions in seconds, the BMM anchor to eCash provides the ultimate security guarantee. Reverting Snowside's history requires attacking eCash's hashrate — the most costly attack in all of cryptocurrency."]
|}.

Definition section_ecx_as_native_gas : WhitepaperSection A := {|
  heading := "ECX as Native Gas";
  body :=
    [Paragraph "All transaction fees on Snowside are paid in ECX. There is no alternative gas token, no new minted token, and no pre-mine. The only assets on Snowside are ECX (for gas) and USDC (bridged from C-Chain via ICM).";
     Paragraph "## Why ECX Gas Matters";
     Paragraph "Using ECX as the native gas token preserves Bitcoin's economic model. Users are not forced to acquire a new, speculative token to interact with the chain. They use ECX — eCash's native cryptocurrency, secured by Bitcoin-class proof-of-work — for all transactions.";
     Paragraph "This design choice has several implications:";
     Paragraph "• No token launch, ICO, or pre-mine — Snowside is infrastructure, not an investment vehicle";
     Paragraph "• No governance token — protocol parameters are set by validators and the community";
     Paragraph "• Bitcoin holders can use Snowside without exposure to new token risk";
     Paragraph "• The gas market is denominated in a Bitcoin-secured digital asset";
     Paragraph "## Acquiring ECX for Gas";
     Paragraph "Users acquire ECX for gas through two mechanisms:";
     Paragraph "• Blind Merged Mining: ECX flows between eCash and Snowside via the BMM peg mechanism";
     Paragraph "• Bridges: Users can bridge value from other chains to obtain ECX on Snowside";
     Fig gasFlow;
     Paragraph "## Three-Part Fee Model";
     Paragraph "Snowside adopts a three-part fee structure, denominated in ECX, that separates settlement security costs from validator incentives and contract developer revenue.";
     Fig feeModel;
     Paragraph "Base Fee (required, algorithmic):";
     Paragraph "• 100% directed to eCash L1 miners via BMM commitments";
     Paragraph "• Funds settlement security and anchoring";
     Paragraph "• Validators do NOT touch this stream";
     Paragraph "Priority Fee (optional, user-set):";
     Paragraph "• 100% to the block-producing validator";
     Paragraph "• Incentivizes transaction inclusion when blocks are full";
     Paragraph "• Analogous to Ethereum's EIP-1559 priority fee";
     Paragraph "Contract Fee (optional, opt-in by contract owner — contracts that do not opt in pay no Contract Fee and the Treasury captures nothing from them):";
     Paragraph "• Split between Contract Owner and Snowside Treasury";
     Paragraph "• The Treasury then distributes to the Foundation (10%), Settlement Proposers (5%), and Validators (85%) — see Section 5.5";
     Paragraph "• Incentivizes contract developers with recurring revenue";
     Paragraph "• NOT sent to L1 miners";
     Paragraph "## Contract Fee Vesting Schedule";
     Paragraph "The Contract Owner's share of Contract Fees vests linearly from 50% at contract registration to an 80% ceiling at 18 months, then remains flat:";
     Paragraph "r(t) = 50% + (30% / 18) * min(t, 18)";
     Paragraph "Where t = months since contract registration and r(t) = contract owner's share. The Snowside Treasury receives (1 - r(t)).";
     Paragraph "Timeline:";
     Paragraph "• Registration (t=0): Contract Owner 50% | Snowside Treasury 50%";
     Paragraph "• 6 months (t=6): Contract Owner 60% | Snowside Treasury 40%";
     Paragraph "• 12 months (t=12): Contract Owner 70% | Snowside Treasury 30%";
     Paragraph "• 18 months (t=18): Contract Owner 80% | Snowside Treasury 20% (ceiling)";
     Paragraph "• Beyond 18 months: Remains at 80/20 split";
     Paragraph "This vesting schedule rewards contracts that demonstrate sustained usage and reliability. Early on, the Treasury receives a larger share (50%) to compensate validators and settlement proposers for the higher risk of new, unproven contracts. As contracts mature and prove reliable, the contract owner's share increases to 80%, and the Treasury settles to 20%.";
     Paragraph "## Treasury Distribution to Validators and Settlement Proposers";
     Paragraph "The Snowside Treasury’s captured Contract Fee portion (1 - r(t)) is distributed among three recipients:";
     Paragraph "";
     Paragraph "Foundation (10% of gross): Retained by the Snowside Foundation to fund ecosystem development, operational costs, and emergency reserves. The Foundation manages the Treasury directly (see Section 5.8).";
     Paragraph "";
     Paragraph "Settlement Proposers (5% of gross, configurable): A configurable percentage of the Treasury’s total capture, defaulting to 5% at launch. This compensates proposers for the Base Fees they pay to eCash L1 miners via BMM commitments. Settlement Proposers are compensated from the Treasury because 100% of Base Fees are directed to eCash L1 miners via BMM — proposers receive no Base Fee margin. The Treasury share provides the incentive for open-market proposers to anchor Snowside blocks to eCash (see Section 4.10).";
     Paragraph "";
     Paragraph "Validators (85% of gross): The remainder of the Treasury’s total capture, distributed 100% proportional to bonded ECX. This eliminates the sybil incentive that would exist under an equal-distribution component — validators cannot game the distribution by splitting into multiple small validators. Only bonded ECX matters.";
     Paragraph "";
     Paragraph "Note on governance: The specific governance mechanism for adjusting the Settlement Proposer and Validator distribution percentages is not yet finalized. Snowside Validators will have the ability to adjust these parameters through a governance process to be defined in a future protocol upgrade.";
     Paragraph "## Preserving Bitcoin's Economic Model";
     Paragraph "Because ECX is the only gas token, Bitcoin's economic incentives flow directly into Snowside. eCash miners who secure Snowside via BMM are paid in ECX. Users who transact on Snowside pay in ECX. The economic loop is predominantly Bitcoin-native — no competing incentive structures, no token dilution, no governance games.";
     Paragraph "## USDC Contract Fee Bridging";
     Paragraph "When a contract owner denominates Contract Fees in USDC, the Contract Owner’s vested USDC share is auto-bridged from Snowside to the Avalanche C-Chain via ICM by default. This creates a frictionless repatriation channel for Avalanche-native platforms operating on Snowside: USDC fees earned by platform operators flow back to C-Chain automatically, where they control distribution (AVAX buyback, token holder rewards, liquidity provision, ecosystem grants, etc.).";
     Paragraph "Contract Owner configuration: During contract setup, the owner may opt to keep their USDC share on Snowside instead of auto-bridging. This configuration can be changed at any time by the Contract Owner. A batch transfer mode is also available as a configuration option, allowing owners to accumulate USDC on Snowside and bridge at intervals rather than per-settlement.";
     Paragraph "The Snowside Foundation’s retained USDC portion (10% of Treasury gross capture) remains on Snowside under Foundation management (see Section 5.8).";
     Paragraph "For all other USDC recipients — Contract Owners, Validators, and Settlement Proposers — the auto-bridge to C-Chain is the default configuration but is configurable on a per-recipient basis:";
     Paragraph "• Contract Owners may configure the auto-bridge setting during contract deployment or at any time thereafter. This configuration can be changed at any time by the Contract Owner. A batch transfer mode is also available as a configuration option, allowing owners to accumulate USDC on Snowside and bridge at intervals rather than per-settlement.";
     Paragraph "• Validators may configure their auto-bridge preference when joining the network or at any time thereafter. If auto-bridge is enabled (default), the Validator’s USDC distribution is bridged to C-Chain and delivered as USDC on C-Chain, proportional to bonded ECX. If auto-bridge is disabled, the Validator’s USDC distribution remains on Snowside.";
     Paragraph "• Settlement Proposers may configure their auto-bridge preference as part of the settlement process or at any time. If auto-bridge is enabled (default) and the proposer designates a C-Chain address, the proposer’s USDC portion is bridged to C-Chain. If auto-bridge is disabled or no C-Chain address is designated, the USDC remains on Snowside at the proposer’s discretion.";
     Paragraph "For ECX-denominated Contract Fees, all captured value remains on Snowside within the ECX economy. The Foundation’s retained ECX, the Validators’ ECX distribution, and the Settlement Proposers’ ECX share all remain on Snowside.";
     Paragraph "## The Snowside Foundation";
     Paragraph "The Snowside Foundation is the governing body that manages the Snowside Treasury. The Foundation retains 10% of the Treasury’s gross Contract Fee capture as its managed portion. This retained portion funds:";
     Paragraph "• Ecosystem development and grants";
     Paragraph "• Operational costs (monitoring, audits, infrastructure)";
     Paragraph "• Emergency security reserves";
     Paragraph "• Fallback settlement proposer operation (see Section 4.11)";
     Paragraph "• Avalanche ecosystem support";
     Paragraph "The Foundation manages the Treasury directly. For USDC-denominated Contract Fees, the Treasury’s USDC share remains on Snowside under Foundation management. For ECX-denominated Contract Fees, the Treasury’s ECX share is managed by the Foundation on Snowside.";
     Paragraph "The remaining 90% of the Treasury’s gross capture is distributed to Settlement Proposers (5% at default configuration, configurable by validator governance) and Validators (85% at default configuration, distributed 100% proportional to bonded ECX).";
     Paragraph "Note on governance: The specific governance mechanism for adjusting the Settlement Proposer and Validator distribution percentages is not yet finalized. Snowside Validators will have the ability to adjust these parameters through a governance process to be defined in a future protocol upgrade.";
     Paragraph "## Avalanche Ecosystem Value Flow";
     Paragraph "Snowside is designed not only as a Bitcoin sidechain but as a value-generating participant in the broader Avalanche ecosystem. This section describes how value flows between Snowside, eCash, and the Avalanche C-Chain.";
     Paragraph "";
     Paragraph "Value Capture: Snowside captures value through three fee streams — Base Fees (ECX, directed to eCash miners), Priority Fees (ECX, to validators), and Contract Fees (ECX or USDC, split between contract owners and the Treasury). The Treasury’s 10% retained portion funds ecosystem development, operational costs, and the fallback settlement proposer.";
     Paragraph "";
     Paragraph "Value Distribution: The Treasury distributes to Settlement Proposers (5%) and Validators (85%, proportional to bonded ECX). Contract Owners receive their vested share (50% -> 80% over 18 months). For USDC-denominated Contract Fees, the Contract Owner’s share auto-bridges to C-Chain by default, generating value flow back into the Avalanche ecosystem.";
     Paragraph "";
     Paragraph (backquoted "Avalanche Foundation Alignment: Snowside’s economic model aligns with the Avalanche Foundation’s research on blockchain economics. The `Measure, Capture, Distribute` framework — as articulated in the Avalanche Foundation’s economics research — describes how protocols should quantify the value they create, capture a portion of that value, and distribute it to stakeholders who sustain the network. Snowside implements this framework:");
     Paragraph "• Measure: Snowside measures value through its three-part fee model (Base Fees, Priority Fees, Contract Fees)";
     Paragraph "• Capture: The Treasury captures Contract Fees from opted-in contracts (ECX or USDC)";
     Paragraph "• Distribute: The Treasury distributes to the Foundation (10%), Settlement Proposers (5%), and Validators (85%)";
     Paragraph "";
     Paragraph "Cross-Chain USDC Flow: USDC bridged from C-Chain to Snowside enables Avalanche-native DeFi applications. Contract Fees denominated in USDC and auto-bridged back to C-Chain create a circular value flow: USDC enters Snowside for application use, application usage generates USDC Contract Fees, and those fees flow back to C-Chain for the contract owner’s use. This strengthens the Avalanche ecosystem by creating economic activity on both chains."]
|}.

Definition section_usdc_bridge_via_interchain_messaging : WhitepaperSection A := {|
  heading := "USDC Bridge via Interchain Messaging";
  body :=
    [Paragraph "A native, trust-minimized bridge connects Snowside to Avalanche's C-Chain via Interchain Messaging (ICM). This allows USDC holders on C-Chain to transfer their stablecoins directly to Snowside without relying on third-party custodians or wrapped token representations.";
     Paragraph "## Native ICM Bridge";
     Paragraph "Avalanche's Interchain Messaging protocol enables communication between Avalanche L1s and the primary network. The ICM bridge provides:";
     Paragraph "• Trust-minimized: No third-party custodian holds the bridged assets";
     Paragraph "• Native: Built into the Avalanche protocol, not a bolt-on bridge";
     Paragraph "• Fast: Transfers confirm in Avalanche finality time (seconds)";
     Paragraph "• Bidirectional: USDC can flow in both directions";
     Fig icmBridge;
     Paragraph "## DeFi-Ready from Day One";
     Paragraph "By bridging USDC from C-Chain at mainnet launch, Snowside provides immediate access to the world's most recognized stablecoin. This makes Snowside useful for DeFi applications from day one — lending, borrowing, trading, and payments can all use USDC without waiting for a separate bridge deployment or liquidity bootstrapping.";
     Paragraph "## Fast Withdrawal Service";
     Paragraph "MODEL:";
     Paragraph "• An instant swap / OTC desk model (not a withdrawal relay)";
     Paragraph "• User sends L2 tokens to the service, receives L1 coins immediately minus a fee";
     Paragraph "• The service does NOT interact with the BIP300 canonical withdrawal process";
     Paragraph "• The service maintains inventory balance by selling L2 tokens to depositors or on exchanges";
     Paragraph "GOVERNANCE:";
     Paragraph "• First-party Snowside product";
     Paragraph "• Initially managed by the Federation of initial Validators";
     Paragraph "• Specific governance and operational details are still being designed";
     Paragraph "• The canonical BIP300 withdrawal path remains available as a trustless fallback (approximately 3-6 months)";
     Paragraph "POSITIONING:";
     Paragraph "• This is a centralized, fee-generating service";
     Paragraph "• It is not part of the core protocol — the trustless path always exists";
     Paragraph "• The service provides convenience for users who need immediate liquidity and are willing to pay a fee for it"]
|}.

Definition section_noderunr_validator_management : WhitepaperSection A := {|
  heading := "NodΞRunr & Validator Management";
  body :=
    [Paragraph "NodΞRunr is the open-source node management daemon that makes Snowside operable without babysitting. It handles every aspect of validator lifecycle: deployment, monitoring, updates, and communication.";
     Paragraph "## One-Click Deployment";
     Paragraph "Running a Snowside validator with NodΞRunr takes under a minute. The process requires:";
     Paragraph "• A server (VPS) with basic specifications";
     Paragraph "• AVAX for the Avalanche Primary Network stake";
     Paragraph "• The NodΞRunr Snowside template";
     Paragraph "NodΞRunr handles the rest: node installation, configuration, key generation, and network registration. No manual editing of config files, no hand-written genesis files, no SSH gymnastics.";
     Paragraph "## 24/7 Monitoring & Automatic Updates";
     Paragraph "NodΞRunr continuously monitors validator health — block production rate, peer connections, disk usage, memory, and CPU. When an update is available, NodΞRunr can apply it automatically with zero downtime. Alerts are sent via encrypted channels if intervention is required.";
     Paragraph "## Custom Precompiles";
     Paragraph "NodΞRunr's precompiles concierge feature allows eCash-specific logic to be integrated directly into the L1 configuration. This is essential for enforcing protocol rules at the consensus level rather than through external smart contracts that could be bypassed or exploited.";
     Paragraph "## Why EthSide Failed — and How NodΞRunr Fixes It";
     Paragraph "Paul Sztorc's previous EVM sidechain, EthSide, was discontinued because standalone chain management was too time-consuming. Every update required manual intervention. Every validator restart required SSH access. Every monitoring alert required human attention. For a single maintainer, this was unsustainable.";
     Paragraph "NodΞRunr solves every one of these problems:";
     Paragraph "• Deployment: one command instead of a multi-hour setup process";
     Paragraph "• Monitoring: automated health checks instead of manual log reading";
     Paragraph "• Updates: automatic, zero-downtime patches instead of manual restarts";
     Paragraph "• Communication: encrypted, structured alerts instead of ad-hoc notifications";
     Paragraph "The result is a chain that can stay alive without constant human intervention — the exact requirement Paul identified for a sustainable sidechain."]
|}.

Definition section_consensus_security_model : WhitepaperSection A := {|
  heading := "Consensus & Security Model";
  body :=
    [Paragraph "Snowside's consensus and security model combines two layers: Avalanche's Snowman consensus for fast, deterministic finality, and Blind Merged Mining for eCash-anchored settlement. Together, they provide a three-tier confirmation model that lets users choose the trust level appropriate to their use case.";
     Paragraph "## Layer 1: Avalanche Snowman Consensus";
     Paragraph "Snowside validators run Avalanche's Snowman consensus protocol. Snowman is the linear-chain variant of the Avalanche Consensus Protocol, designed for blockchains that require a total ordering of transactions. Key properties:";
     Paragraph "• Deterministic finality: once a block is accepted, it is final — no probabilistic waiting";
     Paragraph "• Sub-second confirmation: transactions typically finalize in 1-2 seconds";
     Paragraph "• Validator-set sovereignty: Snowside validators are independent of C-Chain or any other Avalanche L1";
     Paragraph "• Phased permissionless participation: permissioned at launch, open with AVAX + ECX bonding in Phase 2";
     Paragraph "## Layer 2: BMM Settlement to eCash";
     Paragraph "While Snowman consensus provides fast finality among Snowside validators, BMM anchoring to eCash provides the ultimate security guarantee. Every Snowside block (or batches of blocks) is anchored to eCash via a BMM commitment. Reverting Snowside's settled history requires attacking eCash's hashrate — economically irrational for any attacker.";
     Paragraph "## Validators vs Settlement Proposers";
     Paragraph "Snowside distinguishes between validators (who run Snowman consensus and produce blocks) and settlement proposers (who submit BMM commitments to eCash L1). This separation is described in detail in section 4 (Block Production vs Settlement). Key point: sybil concerns apply to the validator set, not the settlement layer — settlement is permissionless and protected by BMM economics.";
     Paragraph "## Validator Bonding and Sybil Resistance";
     Paragraph "In Phase 2 and beyond, validators bond ECX via the BMM peg mechanism for sybil resistance. The minimum bond is 0.3 ECX (approximately $20,000), modeled after Avalanche's original 2,000 AVAX requirement. Bonded ECX is locked on eCash L1 through the peg-in process and tracked in Snowside L2 state — no wrapped tokens, no custodians. Misbehavior triggers slashing: bonded ECX is burned in L2 state, making it permanently unrecoverable. Detailed bonding requirements, slashing conditions, and performance standards are described in section 9 (Validator Economics).";
     Paragraph "## Three-Tier Confirmation";
     Paragraph "Snowside provides three tiers of confirmation, each with a different trust/security tradeoff:";
     Fig consensusLayers;
     Paragraph "Users and applications choose the tier that matches their requirements: payment applications can accept Instant confirmation, while high-value settlements may wait for Settled confirmation. Avalanche blocks are FINAL regardless of BMM settlement status. BMM settlement is an additional security layer, not a prerequisite for transaction finality. This is a key architectural point."]
|}.

Definition section_validator_economics : WhitepaperSection A := {|
  heading := "Validator Economics";
  body :=
    [Paragraph "Running a Snowside validator is designed to be cheap, simple, and permissionless. The economic model ensures that community-run validation is genuinely feasible — not just in theory, but in practice.";
     Paragraph "## Avalanche9000 Subscription Model";
     Paragraph "Snowside validators participate in Avalanche's Primary Network by staking AVAX. The Avalanche9000 upgrade introduced a subscription model that dramatically reduces the cost of running an L1 validator. Operational costs are approximately $10-20 per month per validator — negligible compared to the revenue from ECX gas fees.";
     Paragraph "## Revenue: Priority Fees and Contract Fees";
     Paragraph "Validators earn revenue from two sources: Priority Fees (100% to the block-producing validator, paid in ECX) and the Treasury’s distribution of captured Contract Fees (85% of Treasury gross capture at default configuration, distributed 100% proportional to bonded ECX). Contract Fee distribution to validators may be denominated in ECX or USDC depending on the originating contract’s denomination. USDC-denominated validator distributions are auto-bridged to C-Chain via ICM (see Section 5.7). See section 5 for the full three-part fee model details.";
     Paragraph "## Phased Permissionless Participation";
     Paragraph "Validator participation follows a two-phase roadmap (detailed in section 12):";
     Paragraph "• Phase 1 (Mainnet Launch): 3-5 seeded validators, AVAX staking required";
     Paragraph "• Phase 2 (Permissionless): Open registration with AVAX + 0.3 ECX bond via BMM peg, slashing active";
     Paragraph "The requirements for Phase 2+ are:";
     Paragraph "• A server (VPS) with basic specifications";
     Paragraph "• AVAX for the Avalanche Primary Network stake (Phase 1-2)";
     Paragraph "• 0.3 ECX minimum bond via BMM peg (Phase 2+)";
     Paragraph "• The NodΞRunr Snowside template (free, open-source)";
     Paragraph "No special hardware, no complex setup, no approval process. NodΞRunr handles deployment, monitoring, and updates automatically.";
     Fig validatorEconomics;
     Paragraph "## ECX Bonding Requirements";
     Paragraph "Minimum bond: 0.3 ECX (approximately $20,000 at current ECX prices).";
     Paragraph "Rationale: Avalanche's original validator requirement was 2,000 AVAX. At approximately $10/AVAX, this equated to ~$20,000 — a threshold that proved accessible enough to attract broad participation while remaining costly enough to deter casual sybils. Snowside adopts the same dollar-equivalent threshold in ECX terms.";
     Paragraph "Bond mechanism: ECX is bonded via the BMM peg (drivechain mechanism). Validators lock ECX on the eCash L1 through the peg-in process, and the bonded amount is tracked in Snowside L2 state. No wrapped tokens, no custodians — pure Bitcoin alignment.";
     Paragraph "Governance adjustment: The minimum bond is adjustable via validator governance. Parameters for adjustment:";
     Paragraph "• Total value secured on Snowside (higher TVS -> higher bond)";
     Paragraph "• Number of active validators (more validators -> can lower bond)";
     Paragraph "• ECX/USD exchange rate (significant price appreciation -> lower ECX amount to maintain dollar-equivalent threshold)";
     Paragraph "## Slashing via BMM Peg";
     Paragraph "When Snowman consensus detects validator misbehavior, the bonded ECX is burned in L2 state. This prevents the validator from ever withdrawing that ECX back to eCash L1 via the peg-out mechanism.";
     Paragraph "Slashing conditions:";
     Paragraph "• Double-signing: Full bond slash (100% of bonded ECX)";
     Paragraph "• Invalid block proposal: Full bond slash";
     Paragraph "• Extended downtime (>10% of blocks missed over 30 days): Partial slash (25% of bonded ECX) + removal from active set";
     Paragraph "• Consensus participation below threshold: Partial slash + warning";
     Paragraph "• Oracle manipulation (if applicable): Full bond slash";
     Paragraph "Enforcement:";
     Paragraph "• Snowman consensus detects misbehavior";
     Paragraph "• Consensus emits slash signal";
     Paragraph "• Custom precompile processes slash signal";
     Paragraph "• Bonded ECX amount is burned in L2 state";
     Paragraph "• The actual ECX remains locked on eCash L1 but becomes permanently unrecoverable — the L2 will never generate a valid withdrawal transaction for the slashed amount";
     Paragraph "Economic outcome: The validator permanently loses access to their bonded ECX. The ECX is not destroyed on L1 (it remains locked in the peg script), but it is economically burned — no one can ever access it. This is real, enforceable slashing without requiring wrapped tokens or smart contract custody.";
     Paragraph "## Validator Performance Requirements";
     Paragraph "To ensure network reliability and give prospective validators clear expectations before bonding ECX, Snowside establishes minimum performance standards. These are separate from slashing conditions — underperformance results in warnings and eventual removal, not bond confiscation.";
     Paragraph "Minimum performance standards:";
     Paragraph "• Uptime: Minimum 95% over rolling 30-day window (measured by block production and consensus participation)";
     Paragraph "• Block production latency: Block proposals must be submitted within 2 seconds of assigned slot";
     Paragraph "• Consensus participation: Must participate in at least 90% of Snowman consensus votes over rolling 7-day window";
     Paragraph "• Network connectivity: Must maintain connections to at least 5 peer nodes and respond to peer requests within 5 seconds";
     Paragraph "• Node synchronization: Must remain within 5 blocks of chain tip at all times";
     Paragraph "Violation thresholds:";
     Paragraph "• Below 90% uptime: formal warning";
     Paragraph "• Below 80% uptime for 7 consecutive days: automatic removal from active validator set (bond returned, no slash)";
     Paragraph "• Repeated latency violations (>5 per 100 blocks): warning";
     Paragraph "• Below 80% consensus participation: formal warning";
     Paragraph "• Below 70% consensus participation for 14 consecutive days: removal from active set";
     Paragraph "• Isolated validators (0 peers for >1 hour): automatic suspension";
     Paragraph "• Falling behind by >10 blocks: warning";
     Paragraph "• Falling behind by >50 blocks: automatic suspension until resynchronized";
     Paragraph "Penalty schedule (underperformance — NOT slashing):";
     Paragraph "• First warning: No penalty, 7-day cure period";
     Paragraph "• Second warning (within 30 days of first): Reduced Contract Fee share (50% reduction) for 7 days";
     Paragraph "• Third warning (within 30 days of second): Removal from active validator set for 30 days. Bond returned. May re-apply after suspension period.";
     Paragraph "Note: These penalties are for underperformance, NOT malicious behavior. Malicious behavior (double-signing, invalid blocks, oracle manipulation) triggers full slashing as described above.";
     Paragraph "NodΞRunr automatically tracks all performance metrics and provides real-time dashboards. Validators receive automated alerts before reaching warning thresholds. The monitoring system eliminates manual oversight and ensures consistent enforcement of performance standards."]
|}.

Definition section_comparison_with_alternatives : WhitepaperSection A := {|
  heading := "Comparison with Alternatives";
  body :=
    [Paragraph "Snowside is not the only way to build a Bitcoin sidechain. However, it is the only approach that combines eCash economic security, Avalanche-grade performance, and automated operational management. Below is a comparison with the main alternatives.";
     Paragraph "## vs Ethereum L2/Rollups";
     Paragraph "Ethereum L2s and rollups offer EVM compatibility but require wrapping BTC to use it as gas. They share a sequencer with other L2s, have multi-minute confirmation times, and offer no custom precompiles. Snowside provides native ECX gas, sovereign validators, sub-2-second finality, and custom precompiles.";
     Paragraph "## vs Avalanche C-Chain";
     Paragraph "The C-Chain uses AVAX for gas and shares validators with all C-Chain users. Snowside has its own validator set, uses ECX for gas, and can implement custom precompiles for eCash-specific logic. This sovereignty is essential for a Bitcoin-aligned sidechain.";
     Paragraph "## vs Standalone Chain";
     Paragraph "A standalone chain could theoretically implement ECX gas and custom precompiles, but it would lack Avalanche's ICM bridge for USDC, require expensive manual validator operations, and miss the operational automation provided by NodΞRunr. Snowside inherits all of Avalanche's infrastructure benefits while maintaining Bitcoin alignment."]
|}.

Definition section_risks_mitigations : WhitepaperSection A := {|
  heading := "Risks & Mitigations";
  body :=
    [Paragraph "No project is without risk. We have identified the key risks and designed mitigations for each.";
     Paragraph "## Paul Sztorc withdraws support or changes the eCash spec";
     Paragraph "Mitigation: Snowside is EVM-compatible and can host other Bitcoin sidechain experiments. The NodΞRunr template is modular and open-source. We are coordinating directly with Paul to ensure alignment, but the infrastructure remains valuable regardless of eCash's specific direction.";
     Paragraph "## Low validator adoption";
     Paragraph "Mitigation: NodΞRunr's one-click setup removes the main barrier. We seed 3-5 initial validators ourselves. Documentation and community outreach (AMAs, tutorials) drive adoption. Target: 5+ independent validators within 60 days.";
     Paragraph "## Security vulnerabilities in eCash contracts";
     Paragraph "Mitigation: Limited-scope audit prior to mainnet launch. Post-launch bug bounty program. All contracts use established, audited EVM patterns where possible.";
     Paragraph "## ECX bridge or custody risk";
     Paragraph "Mitigation: Use established, audited bridge infrastructure. Avalanche ICM for USDC is trust-minimized with no third-party custodian. BMM design for ECX avoids centralized custody entirely.";
     Paragraph "## Grant funding insufficient for full scope";
     Paragraph "Mitigation: Project is modular — testnet launch and documentation can proceed with $10k. Mainnet launch and community programs can be phased. We may apply for the Team1 Accelerator Grant ($30k) for expanded scope.";
     Paragraph "## Avalanche protocol changes";
     Paragraph "Mitigation: NodΞRunr is maintained actively and tracks Avalanche upgrades. Snowside benefits from all Avalanche9000 improvements automatically."]
|}.

Definition section_roadmap : WhitepaperSection A := {|
  heading := "Roadmap";
  body :=
    [Paragraph "Month 1 — Fuji Testnet Launch:";
     Paragraph "• Finalize eCash L1 specification (VM, gas token, precompiles)";
     Paragraph "• Develop and test NodΞRunr Snowside template";
     Paragraph "• Deploy to Fuji testnet";
     Paragraph "• Public testnet RPC endpoint available";
     Paragraph "Month 2 — Security & Integration:";
     Paragraph "• Limited-scope security audit of eCash smart contracts";
     Paragraph "• Integrate C-Chain USDC bridge via ICM";
     Paragraph "• Onboard first 3-5 community validators on testnet";
     Paragraph (backquoted "• Begin documentation: `How to Run a Snowside Validator`");
     Paragraph "Month 3 — Mainnet Launch:";
     Paragraph "• Mainnet launch with at least 3 independent validators";
     Paragraph "• Public RPC endpoint and block explorer live";
     Paragraph "• NodΞRunr Snowside template publicly available";
     Paragraph "• Bridge USDC from C-Chain to Snowside mainnet";
     Paragraph "Month 4 — Community Onboarding:";
     Paragraph "• Host AMA with Paul Sztorc";
     Paragraph (backquoted "• Release tutorial video: `Launch a Bitcoin Sidechain with NodΞRunr`");
     Paragraph "• Distribute small testnet bounties to early users";
     Paragraph "• Target: 500+ unique addresses interacting with Snowside";
     Paragraph "Ongoing — Growth & Sustainability:";
     Paragraph "• Validator growth (target: 10+ validators)";
     Paragraph "• Protocol maintenance via NodΞRunr automation";
     Paragraph "• Explore additional Bitcoin sidechain templates";
     Paragraph "• Open-source all Snowside configuration files";
     Paragraph "## Future: Permissionless Validation";
     Paragraph "Snowside's path to permissionless validation follows a two-phase roadmap that transitions from a permissioned launch to permissionless AVAX + ECX bonding.";
     Fig permissionlessRoadmap;
     Paragraph "Phase 1 — Mainnet Launch (Permissioned):";
     Paragraph "• 3-5 seeded validators";
     Paragraph "• AVAX staking for Avalanche Primary Network participation";
     Paragraph "• Three-part fee model active from day one (Base + Priority + Contract)";
     Paragraph "• Settlement (BMM commitments) is permissionless — anyone can anchor blocks to eCash L1";
     Paragraph "• Focus on stability, architecture validation, and community onboarding";
     Paragraph "Phase 2 — Permissionless with AVAX + ECX Bonding:";
     Paragraph "• Open validator registration to anyone meeting requirements";
     Paragraph "• Requirements: AVAX stake for Primary Network + ECX bond via BMM peg (minimum 0.3 ECX, approximately $20,000)";
     Paragraph "• Slashing active for misbehavior";
     Paragraph "• Contract Fee distribution: 100% proportional to bonded ECX (via Treasury distribution — see Section 5.5)";
     Paragraph "• Bond amount is governance-adjustable based on total value secured, number of active validators, and ECX/USD exchange rate";
     Paragraph "• Target: 10+ independent validators";
     Paragraph "Future phases may explore reducing AVAX dependency as Avalanche protocol capabilities evolve."]
|}.

Definition section_conclusion : WhitepaperSection A := {|
  heading := "Conclusion";
  body :=
    [Paragraph "Snowside represents a new approach to Bitcoin sidechains: eCash's economic security via Blind Merged Mining, Avalanche's sub-2-second finality, and NodΞRunr's automated operational management — all in a single EVM-compatible chain.";
     Paragraph "By using ECX as the native gas token, Snowside preserves Bitcoin's economic model without introducing a competing token. By leveraging Avalanche's Interchain Messaging, it provides immediate access to USDC liquidity from the C-Chain. And by automating every aspect of validator management through NodΞRunr, it eliminates the operational burden that killed Paul Sztorc's previous EVM sidechain.";
     Paragraph "The result is a chain that is secure enough for Bitcoin purists, fast enough for real applications, and operable enough to stay alive without constant human intervention. That is what a sustainable Bitcoin sidechain looks like — and that is what Snowside delivers.";
     Paragraph "The Fuji testnet launches in Month 1. Mainnet follows in Month 3. Builders, validators, and Bitcoin enthusiasts are invited to participate from day one."]
|}.

Definition section_references : WhitepaperSection A := {|
  heading := "References";
  body :=
    [Paragraph "[1] BIP-300: Hashrate Escrows — https://github.com/bitcoin/bips/blob/master/bip-0300.mediawiki";
     Paragraph "[2] BIP-301: Blind Merged Mining — https://github.com/bitcoin/bips/blob/master/bip-0301.mediawiki";
     Paragraph "[3] Drivechains: Sidechains for Bitcoin — https://drivechain.info/";
     Paragraph "[4] Avalanche Consensus Protocol — https://arxiv.org/abs/1906.08936";
     Paragraph (backquoted "[5] Team Rocket — `Scalable and Probabilistically Consensus based on Majority Votes` — May 2018 (Slush → Snowflake -> Snowball → Avalanche protocol family)");
     Paragraph "[6] Avalanche Interchain Messaging (ICM) — https://docs.avax.network/";
     Paragraph "[7] Avalanche9000 Documentation — https://docs.avax.network/";
     Paragraph "[8] NodΞRunr — https://layer1.run";
     Paragraph "[9] NodΞRunr Documentation — https://docs.layer1.run";
     Paragraph "[10] Ethereum Virtual Machine Specification — https://ethereum.org/en/developers/docs/evm/";
     Paragraph "[11] USDC by Circle — https://www.circle.com/en/usdc";
     Paragraph (backquoted "[12] RISCy Network — `RISCy Whitepaper: Native Unit and Fee Model` — Section 10")]
|}.

Definition section_legal_disclaimer : WhitepaperSection A := {|
  heading := "Legal Disclaimer";
  body :=
    [Paragraph "This whitepaper is for informational purposes only and does not constitute financial, investment, legal, tax, or any other form of professional advice. It is not an offer to sell, a solicitation of an offer to buy, or a recommendation to purchase any security, token, or digital asset.";
     Paragraph "Forward-looking statements contained in this document — including but not limited to statements regarding the Snowside network, roadmap milestones, validator adoption targets, and the eCash hard-fork — involve significant risks, uncertainties, and assumptions. Actual results may differ materially.";
     Paragraph (backquoted "The Snowside software and related tooling are provided `as is` without warranty of any kind. Participation in the Snowside network carries technical, economic, and regulatory risks, including but not limited to: smart-contract bugs, consensus failures, chain reorganizations, mining attacks, key loss, regulatory action, and total loss of funds.");
     Paragraph "No regulatory authority has reviewed, approved, or endorsed this whitepaper. References to third-party protocols (Bitcoin, Avalanche, eCash) or individuals (Paul Sztorc) do not imply endorsement.";
     Paragraph "There is no Snowside token. Snowside is infrastructure, not an investment vehicle. No token launch or ICO is planned, now or in the future."]
|}.

Definition sections : list (WhitepaperSection A) :=
  [section_tl_dr;
   section_introduction;
   section_architecture_overview;
   section_blind_merged_mining;
   section_ecx_as_native_gas;
   section_usdc_bridge_via_interchain_messaging;
   section_noderunr_validator_management;
   section_consensus_security_model;
   section_validator_economics;
   section_comparison_with_alternatives;
   section_risks_mitigations;
   section_roadmap;
   section_conclusion;
   section_references;
   section_legal_disclaimer].

Definition WHITEPAPER : Whitepaper A := {|
  title := "Snowside Whitepaper";
  subtitle := "version " +:+ version meta;
  date := "September 2026";
  tagline := "Bitcoin security at Avalanche speed.";
  headline := "The eCash Sidechain on Avalanche";
  wp_sections := sections
|}.
End content.
