(* ===== verification/Whitepaper.v ===== *)
(** * The whitepaper's PDF: packages/web/src/pages/whitepaper.pdf.ts

    The generator, closure by closure, over the pen of [Pdf]: the cover, the
    table of contents, the sections; and the GET handler, which turns the
    document or whatever was thrown into a response. *)

From Stdlib Require Import ZArith Lia Ascii String List Bool.
From stdpp Require Import base list strings numbers.
From S2P Require Import Prelude Effects Json Pdf PdfContent.
Local Open Scope Z_scope.

(** ** Texts *)

Fixpoint span_str (f : ascii -> bool) (s : string) : string * string :=
  match s with
  | String c s' => if f c then let (a, b) := span_str f s' in (String c a, b) else (EmptyString, s)
  | EmptyString => (EmptyString, EmptyString)
  end.

(** [h.replace(/^\d+\.\s+/, '')] *)
Definition stripNumberPrefix (h : string) : string :=
  let (digits, r1) := span_str is_digit h in
  if str_truthy digits then
    match r1 with
    | String c r2 =>
        if Ascii.eqb c "." then
          let (spaces, rest) := span_str is_space r2 in
          if str_truthy spaces then rest else h
        else h
    | EmptyString => h
    end
  else h.

Definition no_line_break (s : string) : bool :=
  all_str (fun c => negb (Ascii.eqb c "010" || Ascii.eqb c "013")) s.

(** [paragraph.match(/^##\s+(.+)$/)]: the group, when it matches. The spaces
    are matched greedily; with nothing after them the last one is given back. *)
Definition mdHeadingMatch (p : string) : option string :=
  if starts_with "##" p then
    let (spaces, rest) := span_str is_space (drop_str 2 p) in
    if negb (str_truthy spaces) then None
    else if str_truthy rest then (if no_line_break rest then Some rest else None)
    else
      let k := Nat.pred (String.length spaces) in
      let last := drop_str k spaces in
      if str_truthy (take_str k spaces) && no_line_break last then Some last else None
  else None.

Definition BULLET : string := "•".
Definition FOOTER_TEXT : string := "Snowside — A dedicated Avalanche Layer-1 for the eCash hard-fork".

(** COLORS *)
Definition C_snow : color := (56, 189, 248).
Definition C_snowDeep : color := (14, 165, 233).
Definition C_btc : color := (247, 147, 26).
Definition C_dark : color := (10, 15, 26).
Definition C_white : color := (255, 255, 255).
Definition C_lightGray : color := (240, 240, 245).
Definition C_medGray : color := (102, 102, 115).
Definition C_black : color := (15, 15, 15).

Definition FONTS : list (string * string) :=
  [("NotoSans-Regular.ttf", "normal"); ("NotoSans-Bold.ttf", "bold"); ("NotoSans-Italic.ttf", "italic")].

Section generator.
Context {A : Type} `{NU : Num A} `{JP : JsPdf A}.
Local Open Scope num_scope.
Local Open Scope pdf_scope.

(** ** Layout constants *)

Definition pageWidth : A := getWidth.
Definition pageHeight : A := getHeight.
Definition marginLeft : A := #60.
Definition marginRight : A := #60.
Definition marginTop : A := #60.
Definition marginBottom : A := #60.
Definition contentWidth : A := pageWidth - marginLeft - marginRight.
Definition TITLE_SIZE : A := #28.
Definition SUBTITLE_SIZE : A := #14.
Definition HEADING_SIZE : A := #16.
Definition BODY_SIZE : A := #10.
Definition TAGLINE_SIZE : A := #16.
Definition FOOTER_SIZE : A := #8.
Definition HEADING_LINE_HEIGHT : A := HEADING_SIZE * lit 16 10.
Definition BODY_LINE_HEIGHT : A := BODY_SIZE * lit 16 10.

Definition setFont (style : string) : W A unit := emit (SetFont "NotoSans" style).
Definition text (t : string) (x y : A) : W A unit := emit (Text [t] x y).

(** [cursorY += d] *)
Definition advance (d : A) : W A unit := y <- get_cursor ;; set_cursor (y + d).

Definition addPageFooter (num : Z) : W A unit :=
  emit (SetDrawColor C_lightGray) ;;
  emit (SetLineWidth (lit 5 10)) ;;
  emit (Line marginLeft (pageHeight - marginBottom + #15)
          (pageWidth - marginRight) (pageHeight - marginBottom + #15)) ;;
  let numStr := dec_str num in
  setFont "normal" ;;
  emit (SetFontSize FOOTER_SIZE) ;;
  emit (SetTextColor C_medGray) ;;
  numWidth <- measure numStr ;;
  text numStr (pageWidth - marginRight - numWidth) (pageHeight - marginBottom + #28) ;;
  setFont "italic" ;;
  text FOOTER_TEXT marginLeft (pageHeight - marginBottom + #28).

(** [doc.addPage(); cursorY = marginTop; pageNum++] *)
Definition newPage : W A unit :=
  emit AddPage ;; set_cursor marginTop ;; next_page.

Definition ensureSpace (needed : A) : W A unit :=
  y <- get_cursor ;;
  if nltb (pageHeight - marginBottom) (y + needed) then
    n <- get_page ;;
    addPageFooter n ;;
    newPage
  else wret tt.

(** ** The cover *)

(** [const w = doc.getTextWidth(t); doc.text(t, (pageWidth - w) / 2, y)] *)
Definition centered (t : string) (y : A) : W A unit :=
  w <- measure t ;; text t ((pageWidth - w) / #2) y.

Definition cover (wp : Whitepaper A) : W A unit :=
  emit (SetFillColor C_dark) ;;
  emit (Rect #0 #0 pageWidth pageHeight "F") ;;
  emit (SetFillColor C_snow) ;;
  emit (Rect #0 #0 pageWidth #6 "F") ;;
  setFont "bold" ;;
  emit (SetFontSize TITLE_SIZE) ;;
  emit (SetTextColor C_white) ;;
  centered (title wp) (pageHeight / #2 - #80) ;;
  setFont "normal" ;;
  emit (SetFontSize SUBTITLE_SIZE) ;;
  emit (SetTextColor C_snow) ;;
  centered (subtitle wp) (pageHeight / #2 - #50) ;;
  setFont "bold" ;;
  emit (SetFontSize TAGLINE_SIZE) ;;
  emit (SetTextColor C_btc) ;;
  centered (headline wp) (pageHeight / #2 - #25) ;;
  setFont "italic" ;;
  emit (SetFontSize TAGLINE_SIZE) ;;
  emit (SetTextColor C_snowDeep) ;;
  centered (tagline wp) (pageHeight / #2) ;;
  setFont "normal" ;;
  emit (SetFontSize BODY_SIZE) ;;
  emit (SetTextColor C_medGray) ;;
  centered (date wp) (pageHeight / #2 + #45) ;;
  centered (author meta) (pageHeight / #2 + #65) ;;
  emit (SetTextColor C_snow) ;;
  centered (url meta) (pageHeight - marginBottom - #20).

(** ** The table of contents *)

(** The entries, numbered from [i + 1], down from [tocY] until the page is full. *)
Fixpoint toc_entries (i : nat) (tocY : A) (ss : list (WhitepaperSection A)) : W A unit :=
  match ss with
  | [] => wret tt
  | section :: ss' =>
      if nltb (pageHeight - marginBottom) tocY then wret tt
      else
        let entry := dec_str (Z.of_nat i + 1) +:+ ". " +:+ stripNumberPrefix (heading section) in
        setFont "normal" ;;
        emit (SetFontSize (BODY_SIZE + #1)) ;;
        emit (SetTextColor C_black) ;;
        text entry (marginLeft + #10) tocY ;;
        toc_entries (S i) (tocY + BODY_LINE_HEIGHT * lit 14 10) ss'
  end.

Definition toc (ss : list (WhitepaperSection A)) : W A unit :=
  emit AddPage ;;
  next_page ;;
  setFont "bold" ;;
  emit (SetFontSize (HEADING_SIZE + #4)) ;;
  emit (SetTextColor C_black) ;;
  text "Table of Contents" marginLeft marginTop ;;
  let tocY := marginTop + HEADING_LINE_HEIGHT * #2 in
  emit (SetFillColor C_snow) ;;
  emit (Rect marginLeft (tocY - HEADING_LINE_HEIGHT + #4) #100 #2 "F") ;;
  toc_entries 0 tocY ss.

(** ** The sections *)

Definition draw_figure (f : Figure A) : W A unit :=
  ensureSpace (height f + BODY_LINE_HEIGHT) ;;
  y <- get_cursor ;;
  draw f (Ctx marginLeft y contentWidth) ;;
  advance (height f + BODY_LINE_HEIGHT * lit 5 10) ;;
  if str_truthy (caption f) then
    setFont "italic" ;;
    emit (SetFontSize (BODY_SIZE - #1)) ;;
    emit (SetTextColor C_medGray) ;;
    captionLines <- split_text (caption f) contentWidth ;;
    y <- get_cursor ;;
    emit (Text captionLines marginLeft y) ;;
    advance (#(Z.of_nat (length captionLines)) * BODY_LINE_HEIGHT * lit 8 10 + BODY_LINE_HEIGHT * lit 5 10)
  else wret tt.

Definition draw_subheading (sectionNumber subSectionNum : Z) (t : string) : W A unit :=
  let subText := dec_str sectionNumber +:+ "." +:+ dec_str subSectionNum +:+ " " +:+ t in
  ensureSpace (BODY_LINE_HEIGHT * #2) ;;
  setFont "bold" ;;
  emit (SetFontSize (BODY_SIZE + #1)) ;;
  emit (SetTextColor C_black) ;;
  y <- get_cursor ;;
  text subText (marginLeft + #4) y ;;
  advance (BODY_LINE_HEIGHT * lit 14 10).

Definition draw_line (indent : A) (line : string) : W A unit :=
  y <- get_cursor ;;
  text line (marginLeft + indent) y ;;
  advance BODY_LINE_HEIGHT.

Definition draw_paragraph (paragraph : string) : W A unit :=
  let indent := if starts_with BULLET paragraph then #15 else #0 in
  let effectiveWidth := contentWidth - indent in
  setFont "normal" ;;
  emit (SetFontSize BODY_SIZE) ;;
  emit (SetTextColor C_black) ;;
  lines <- split_text paragraph effectiveWidth ;;
  ensureSpace (#(Z.of_nat (length lines)) * BODY_LINE_HEIGHT + BODY_LINE_HEIGHT) ;;
  wfor lines (draw_line indent) ;;
  advance (BODY_LINE_HEIGHT * lit 4 10).

(** The blocks of a section's body; [subSectionNum] counts its sub-headings. *)
Fixpoint draw_body (sectionNumber subSectionNum : Z) (blocks : list (Block A)) : W A unit :=
  match blocks with
  | [] => wret tt
  | Fig f :: bs => draw_figure f ;; draw_body sectionNumber subSectionNum bs
  | Paragraph p :: bs =>
      if String.eqb p "" then
        advance (BODY_LINE_HEIGHT * lit 5 10) ;; draw_body sectionNumber subSectionNum bs
      else
        match mdHeadingMatch p with
        | Some t =>
            draw_subheading sectionNumber (subSectionNum + 1)%Z t ;;
            draw_body sectionNumber (subSectionNum + 1)%Z bs
        | None => draw_paragraph p ;; draw_body sectionNumber subSectionNum bs
        end
  end.

Definition draw_heading (sectionNumber : Z) (section : WhitepaperSection A) : W A unit :=
  let h := dec_str sectionNumber +:+ ". " +:+ stripNumberPrefix (heading section) in
  ensureSpace (HEADING_LINE_HEIGHT * #3) ;;
  emit (SetFillColor C_snow) ;;
  y <- get_cursor ;;
  emit (Rect (marginLeft - #12) (y - #8) #5 #5 "F") ;;
  setFont "bold" ;;
  emit (SetFontSize HEADING_SIZE) ;;
  emit (SetTextColor C_black) ;;
  text h marginLeft y ;;
  advance (HEADING_LINE_HEIGHT * lit 15 10).

Definition draw_section (idx : nat) (section : WhitepaperSection A) : W A unit :=
  let sectionNumber := (Z.of_nat idx + 1)%Z in
  (if Nat.eqb idx 0 then wret tt else newPage) ;;
  draw_heading sectionNumber section ;;
  draw_body sectionNumber 0 (body section) ;;
  advance (HEADING_LINE_HEIGHT * lit 5 10).

(** ** The document *)

Definition properties : list (string * string) :=
  [("title", "Snowside Whitepaper v" +:+ version meta);
   ("author", author meta);
   ("subject", "A dedicated Avalanche Layer-1 for the eCash hard-fork");
   ("keywords", "blockchain, Snowside, Avalanche, eCash, BMM, BIP-301, Bitcoin sidechain, EVM, NodΞRunr");
   ("creator", "snowside.network")].

Definition setup (fonts : list (string * string * string)) : W A unit :=
  wfor fonts (fun '(file, _, b64) => emit (AddFileToVFS file b64)) ;;
  wfor fonts (fun '(file, style, _) => emit (AddFont file "NotoSans" style)) ;;
  emit (SetProperties properties).

Definition write_document (fonts : list (string * string * string)) (wp : Whitepaper A) : W A unit :=
  setup fonts ;;
  cover wp ;;
  toc (wp_sections wp) ;;
  newPage ;;
  wfor (zip (seq 0 (length (wp_sections wp))) (wp_sections wp)) (fun '(idx, s) => draw_section idx s) ;;
  n <- get_page ;;
  addPageFooter n.

Definition empty_pen : pen A := Pen [] marginTop 1.

Definition document (fonts : list (string * string * string)) (wp : Whitepaper A) : list (op A) :=
  ops (snd (write_document fonts wp empty_pen)).

(** *** Reading the fonts *)

(** [fs.readFileSync(path.join(fontsDir, file)).toString('base64')], one after
    the other; the first that throws ends it. *)
Fixpoint readFonts (readFileSync : string -> string + thrown) (files : list (string * string))
  : list (string * string * string) + thrown :=
  match files with
  | [] => inl []
  | (file, style) :: fs =>
      match readFileSync ("src/fonts/" +:+ file) with
      | inr e => inr e
      | inl b64 =>
          match readFonts readFileSync fs with
          | inr e => inr e
          | inl rest => inl ((file, style, b64) :: rest)
          end
      end
  end.

Definition generateWhitepaper (readFileSync : string -> string + thrown) : string + thrown :=
  match readFonts readFileSync FONTS with
  | inr e => inr e
  | inl fonts => output (document fonts WHITEPAPER)
  end.

(** ** The endpoint *)

Inductive response_body := Bytes (b : string) | JsonBody (j : json).

Record response := Response {
  rs_status : Z;
  rs_headers : list (string * string);
  rs_body : response_body
}.

Definition GET (readFileSync : string -> string + thrown) : response :=
  match generateWhitepaper readFileSync with
  | inl pdfBytes =>
      Response 200
        [("Content-Type", "application/pdf");
         ("Content-Disposition",
          backquoted "inline; filename=`snowside-whitepaper-v" +:+ version meta +:+ backquoted ".pdf`")]
        (Bytes pdfBytes)
  | inr e =>
      let message := match e with
                     | ErrorObject m => m
                     | OtherValue => "Unknown error generating PDF"
                     end in
      Response 500 [("Content-Type", "application/json")] (JsonBody (JObj [("error", JStr message)]))
  end.
End generator.
