(* ===== verification/WhitepaperLayout.v ===== *)
(** * The whitepaper: pages, typefaces and positions

    The rules the properties are proved with: what each part of the generator
    adds to the pages and their footers ([steps_pages]), the typeface it leaves,
    and where it draws ([placed]); each figure goes through both. *)

From Stdlib Require Import ZArith QArith Lia Lqa Ascii String List Bool SpecFloat Sorted.
From stdpp Require Import base list strings numbers.
From S2P Require Import Prelude Effects Json Pdf PdfFigures PdfContent Whitepaper.
Local Open Scope Z_scope.

(** ** Footers

    Only a footer puts a text right after choosing a font, right after another
    text: its line after its number. [footers] reads the numbers off a
    document, each with the page it is on. *)

Section footers.
Context {A : Type}.

Definition footer_here (o : op A) (before : list (op A)) : list (string * Z) :=
  match o, before with
  | Text _ _ _, SetFont _ _ :: Text [s] _ _ :: _ => [(s, pages before)]
  | _, _ => []
  end.

Fixpoint footers (ops : list (op A)) : list (string * Z) :=
  match ops with
  | [] => []
  | o :: before => footer_here o before ++ footers before
  end.

Definition font_last (ops : list (op A)) : bool :=
  match ops with SetFont _ _ :: _ => true | _ => false end.

(** [steps_pages d b c b']: from a pen whose page number is right (and, when [b]
    is false, whose last call is not [setFont]), [c] keeps the page number
    right and every footer numbered by its page, at most one a page, none on
    the current one; it adds [d] pages without a footer. *)
Definition numbered (ops : list (op A)) : Prop :=
  Forall (fun f => fst f = dec_str (snd f) /\ snd f < pages ops) (footers ops) /\
  StronglySorted (fun f g => snd g < snd f) (footers ops).

Definition bare_pages (ops : list (op A)) : Z := pages ops - Z.of_nat (length (footers ops)).

Record sound (s : pen A) : Prop := {
  sd_page : pageNum s = pages (ops s);
  sd_numbered : numbered (ops s)
}.

Definition steps_pages {X} (d : Z) (b : bool) (c : W A X) (b' : bool) : Prop :=
  forall s, sound s -> (b = false -> font_last (ops s) = false) ->
    sound (snd (c s)) /\ bare_pages (ops (snd (c s))) = bare_pages (ops s) + d /\
    (b' = false -> font_last (ops (snd (c s))) = false).

(** A call that is not [addPage]. *)
Definition is_page (o : op A) : bool := match o with AddPage => true | _ => false end.
Definition is_text (o : op A) : bool := match o with Text _ _ _ => true | _ => false end.
Definition is_font (o : op A) : bool := match o with SetFont _ _ => true | _ => false end.

Lemma steps_wret {X} (x : X) b : steps_pages 0 b (wret x) b.
Proof. intros s Hs Hb. cbn. split_and!; [done|lia|done]. Qed.

Lemma steps_bind {X Y} d1 d2 b1 b2 b3 (c : W A X) (f : X -> W A Y) :
  steps_pages d1 b1 c b2 -> (forall x, steps_pages d2 b2 (f x) b3) ->
  steps_pages (d1 + d2) b1 (wbind c f) b3.
Proof.
  intros Hc Hf s Hs Hb. unfold wbind. specialize (Hc s Hs Hb).
  destruct (c s) as [x s']. cbn [snd] in *. destruct Hc as (Hs' & Hd & Hb').
  destruct (Hf x s' Hs' Hb') as (H1 & H2 & H3). split_and!; [done|lia|done].
Qed.

Lemma steps_any {X} d b b' (c : W A X) : steps_pages d true c b' -> steps_pages d b c b'.
Proof. intros Hc s Hs _. by apply Hc. Qed.

Lemma steps_emit o b :
  is_page o = false -> (is_text o = true -> b = false) -> steps_pages 0 b (emit o) (is_font o).
Proof.
  intros Hp Ht s [H1 [H2 H3]] Hb. cbn [emit snd ops].
  assert (Hpg : pages (o :: ops s) = pages (ops s)) by by destruct o.
  assert (Hf : footers (o :: ops s) = footers (ops s)).
  { cbn [footers]. destruct o; try done. specialize (Hb (Ht eq_refl)).
    destruct (ops s) as [|[] ?]; done. }
  split_and!.
  - split; cbn [pageNum ops]; [by rewrite Hpg|]. unfold numbered. by rewrite Hf, Hpg.
  - unfold bare_pages. rewrite Hf, Hpg. lia.
  - by destruct o.
Qed.

Lemma steps_plain o b :
  is_page o = false -> is_font o = false -> (is_text o = true -> b = false) -> steps_pages 0 b (emit o) false.
Proof. intros Hp Hf Ht. rewrite <-Hf. by apply steps_emit. Qed.

Lemma steps_font family style b : steps_pages 0 b (emit (SetFont family style)) true.
Proof. by apply (steps_emit (SetFont family style)). Qed.

Lemma steps_for {X} (xs : list X) (body : X -> W A unit) :
  (forall x, steps_pages 0 false (body x) false) -> steps_pages 0 false (wfor xs body) false.
Proof.
  intros Hb. induction xs as [|x xs IH]; cbn [wfor]; [apply steps_wret|].
  by apply (steps_bind 0 0 false false).
Qed.

Lemma steps_for_cons {X} (x : X) (xs : list X) (body : X -> W A unit) :
  (forall x, steps_pages 0 true (body x) false) -> steps_pages 0 true (wfor (x :: xs) body) false.
Proof.
  intros Hb. apply (steps_bind 0 0 true false); [done|]. intros _. apply steps_for.
  intros y. apply steps_any, Hb.
Qed.

(** Reading and moving the cursor. *)
Lemma steps_reading {X} (g : pen A -> X) b : steps_pages 0 b (fun s => (g s, s)) b.
Proof. intros s Hs Hb. cbn. split_and!; [done|lia|done]. Qed.

Lemma steps_cursor y b : steps_pages 0 b (set_cursor y) b.
Proof.
  intros s [H1 H2] Hb. cbn [set_cursor snd ops]. split_and!; [|lia|done]. by split.
Qed.

Lemma steps_ctext `{Num A} `{JsPdf A} t cx ty : steps_pages 0 false (ctext t cx ty) false.
Proof. intros s. by apply (steps_emit (Text [t] (nsub cx (ndiv (getTextWidth (ops s) t) (lit 2 1))) ty)). Qed.
End footers.

(** Step through [steps_pages] goals. *)
Ltac page_step :=
  match goal with
  | |- steps_pages _ _ (wbind _ _) _ => eapply (steps_bind 0 0); [|intros ?]
  | |- steps_pages _ _ (wret _) _ => apply steps_wret
  | |- steps_pages _ _ (emit (SetFont _ _)) _ => apply steps_font
  | |- steps_pages _ _ (emit _) _ =>
      apply steps_plain; [reflexivity|reflexivity|intros; (reflexivity || discriminate)]
  | |- steps_pages _ _ (set_cursor _) _ => apply steps_cursor
  | |- steps_pages _ true (wfor _ _) _ => eapply steps_for_cons; intros ?
  | |- steps_pages _ _ (wfor _ _) _ => apply steps_for; intros ?
  | |- steps_pages _ _ (ctext _ _ _) _ => apply steps_ctext
  | |- steps_pages _ _ (measure _) _ => apply steps_reading
  | |- steps_pages _ _ (split_text _ _) _ => apply steps_reading
  | |- steps_pages _ _ get_cursor _ => apply steps_reading
  | |- steps_pages _ _ get_page _ => apply steps_reading
  | |- steps_pages _ _ (if ?b then _ else _) _ => destruct b
  | |- steps_pages _ _ (match ?x with _ => _ end) _ => destruct x
  end; cbv beta iota zeta.

Section pages.
Context {A : Type} `{NU : Num A} `{JP : JsPdf A}.

(** *** Figures draw on the page they are given *)

Definition draws_in_place (f : Figure A) : Prop := forall ctx, steps_pages 0 true (draw f ctx) false.

Ltac figure_pages := cbn [draw]; cbv zeta; unfold fl, dr, tx; repeat page_step.

Lemma architectureDiagram_in_place : draws_in_place architectureDiagram.
Proof. intros ctx. unfold architectureDiagram. figure_pages. Qed.

Lemma bmmFlow_in_place : draws_in_place bmmFlow.
Proof. intros ctx. unfold bmmFlow. figure_pages. Qed.

Lemma gasFlow_in_place : draws_in_place gasFlow.
Proof. intros ctx. unfold gasFlow. figure_pages. Qed.

Lemma icmBridge_in_place : draws_in_place icmBridge.
Proof. intros ctx. unfold icmBridge. figure_pages. Qed.

Lemma consensusLayers_in_place : draws_in_place consensusLayers.
Proof. intros ctx. unfold consensusLayers. figure_pages. Qed.

Lemma validatorEconomics_in_place : draws_in_place validatorEconomics.
Proof. intros ctx. unfold validatorEconomics. figure_pages. Qed.

Lemma feeModel_in_place : draws_in_place feeModel.
Proof. intros ctx. unfold feeModel. figure_pages. Qed.

Lemma roleSeparation_in_place : draws_in_place roleSeparation.
Proof. intros ctx. unfold roleSeparation. figure_pages. Qed.

Lemma permissionlessRoadmap_in_place : draws_in_place permissionlessRoadmap.
Proof. intros ctx. unfold permissionlessRoadmap. figure_pages. Qed.

(** *** The parts of the document *)

Lemma steps_addPage {X} b b' (k : W A X) :
  steps_pages 0 false k b' -> steps_pages 1 b (emit AddPage ;; next_page ;; k)%pdf b'.
Proof.
  intros Hk s [H1 [H2 H3]] _.
  destruct (Hk (Pen (AddPage :: ops s) (cursorY s) (pageNum s + 1))) as (R1 & R2 & R3); [|done|].
  - split; cbn [pageNum ops pages]; [lia|]. split; cbn [footers footer_here app pages]; [|done].
    eapply Forall_impl; [|exact H2]. intros f [? ?]. split; [done|lia].
  - split_and!; [exact R1| |exact R3]. unfold bare_pages in R2. cbn [ops pages footers footer_here app] in R2.
    unfold bare_pages at 2. etransitivity; [exact R2|lia].
Qed.

Lemma newPage_steps b : steps_pages 1 b newPage false.
Proof.
  intros s Hs Hb. destruct (steps_addPage b false (set_cursor marginTop) (steps_cursor _ _) s Hs Hb)
    as (R1 & R2 & R3).
  by split_and!.
Qed.

(** What a footer adds. *)
Lemma addPageFooter_effect n s :
  footers (ops (snd (addPageFooter n s))) = (dec_str n, pages (ops s)) :: footers (ops s) /\
  pages (ops (snd (addPageFooter n s))) = pages (ops s) /\
  pageNum (snd (addPageFooter n s)) = pageNum s.
Proof. by cbn. Qed.

Lemma ensureSpace_steps needed b : steps_pages 0 b (ensureSpace needed) b.
Proof.
  intros s Hs Hb. unfold ensureSpace, wbind, get_cursor.
  destruct (nltb _ _); [|cbn; split_and!; [done|lia|done]].
  cbn [get_page]. destruct (addPageFooter_effect (pageNum s) s) as (Hf & Hp & Hn).
  destruct (addPageFooter (pageNum s) s) as [u s1]. cbn [snd] in *.
  destruct Hs as [H1 [H2 H3]]. unfold newPage. cbn. split_and!; [| |done].
  - split; cbn [pageNum ops pages]; [lia|].
    split; cbn [footers footer_here app pages]; rewrite Hf, ?Hp.
    + constructor; [cbn [fst snd]; split; [by rewrite H1|lia]|].
      eapply Forall_impl; [|exact H2]. intros f [? ?]. split; [done|lia].
    + constructor; [done|]. eapply Forall_impl; [|exact H2]. by intros f [_ ?].
  - unfold bare_pages. cbn [pages footers footer_here app]. rewrite Hf, Hp. cbn [length]. lia.
Qed.

Lemma advance_steps d b : steps_pages 0 b (advance d) b.
Proof. unfold advance. repeat page_step. Qed.

Ltac part_step :=
  match goal with
  | |- steps_pages _ _ (ensureSpace _) _ => apply ensureSpace_steps
  | |- steps_pages _ _ (advance _) _ => apply advance_steps
  | |- _ => page_step
  end.

Lemma setup_steps fonts : steps_pages 0 false (setup (A:=A) fonts) false.
Proof. unfold setup. repeat part_step. Qed.

Lemma cover_steps wp : steps_pages 0 true (cover wp) false.
Proof. unfold cover, centered, setFont, text. repeat part_step. Qed.

Lemma toc_entries_steps i y ss : steps_pages 0 false (toc_entries i y ss) false.
Proof.
  revert i y. induction ss as [|sec ss IH]; intros i y; cbn [toc_entries]; [apply steps_wret|].
  unfold setFont, text. repeat part_step. apply IH.
Qed.

Lemma toc_steps ss b : steps_pages 1 b (toc ss) false.
Proof.
  unfold toc. apply steps_addPage. unfold setFont, text. repeat part_step. apply toc_entries_steps.
Qed.

(** Every block of a section, with figures that draw in place. *)
Definition block_in_place (b : Block A) : Prop :=
  match b with Fig f => draws_in_place f | Paragraph _ => True end.

Lemma draw_figure_steps f : draws_in_place f -> steps_pages 0 false (draw_figure f) false.
Proof.
  intros Hf. unfold draw_figure, setFont. part_step; [part_step|]. part_step; [part_step|].
  part_step; [apply steps_any, Hf|]. repeat part_step.
Qed.

Lemma draw_paragraph_steps p : steps_pages 0 false (draw_paragraph p) false.
Proof. unfold draw_paragraph, draw_line, setFont, text. cbv zeta. repeat part_step. Qed.

Lemma draw_subheading_steps n k t : steps_pages 0 false (draw_subheading n k t) false.
Proof. unfold draw_subheading, setFont, text. cbv zeta. repeat part_step. Qed.

Lemma draw_body_steps n k bs :
  Forall block_in_place bs -> steps_pages 0 false (draw_body n k bs) false.
Proof.
  intros Hbs. revert k. induction Hbs as [|b bs Hb _ IH]; intros k; cbn [draw_body]; [apply steps_wret|].
  destruct b as [p|f].
  - destruct (String.eqb p ""); [part_step; [part_step|apply IH]|].
    destruct (mdHeadingMatch p); (part_step; [|apply IH]);
      [apply draw_subheading_steps|apply draw_paragraph_steps].
  - part_step; [by apply draw_figure_steps|apply IH].
Qed.

Lemma draw_heading_steps n sec : steps_pages 0 false (draw_heading n sec) false.
Proof. unfold draw_heading, setFont, text. cbv zeta. repeat part_step. Qed.

Definition section_in_place (sec : WhitepaperSection A) : Prop := Forall block_in_place (body sec).

Lemma draw_section_steps i sec :
  section_in_place sec -> steps_pages (if Nat.eqb i 0 then 0 else 1) false (draw_section i sec) false.
Proof.
  intros Hs. unfold draw_section. cbv zeta.
  rewrite <-(Z.add_0_r (if Nat.eqb i 0 then 0 else 1)). eapply (steps_bind _ 0).
  - destruct (Nat.eqb i 0); [apply steps_wret|apply newPage_steps].
  - intros _. part_step; [apply draw_heading_steps|]. part_step; [by apply draw_body_steps|]. part_step.
Qed.

Lemma sections_steps k ss :
  Forall section_in_place ss -> (0 < k)%nat ->
  steps_pages (Z.of_nat (length ss)) false
    (wfor (zip (seq k (length ss)) ss) (fun '(idx, s) => draw_section idx s)) false.
Proof.
  intros Hss. revert k. induction Hss as [|sec ss Hs _ IH]; intros k Hk; cbn [length seq zip_with wfor];
    [apply steps_wret|].
  replace (Z.of_nat (S (length ss))) with ((if Nat.eqb k 0 then 0 else 1) + Z.of_nat (length ss))
    by (destruct (Nat.eqb_spec k 0); lia).
  eapply steps_bind; [by apply draw_section_steps|]. intros _. apply IH. lia.
Qed.

Lemma all_sections_steps ss :
  Forall section_in_place ss -> ss <> [] ->
  steps_pages (Z.of_nat (length ss) - 1) false
    (wfor (zip (seq 0 (length ss)) ss) (fun '(idx, s) => draw_section idx s)) false.
Proof.
  intros Hss Hne. destruct Hss as [|sec ss Hs Hss]; [done|]. cbn [length seq zip_with wfor].
  replace (Z.of_nat (S (length ss)) - 1) with (0 + Z.of_nat (length ss)) by lia.
  eapply steps_bind; [by apply (draw_section_steps 0)|]. intros _. apply sections_steps; [done|lia].
Qed.

Lemma empty_pen_sound : sound (A:=A) empty_pen.
Proof. split; [done|]. split; constructor. Qed.

(** All but the last footer. *)
Lemma before_last_footer fonts wp :
  Forall section_in_place (wp_sections wp) -> wp_sections wp <> [] ->
  steps_pages (Z.of_nat (length (wp_sections wp)) + 1) false
    (setup fonts ;; cover wp ;; toc (wp_sections wp) ;; newPage ;;
     wfor (zip (seq 0 (length (wp_sections wp))) (wp_sections wp)) (fun '(idx, s) => draw_section idx s))%pdf
    false.
Proof.
  intros Hss Hne.
  replace (Z.of_nat (length (wp_sections wp)) + 1)
    with (0 + (0 + (1 + (1 + (Z.of_nat (length (wp_sections wp)) - 1))))) by lia.
  eapply steps_bind; [apply setup_steps|]. intros _.
  eapply steps_bind; [apply steps_any, cover_steps|]. intros _.
  eapply steps_bind; [apply toc_steps|]. intros _.
  eapply steps_bind; [apply newPage_steps|]. intros _. by apply all_sections_steps.
Qed.

Lemma wbind_assoc {X Y Z} (c : W A X) (f : X -> W A Y) (g : Y -> W A Z) s :
  wbind (wbind c f) g s = wbind c (fun x => wbind (f x) g) s.
Proof. unfold wbind. by destruct (c s). Qed.

Lemma document_pages fonts wp :
  Forall section_in_place (wp_sections wp) -> wp_sections wp <> [] ->
  let d := document fonts wp in
  Forall (fun f => fst f = dec_str (snd f)) (footers d) /\
  StronglySorted (fun f g => snd g < snd f) (footers d) /\
  head (footers d) = Some (dec_str (pages d), pages d) /\
  pages d = Z.of_nat (length (footers d)) + Z.of_nat (length (wp_sections wp)) + 1.
Proof.
  intros Hss Hne d.
  pose proof (before_last_footer fonts wp Hss Hne empty_pen empty_pen_sound (fun _ => eq_refl)) as Hb.
  set (c := (setup fonts;; _)%pdf) in Hb.
  assert (Hd : d = ops (snd (wbind c (fun _ => n <- get_page ;; addPageFooter n)%pdf empty_pen))).
  { unfold d, document, write_document, c. f_equal. unfold wbind. by repeat case_match. }
  unfold wbind in Hd. destruct (c empty_pen) as [u s]. cbn [snd get_page] in *.
  destruct Hb as ([H1 [H2 H3]] & Hbare & _). unfold bare_pages in Hbare. cbn in Hbare.
  destruct (addPageFooter_effect (pageNum s) s) as (Hf & Hp & _). rewrite <-Hd in Hf, Hp.
  rewrite Hf, Hp, H1. split_and!.
  - constructor; [done|]. eapply Forall_impl; [|exact H2]. by intros f [? _].
  - constructor; [done|]. eapply Forall_impl; [|exact H2]. by intros f [_ ?].
  - done.
  - cbn [length]. lia.
Qed.
End pages.

(** ** The typeface of a paragraph *)

Section typeface.
Context {A : Type} `{NU : Num A} `{JP : JsPdf A}.

(** The font, size and colour the next text is drawn with. *)
Fixpoint current_font (ops : list (op A)) : option string :=
  match ops with
  | [] => None
  | SetFont _ style :: _ => Some style
  | _ :: before => current_font before
  end.

Fixpoint current_size (ops : list (op A)) : option A :=
  match ops with
  | [] => None
  | SetFontSize size :: _ => Some size
  | _ :: before => current_size before
  end.

Fixpoint current_color (ops : list (op A)) : option color :=
  match ops with
  | [] => None
  | SetTextColor c :: _ => Some c
  | _ :: before => current_color before
  end.

Definition typeface (ops : list (op A)) : option string * option A * option color :=
  (current_font ops, current_size ops, current_color ops).

Definition lines_of (o : op A) : list (list string) := match o with Text l _ _ => [l] | _ => [] end.

Lemma draw_lines_written indent lines s :
  exists written, ops (snd (wfor lines (draw_line indent) s)) = written ++ ops s /\
    forallb is_text written = true /\ flat_map lines_of written = rev (map (fun l => [l]) lines).
Proof.
  revert s. induction lines as [|l lines IH]; intros s; [by exists []|].
  cbn [wfor]. unfold wbind.
  destruct (draw_line indent l s) as [u s1] eqn:E. unfold draw_line in E. cbn in E. injection E as <- <-.
  destruct (IH (Pen (Text [l] (nadd marginLeft indent) (cursorY s) :: ops s)
    (nadd (cursorY s) BODY_LINE_HEIGHT) (pageNum s))) as (w & Hw & Ht & Hl).
  exists (w ++ [Text [l] (nadd marginLeft indent) (cursorY s)]). cbn [ops] in Hw. rewrite <-app_assoc.
  split_and!; [exact Hw| |].
  - rewrite forallb_app. by rewrite Ht.
  - rewrite flat_map_app, Hl. done.
Qed.

Lemma ensureSpace_ops needed s :
  exists h, ops (snd (ensureSpace needed s)) = h /\
    typeface h = if nltb (nsub pageHeight marginBottom) (nadd (cursorY s) needed)
                 then (Some "italic", Some FOOTER_SIZE, Some C_medGray) else typeface (ops s).
Proof.
  eexists. split; [done|]. unfold ensureSpace, wbind, get_cursor.
  by destruct (nltb _ _).
Qed.
End typeface.

(** ** Positions, in exact arithmetic

    [placed P c s R]: from [s], [c] makes only calls that satisfy [P] and ends
    in [R]. *)

Section positions.
Local Existing Instance exact_num.
Context `{JP : JsPdf Q}.
Context (P : op Q -> Prop).

Definition placed {X} (c : W Q X) (s : pen Q) (R : X -> pen Q -> Prop) : Prop :=
  Forall P (ops s) -> Forall P (ops (snd (c s))) /\ R (fst (c s)) (snd (c s)).

Lemma placed_ret {X} (x : X) s (R : X -> pen Q -> Prop) : R x s -> placed (wret x) s R.
Proof. by intros HR Hs. Qed.

Lemma placed_bind {X Y} (c : W Q X) (f : X -> W Q Y) s R :
  placed c s (fun x s' => placed (f x) s' R) -> placed (wbind c f) s R.
Proof.
  intros Hc Hs. destruct (Hc Hs) as [H1 H2]. unfold wbind. destruct (c s) as [x s']. by apply H2.
Qed.

Lemma placed_mono {X} (c : W Q X) s (R R' : X -> pen Q -> Prop) :
  placed c s R -> (forall x s', R x s' -> R' x s') -> placed c s R'.
Proof. intros Hc HR Hs. destruct (Hc Hs). auto. Qed.

Lemma placed_emit o s (R : unit -> pen Q -> Prop) :
  P o -> (forall os, R tt (Pen os (cursorY s) (pageNum s))) -> placed (emit o) s R.
Proof. intros Ho HR Hs. split; [by constructor|apply HR]. Qed.

Lemma placed_ctext t cx ty s (R : unit -> pen Q -> Prop) :
  (forall x, P (Text [t] x ty)) -> (forall os, R tt (Pen os (cursorY s) (pageNum s))) ->
  placed (ctext t cx ty) s R.
Proof. intros Ho HR Hs. split; [by constructor|apply HR]. Qed.

Lemma placed_read {X} (g : pen Q -> X) s (R : X -> pen Q -> Prop) :
  R (g s) s -> placed (fun s => (g s, s)) s R.
Proof. by intros HR Hs. Qed.

Lemma placed_cursor y s (R : unit -> pen Q -> Prop) :
  (forall os, R tt (Pen os y (pageNum s))) -> placed (set_cursor y) s R.
Proof. intros HR Hs. split; [done|apply HR]. Qed.

Lemma placed_page s (R : unit -> pen Q -> Prop) :
  (forall os, R tt (Pen os (cursorY s) (pageNum s + 1))) -> placed next_page s R.
Proof. intros HR Hs. split; [done|apply HR]. Qed.

Lemma placed_for {X} (xs : list X) (body : X -> W Q unit) s (I : list X -> pen Q -> Prop) :
  I xs s ->
  (forall x xs' s', I (x :: xs') s' -> placed (body x) s' (fun _ s'' => I xs' s'')) ->
  placed (wfor xs body) s (fun _ s' => I [] s').
Proof.
  revert s. induction xs as [|x xs IH]; intros s Hy Hb; cbn [wfor]; [by apply placed_ret|].
  apply placed_bind. eapply placed_mono; [by apply Hb|]. intros u s' Hs'. by apply IH.
Qed.
End positions.

(** How far down a page of 792 points a text may start: between the margins or
    on the footer's line. Where it starts across the page is left open. *)
Definition y_ok (y : Q) : Prop := ((60 <= y /\ y <= 732) \/ y == 760)%Q.
Definition text_ok (o : op Q) : Prop := match o with Text _ _ y => y_ok y | _ => True end.

(** Everything is drawn between two heights. *)
Definition between (top bottom : Q) (o : op Q) : Prop :=
  (match o with
   | Line _ y1 _ y2 => top <= y1 <= bottom /\ top <= y2 <= bottom
   | Rect _ y _ h _ => top <= y /\ y + h <= bottom
   | RoundedRect _ y _ h _ _ _ => top <= y /\ y + h <= bottom
   | Triangle _ y1 _ y2 _ y3 _ => top <= y1 <= bottom /\ top <= y2 <= bottom /\ top <= y3 <= bottom
   | Text _ _ y => top <= y <= bottom
   | _ => True
   end)%Q.

Ltac exact_simpl :=
  cbn [nadd nsub nmul ndiv lit exact_num]; cbn [Qinv Qnum Qden];
  try change (Z.of_nat 0) with 0%Z; try change (Z.of_nat 1) with 1%Z; try change (Z.of_nat 2) with 2%Z.

Ltac op_tac :=
  try intros ?; cbn [text_ok between]; unfold y_ok; exact_simpl;
  first [exact I | split_and!; lra | left; split; lra | right; lra].

Ltac place_step :=
  match goal with
  | |- placed _ (wbind _ _) _ _ => apply placed_bind
  | |- placed _ (wret _) _ _ => apply placed_ret
  | |- placed _ (emit _) _ _ => apply placed_emit; [op_tac|intros ?]
  | |- placed _ (ctext _ _ _) _ _ => apply placed_ctext; [op_tac|intros ?]
  | |- placed _ (measure _) _ _ => apply placed_read
  | |- placed _ (split_text _ _) _ _ => apply placed_read
  | |- placed _ get_cursor _ _ => apply placed_read
  | |- placed _ get_page _ _ => apply placed_read
  | |- placed _ (set_cursor _) _ _ => apply placed_cursor; intros ?
  | |- placed _ next_page _ _ => apply placed_page; intros ?
  | |- placed _ (if ?b then _ else _) _ _ => destruct b
  | |- placed _ (wfor _ _) _ _ => progress cbn [wfor zip_with seq length Nat.sub]
  end; cbv beta iota zeta; cbn [cursorY pageNum].

Section figures_fit.
Local Existing Instance exact_num.
Context `{JP : JsPdf Q}.
Local Open Scope Q_scope.

(** A figure draws between its top and [extent] points below. *)
Definition extends_to (f : Figure Q) (extent : Q) : Prop :=
  forall x w y s, cursorY s = y ->
    placed (between y (y + extent)) (draw f (Ctx x y w)) s (fun _ s' => cursorY s' = y).

(** A figure keeps its texts between the margins when it fits on the page. *)
Definition fits (f : Figure Q) : Prop :=
  60 <= height f + 16 <= 672 /\
  forall x w y s, 60 <= y -> y + height f + 16 <= 732 -> cursorY s = y ->
    placed text_ok (draw f (Ctx x y w)) s (fun _ s' => cursorY s' = y).

Ltac figure_steps :=
  cbn [draw ctx_x ctx_y ctx_width]; cbv zeta; unfold fl, dr, tx; repeat place_step; assumption.

Ltac fits_tac :=
  split; [cbn [height]; exact_simpl; split; lra|];
  intros x w y s H1 H2 Hc; cbn [height] in H2; revert H2; exact_simpl; intros H2; figure_steps.

Ltac extent_tac := intros x w y s Hc; cbn [height]; figure_steps.

Lemma architectureDiagram_fits : fits architectureDiagram.
Proof. unfold architectureDiagram. fits_tac. Qed.

Lemma bmmFlow_fits : fits bmmFlow.
Proof. unfold bmmFlow. fits_tac. Qed.

Lemma gasFlow_fits : fits gasFlow.
Proof. unfold gasFlow. fits_tac. Qed.

Lemma icmBridge_fits : fits icmBridge.
Proof. unfold icmBridge. fits_tac. Qed.

Lemma consensusLayers_fits : fits consensusLayers.
Proof. unfold consensusLayers. fits_tac. Qed.

Lemma validatorEconomics_fits : fits validatorEconomics.
Proof. unfold validatorEconomics. fits_tac. Qed.

Lemma feeModel_fits : fits feeModel.
Proof. unfold feeModel. fits_tac. Qed.

Lemma roleSeparation_fits : fits roleSeparation.
Proof. unfold roleSeparation. fits_tac. Qed.

Lemma permissionlessRoadmap_fits : fits permissionlessRoadmap.
Proof. unfold permissionlessRoadmap. fits_tac. Qed.

Lemma architectureDiagram_extent : extends_to architectureDiagram (height architectureDiagram).
Proof. unfold architectureDiagram. extent_tac. Qed.

Lemma bmmFlow_extent : extends_to bmmFlow (height bmmFlow).
Proof. unfold bmmFlow. extent_tac. Qed.

Lemma gasFlow_extent : extends_to gasFlow (height gasFlow).
Proof. unfold gasFlow. extent_tac. Qed.

Lemma icmBridge_extent : extends_to icmBridge (height icmBridge).
Proof. unfold icmBridge. extent_tac. Qed.

Lemma consensusLayers_extent : extends_to consensusLayers (height consensusLayers).
Proof. unfold consensusLayers. extent_tac. Qed.

Lemma validatorEconomics_extent : extends_to validatorEconomics (height validatorEconomics).
Proof. unfold validatorEconomics. extent_tac. Qed.

Lemma feeModel_extent : extends_to feeModel 278.
Proof. unfold feeModel. extent_tac. Qed.

Lemma roleSeparation_extent : extends_to roleSeparation (height roleSeparation).
Proof. unfold roleSeparation. extent_tac. Qed.

Lemma permissionlessRoadmap_extent : extends_to permissionlessRoadmap (height permissionlessRoadmap).
Proof. unfold permissionlessRoadmap. extent_tac. Qed.

End figures_fit.
