(* ===== verification/WhitepaperProps.v ===== *)
(** * The whitepaper: properties

    Page numbers and footers, the typeface of paragraphs, the positions of the
    text, the table of contents, and the responses of the endpoint. *)

From Stdlib Require Import ZArith QArith Qround Lia Lqa Ascii String List Bool SpecFloat Sorted.
From stdpp Require Import base list strings numbers.
From S2P Require Import Prelude Effects Json Pdf PdfFigures PdfContent Whitepaper WhitepaperLayout.
Local Open Scope Z_scope.
#[local] Existing Instance exact_num.

(** *** The text of the whole document *)

Section emitted.
Local Existing Instance exact_num.
Context `{JP : JsPdf Q}.

(** As [placed_emit], with the call kept. *)
Lemma placed_emitted (P : op Q -> Prop) o s (R : unit -> pen Q -> Prop) :
  P o -> R tt (Pen (o :: ops s) (cursorY s) (pageNum s)) -> placed P (emit o) s R.
Proof. intros Ho HR Hs. split; [by constructor|exact HR]. Qed.
End emitted.

Section document_fits.
Local Existing Instance exact_num.
Context `{JP : JsPdf Q}.
Local Open Scope Q_scope.

(** A "letter" page is 792 points high. *)
Hypothesis Hheight : getHeight == 792.

(** The most lines of a paragraph that fit on a page. *)
Definition max_lines : nat := 43.

(** A paragraph's lines, in the body's typeface and at the width it is given. *)
Definition paragraph_fits (p : string) : Prop :=
  forall h, typeface h = (Some "normal", Some BODY_SIZE, Some C_black) ->
    (length (splitTextToSize h p (nsub contentWidth (if starts_with BULLET p then lit 15 1 else lit 0 1))) <= max_lines)%nat.

Definition block_fits (b : Block Q) : Prop :=
  match b with
  | Fig f => fits f
  | Paragraph p => paragraph_fits p
  end.

Ltac layout_unfold :=
  unfold pageHeight, marginTop, marginBottom, BODY_LINE_HEIGHT, HEADING_LINE_HEIGHT, BODY_SIZE, HEADING_SIZE in *;
  cbn [nadd nsub nmul ndiv lit exact_num] in *; cbn [Qinv Qnum Qden] in *.

Ltac layout_tac := try intros ?; cbn [text_ok]; unfold y_ok; layout_unfold;
  first [exact I | left; split; lra | right; lra].

Ltac layout_step :=
  match goal with
  | |- placed _ (emit _) _ _ => apply placed_emit; [layout_tac|intros ?]
  | _ => place_step
  end; cbv beta iota zeta; cbn [cursorY pageNum].

Lemma addPageFooter_placed n s (R : unit -> pen Q -> Prop) :
  (forall os, R tt (Pen os (cursorY s) (pageNum s))) -> placed text_ok (addPageFooter n) s R.
Proof. intros HR. unfold addPageFooter, setFont, text. repeat layout_step. apply HR. Qed.

Lemma newPage_placed s (R : unit -> pen Q -> Prop) :
  (forall os n, R tt (Pen os marginTop n)) -> placed text_ok newPage s R.
Proof. intros HR. unfold newPage. repeat layout_step. apply HR. Qed.

Lemma ensureSpace_placed needed s (R : unit -> pen Q -> Prop) :
  60 <= cursorY s ->
  (forall os y n, 60 <= y -> y + needed <= 732 \/ y = marginTop -> R tt (Pen os y n)) ->
  placed text_ok (ensureSpace needed) s R.
Proof.
  intros Hc HR. unfold ensureSpace. apply placed_bind, placed_read.
  destruct (nltb _ _) eqn:E.
  - apply placed_bind, placed_read, placed_bind, addPageFooter_placed. intros os.
    apply newPage_placed. intros os' n. apply HR; [|by right]. layout_unfold. lra.
  - apply placed_ret. destruct s as [os y n]. apply HR; [exact Hc|left].
    cbn [nltb exact_num] in E. apply negb_false_iff, Qle_bool_iff in E. cbn [cursorY] in E. layout_unfold. lra.
Qed.

Lemma advance_placed d s (R : unit -> pen Q -> Prop) :
  (forall os, R tt (Pen os (cursorY s + d) (pageNum s))) -> placed text_ok (advance d) s R.
Proof. intros HR. unfold advance. repeat layout_step. apply HR. Qed.

Ltac writer_step :=
  match goal with
  | |- placed _ (ensureSpace _) _ _ => apply ensureSpace_placed; [cbn [cursorY]; assumption|intros ? ? ? ? ?]
  | |- placed _ (advance _) _ _ => apply advance_placed; intros ?
  | _ => layout_step
  end; cbv beta iota zeta; cbn [cursorY pageNum].

Definition nat_Q (k : nat) : Q := Qmake (Z.of_nat k) 1.

Lemma Q_of_S k : nat_Q (S k) == nat_Q k + 1.
Proof. unfold nat_Q, Qeq. cbn [Qnum Qden Qplus]. lia. Qed.

Lemma Q_of_nat_nonneg k : 0 <= nat_Q k.
Proof. unfold nat_Q, Qle. cbn [Qnum Qden]. lia. Qed.

Lemma draw_paragraph_placed p s :
  paragraph_fits p -> 60 <= cursorY s ->
  placed text_ok (draw_paragraph p) s (fun _ s' => 60 <= cursorY s').
Proof.
  intros Hlines Hc. unfold draw_paragraph, setFont. cbv zeta.
  do 3 (apply placed_bind, placed_emitted; [exact I|]). apply placed_bind, placed_read. cbn [ops cursorY pageNum].
  set (lines := splitTextToSize _ _ _).
  assert (Hn : nat_Q (length lines) <= 43).
  { unfold lines, nat_Q, Qle. cbn [Qnum Qden].
    match goal with |- context [splitTextToSize ?h p ?w] => pose proof (Hlines h eq_refl) as Hl end.
    unfold max_lines in Hl. lia. }
  apply placed_bind, ensureSpace_placed; [exact Hc|]. intros os' y n Hy Hfit.
  apply placed_bind. eapply placed_mono.
  - apply placed_for with (I := fun rest s' => 60 <= cursorY s' /\
      cursorY s' + nat_Q (length rest) * 16 <= 748).
    + cbn [cursorY]. split; [exact Hy|]. change (lit (Z.of_nat (length lines)) 1) with (nat_Q (length lines)) in Hfit.
      destruct Hfit as [Hfit| ->]; layout_unfold; lra.
    + intros l rest s' [H1 H2]. cbn [length] in H2. rewrite Q_of_S in H2.
      pose proof (Q_of_nat_nonneg (length rest)) as H3.
      unfold draw_line, text. apply placed_bind, placed_read. apply placed_bind, placed_emit.
      * cbn [text_ok]. left. split; lra.
      * intros os2. apply advance_placed. intros os3. cbn [cursorY]. layout_unfold. split; lra.
  - intros u s' [H1 _]. apply advance_placed. intros os2. cbn [cursorY]. layout_unfold. lra.
Qed.

Lemma draw_figure_placed f s :
  fits f -> 60 <= cursorY s -> placed text_ok (draw_figure f) s (fun _ s' => 60 <= cursorY s').
Proof.
  intros [Hh Hf] Hc. unfold draw_figure, setFont.
  apply placed_bind, ensureSpace_placed; [exact Hc|]. intros os y n Hy Hfit.
  apply placed_bind, placed_read, placed_bind. cbn [cursorY].
  assert (Hbottom : y + height f + 16 <= 732) by (destruct Hfit as [Hfit| ->]; layout_unfold; lra).
  eapply placed_mono; [by apply Hf|]. intros u s' Hs'. cbv beta in Hs'.
  apply placed_bind, advance_placed. intros os1. rewrite Hs'.
  destruct (str_truthy (caption f)); [|apply placed_ret; cbn [cursorY]; layout_unfold; lra].
  do 3 (apply placed_bind, placed_emit; [exact I|intros ?]). apply placed_bind, placed_read.
  apply placed_bind, placed_read. cbn [cursorY].
  apply placed_bind, placed_emit; [cbn [text_ok]; layout_unfold; left; split; lra|]. intros os5.
  apply advance_placed. intros os6. cbn [cursorY].
  match goal with |- context [lit (Z.of_nat ?n) 1] =>
    change (lit (Z.of_nat n) 1) with (nat_Q n); pose proof (Q_of_nat_nonneg n) end.
  layout_unfold. lra.
Qed.

Lemma draw_subheading_placed n k t s :
  60 <= cursorY s -> placed text_ok (draw_subheading n k t) s (fun _ s' => 60 <= cursorY s').
Proof.
  intros Hc. unfold draw_subheading, setFont, text. cbv zeta.
  apply placed_bind, ensureSpace_placed; [exact Hc|]. intros os y n' Hy Hfit.
  assert (y <= 732) by (destruct Hfit as [Hfit| ->]; layout_unfold; lra).
  repeat writer_step. layout_unfold. lra.
Qed.

Lemma draw_heading_placed n sec s :
  60 <= cursorY s -> placed text_ok (draw_heading n sec) s (fun _ s' => 60 <= cursorY s').
Proof.
  intros Hc. unfold draw_heading, setFont, text. cbv zeta.
  apply placed_bind, ensureSpace_placed; [exact Hc|]. intros os y n' Hy Hfit.
  assert (y <= 732) by (destruct Hfit as [Hfit| ->]; layout_unfold; lra).
  repeat writer_step. layout_unfold. lra.
Qed.

Lemma draw_body_placed n k bs s :
  Forall block_fits bs -> 60 <= cursorY s ->
  placed text_ok (draw_body n k bs) s (fun _ s' => 60 <= cursorY s').
Proof.
  intros Hbs. revert k s. induction Hbs as [|b bs Hb _ IH]; intros k s Hc; cbn [draw_body];
    [by apply placed_ret|].
  assert (Hthen : forall (c : W Q unit) k', placed text_ok c s (fun _ s' => 60 <= cursorY s') ->
    placed text_ok (c ;; draw_body n k' bs)%pdf s (fun _ s' => 60 <= cursorY s')).
  { intros c k' Hcd. apply placed_bind. eapply placed_mono; [exact Hcd|]. intros u s' Hs'. by apply IH. }
  destruct b as [p|f]; [|by apply Hthen, draw_figure_placed].
  destruct (String.eqb p ""); [|destruct (mdHeadingMatch p)]; apply Hthen.
  - apply advance_placed. intros os. cbn [cursorY]. layout_unfold. lra.
  - by apply draw_subheading_placed.
  - by apply draw_paragraph_placed.
Qed.

Lemma draw_section_placed i sec s :
  Forall block_fits (body sec) -> 60 <= cursorY s ->
  placed text_ok (draw_section i sec) s (fun _ s' => 60 <= cursorY s').
Proof.
  intros Hbs Hc. unfold draw_section. cbv zeta. apply placed_bind.
  assert (Hrest : forall s', 60 <= cursorY s' -> placed text_ok
    (draw_heading (Z.of_nat i + 1) sec ;; draw_body (Z.of_nat i + 1) 0 (body sec) ;;
     advance (HEADING_LINE_HEIGHT * lit 5 10))%pdf s' (fun _ s'' => 60 <= cursorY s'')).
  { intros s' Hs'. apply placed_bind. eapply placed_mono; [by apply draw_heading_placed|]. intros u1 s1 H1.
    apply placed_bind. eapply placed_mono; [by apply draw_body_placed|]. intros u2 s2 H2. cbv beta in H2.
    apply advance_placed. intros os. cbn [cursorY]. layout_unfold. lra. }
  destruct (Nat.eqb i 0).
  - apply placed_ret. by apply Hrest.
  - apply newPage_placed. intros os n. apply Hrest. cbn [cursorY]. layout_unfold. lra.
Qed.

Lemma toc_entries_placed i y ss s (R : unit -> pen Q -> Prop) :
  60 <= y -> (forall os, R tt (Pen os (cursorY s) (pageNum s))) ->
  placed text_ok (toc_entries i y ss) s R.
Proof.
  intros Hy HR. revert i y s Hy HR. induction ss as [|sec ss IH]; intros i y s Hy HR; cbn [toc_entries].
  - apply placed_ret. destruct s. apply HR.
  - destruct (nltb _ _) eqn:E; [apply placed_ret; destruct s; apply HR|].
    cbn [nltb exact_num] in E. apply negb_false_iff, Qle_bool_iff in E. unfold setFont, text.
    cbv zeta. do 3 (apply placed_bind, placed_emit; [exact I|intros ?]).
    apply placed_bind, placed_emit; [cbn [text_ok]; left; layout_unfold; split; lra|]. intros os2.
    apply IH; [layout_unfold; lra|]. intros os3. apply HR.
Qed.

Lemma cover_placed wp s (R : unit -> pen Q -> Prop) :
  (forall os, R tt (Pen os (cursorY s) (pageNum s))) -> placed text_ok (cover wp) s R.
Proof. intros HR. unfold cover, centered, setFont, text. repeat layout_step. apply HR. Qed.

Lemma toc_placed ss s (R : unit -> pen Q -> Prop) :
  (forall os n, R tt (Pen os (cursorY s) n)) -> placed text_ok (toc ss) s R.
Proof.
  intros HR. unfold toc, setFont, text. repeat layout_step.
  apply toc_entries_placed; [layout_unfold; lra|]. intros ?. apply HR.
Qed.

Lemma setup_placed fonts s (R : unit -> pen Q -> Prop) :
  (forall os, R tt (Pen os (cursorY s) (pageNum s))) -> placed text_ok (setup fonts) s R.
Proof.
  intros HR. unfold setup.
  assert (Hloop : forall (body : string * string * string -> W Q unit) s' (R' : unit -> pen Q -> Prop),
    (forall x s1 (R1 : unit -> pen Q -> Prop),
      (forall os, R1 tt (Pen os (cursorY s1) (pageNum s1))) -> placed text_ok (body x) s1 R1) ->
    (forall os, R' tt (Pen os (cursorY s') (pageNum s'))) ->
    placed text_ok (wfor fonts body) s' R').
  { intros body s' R' Hb HR'. eapply placed_mono;
      [apply placed_for with (I := fun _ s'' => cursorY s'' = cursorY s' /\ pageNum s'' = pageNum s')|].
    - done.
    - intros x xs s1 [H1 H2]. by apply Hb.
    - intros [] [os y n] [H1 H2]. cbn [cursorY pageNum] in *. rewrite H1, H2. apply HR'. }
  apply placed_bind, Hloop.
  { intros [[file style] b64] s1 R1 H1. by apply placed_emit. }
  intros os. apply placed_bind, Hloop.
  { intros [[file style] b64] s1 R1 H1. by apply placed_emit. }
  intros os'. apply placed_emit; [exact I|]. intros os''. apply HR.
Qed.

Lemma document_placed fonts wp :
  Forall (fun sec => Forall block_fits (body sec)) (wp_sections wp) ->
  Forall text_ok (document fonts wp).
Proof.
  intros Hbs. unfold document.
  assert (Hp : placed text_ok (write_document fonts wp) empty_pen (fun _ _ => True)).
  { unfold write_document.
    apply placed_bind, setup_placed. intros os1. apply placed_bind, cover_placed. intros os2.
    apply placed_bind, toc_placed. intros os3 n3. apply placed_bind, newPage_placed. intros os4 n4.
    apply placed_bind. eapply placed_mono.
    - apply placed_for with (I := fun rest s' => 60 <= cursorY s' /\
        Forall (fun '(_, sec) => Forall block_fits (body sec)) rest).
      + split; [cbn [cursorY]; layout_unfold; lra|].
        clear -Hbs. generalize 0%nat. induction Hbs as [|sec ss Hs _ IH]; intros k; [constructor|].
        constructor; [done|apply IH].
      + intros [i sec] rest s' [H1 H2]. inversion H2 as [|? ? H3 H4]; subst.
        eapply placed_mono; [by apply draw_section_placed|]. by intros u s'' H5.
    - intros u s' [H1 _]. apply placed_bind, placed_read. by apply addPageFooter_placed. }
  destruct Hp as [H _]; [constructor|exact H].
Qed.
End document_fits.

(** ** The shipped whitepaper *)

Section shipped.
Context {A : Type} `{NU : Num A} `{JP : JsPdf A}.

Ltac each_block :=
  repeat first [apply List.Forall_nil | apply List.Forall_cons]; cbn [block_in_place]; try exact I.

Lemma whitepaper_in_place : Forall section_in_place (wp_sections (A:=A) WHITEPAPER).
Proof.
  unfold WHITEPAPER, sections. cbn [wp_sections].
  repeat first [apply List.Forall_nil | apply List.Forall_cons]; unfold section_in_place,
    section_tl_dr,
    section_introduction,
    section_architecture_overview,
    section_blind_merged_mining,
    section_ecx_as_native_gas,
    section_usdc_bridge_via_interchain_messaging,
    section_noderunr_validator_management,
    section_consensus_security_model,
    section_validator_economics,
    section_comparison_with_alternatives,
    section_risks_mitigations,
    section_roadmap,
    section_conclusion,
    section_references,
    section_legal_disclaimer; cbn [body]; each_block.
  all: match goal with
    | |- draws_in_place architectureDiagram => exact architectureDiagram_in_place
    | |- draws_in_place bmmFlow => exact bmmFlow_in_place
    | |- draws_in_place gasFlow => exact gasFlow_in_place
    | |- draws_in_place icmBridge => exact icmBridge_in_place
    | |- draws_in_place consensusLayers => exact consensusLayers_in_place
    | |- draws_in_place validatorEconomics => exact validatorEconomics_in_place
    | |- draws_in_place feeModel => exact feeModel_in_place
    | |- draws_in_place roleSeparation => exact roleSeparation_in_place
    | |- draws_in_place permissionlessRoadmap => exact permissionlessRoadmap_in_place
    end.
Qed.

(** The title a section is printed with. *)
Definition section_title (i : nat) (sec : WhitepaperSection A) : string :=
  dec_str (Z.of_nat i + 1) +:+ ". " +:+ stripNumberPrefix (heading sec).

Lemma draw_heading_title i sec s :
  exists y before, ops (snd (draw_heading (Z.of_nat i + 1) sec s)) =
    Text [section_title i sec] marginLeft y :: before.
Proof.
  unfold draw_heading, section_title. cbv zeta. unfold wbind at 1.
  destruct (ensureSpace _ s) as [u s1]. cbn. by eexists _, _.
Qed.

(** The table of contents measures nothing: what it writes does not depend on
    what was written before. *)
Lemma toc_entries_written i y ss s :
  ops (snd (toc_entries i y ss s)) = ops (snd (toc_entries i y ss empty_pen)) ++ ops s.
Proof.
  assert (H : forall s', exists w, ops (snd (toc_entries i y ss s')) = w ++ ops s' /\
    forall s'', ops (snd (toc_entries i y ss s'')) = w ++ ops s'').
  { revert i y. induction ss as [|sec ss IH]; intros i y s'; cbn [toc_entries]; [by exists []|].
    destruct (nltb _ _); [by exists []|].
    destruct (IH (S i) (nadd y (nmul BODY_LINE_HEIGHT (lit 14 10))) s') as (w & _ & Hw).
    eexists (w ++ [_; _; _; _]).
    assert (Hall : forall s'', ops (snd (toc_entries (S i) (nadd y (nmul BODY_LINE_HEIGHT (lit 14 10))) ss s'')) = w ++ ops s'')
      by exact Hw.
    split; [|intros s'']; unfold wbind; cbn [setFont text emit ops cursorY pageNum];
      rewrite Hall; cbn [ops]; by rewrite <-app_assoc. }
  destruct (H empty_pen) as (w & Hw & Hall). rewrite Hall, Hw. cbn [ops empty_pen]. by rewrite app_nil_r.
Qed.

Lemma toc_written ss s : ops (snd (toc ss s)) = ops (snd (toc ss empty_pen)) ++ ops s.
Proof.
  unfold toc, wbind. cbn [setFont text emit next_page ops cursorY pageNum empty_pen].
  rewrite toc_entries_written. cbn [ops]. symmetry. rewrite toc_entries_written. cbn [ops].
  by rewrite <-app_assoc.
Qed.

(** The fonts as [generateWhitepaper] embeds them. *)
Definition font_path (f : string * string) : string := "src/fonts/" +:+ fst f.

Definition embedded (b64s : list string) : list (string * string * string) := zip FONTS b64s.

Definition failure (e : thrown) : response :=
  Response 500 [("Content-Type", "application/json")]
    (JsonBody (JObj [("error", JStr (match e with ErrorObject m => m
                                     | OtherValue => "Unknown error generating PDF" end))])).

Lemma readFonts_fails readFileSync files before f after e :
  files = before ++ f :: after -> Forall (fun g => exists b, readFileSync (font_path g) = inl b) before ->
  readFileSync (font_path f) = inr e -> readFonts readFileSync files = inr e.
Proof.
  intros -> Hb He. induction Hb as [|g before [b Hg] _ IH]; cbn [app readFonts].
  - destruct f as [file style]. unfold font_path in He. cbn [fst] in He. by rewrite He.
  - destruct g as [file style]. unfold font_path in Hg. cbn [fst] in Hg. by rewrite Hg, IH.
Qed.

Lemma readFonts_reads readFileSync files b64s :
  Forall2 (fun f b => readFileSync (font_path f) = inl b) files b64s ->
  readFonts readFileSync files = inl (zip files b64s).
Proof.
  induction 1 as [|[file style] b files b64s Hb _ IH]; [done|]. cbn [readFonts].
  unfold font_path in Hb. cbn [fst] in Hb. by rewrite Hb, IH.
Qed.
End shipped.

(** The paragraphs of a document. *)
Definition paragraphs {A} (wp : Whitepaper A) : list string :=
  flat_map (fun sec => flat_map (fun b => match b with Paragraph p => [p] | Fig _ => [] end) (body sec))
    (wp_sections wp).

Section shipped_fits.
Local Existing Instance exact_num.
Context `{JP : JsPdf Q}.

Definition figures_fit (bs : list (Block Q)) : Prop :=
  Forall (fun b => match b with Fig f => fits f | Paragraph _ => True end) bs.

Lemma whitepaper_figures_fit :
  Forall (fun sec => figures_fit (body sec)) (wp_sections (A:=Q) WHITEPAPER).
Proof.
  unfold WHITEPAPER, sections. cbn [wp_sections].
  repeat first [apply List.Forall_nil | apply List.Forall_cons]; unfold figures_fit,
    section_tl_dr,
    section_introduction,
    section_architecture_overview,
    section_blind_merged_mining,
    section_ecx_as_native_gas,
    section_usdc_bridge_via_interchain_messaging,
    section_noderunr_validator_management,
    section_consensus_security_model,
    section_validator_economics,
    section_comparison_with_alternatives,
    section_risks_mitigations,
    section_roadmap,
    section_conclusion,
    section_references,
    section_legal_disclaimer; cbn [body].
  all: repeat first [apply List.Forall_nil | apply List.Forall_cons]; try exact I.
  all: match goal with
    | |- fits architectureDiagram => exact architectureDiagram_fits
    | |- fits bmmFlow => exact bmmFlow_fits
    | |- fits gasFlow => exact gasFlow_fits
    | |- fits icmBridge => exact icmBridge_fits
    | |- fits consensusLayers => exact consensusLayers_fits
    | |- fits validatorEconomics => exact validatorEconomics_fits
    | |- fits feeModel => exact feeModel_fits
    | |- fits roleSeparation => exact roleSeparation_fits
    | |- fits permissionlessRoadmap => exact permissionlessRoadmap_fits
    end.
Qed.

Lemma whitepaper_blocks_fit :
  (forall p, In p (paragraphs (A:=Q) WHITEPAPER) -> paragraph_fits p) ->
  Forall (fun sec => Forall block_fits (body sec)) (wp_sections (A:=Q) WHITEPAPER).
Proof.
  intros Hp. pose proof whitepaper_figures_fit as Hf. rewrite list.Forall_forall in Hf |- *.
  intros sec Hsec. specialize (Hf sec Hsec). unfold figures_fit in Hf.
  rewrite list.Forall_forall in Hf |- *. intros b Hb. specialize (Hf b Hb).
  destruct b as [p|f]; [|exact Hf]. apply Hp. unfold paragraphs.
  apply in_flat_map. exists sec. split; [by apply list_elem_of_In|].
  apply in_flat_map. exists (Paragraph p). split; [by apply list_elem_of_In|by left].
Qed.

(** *** How long a paragraph gets

    What jsPDF documents of [splitTextToSize], for a text without line breaks:
    a line ends where the next word would not fit after a space, and the lines
    hold no more than the text; and of the body's font: no character is wider
    than its size for each of its bytes. *)
Record greedy_splitting : Prop := {
  gs_full h t w before l1 l2 after :
    includes (String "010" "") t = false -> splitTextToSize h t w = before ++ l1 :: l2 :: after ->
    (w < getTextWidth h (l1 +:+ " " +:+ l2))%Q;
  gs_within h t w :
    includes (String "010" "") t = false ->
    (list_sum (map String.length (splitTextToSize h t w)) <= String.length t)%nat;
  gs_glyphs h t :
    typeface h = (Some "normal", Some BODY_SIZE, Some C_black) ->
    (getTextWidth h t <= 10 * inject_Z (Z.of_nat (String.length t)))%Q
}.

(** Two neighbours have [k] bytes, so half the lines have [k] each. *)
Lemma neighbours_long k (ls : list string) :
  (forall before l1 l2 after, ls = before ++ l1 :: l2 :: after -> (k <= String.length l1 + String.length l2)%nat) ->
  (k * (length ls / 2) <= list_sum (map String.length ls))%nat.
Proof.
  induction ls as [ls IH] using (induction_ltof1 _ (@length string)). unfold ltof in IH. intros Hk.
  destruct ls as [|l1 [|l2 ls]]; [cbn; lia|cbn; lia|].
  specialize (IH ls). cbn [length] in IH. specialize (IH ltac:(lia)).
  assert (H12 : (k <= String.length l1 + String.length l2)%nat) by exact (Hk [] l1 l2 ls eq_refl).
  assert (Hrest : (k * (length ls / 2) <= list_sum (map String.length ls))%nat).
  { apply IH. intros before a b after ->. by apply (Hk (l1 :: l2 :: before) a b after). }
  cbn [length map list_sum fold_right]. change (S (S (length ls))) with (2 + length ls)%nat.
  replace (2 + length ls)%nat with (length ls + 1 * 2)%nat by lia. rewrite Nat.div_add by lia.
  unfold list_sum in *. lia.
Qed.

Lemma paragraph_fits_of p :
  greedy_splitting -> (getWidth == 612)%Q -> includes (String "010" "") p = false ->
  (String.length p <= 1000)%nat -> paragraph_fits p.
Proof.
  intros G Hw Hnl Hlen h Hface. set (w := nsub contentWidth _).
  assert (Hw477 : (477 <= w)%Q).
  { unfold w, contentWidth, pageWidth, marginLeft, marginRight. cbn [nsub lit exact_num].
    destruct (starts_with BULLET p); lra. }
  set (ls := splitTextToSize h p w).
  assert (H : (47 * (length ls / 2) <= list_sum (map String.length ls))%nat).
  { apply neighbours_long. intros before l1 l2 after E.
    pose proof (gs_full G h p w before l1 l2 after Hnl E) as Hf.
    pose proof (gs_glyphs G h (l1 +:+ " " +:+ l2) Hface) as Hg.
    rewrite !app_length_str in Hg. cbn [String.length] in Hg.
    set (n := (String.length l1 + (1 + String.length l2))%nat) in *.
    assert (Hq : (477 < 10 * inject_Z (Z.of_nat n))%Q) by lra.
    unfold Qlt, inject_Z in Hq. cbn [Qnum Qden Qmult] in Hq. subst n. lia. }
  pose proof (gs_within G h p w Hnl) as Hs. fold ls in Hs.
  assert (length ls / 2 <= 21)%nat by lia. unfold max_lines.
  pose proof (Nat.div_mod (length ls) 2 ltac:(lia)). pose proof (Nat.mod_upper_bound (length ls) 2 ltac:(lia)). lia.
Qed.

Lemma whitepaper_paragraphs_short :
  forallb (fun p => negb (includes (String "010" "") p) && (String.length p <=? 1000)%nat)
    (paragraphs (A:=Q) WHITEPAPER) = true.
Proof. vm_compute. reflexivity. Qed.
End shipped_fits.

(** *** Concrete metrics: every character half as wide as its size is not
    needed here; lines of ninety bytes are *)

Fixpoint chunks (fuel n : nat) (s : string) : list string :=
  match fuel with
  | O => []
  | S fuel' => if str_truthy s then take_str n s :: chunks fuel' n (drop_str n s) else []
  end.

Definition toy_jspdf {A} `{Num A} : JsPdf A := {|
  getWidth := lit 612 1;
  getHeight := lit 792 1;
  getTextWidth _ t := lit (5 * Z.of_nat (String.length t)) 1;
  splitTextToSize _ t _ := chunks (String.length t) 90 t;
  output _ := inl "%PDF"
|}.

Definition toy_whitepaper : Whitepaper spec_float := @WHITEPAPER spec_float _ toy_jspdf.

(** ** Properties *)

(** C39. Every footer carries the number of its page, and sixteen pages have
    none. In the shipped whitepaper, whatever the text metrics and the
    arithmetic, each footer's number is that of the page it is on, no page has
    two, and the last page has one; but the cover, the table of contents and
    the last page of each of the fourteen sections before the last have none,
    so there are exactly sixteen more pages than footers. *)
Theorem footers_number_their_pages {A : Type} `{NU : Num A} `{JP : JsPdf A} fonts :
  let d := document fonts (WHITEPAPER (A:=A)) in
  Forall (fun f => fst f = dec_str (snd f)) (footers d) /\
  StronglySorted (fun f g => snd g < snd f) (footers d) /\
  head (footers d) = Some (dec_str (pages d), pages d) /\
  pages d = Z.of_nat (length (footers d)) + 16.
Proof.
  intros d. destruct (document_pages fonts WHITEPAPER whitepaper_in_place) as (H1 & H2 & H3 & H4);
    [done|]. split_and!; [exact H1|exact H2|exact H3|]. unfold d. rewrite H4.
  change (length (wp_sections WHITEPAPER)) with 15%nat. lia.
Qed.

(** A paragraph that starts a page is set in the footer's type. The font,
    size and colour of a paragraph are chosen before the space for it is
    ensured; when that ends the page, the footer's italic, 8 points and grey
    are what all its lines are drawn with, otherwise the regular, 10 points and
    black of the body. *)
Theorem paragraph_typeface {A : Type} `{NU : Num A} `{JP : JsPdf A} p s :
  let indent := if starts_with BULLET p then lit 15 1 else lit 0 1 in
  let h := SetTextColor C_black :: SetFontSize BODY_SIZE :: SetFont "NotoSans" "normal" :: ops s in
  let lines := splitTextToSize h p (nsub contentWidth indent) in
  let needed := nadd (nmul (lit (Z.of_nat (length lines)) 1) BODY_LINE_HEIGHT) BODY_LINE_HEIGHT in
  exists written before, ops (snd (draw_paragraph p s)) = written ++ before /\
    forallb is_text written = true /\ flat_map lines_of written = rev (map (fun l => [l]) lines) /\
    typeface before =
      if nltb (nsub pageHeight marginBottom) (nadd (cursorY s) needed)
      then (Some "italic", Some FOOTER_SIZE, Some C_medGray)
      else (Some "normal", Some BODY_SIZE, Some C_black).
Proof.
  intros indent h lines needed.
  destruct (ensureSpace_ops needed (Pen h (cursorY s) (pageNum s))) as (h' & Hops & Hface).
  destruct (draw_lines_written indent lines (snd (ensureSpace needed (Pen h (cursorY s) (pageNum s)))))
    as (w & Hw & Ht & Hl).
  exists w, h'. split_and!; [|exact Ht|exact Hl|exact Hface]. rewrite <-Hops.
  etransitivity; [|exact Hw]. unfold draw_paragraph. cbv zeta.
  change (if starts_with BULLET p then (#15)%num else (#0)%num) with indent.
  unfold wbind at 1 2 3 4. cbn [emit setFont split_text ops cursorY pageNum].
  change (SetTextColor C_black :: _) with h. fold lines. fold needed.
  unfold wbind. destruct (ensureSpace needed _) as [u s1]. cbn [snd].
  by destruct (wfor lines (draw_line indent) s1) as [u2 s2].
Qed.

(** C40. The text stays on the page. In exact arithmetic, on a page of 612 by
    792 points, when jsPDF splits paragraphs greedily and no character of the
    body's font is wider than its size, every text of the shipped whitepaper
    starts, vertically, between the margins, 60 and 732 points from the top,
    or on the line of the footer. *)
Theorem text_stays_on_the_page `{JP : JsPdf Q} fonts :
  (getWidth == 612)%Q -> (getHeight == 792)%Q -> greedy_splitting ->
  Forall text_ok (document fonts WHITEPAPER).
Proof.
  intros Hw Hh G. apply (document_placed Hh). apply whitepaper_blocks_fit. intros p Hp.
  pose proof whitepaper_paragraphs_short as Hs. rewrite forallb_forall in Hs.
  apply Hs in Hp as [Hnl Hlen]%andb_prop. apply paragraph_fits_of; [done..|by apply negb_true_iff|by apply Nat.leb_le].
Qed.

(** A jsPDF that fills lines of as many characters, each half as wide as the
    body's size, as the width holds. *)
Definition filling_jspdf : JsPdf Q := {|
  getWidth := 612%Q;
  getHeight := 792%Q;
  getTextWidth _ t := (5 * inject_Z (Z.of_nat (String.length t)))%Q;
  splitTextToSize _ t w := chunks (String.length t) (Z.to_nat (Qfloor (w / 5)%Q)) t;
  output _ := inl "%PDF"
|}.

Lemma chunks_full fuel n t before l1 l2 after :
  chunks fuel n t = before ++ l1 :: l2 :: after -> String.length l1 = n.
Proof.
  revert t before. induction fuel as [|fuel IH]; intros t before; [by destruct before|]. cbn [chunks].
  destruct (str_truthy t); [|by destruct before]. destruct before as [|b before]; [|intros [= _ H]; by apply IH in H].
  intros [= <- H]. destruct fuel as [|fuel]; [done|]. cbn [chunks] in H.
  destruct (str_truthy (drop_str n t)) eqn:E; [|done]. clear -E.
  revert t E. induction n as [|n IHn]; intros [|c t] E; try done. cbn [take_str String.length]. f_equal. by apply IHn.
Qed.

Lemma chunks_within fuel n t : (list_sum (map String.length (chunks fuel n t)) <= String.length t)%nat.
Proof.
  revert t. induction fuel as [|fuel IH]; intros t; [cbn; lia|]. cbn [chunks].
  destruct (str_truthy t); [|cbn; lia]. cbn [map list_sum fold_right]. specialize (IH (drop_str n t)).
  unfold list_sum in *. rewrite <-(take_drop_str n t) at 3. rewrite app_length_str. lia.
Qed.

Lemma filling_greedy : @greedy_splitting filling_jspdf.
Proof.
  split; cbn [getTextWidth splitTextToSize filling_jspdf].
  - intros h t w before l1 l2 after _ H. apply chunks_full in H. rewrite !app_length_str, H. cbn [String.length].
    pose proof (Qlt_floor (w / 5)%Q) as Hf. set (n := Z.to_nat (Qfloor (w / 5)%Q)).
    assert (Hn : (w / 5 < inject_Z (Z.of_nat (n + (1 + String.length l2))))%Q).
    { eapply Qlt_le_trans; [exact Hf|]. rewrite <-Zle_Qle. unfold n. lia. }
    fold n. unfold Qdiv in Hn. change (/ 5)%Q with (Qmake 1 5) in Hn. lra.
  - intros h t w _. apply chunks_within.
  - intros h t _. assert (0 <= inject_Z (Z.of_nat (String.length t)))%Q by (unfold Qle, inject_Z; cbn; lia). lra.
Qed.

Lemma text_stays_on_the_page_witness :
  Forall text_ok (@document Q exact_num filling_jspdf [] (@WHITEPAPER Q exact_num filling_jspdf)).
Proof.
  apply (@text_stays_on_the_page filling_jspdf []); [reflexivity|reflexivity|apply filling_greedy].
Defined.

(** The figures keep the height they reserve, but one. In exact arithmetic
    eight figures draw within their height, whatever the text metrics; the fee
    model draws to 278 points below its top and reserves 260. *)
Theorem figures_keep_their_height `{JP : JsPdf Q} :
  Forall (fun f => extends_to f (height f))
    [architectureDiagram; bmmFlow; gasFlow; icmBridge; consensusLayers; validatorEconomics;
     roleSeparation; permissionlessRoadmap] /\
  extends_to feeModel 278 /\ height feeModel = 260%Q.
Proof.
  split; [|split; [apply feeModel_extent|reflexivity]].
  repeat first [apply List.Forall_nil | apply List.Forall_cons].
  - apply architectureDiagram_extent.
  - apply bmmFlow_extent.
  - apply gasFlow_extent.
  - apply icmBridge_extent.
  - apply consensusLayers_extent.
  - apply validatorEconomics_extent.
  - apply roleSeparation_extent.
  - apply permissionlessRoadmap_extent.
Qed.

(** The table of contents lists every section under the title it is
    printed with. On a page of 792 points, in double arithmetic, all fifteen
    entries fit, in order, and each is the text of its section's heading. *)
Theorem toc_lists_every_section `{JP : JsPdf spec_float} s :
  getHeight = lit 792 1 ->
  (exists written, ops (snd (toc (wp_sections (A:=spec_float) WHITEPAPER) s)) = written ++ ops s /\
    flat_map lines_of (rev written) = ["Table of Contents"] ::
      map (fun e => [section_title (fst e) (snd e)])
        (zip (seq 0 15) (wp_sections (A:=spec_float) WHITEPAPER))) /\
  forall i sec s', exists y before, ops (snd (draw_heading (Z.of_nat i + 1) sec s')) =
    Text [section_title i sec] marginLeft y :: before.
Proof.
  intros Hh. split; [|apply draw_heading_title].
  eexists. split; [apply toc_written|].
  destruct JP as [w h tw sp out]. cbn in Hh. subst h. vm_compute. reflexivity.
Qed.

Lemma toc_lists_every_section_witness :
  flat_map lines_of (rev (ops (snd (@toc spec_float _ toy_jspdf (wp_sections toy_whitepaper) (Pen [] (lit 60 1) 1))))) =
    ["Table of Contents"] ::
    map (fun e => [section_title (fst e) (snd e)]) (zip (seq 0 15) (wp_sections toy_whitepaper)).
Proof.
  destruct (@toc_lists_every_section (@toy_jspdf spec_float double_num) (Pen [] (lit 60 1) 1)) as [(w & Hw & Ht) _];
    [vm_compute; reflexivity|].
  cbn [ops] in Hw. rewrite app_nil_r in Hw. unfold toy_whitepaper. rewrite Hw. exact Ht.
Defined.

(** The shipped whitepaper with these metrics: the number of its pages and of
    its footers, in double arithmetic. *)
Example toy_whitepaper_pages :
  let d := @document spec_float _ toy_jspdf [] toy_whitepaper in
  (pages d, length (footers d)) = (35, 19%nat).
Proof. vm_compute. reflexivity. Qed.

(** The endpoint answers. When the three fonts can be read and the document
    is produced, the response is 200 with its bytes; when a font cannot be read,
    or jsPDF throws, the response is 500 with the message of what was thrown
    first, as JSON. *)
Theorem endpoint_answers {A : Type} `{NU : Num A} `{JP : JsPdf A} readFileSync :
  (forall before f after e, FONTS = before ++ f :: after ->
     Forall (fun g => exists b, readFileSync (font_path g) = inl b) before ->
     readFileSync (font_path f) = inr e -> GET readFileSync = failure e) /\
  (forall b64s, Forall2 (fun f b => readFileSync (font_path f) = inl b) FONTS b64s ->
     match output (document (embedded b64s) WHITEPAPER) with
     | inl b => rs_status (GET readFileSync) = 200 /\ rs_body (GET readFileSync) = Bytes b /\
         rec_get (rs_headers (GET readFileSync)) "Content-Type" = Some "application/pdf"
     | inr e => GET readFileSync = failure e
     end).
Proof.
  split.
  - intros before f after e Hf Hb He. unfold GET, generateWhitepaper.
    by rewrite (readFonts_fails _ _ _ _ _ _ Hf Hb He).
  - intros b64s Hb. unfold GET, generateWhitepaper. rewrite (readFonts_reads _ _ _ Hb).
    unfold embedded. by destruct (output _).
Qed.
